(** * Trading Journal: a shallow embedding of the journal's revisions

    The repository holds successive revisions of one browser application
    (a class [TradingJournal], later a set of top-level functions):

    - [Enhanced] : the "merge-ready" revision with portfolio history
                   (first file of part_000);
    - [V20]      : app.js, "Version 2.0 - Full Rewrite";
    - [V23]      : "v2.3 - FINAL PRODUCTION VERSION" (second file of part_000);
    - [V24]      : "v2.4 - WITH VIEW DETAILS" (part_001), which adds the CSV export;
    - [V30]      : "Trading Journal v3.0" (second file of part_002), written as
                   top-level functions over the globals [allTrades] and
                   [portfolioSettings];
    - [Original] : the revision without portfolio (third file of part_000).

    Conventions of the embedding.

    - A JavaScript number that the program stores (a price, a fee, a balance)
      is a [num]: an exact rational or [NaN].  Rounding of binary64, overflow
      and the literal Infinity are outside the model.  The result of a
      division is an [xnum], which adds the two infinities that dividing by
      zero produces.  A sum is stated as the code takes it, from zero and
      in the order of the list.  [Binary64] has the arithmetic of the
      engine, for what rounding decides (an addition undone by a
      subtraction).
    - A string is a [string] of 8-bit characters; case conversion and white
      space are those of ASCII.
    - A JavaScript object used as a record with dynamic keys (a trade built
      from CSV headers, a form) is a [gmap string value]; reading an absent
      key gives [VUndef].
    - The IndexedDB object store is an explicit [store]; a handler takes the
      answers of the environment (the confirm dialog, whether a database
      request succeeds, the clock) as arguments and returns the next state.
      DOM rendering, charts and logging are not modelled. *)

From Stdlib Require Import Ascii String QArith Qabs Qround Qminmax Lia.
From Stdlib Require SpecFloat.
From stdpp Require Import gmap strings pretty list fin_maps sorting.

Local Open Scope Z_scope.

(** ** Numbers *)

Inductive num : Type :=
  | NaN
  | Fin (q : Q).

Inductive xnum : Type :=
  | XNaN
  | XPosInf
  | XNegInf
  | XFin (q : Q).

Definition nZ (z : Z) : num := Fin (inject_Z z).
Definition nnat (n : nat) : num := Fin (inject_Z (Z.of_nat n)).

Definition nadd (a b : num) : num :=
  match a, b with
  | Fin p, Fin q => Fin (p + q)
  | _, _ => NaN
  end.

Definition nsub (a b : num) : num :=
  match a, b with
  | Fin p, Fin q => Fin (p - q)
  | _, _ => NaN
  end.

Definition nmul (a b : num) : num :=
  match a, b with
  | Fin p, Fin q => Fin (p * q)
  | _, _ => NaN
  end.

(** [Math.abs]. *)
Definition nabs (a : num) : num :=
  match a with
  | Fin p => Fin (Qabs p)
  | NaN => NaN
  end.

(** Comparisons: every comparison with [NaN] is false. *)
Definition Qltb (p q : Q) : bool := negb (Qle_bool q p).

Definition nge (a b : num) : bool :=
  match a, b with
  | Fin p, Fin q => Qle_bool q p
  | _, _ => false
  end.

Definition ngt (a b : num) : bool :=
  match a, b with
  | Fin p, Fin q => Qltb q p
  | _, _ => false
  end.

Definition nlt (a b : num) : bool := ngt b a.

(** [a !== b] on numbers. *)
Definition nneq (a b : num) : bool :=
  match a, b with
  | Fin p, Fin q => negb (Qeq_bool p q)
  | _, _ => true
  end.

(** ToBoolean of a number: [NaN] and zero are falsy. *)
Definition num_truthy (a : num) : bool :=
  match a with
  | Fin p => negb (Qeq_bool p 0)
  | NaN => false
  end.

(** [a || d] where both are numbers. *)
Definition nor (a d : num) : num := if num_truthy a then a else d.

(** [Math.max] and [Math.min] of two stored numbers. *)
Definition nmax (a b : num) : num :=
  match a, b with
  | Fin p, Fin q => if Qle_bool p q then Fin q else Fin p
  | _, _ => NaN
  end.

Definition nmin (a b : num) : num :=
  match a, b with
  | Fin p, Fin q => if Qle_bool p q then Fin p else Fin q
  | _, _ => NaN
  end.

(** The same value (numerically equal rationals, or both [NaN]). *)
Definition num_eq (a b : num) : Prop :=
  match a, b with
  | Fin p, Fin q => (p == q)%Q
  | NaN, NaN => True
  | _, _ => False
  end.

Definition xn (a : num) : xnum :=
  match a with
  | Fin p => XFin p
  | NaN => XNaN
  end.

(** [a / b]: dividing by zero gives an infinity, or [NaN] for 0/0. *)
Definition ndiv (a b : num) : xnum :=
  match a, b with
  | Fin p, Fin q =>
      if Qeq_bool q 0 then
        (if Qeq_bool p 0 then XNaN
         else if Qle_bool 0 p then XPosInf else XNegInf)
      else XFin (p / q)
  | _, _ => XNaN
  end.

Definition xmul (a b : xnum) : xnum :=
  match a, b with
  | XNaN, _ | _, XNaN => XNaN
  | XFin p, XFin q => XFin (p * q)
  | XFin p, XPosInf | XPosInf, XFin p =>
      if Qeq_bool p 0 then XNaN else if Qle_bool 0 p then XPosInf else XNegInf
  | XFin p, XNegInf | XNegInf, XFin p =>
      if Qeq_bool p 0 then XNaN else if Qle_bool 0 p then XNegInf else XPosInf
  | XPosInf, XPosInf | XNegInf, XNegInf => XPosInf
  | XPosInf, XNegInf | XNegInf, XPosInf => XNegInf
  end.

(** [Math.max] of two numbers: [NaN] if either is. *)
Definition xmax (a b : xnum) : xnum :=
  match a, b with
  | XNaN, _ | _, XNaN => XNaN
  | XPosInf, _ | _, XPosInf => XPosInf
  | XNegInf, c | c, XNegInf => c
  | XFin p, XFin q => if Qle_bool p q then XFin q else XFin p
  end.

(** [Math.abs] of a quotient. *)
Definition xabs (a : xnum) : xnum :=
  match a with
  | XFin p => XFin (Qabs p)
  | XNaN => XNaN
  | _ => XPosInf
  end.

Definition xfinite (a : xnum) : bool :=
  match a with
  | XFin _ => true
  | _ => false
  end.

Definition xnum_eq (a b : xnum) : Prop :=
  match a, b with
  | XFin p, XFin q => (p == q)%Q
  | XNaN, XNaN | XPosInf, XPosInf | XNegInf, XNegInf => True
  | _, _ => False
  end.

(** ** Numbers as the engine computes them

    A JavaScript Number is an IEEE 754 binary64 value, and [+], [-] and
    [/] give the Number nearest to the exact result.  [Binary64] has
    these operations, taken from the standard library's specification of
    floating-point arithmetic with a precision of 53 bits. *)
Module Binary64.

Definition f64 : Type := SpecFloat.spec_float.

Definition prec : Z := 53.
Definition emax : Z := 1024.

Definition add : f64 -> f64 -> f64 := SpecFloat.SFadd prec emax.
Definition sub : f64 -> f64 -> f64 := SpecFloat.SFsub prec emax.
Definition div : f64 -> f64 -> f64 := SpecFloat.SFdiv prec emax.

(** The Number of an integer literal. *)
Definition of_Z (z : Z) : f64 :=
  SpecFloat.binary_normalize prec emax z 0 false.

(** The Number of the decimal literal with the digits of [m] and [k]
    digits after the point, for [m] and [10^k] below 2^53: both are
    Numbers then, and the Number nearest to their quotient is the one the
    literal denotes. *)
Definition decimal (m : Z) (k : nat) : f64 :=
  div (of_Z m) (of_Z (10 ^ Z.of_nat k)).

(** [x || 0]: [NaN] and the two zeros are falsy. *)
Definition or_0 (x : f64) : f64 :=
  match x with
  | SpecFloat.S754_nan | SpecFloat.S754_zero _ => SpecFloat.S754_zero false
  | _ => x
  end.

End Binary64.

(** ** Strings *)

Local Open Scope string_scope.
Local Open Scope list_scope.

Definition is_space : ascii -> bool := Ascii.is_space.

Fixpoint trimStart (s : string) : string :=
  match s with
  | String c r => if is_space c then trimStart r else s
  | EmptyString => EmptyString
  end.

Definition trimEnd (s : string) : string :=
  String.rev (trimStart (String.rev s)).

(** [s.trim()]. *)
Definition trim (s : string) : string := trimEnd (trimStart s).

Definition upper_ascii (c : ascii) : ascii :=
  let n := N_of_ascii c in
  if ((97 <=? n) && (n <=? 122))%N then ascii_of_N (n - 32) else c.

Definition lower_ascii (c : ascii) : ascii :=
  let n := N_of_ascii c in
  if ((65 <=? n) && (n <=? 90))%N then ascii_of_N (n + 32) else c.

Fixpoint string_map (f : ascii -> ascii) (s : string) : string :=
  match s with
  | String c r => String (f c) (string_map f r)
  | EmptyString => EmptyString
  end.

Definition toUpperCase : string -> string := string_map upper_ascii.
Definition toLowerCase : string -> string := string_map lower_ascii.

(** [s.split(sep)] for a one-character separator: never the empty list. *)
Fixpoint split_go (sep : ascii) (cur : string) (s : string) : list string :=
  match s with
  | EmptyString => [String.rev cur]
  | String c r =>
      if Ascii.eqb c sep then String.rev cur :: split_go sep EmptyString r
      else split_go sep (String c cur) r
  end.

Definition split (sep : ascii) (s : string) : list string :=
  split_go sep EmptyString s.

(** [l.join(sep)] on strings. *)
Definition join (sep : string) (l : list string) : string :=
  String.concat sep l.

(** [s.replace(/\s+/g, '_')]: every maximal run of white space becomes one
    underscore. *)
Fixpoint ws_runs_to_underscore (in_run : bool) (s : string) : string :=
  match s with
  | EmptyString => EmptyString
  | String c r =>
      if is_space c then
        (if in_run then ws_runs_to_underscore true r
         else String "_" (ws_runs_to_underscore true r))
      else String c (ws_runs_to_underscore false r)
  end.

(** The double quote character. *)
Definition dquote : ascii := "034"%char.

(** [replace] with the pattern of one double quote, global, and the empty
    replacement: every double quote is removed. *)
Fixpoint remove_quotes (s : string) : string :=
  match s with
  | EmptyString => EmptyString
  | String c r =>
      if Ascii.eqb c dquote then remove_quotes r else String c (remove_quotes r)
  end.

(** [replace] of every double quote by two of them. *)
Fixpoint double_quotes (s : string) : string :=
  match s with
  | EmptyString => EmptyString
  | String c r =>
      if Ascii.eqb c dquote then String dquote (String dquote (double_quotes r))
      else String c (double_quotes r)
  end.

Fixpoint includes_char (c : ascii) (s : string) : bool :=
  match s with
  | EmptyString => false
  | String d r => Ascii.eqb d c || includes_char c r
  end.

(** ** Reading and writing numbers *)

(** The longest prefix of decimal digits: its value, its length, the rest. *)
Fixpoint take_digits (acc : Z) (n : nat) (s : string) : Z * nat * string :=
  match s with
  | String c r =>
      match Ascii.is_nat c with
      | Some d => take_digits (acc * 10 + Z.of_nat d) (S n) r
      | None => (acc, n, s)
      end
  | EmptyString => (acc, n, s)
  end.

Definition take_sign (s : string) : bool * string :=
  match s with
  | String "-" r => (true, r)
  | String "+" r => (false, r)
  | _ => (false, s)
  end.

(** The exponent part [e[+-]digits] of a decimal literal and what follows
    it; exponent 0 and the text itself if there is none. *)
Definition take_exponent (s : string) : Z * string :=
  match s with
  | String c r =>
      if Ascii.eqb c "e" || Ascii.eqb c "E" then
        let '(neg, r') := take_sign r in
        let '(v, n, rest) := take_digits 0 0 r' in
        if (n =? 0)%nat then (0, s) else (if neg then - v else v, rest)
      else (0, s)
  | EmptyString => (0, s)
  end.

(** The longest prefix of [s] that is a signed decimal literal, with the
    text after it; [None] when [s] does not start with one. *)
Definition parse_decimal (s : string) : option (Q * string) :=
  let '(neg, s0) := take_sign s in
  let '(ip, ni, s1) := take_digits 0 0 s0 in
  let '(fp, nf, s2) :=
    match s1 with
    | String "." r => take_digits 0 0 r
    | _ => (0, 0%nat, s1)
    end in
  if (ni + nf =? 0)%nat then None
  else
    let m := ip * 10 ^ Z.of_nat nf + fp in
    let m := if neg then - m else m in
    let '(e, rest) := take_exponent s2 in
    let ex := e - Z.of_nat nf in
    Some (if (0 <=? ex)%Z then inject_Z (m * 10 ^ ex)
          else Qmake m (Z.to_pos (10 ^ (- ex))), rest).

(** [parseFloat] of a string: leading white space is skipped, the longest
    prefix that is a decimal literal is read, and the result is [NaN] when
    there is none. *)
Definition parseFloat_str (s : string) : num :=
  match parse_decimal (trimStart s) with
  | Some (q, _) => Fin q
  | None => NaN
  end.

Definition hex_digit (c : ascii) : option Z :=
  let n := Z.of_N (N_of_ascii c) in
  if ((48 <=? n) && (n <=? 57))%Z then Some (n - 48)
  else if ((97 <=? n) && (n <=? 102))%Z then Some (n - 87)
  else if ((65 <=? n) && (n <=? 70))%Z then Some (n - 55)
  else None.

Fixpoint take_hex (acc : Z) (n : nat) (s : string) : Z * nat :=
  match s with
  | String c r =>
      match hex_digit c with
      | Some d => take_hex (acc * 16 + d) (S n) r
      | None => (acc, n)
      end
  | EmptyString => (acc, n)
  end.

(** [parseInt] of a string with no radix argument. *)
Definition parseInt_str (s : string) : num :=
  let '(neg, s0) := take_sign (trimStart s) in
  let '(v, n) :=
    match s0 with
    | String "0" (String x r) =>
        if Ascii.eqb x "x" || Ascii.eqb x "X" then take_hex 0 0 r
        else let '(v, n, _) := take_digits 0 0 s0 in (v, n)
    | _ => let '(v, n, _) := take_digits 0 0 s0 in (v, n)
    end in
  if (n =? 0)%nat then NaN else Fin (inject_Z (if neg then - v else v)).

(** Truncation toward zero. *)
Definition Qtrunc (q : Q) : Z := Z.quot (Qnum q) (Zpos (Qden q)).

Definition digit_char (d : Z) : ascii := ascii_of_N (48 + Z.to_N d).

(** The digits after the decimal point of [r / d], for [0 <= r < d]. *)
Fixpoint frac_digits (fuel : nat) (r d : Z) : string :=
  match fuel with
  | O => EmptyString
  | S fuel' =>
      if (r =? 0)%Z then EmptyString
      else String (digit_char (r * 10 / d)) (frac_digits fuel' (r * 10 mod d) d)
  end.

(** ToString of a number in plain decimal notation (numbers that JavaScript
    would print with an exponent, and fractions of more than 20 digits, are
    outside the model). *)
Definition num_to_string (a : num) : string :=
  match a with
  | NaN => "NaN"
  | Fin q =>
      let n := Qnum q in
      let d := Zpos (Qden q) in
      let ip := Z.abs n / d in
      let fr := frac_digits 20 (Z.abs n mod d) d in
      (if (n <? 0)%Z then "-" else "") +:+ pretty (Z.to_N ip) +:+
      (match fr with EmptyString => "" | _ => "." +:+ fr end)
  end.

(** ** Values and objects *)

Global Instance Q_eq_dec : EqDecision Q.
Proof. solve_decision. Defined.

Global Instance num_eq_dec : EqDecision num.
Proof. solve_decision. Defined.

Inductive value : Type :=
  | VUndef
  | VNull
  | VStr (s : string)
  | VNum (n : num).

Global Instance value_eq_dec : EqDecision value.
Proof. solve_decision. Defined.

(** An object with string keys. *)
Abbreviation obj := (gmap string value).

(** [o[k]]: an absent property reads as [undefined]. *)
Definition get (o : obj) (k : string) : value := default VUndef (o !! k).

(** [o[k] = v]. *)
Definition set (o : obj) (k : string) (v : value) : obj := <[k := v]> o.

(** ToBoolean. *)
Definition truthy (v : value) : bool :=
  match v with
  | VStr s => negb (String.eqb s "")
  | VNum n => num_truthy n
  | VUndef | VNull => false
  end.

(** [a || b]. *)
Definition vor (a b : value) : value := if truthy a then a else b.

(** [a === b]. *)
Definition strict_eq (a b : value) : bool :=
  match a, b with
  | VUndef, VUndef | VNull, VNull => true
  | VStr s, VStr t => String.eqb s t
  | VNum (Fin p), VNum (Fin q) => Qeq_bool p q
  | _, _ => false
  end.

(** ToNumber: a string converts when the whole of it, white space at both
    ends apart, is a decimal literal; the empty string converts to 0. *)
Definition to_num (v : value) : num :=
  match v with
  | VNum n => n
  | VNull => Fin 0
  | VUndef => NaN
  | VStr s =>
      match trim s with
      | EmptyString => Fin 0
      | t => match parse_decimal t with
             | Some (q, EmptyString) => Fin q
             | _ => NaN
             end
      end
  end.

(** [parseFloat(v)]: the argument is first converted to a string; for a
    number that conversion followed by the parse gives the number back. *)
Definition parseFloat (v : value) : num :=
  match v with
  | VStr s => parseFloat_str s
  | VNum n => n
  | VUndef | VNull => NaN
  end.

(** [parseInt(v)]. *)
Definition parseInt (v : value) : num :=
  match v with
  | VStr s => parseInt_str s
  | VNum (Fin q) => Fin (inject_Z (Qtrunc q))
  | VNum NaN | VUndef | VNull => NaN
  end.

(** The text of a value inside [Array.prototype.join]: [null] and
    [undefined] are written as the empty string. *)
Definition join_text (v : value) : string :=
  match v with
  | VStr s => s
  | VNum n => num_to_string n
  | VUndef | VNull => ""
  end.

(** [v.toUpperCase()] when [v] is a string; [None] is the TypeError of a
    call on [null] or [undefined]. *)
Definition upper_of (v : value) : option value :=
  match v with
  | VStr s => Some (VStr (toUpperCase s))
  | _ => None
  end.

(** [Array.prototype.sort] with a comparator: a stable sort, written as an
    insertion sort.  [after y x] says that the comparator puts [y] strictly
    after [x] (it returned a positive number for [(y, x)]).  For a
    comparator that orders the elements consistently every stable sort
    gives this list.  A comparator that returns [NaN] (a date that cannot
    be read) is not consistent, and the order an engine then leaves is its
    own: what is stated of the order of a sorted list is stated for
    readable dates. *)
Section Sort.
Context {A : Type} (after : A -> A -> bool).

Fixpoint sort_insert (x : A) (l : list A) : list A :=
  match l with
  | [] => [x]
  | y :: l' => if after y x then x :: y :: l' else y :: sort_insert x l'
  end.

Definition js_sort (l : list A) : list A :=
  fold_left (fun acc x => sort_insert x acc) l [].
End Sort.

(** [l.findIndex(p)]: [None] stands for -1. *)
Fixpoint findIndex {A : Type} (p : A -> bool) (l : list A) : option nat :=
  match l with
  | [] => None
  | x :: l' => if p x then Some O else S <$> findIndex p l'
  end.

(** ** The object store of trades

    The store is created with [keyPath: 'id'] and [autoIncrement: true]: a
    record without an [id] gets the next generated key, a record that
    carries one is stored under it.  The rows are kept in the order they
    were added. *)

Record store : Type := {
  rows : list obj;
  keygen : Z
}.

Definition empty_store : store := {| rows := []; keygen := 1 |}.

(** A valid key: a number that is not [NaN], or a string. *)
Definition valid_key (k : value) : bool :=
  match k with
  | VNum (Fin _) | VStr _ => true
  | _ => false
  end.

Definition has_key (k : value) (o : obj) : bool := strict_eq (get o "id") k.

(** [db.get('trades', k)]: [None] is a rejected request (an invalid key),
    [Some VUndef]-like absence is [Some None]. *)
Definition db_get (s : store) (k : value) : option (option obj) :=
  if valid_key k then Some (find (has_key k) (rows s)) else None.

(** The key generator after an explicit key [k] has been used. *)
Definition bump (g : Z) (k : value) : Z :=
  match k with
  | VNum (Fin q) => if (g <=? Qfloor q)%Z then Qfloor q + 1 else g
  | _ => g
  end.

(** [db.add('trades', o)]: the key and the store, or [None] when the
    request is rejected (an invalid key, or a key already present). *)
Definition db_add (s : store) (o : obj) : option (value * store) :=
  match get o "id" with
  | VUndef =>
      let k := VNum (nZ (keygen s)) in
      Some (k, {| rows := rows s ++ [set o "id" k]; keygen := keygen s + 1 |})
  | k =>
      if valid_key k && negb (existsb (has_key k) (rows s)) then
        Some (k, {| rows := rows s ++ [o]; keygen := bump (keygen s) k |})
      else None
  end.

(** [db.put('trades', o)]: add or replace. *)
Definition db_put (s : store) (o : obj) : option store :=
  match get o "id" with
  | VUndef =>
      let k := VNum (nZ (keygen s)) in
      Some {| rows := rows s ++ [set o "id" k]; keygen := keygen s + 1 |}
  | k =>
      if valid_key k then
        Some {| rows :=
                  match findIndex (has_key k) (rows s) with
                  | Some i => <[i := o]> (rows s)
                  | None => rows s ++ [o]
                  end;
                keygen := bump (keygen s) k |}
      else None
  end.

(** [db.delete('trades', k)]. *)
Definition db_delete (s : store) (k : value) : option store :=
  if valid_key k then
    Some {| rows := List.filter (fun o => negb (has_key k o)) (rows s);
            keygen := keygen s |}
  else None.

(** [db.clear('trades')]: the key generator is not reset. *)
Definition db_clear (s : store) : store := {| rows := []; keygen := keygen s |}.

(** ** The journal object of the class revisions *)

(** An entry of [portfolioHistory]. *)
Record history_entry : Type := {
  h_date : value;
  h_balance : num;
  h_change : num;
  h_type : string;
  h_timestamp : string
}.

Record journal : Type := {
  db : store;
  trades : list obj;
  filteredTrades : list obj;
  previewData : option (list obj);
  startingCapital : num;
  currentBalance : num;
  portfolioHistory : list history_entry
}.

(** The fields as the constructor sets them, over a given database. *)
Definition new_journal (d : store) : journal :=
  {| db := d; trades := []; filteredTrades := []; previewData := None;
     startingCapital := Fin 0; currentBalance := Fin 0;
     portfolioHistory := [] |}.

(** A form: the text of each named field.  [formData.get] gives [null] for
    a field the form does not have; reading [.value] of an input gives its
    text. *)
Abbreviation form := (gmap string string).

Definition form_get (f : form) (k : string) : value :=
  match f !! k with
  | Some s => VStr s
  | None => VNull
  end.

Definition input_value (f : form) (k : string) : value :=
  VStr (default "" (f !! k)).

(** [parseFloat(v) || null], [parseFloat(v) || 0] and [parseInt(v) || 1]. *)
Definition float_or_null (v : value) : value :=
  let n := parseFloat v in if num_truthy n then VNum n else VNull.

Definition float_or_0 (v : value) : num := nor (parseFloat v) (Fin 0).

Definition int_or_1 (v : value) : num := nor (parseInt v) (Fin 1).

(** The comparator [(a, b) => new Date(b.date) - new Date(a.date)] puts [y]
    after [x] when [x] is the more recent; [date_ms] is the time value of
    [new Date(v)], [NaN] for an invalid date. *)
Definition newer_first (date_ms : value -> num) (y x : obj) : bool :=
  ngt (nsub (date_ms (get x "date")) (date_ms (get y "date"))) (Fin 0).

(** The P&L of a stored trade as the aggregations read it,
    [t.net_pl || 0].  Every writer stores a number in [net_pl]; the reading
    is the one of a subtraction or a comparison (inside a sum JavaScript
    would concatenate a [net_pl] that is text). *)
Definition pl_or_0 (t : obj) : num :=
  to_num (vor (get t "net_pl") (VNum (Fin 0))).

(** [arr.reduce((sum, t) => sum + (t.net_pl || 0), 0)]. *)
Definition sum_pl (l : list obj) : num :=
  fold_left (fun sum t => nadd sum (pl_or_0 t)) l (Fin 0).

(** [csvContent.split('\n').map(line => line.trim()).filter(line => line)]. *)
Definition csv_lines (csvContent : string) : list string :=
  List.filter (fun line => negb (String.eqb line ""))
    (map trim (split "010"%char csvContent)).

(** [headers.forEach((header, index) => { trade[header] = cell(index) })]. *)
Fixpoint forEach_header (cell : nat -> value) (headers : list string)
    (index : nat) (trade : obj) : obj :=
  match headers with
  | [] => trade
  | header :: rest =>
      forEach_header cell rest (S index) (set trade header (cell index))
  end.

(** [values[index]]. *)
Definition at_index (values : list string) (index : nat) : value :=
  match values !! index with
  | Some s => VStr s
  | None => VUndef
  end.

(** [a < b]: two strings are compared character by character, any other
    pair of values as numbers. *)
Definition vlt (a b : value) : bool :=
  match a, b with
  | VStr s, VStr t => String.ltb s t
  | _, _ => nlt (to_num a) (to_num b)
  end.

(** ** Objects used as tables

    The charts add up the P&L per strategy or per ticker in an object
    that starts empty and gets one property per key.  Such an object is
    the list of its properties in the order of their creation. *)

(** The text of a value used as a property key. *)
Definition key_text (v : value) : string :=
  match v with
  | VStr s => s
  | VNum n => num_to_string n
  | VUndef => "undefined"
  | VNull => "null"
  end.

(** The property names that an object inherits from [Object.prototype]:
    reading one of them from an object without an own property of that
    name gives the inherited value, which is not modelled. *)
Definition inherited (k : string) : bool :=
  existsb (String.eqb k)
    ["constructor"; "hasOwnProperty"; "isPrototypeOf"; "propertyIsEnumerable";
     "toLocaleString"; "toString"; "valueOf"; "__proto__";
     "__defineGetter__"; "__defineSetter__"; "__lookupGetter__";
     "__lookupSetter__"].

Abbreviation table := (list (string * num)).

(** [t[k]] for an own property. *)
Definition table_get (t : table) (k : string) : option num :=
  snd <$> find (fun e => String.eqb e.1 k) t.

(** [t[k] = v]: an existing property keeps its place, a new one comes
    last. *)
Fixpoint table_set (t : table) (k : string) (v : num) : table :=
  match t with
  | [] => [(k, v)]
  | (k', v') :: rest =>
      if String.eqb k' k then (k', v) :: rest
      else (k', v') :: table_set rest k v
  end.

(** An array index: the canonical text of an integer from 0 to
    2^32 - 2. *)
Definition array_index (k : string) : option Z :=
  match k with
  | EmptyString => None
  | String c r =>
      if Ascii.eqb c "0" && negb (String.eqb r "") then None
      else
        match take_digits 0 0 k with
        | (v, _, EmptyString) => if (v <? 4294967295)%Z then Some v else None
        | _ => None
        end
  end.

(** [Object.entries(t)]: the array indices in ascending order, then the
    other keys in the order of their creation. *)
Definition entries (t : table) : table :=
  js_sort
    (fun y x =>
       match array_index y.1, array_index x.1 with
       | Some i, Some j => (j <? i)%Z
       | _, _ => false
       end)
    (List.filter (fun e => bool_decide (is_Some (array_index e.1))) t)
  ++ List.filter (fun e => negb (bool_decide (is_Some (array_index e.1)))) t.

(** One turn of the loops [if (!t[k]) t[k] = 0; t[k] += pl]; [None] once
    a key is an inherited property name. *)
Definition rollup_step (key : obj -> value) (pl : obj -> num)
    (acc : option table) (trade : obj) : option table :=
  t ← acc;
  let k := key_text (key trade) in
  if inherited k then None
  else
    let current :=
      match table_get t k with
      | Some v => nor v (Fin 0)
      | None => Fin 0
      end in
    Some (table_set t k (nadd current (pl trade))).

Definition rollup (key : obj -> value) (pl : obj -> num) (trades : list obj)
  : option table :=
  fold_left (rollup_step key pl) trades (Some []).

(** The values of a variable that a loop adds the P&L of each trade to,
    after each turn. *)
Fixpoint running_totals (pl : obj -> num) (start : num) (trades : list obj)
  : list num :=
  match trades with
  | [] => []
  | trade :: rest =>
      let next := nadd start (pl trade) in
      next :: running_totals pl next rest
  end.

(** ** The options of the filters *)

(** SameValueZero, the equality of the elements of a [Set]: [NaN] is
    equal to itself. *)
Definition same_value_zero (a b : value) : bool :=
  match a, b with
  | VNum NaN, VNum NaN => true
  | _, _ => strict_eq a b
  end.

(** [[...new Set(xs)]]: the values in the order of their first occurrence;
    [seen] holds the elements of the set so far. *)
Fixpoint set_of (seen : list value) (xs : list value) : list value :=
  match xs with
  | [] => seen
  | x :: rest =>
      if existsb (same_value_zero x) seen then set_of seen rest
      else set_of (seen ++ [x]) rest
  end.

(** [l.sort()] without a comparator: the elements are ordered by their
    texts, compared character by character, and [undefined] comes last. *)
Definition default_sort (l : list value) : list value :=
  js_sort (fun y x => String.ltb (key_text x) (key_text y))
    (List.filter (fun v => negb (bool_decide (v = VUndef))) l)
  ++ List.filter (fun v => bool_decide (v = VUndef)) l.

(** ** The revision with portfolio history (first file of part_000) *)

Module Enhanced.

(** The net P&L that [handleAddTrade] and [handleEditTradeSubmit] compute
    from the parsed fields: [entryPrice] and [exitPrice] are a number or
    [null]. *)
Definition netPL (entryPrice exitPrice : value) (quantity premium fees : num)
  : num :=
  if truthy exitPrice && truthy entryPrice then
    nadd (nadd (nmul (nsub (to_num exitPrice) (to_num entryPrice)) quantity)
               premium) fees
  else if num_truthy premium then nadd premium fees
  else Fin 0.

Definition outcome_of (pl : num) : value :=
  VStr (if nge pl (Fin 0) then "Win" else "Loss").

Section WithDates.
Variable date_ms : value -> num.

(** The comparator [(a, b) => new Date(a.date) - new Date(b.date)]. *)
Definition older_first (y x : history_entry) : bool :=
  ngt (nsub (date_ms (h_date y)) (date_ms (h_date x))) (Fin 0).

(** [addPortfolioHistoryEntry]: when the request fails the entry is
    logged and dropped. *)
Definition addPortfolioHistoryEntry (tradeDate : value) (tradeAmount : num)
    (tradeType : string) (now : string) (ok : bool) (j : journal)
  : journal :=
  if ok then
    let historyEntry :=
      {| h_date := tradeDate; h_balance := currentBalance j;
         h_change := tradeAmount; h_type := tradeType;
         h_timestamp := now |} in
    {| db := db j; trades := trades j; filteredTrades := filteredTrades j;
       previewData := previewData j;
       startingCapital := startingCapital j;
       currentBalance := currentBalance j;
       portfolioHistory :=
         js_sort older_first (portfolioHistory j ++ [historyEntry]) |}
  else j.

(** [handlePortfolioSettings]: [today] is the day of the clock,
    [new Date().toISOString().split('T')[0]], and [now] its full text;
    [hist_ok] says whether the request to the history store succeeds.
    [savePortfolioSettings] catches its own errors and changes no
    field. *)
Definition handlePortfolioSettings (f : form) (today now : string)
    (hist_ok : bool) (j : journal) : journal :=
  let newStartingCapital := float_or_0 (form_get f "starting-capital") in
  let newCurrentBalance := float_or_0 (form_get f "current-balance") in
  let balanceDiff := nsub newCurrentBalance (currentBalance j) in
  let j1 :=
    {| db := db j; trades := trades j; filteredTrades := filteredTrades j;
       previewData := previewData j;
       startingCapital := newStartingCapital;
       currentBalance := newCurrentBalance;
       portfolioHistory := portfolioHistory j |} in
  if nneq balanceDiff (Fin 0) then
    addPortfolioHistoryEntry (VStr today) balanceDiff "adjustment" now
      hist_ok j1
  else j1.

(** [handleBalanceUpdate]. *)
Definition handleBalanceUpdate (f : form) (today now : string)
    (hist_ok : bool) (j : journal) : journal :=
  let amount := float_or_0 (form_get f "balance-amount") in
  let type :=
    join_text (vor (form_get f "balance-type") (VStr "adjustment")) in
  if negb (nneq amount (Fin 0)) then j
  else
    addPortfolioHistoryEntry (VStr today) amount type now hist_ok
      {| db := db j; trades := trades j;
         filteredTrades := filteredTrades j;
         previewData := previewData j;
         startingCapital := startingCapital j;
         currentBalance := nadd (currentBalance j) amount;
         portfolioHistory := portfolioHistory j |}.

(** [loadPortfolioSettings]: [settings] is the answer of the settings
    store, [None] for a rejected request, [Some None] when there is no
    record, and otherwise the two numbers of the record; [history] is
    the content of the history store, [None] for a rejected request,
    which leaves the history as it was. *)
Definition loadPortfolioSettings (settings : option (option (num * num)))
    (history : option (list history_entry)) (j : journal) : journal :=
  match settings with
  | None => j
  | Some found =>
      let '(capital, balance) :=
        match found with
        | Some (c, b) => (nor c (Fin 0), nor b (Fin 0))
        | None => (startingCapital j, currentBalance j)
        end in
      {| db := db j; trades := trades j;
         filteredTrades := filteredTrades j;
         previewData := previewData j;
         startingCapital := capital;
         currentBalance := balance;
         portfolioHistory :=
           match history with
           | Some entries => js_sort older_first entries
           | None => portfolioHistory j
           end |}
  end.

(** The trade object that [handleAddTrade] builds from the form; [None]
    when [formData.get('ticker')] is [null] and the call of
    [toUpperCase] throws. *)
Definition new_trade (f : form) (now : string) : option (obj * num) :=
  let entryPrice := float_or_null (form_get f "entry-price") in
  let exitPrice := float_or_null (form_get f "exit-price") in
  let quantity := int_or_1 (form_get f "quantity") in
  let premium := float_or_0 (form_get f "premium") in
  let fees := float_or_0 (form_get f "fees") in
  let pl := netPL entryPrice exitPrice quantity premium fees in
  ticker ← upper_of (form_get f "ticker");
  Some (list_to_map
          [("date", form_get f "trade-date");
           ("ticker", ticker);
           ("strategy", form_get f "strategy");
           ("option_type", form_get f "option-type");
           ("strike", vor (form_get f "strike") VNull);
           ("expiration", vor (form_get f "expiration") VNull);
           ("quantity", VNum quantity);
           ("entry_price", entryPrice);
           ("exit_price", exitPrice);
           ("premium", VNum premium);
           ("fees", VNum fees);
           ("net_pl", VNum pl);
           ("outcome", outcome_of pl);
           ("delta", float_or_null (form_get f "delta"));
           ("gamma", float_or_null (form_get f "gamma"));
           ("theta", float_or_null (form_get f "theta"));
           ("vega", float_or_null (form_get f "vega"));
           ("trade_notes", vor (form_get f "trade-notes") (VStr ""));
           ("created_at", VStr now)], pl).

(** [handleAddTrade]: [add_ok] and [hist_ok] say whether the two
    database requests succeed.  Any failure before the arrays are
    touched leaves the journal as it was. *)
Definition handleAddTrade (f : form) (now : string) (add_ok hist_ok : bool)
    (j : journal) : journal :=
  match new_trade f now with
  | None => j
  | Some (trade, pl) =>
      match (if add_ok then db_add (db j) trade else None) with
      | None => j
      | Some (id, d) =>
          let trade := set trade "id" id in
          let ts := trade :: trades j in
          let j1 :=
            {| db := d; trades := ts; filteredTrades := ts;
               previewData := previewData j;
               startingCapital := startingCapital j;
               currentBalance := currentBalance j;
               portfolioHistory := portfolioHistory j |} in
          if nneq pl (Fin 0) then
            let j2 :=
              {| db := d; trades := ts; filteredTrades := ts;
                 previewData := previewData j;
                 startingCapital := startingCapital j;
                 currentBalance := nadd (currentBalance j) pl;
                 portfolioHistory := portfolioHistory j |} in
            addPortfolioHistoryEntry (get trade "date") pl "trade" now
              hist_ok j2
          else j1
      end
  end.

(** The object [{...existingTrade, date: ..., ...}] of
    [handleEditTradeSubmit], with the new P&L. *)
Definition updated_trade (existingTrade : obj) (f : form) (now : string)
  : option (obj * num) :=
  let entryPrice := float_or_null (input_value f "edit-entry-price") in
  let exitPrice := float_or_null (input_value f "edit-exit-price") in
  let quantity := int_or_1 (input_value f "edit-quantity") in
  let premium := float_or_0 (input_value f "edit-premium") in
  let fees := float_or_0 (input_value f "edit-fees") in
  let pl := netPL entryPrice exitPrice quantity premium fees in
  ticker ← upper_of (input_value f "edit-ticker");
  Some (list_to_map
            [("date", input_value f "edit-trade-date");
             ("ticker", ticker);
             ("strategy", input_value f "edit-strategy");
             ("option_type", input_value f "edit-option-type");
             ("strike", vor (input_value f "edit-strike") VNull);
             ("expiration", vor (input_value f "edit-expiration") VNull);
             ("quantity", VNum quantity);
             ("entry_price", entryPrice);
             ("exit_price", exitPrice);
             ("premium", VNum premium);
             ("fees", VNum fees);
             ("net_pl", VNum pl);
             ("outcome", outcome_of pl);
             ("delta", float_or_null (input_value f "edit-delta"));
             ("gamma", float_or_null (input_value f "edit-gamma"));
             ("theta", float_or_null (input_value f "edit-theta"));
             ("vega", float_or_null (input_value f "edit-vega"));
             ("trade_notes", vor (input_value f "edit-trade-notes") (VStr ""));
             ("updated_at", VStr now)]
        ∪ existingTrade, pl).

(** [handleEditTradeSubmit]. *)
Definition handleEditTradeSubmit (f : form) (now : string)
    (put_ok hist_ok : bool) (j : journal) : journal :=
  let tradeId := VNum (parseInt (input_value f "edit-trade-id")) in
  match db_get (db j) tradeId with
  | None | Some None => j
  | Some (Some existingTrade) =>
      let oldPL := to_num (vor (get existingTrade "net_pl") (VNum (Fin 0))) in
      match updated_trade existingTrade f now with
      | None => j
      | Some (updatedTrade, pl) =>
          match (if put_ok then db_put (db j) updatedTrade else None) with
          | None => j
          | Some d =>
              let ts :=
                match findIndex (fun t => strict_eq (get t "id") tradeId)
                                (trades j) with
                | Some index => <[index := updatedTrade]> (trades j)
                | None => trades j
                end in
              let plDifference := nsub pl oldPL in
              let j1 :=
                {| db := d; trades := ts; filteredTrades := ts;
                   previewData := previewData j;
                   startingCapital := startingCapital j;
                   currentBalance := currentBalance j;
                   portfolioHistory := portfolioHistory j |} in
              if nneq plDifference (Fin 0) then
                let j2 :=
                  {| db := d; trades := ts; filteredTrades := ts;
                     previewData := previewData j;
                     startingCapital := startingCapital j;
                     currentBalance := nadd (currentBalance j) plDifference;
                     portfolioHistory := portfolioHistory j |} in
                addPortfolioHistoryEntry (get updatedTrade "date")
                  plDifference "edit" now hist_ok j2
              else j1
          end
      end
  end.
End WithDates.

(** The running values of the loop over [portfolioHistory] in
    [calculatePortfolioMetrics]. *)
Record running : Type := {
  r_maxDrawdown : xnum;
  r_peak : num;
  r_maxBalance : num;
  r_minBalance : num
}.

Definition history_step (r : running) (entry : history_entry) : running :=
  let balance := h_balance entry in
  let peak := if ngt balance (r_peak r) then balance else r_peak r in
  let drawdown := ndiv (nsub peak balance) peak in
  {| r_maxDrawdown := xmax (r_maxDrawdown r) drawdown;
     r_peak := peak;
     r_maxBalance := nmax (r_maxBalance r) balance;
     r_minBalance := nmin (r_minBalance r) balance |}.

Record portfolio_metrics : Type := {
  pm_startingCapital : num;
  pm_currentBalance : num;
  totalReturn : num;
  returnPercentage : xnum;
  maxDrawdown : xnum;
  maxBalance : num;
  minBalance : num;
  tradingDays : nat
}.

(** [calculatePortfolioMetrics].  The Sharpe ratio and the average daily
    return it is computed from take square roots and are left out. *)
Definition calculatePortfolioMetrics (j : journal) : portfolio_metrics :=
  let total := nsub (currentBalance j) (startingCapital j) in
  let r :=
    fold_left history_step (portfolioHistory j)
      {| r_maxDrawdown := XFin 0; r_peak := startingCapital j;
         r_maxBalance := startingCapital j;
         r_minBalance := startingCapital j |} in
  {| pm_startingCapital := startingCapital j;
     pm_currentBalance := currentBalance j;
     totalReturn := total;
     returnPercentage :=
       if ngt (startingCapital j) (Fin 0)
       then ndiv total (startingCapital j) else XFin 0;
     maxDrawdown := r_maxDrawdown r;
     maxBalance := r_maxBalance r;
     minBalance := r_minBalance r;
     tradingDays := length (portfolioHistory j) |}.

End Enhanced.

(** ** Version 2.0 (app.js) *)

Module V20.

(** A header cell: [h.trim()], quotes removed, lower case, white space
    runs to underscores. *)
Definition header_key (h : string) : string :=
  ws_runs_to_underscore false (toLowerCase (remove_quotes (trim h))).

Definition headers_of (line : string) : list string :=
  map header_key (split "," line).

(** [line.split(',').map(v => v.trim().replace(quote, ''))]. *)
Definition values_of (line : string) : list string :=
  map (fun v => remove_quotes (trim v)) (split "," line).

(** The assignments after the validation of a row. *)
Definition normalize (now : string) (trade : obj) : obj :=
  let trade :=
    set trade "net_pl"
      (VNum (parseFloat (vor (vor (get trade "net_pl") (get trade "net_p_l"))
                             (VNum (Fin 0))))) in
  let trade :=
    set trade "premium"
      (VNum (parseFloat (vor (get trade "premium") (VNum (Fin 0))))) in
  let trade :=
    set trade "fees"
      (VNum (parseFloat (vor (get trade "fees") (VNum (Fin (-65 # 100)))))) in
  let trade :=
    set trade "quantity"
      (VNum (parseInt (vor (get trade "quantity") (VNum (Fin 1))))) in
  let trade :=
    set trade "ticker"
      (match get trade "ticker" with
       | VStr s => VStr (toUpperCase s)
       | v => v
       end) in
  let trade :=
    set trade "strategy" (vor (get trade "strategy") (VStr "Unknown")) in
  let trade :=
    set trade "outcome"
      (VStr (if nge (to_num (get trade "net_pl")) (Fin 0)
             then "Win" else "Loss")) in
  set trade "created_at" (VStr now).

(** One turn of the loop over the data lines: [None] is a [continue]. *)
Definition parse_row (headers : list string) (now : string) (line : string)
  : option obj :=
  let values := values_of line in
  if negb (length values =? length headers)%nat then None
  else
    let trade := forEach_header (at_index values) headers 0 ∅ in
    if negb (truthy (get trade "date")) || negb (truthy (get trade "ticker"))
    then None
    else Some (normalize now trade).

(** The array [trades] when the loop ends. *)
Definition parse_rows (headers : list string) (now : string)
    (lines : list string) : list obj :=
  fold_left
    (fun trades line =>
       match parse_row headers now line with
       | Some trade => trades ++ [trade]
       | None => trades
       end)
    lines [].

(** [parseCSV]: the preview is replaced only when at least one row was
    accepted. *)
Definition parseCSV (csvContent : string) (now : string) (j : journal)
  : journal :=
  match csv_lines csvContent with
  | [] | [_] => j
  | header :: lines =>
      match parse_rows (headers_of header) now lines with
      | [] => j
      | new_trades =>
          {| db := db j; trades := trades j;
             filteredTrades := filteredTrades j;
             previewData := Some new_trades;
             startingCapital := startingCapital j;
             currentBalance := currentBalance j;
             portfolioHistory := portfolioHistory j |}
      end
  end.

Record metrics : Type := {
  totalTrades : nat;
  totalPL : num;
  winRate : xnum;
  totalWins : nat;
  totalLosses : nat;
  averageWin : xnum;
  averageLoss : xnum;
  largestWin : num;
  largestLoss : num;
  profitFactor : xnum
}.

Definition is_win (t : obj) : bool := nge (pl_or_0 t) (Fin 0).
Definition is_loss (t : obj) : bool := nlt (pl_or_0 t) (Fin 0).

(** [calculateMetrics] over [this.filteredTrades]. *)
Definition calculateMetrics (j : journal) : metrics :=
  let trades := filteredTrades j in
  if (length trades =? 0)%nat then
    {| totalTrades := 0; totalPL := Fin 0; winRate := XFin 0;
       totalWins := 0; totalLosses := 0; averageWin := XFin 0;
       averageLoss := XFin 0; largestWin := Fin 0; largestLoss := Fin 0;
       profitFactor := XFin 0 |}
  else
    let wins := List.filter is_win trades in
    let losses := List.filter is_loss trades in
    {| totalTrades := length trades;
       totalPL := sum_pl trades;
       winRate :=
         if (0 <? length trades)%nat
         then ndiv (nnat (length wins)) (nnat (length trades)) else XFin 0;
       totalWins := length wins;
       totalLosses := length losses;
       averageWin :=
         if (0 <? length wins)%nat
         then ndiv (sum_pl wins) (nnat (length wins)) else XFin 0;
       averageLoss :=
         if (0 <? length losses)%nat
         then ndiv (sum_pl losses) (nnat (length losses)) else XFin 0;
       largestWin :=
         match map pl_or_0 trades with
         | x :: rest => fold_left nmax rest x
         | [] => Fin 0
         end;
       largestLoss :=
         match map pl_or_0 trades with
         | x :: rest => fold_left nmin rest x
         | [] => Fin 0
         end;
       profitFactor :=
         if (0 <? length losses)%nat
         then ndiv (sum_pl wins) (nabs (sum_pl losses))
         else if (0 <? length wins)%nat then XFin 999 else XFin 0 |}.

Record portfolio_metrics : Type := {
  pm_startingCapital : num;
  pm_currentBalance : num;
  totalReturn : num;
  returnPercentage : xnum;
  maxDrawdown : xnum;
  maxBalance : num;
  sharpeRatio : xnum;
  tradingDays : nat
}.

(** [calculatePortfolioMetrics]: the drawdown and the Sharpe ratio are the
    constant 0 in this revision. *)
Definition calculatePortfolioMetrics (j : journal) : portfolio_metrics :=
  let total := nsub (currentBalance j) (startingCapital j) in
  {| pm_startingCapital := startingCapital j;
     pm_currentBalance := currentBalance j;
     totalReturn := total;
     returnPercentage :=
       if ngt (startingCapital j) (Fin 0)
       then ndiv total (startingCapital j) else XFin 0;
     maxDrawdown := XFin 0;
     maxBalance := currentBalance j;
     sharpeRatio := XFin 0;
     tradingDays := length (portfolioHistory j) |}.

Section WithDates.
Variable date_ms : value -> num.

(** [loadAllData]: when [getAll] is rejected both arrays are emptied. *)
Definition loadAllData (get_ok : bool) (j : journal) : journal :=
  let ts := if get_ok then js_sort (newer_first date_ms) (rows (db j))
            else [] in
  {| db := db j; trades := ts; filteredTrades := ts;
     previewData := previewData j;
     startingCapital := startingCapital j;
     currentBalance := currentBalance j;
     portfolioHistory := portfolioHistory j |}.

(** The running values of the loop [for (const trade of
    this.previewData)] in [commitImport]. *)
Record import_acc : Type := {
  a_db : store;
  a_trades : list obj;
  a_successCount : nat;
  a_totalPL : num;
  a_index : nat
}.

(** One turn of the loop; [add_ok i] says whether the request for the
    [i]-th trade goes through, a rejected trade is logged and left out. *)
Definition import_step (add_ok : nat -> bool) (a : import_acc) (trade : obj)
  : import_acc :=
  match (if add_ok (a_index a) then db_add (a_db a) trade else None) with
  | Some (id, d) =>
      let trade := set trade "id" id in
      {| a_db := d;
         a_trades := a_trades a ++ [trade];
         a_successCount := S (a_successCount a);
         a_totalPL := nadd (a_totalPL a) (pl_or_0 trade);
         a_index := S (a_index a) |}
  | None =>
      {| a_db := a_db a; a_trades := a_trades a;
         a_successCount := a_successCount a;
         a_totalPL := a_totalPL a;
         a_index := S (a_index a) |}
  end.

(** [commitImport]: [mode] is the checked radio button ([undefined] when
    none is), [confirmed] the answer to the dialog of replace mode,
    [clear_ok] whether [db.clear] goes through. *)
Definition commitImport (mode : value) (confirmed clear_ok : bool)
    (add_ok : nat -> bool) (j : journal) : journal :=
  match previewData j with
  | None | Some [] => j
  | Some preview =>
      let replace := strict_eq (vor mode (VStr "append")) (VStr "replace") in
      if replace && negb confirmed then j
      else if replace && negb clear_ok then j
      else
        let a0 :=
          {| a_db := if replace then db_clear (db j) else db j;
             a_trades := if replace then [] else trades j;
             a_successCount := 0; a_totalPL := Fin 0; a_index := 0 |} in
        let a := fold_left (import_step add_ok) preview a0 in
        let ts := js_sort (newer_first date_ms) (a_trades a) in
        {| db := a_db a; trades := ts; filteredTrades := ts;
           previewData := None;
           startingCapital := startingCapital j;
           currentBalance := nadd (currentBalance j) (a_totalPL a);
           portfolioHistory := portfolioHistory j |}
  end.
End WithDates.

End V20.

(** ** Version 2.3 (second file of part_000) *)

Module V23.

(** The loop of [parseCSVLine] over the characters of the line. *)
Fixpoint parseCSVLine_go (result : list string) (current : string)
    (inQuotes : bool) (line : string) : list string :=
  match line with
  | EmptyString => result ++ [trim current]
  | String char rest =>
      if Ascii.eqb char dquote then
        parseCSVLine_go result current (negb inQuotes) rest
      else if Ascii.eqb char "," && negb inQuotes then
        parseCSVLine_go (result ++ [trim current]) EmptyString inQuotes rest
      else
        parseCSVLine_go result (current +:+ String char EmptyString)
          inQuotes rest
  end.

Definition parseCSVLine (line : string) : list string :=
  parseCSVLine_go [] EmptyString false line.

Definition header_key (h : string) : string :=
  ws_runs_to_underscore false (toLowerCase h).

Definition headers_of (line : string) : list string :=
  map header_key (parseCSVLine line).

(** The padding loop [while (values.length < headers.length)
    values.push('')]. *)
Definition pad (values : list string) (n : nat) : list string :=
  values ++ replicate (n - length values) EmptyString.

(** The object that [headers.forEach] fills: [values[index] || '']. *)
Definition raw_trade (headers : list string) (line : string) : obj :=
  let values := pad (parseCSVLine line) (length headers) in
  forEach_header (fun index => vor (at_index values index) (VStr ""))
    headers 0 ∅.

(** The assignments after the validation of a row. *)
Definition normalize (now : string) (trade : obj) : obj :=
  let trade :=
    set trade "net_pl"
      (VNum (parseFloat (vor (vor (get trade "net_pl") (get trade "net_p_l"))
                             (VNum (Fin 0))))) in
  let trade :=
    set trade "premium"
      (VNum (parseFloat (vor (get trade "premium") (VNum (Fin 0))))) in
  let trade :=
    set trade "fees"
      (VNum (parseFloat (vor (get trade "fees") (VNum (Fin (-65 # 100)))))) in
  let trade :=
    set trade "quantity"
      (VNum (parseInt (vor (get trade "quantity") (VNum (Fin 1))))) in
  let trade :=
    set trade "entry_price"
      (if truthy (get trade "entry_price")
       then VNum (parseFloat (get trade "entry_price")) else VNull) in
  let trade :=
    set trade "exit_price"
      (if truthy (get trade "exit_price")
       then VNum (parseFloat (get trade "exit_price")) else VNull) in
  let trade :=
    set trade "ticker"
      (match get trade "ticker" with
       | VStr s => VStr (toUpperCase s)
       | v => v
       end) in
  let trade :=
    set trade "strategy" (vor (get trade "strategy") (VStr "Unknown")) in
  let trade :=
    set trade "outcome"
      (vor (get trade "outcome")
           (VStr (if nge (to_num (get trade "net_pl")) (Fin 0)
                  then "Win" else "Loss"))) in
  set trade "created_at" (VStr now).

(** [!trade.date || trade.date === ''], and the same for the ticker. *)
Definition lacks (trade : obj) (k : string) : bool :=
  negb (truthy (get trade k)) || strict_eq (get trade k) (VStr "").

(** One turn of the loop over the data lines, on the pair of the array
    [trades] and the counter [skipped]. *)
Definition parse_step (headers : list string) (now : string)
    (acc : list obj * nat) (line : string) : list obj * nat :=
  let '(trades, skipped) := acc in
  let trade := raw_trade headers line in
  if lacks trade "date" then (trades, S skipped)
  else if lacks trade "ticker" then (trades, S skipped)
  else (trades ++ [normalize now trade], skipped).

(** [trades] and [skipped] when the loop ends. *)
Definition parse_rows (headers : list string) (now : string)
    (lines : list string) : list obj * nat :=
  fold_left (parse_step headers now) lines ([], O).

(** The batch that [parseCSV] computes: [None] when the text has fewer
    than two lines and the function stops with an error message. *)
Definition parse_batch (csvContent : string) (now : string)
  : option (list obj * nat) :=
  match csv_lines csvContent with
  | [] | [_] => None
  | header :: lines => Some (parse_rows (headers_of header) now lines)
  end.

(** [parseCSV]: the preview is replaced only when at least one row was
    accepted. *)
Definition parseCSV (csvContent : string) (now : string) (j : journal)
  : journal :=
  match parse_batch csvContent now with
  | None | Some ([], _) => j
  | Some (new_trades, _) =>
      {| db := db j; trades := trades j;
         filteredTrades := filteredTrades j;
         previewData := Some new_trades;
         startingCapital := startingCapital j;
         currentBalance := currentBalance j;
         portfolioHistory := portfolioHistory j |}
  end.

(** [formData.get(k)?.toUpperCase()]. *)
Definition upper_opt (v : value) : value :=
  match v with
  | VStr s => VStr (toUpperCase s)
  | _ => VUndef
  end.

(** The fields of a trade that the add and the edit forms share; [rd]
    reads a field of the form. *)
Definition trade_fields (rd : string -> value) (pre : string)
  : list (string * value) :=
  let premium := float_or_0 (rd (pre +:+ "premium")) in
  let fees := float_or_0 (rd (pre +:+ "fees")) in
  let net_pl := nadd premium fees in
  [("date", rd (pre +:+ "trade-date"));
   ("ticker", upper_opt (rd (pre +:+ "ticker")));
   ("strategy", rd (pre +:+ "strategy"));
   ("option_type", rd (pre +:+ "option-type"));
   ("strike", rd (pre +:+ "strike"));
   ("expiration", rd (pre +:+ "expiration"));
   ("quantity", VNum (int_or_1 (rd (pre +:+ "quantity"))));
   ("entry_price", float_or_null (rd (pre +:+ "entry-price")));
   ("exit_price", float_or_null (rd (pre +:+ "exit-price")));
   ("premium", VNum premium);
   ("fees", VNum fees);
   ("delta", float_or_null (rd (pre +:+ "delta")));
   ("gamma", float_or_null (rd (pre +:+ "gamma")));
   ("theta", float_or_null (rd (pre +:+ "theta")));
   ("vega", float_or_null (rd (pre +:+ "vega")));
   ("trade_notes", rd (pre +:+ "trade-notes"));
   ("net_pl", VNum net_pl);
   ("outcome", VStr (if nge net_pl (Fin 0) then "Win" else "Loss"))].

(** The trade object of [handleAddTrade], with [net_pl] and [outcome]
    set. *)
Definition new_trade (f : form) (now : string) : obj :=
  list_to_map (trade_fields (form_get f) "" ++ [("created_at", VStr now)]).

(** [handleAddTrade]. *)
Definition handleAddTrade (f : form) (now : string) (add_ok : bool)
    (j : journal) : journal :=
  let trade := new_trade f now in
  if negb (truthy (get trade "date")) || negb (truthy (get trade "ticker"))
     || negb (truthy (get trade "strategy"))
  then j
  else
    match (if add_ok then db_add (db j) trade else None) with
    | None => j
    | Some (id, d) =>
        let trade := set trade "id" id in
        let ts := trade :: trades j in
        {| db := d; trades := ts; filteredTrades := ts;
           previewData := previewData j;
           startingCapital := startingCapital j;
           currentBalance :=
             nadd (currentBalance j) (to_num (get trade "net_pl"));
           portfolioHistory := portfolioHistory j |}
    end.

(** The object [updatedTrade] of [handleEditTrade]. *)
Definition updated_trade (id : value) (originalTrade : obj) (f : form)
    (now : string) : obj :=
  list_to_map
    (("id", id) :: trade_fields (input_value f) "edit-"
     ++ [("updated_at", VStr now);
         ("created_at", get originalTrade "created_at")]).

(** [handleEditTrade]: a rejected request, and the TypeError of reading
    [created_at] of a trade that is not in the database, leave the
    journal as it was. *)
Definition handleEditTrade (f : form) (now : string) (put_ok : bool)
    (j : journal) : journal :=
  let id := VNum (parseInt (input_value f "edit-trade-id")) in
  match db_get (db j) id with
  | None | Some None => j
  | Some (Some originalTrade) =>
      let originalPL := pl_or_0 originalTrade in
      let updatedTrade := updated_trade id originalTrade f now in
      match (if put_ok then db_put (db j) updatedTrade else None) with
      | None => j
      | Some d =>
          let plDifference :=
            nsub (to_num (get updatedTrade "net_pl")) originalPL in
          let replace_in (l : list obj) :=
            match findIndex (fun t => strict_eq (get t "id") id) l with
            | Some index => <[index := updatedTrade]> l
            | None => l
            end in
          {| db := d;
             trades := replace_in (trades j);
             filteredTrades := replace_in (filteredTrades j);
             previewData := previewData j;
             startingCapital := startingCapital j;
             currentBalance := nadd (currentBalance j) plDifference;
             portfolioHistory := portfolioHistory j |}
      end
  end.

(** [handlePortfolioSettings]. *)
Definition handlePortfolioSettings (f : form) (j : journal) : journal :=
  let newStartingCapital := float_or_0 (form_get f "starting-capital") in
  let newCurrentBalance := float_or_0 (form_get f "current-balance") in
  if negb (nneq newStartingCapital (Fin 0)) then j
  else
    {| db := db j; trades := trades j; filteredTrades := filteredTrades j;
       previewData := previewData j;
       startingCapital := newStartingCapital;
       currentBalance := newCurrentBalance;
       portfolioHistory := portfolioHistory j |}.

(** [populateFilterDropdowns]: the options of the ticker and of the
    strategy filter, the two first options "All ..." apart. *)
Definition populateFilterDropdowns (j : journal)
  : list value * list value :=
  (default_sort (set_of [] (map (fun t => get t "ticker") (trades j))),
   default_sort
     (set_of []
        (map (fun t => vor (get t "strategy") (VStr "Unknown"))
           (trades j)))).

(** The labels, the bars and the colours of the bars that
    [createStrategyChart] gives the chart, on a page that has its
    canvas: [Some None] when no trade is displayed and no chart is
    drawn, [None] when a strategy has the name of an inherited
    property. *)
Definition createStrategyChart (j : journal)
  : option (option (list string * list num * list string)) :=
  if (length (filteredTrades j) =? 0)%nat then Some None
  else
    strategyData ←
      rollup (fun trade => vor (get trade "strategy") (VStr "Unknown"))
        pl_or_0 (filteredTrades j);
    let labels := map fst (entries strategyData) in
    let data := map snd (entries strategyData) in
    let colors :=
      map (fun val => if nge val (Fin 0) then "#00ff88" else "#ff4444")
        data in
    Some (Some (labels, data, colors)).

(** The labels of [createTopTickersChart], the P&L that the tooltips
    show, and the sizes of the slices of the pie, [data.map(Math.abs)]. *)
Definition createTopTickersChart (j : journal)
  : option (option (list string * list num * list num)) :=
  if (length (filteredTrades j) =? 0)%nat then Some None
  else
    tickerData ←
      rollup (fun trade => vor (get trade "ticker") (VStr "Unknown"))
        pl_or_0 (filteredTrades j);
    let sorted :=
      take 10
        (js_sort
           (fun y x => ngt (nsub (nabs x.2) (nabs y.2)) (Fin 0))
           (entries tickerData)) in
    let labels := map fst sorted in
    let data := map snd sorted in
    Some (Some (labels, data, map nabs data)).

(** [resetFilters]. *)
Definition resetFilters (j : journal) : journal :=
  {| db := db j; trades := trades j; filteredTrades := trades j;
     previewData := previewData j;
     startingCapital := startingCapital j;
     currentBalance := currentBalance j;
     portfolioHistory := portfolioHistory j |}.

(** [deleteTrade]: [confirmed] is the answer to the dialog, [get_ok] and
    [del_ok] say whether the two requests go through.  The balance is
    adjusted before [db.delete] is called. *)
Definition deleteTrade (id : value) (confirmed get_ok del_ok : bool)
    (j : journal) : journal :=
  if negb confirmed then j
  else
    match (if get_ok then db_get (db j) id else None) with
    | None => j
    | Some found =>
        let balance :=
          match found with
          | Some trade => nsub (currentBalance j) (pl_or_0 trade)
          | None => currentBalance j
          end in
        match (if del_ok then db_delete (db j) id else None) with
        | None =>
            {| db := db j; trades := trades j;
               filteredTrades := filteredTrades j;
               previewData := previewData j;
               startingCapital := startingCapital j;
               currentBalance := balance;
               portfolioHistory := portfolioHistory j |}
        | Some d =>
            let keep (t : obj) := negb (strict_eq (get t "id") id) in
            {| db := d;
               trades := List.filter keep (trades j);
               filteredTrades := List.filter keep (filteredTrades j);
               previewData := previewData j;
               startingCapital := startingCapital j;
               currentBalance := balance;
               portfolioHistory := portfolioHistory j |}
        end
    end.

Section WithDates.
Variable date_ms : value -> num.

(** [loadAllData] and [commitImport] have the text of version 2.0. *)
Definition loadAllData := V20.loadAllData date_ms.
Definition commitImport := V20.commitImport date_ms.

(** The predicate of [applyFilters]. *)
Definition passes (tickerFilter strategyFilter dateFrom dateTo : value)
    (trade : obj) : bool :=
  if truthy tickerFilter
     && negb (strict_eq (get trade "ticker") tickerFilter) then false
  else if truthy strategyFilter
     && negb (strict_eq (get trade "strategy") strategyFilter) then false
  else if truthy dateFrom
     && nlt (date_ms (get trade "date")) (date_ms dateFrom) then false
  else if truthy dateTo
     && ngt (date_ms (get trade "date")) (date_ms dateTo) then false
  else true.

(** [applyFilters]: the four arguments are the values of the filter
    inputs. *)
Definition applyFilters (tickerFilter strategyFilter dateFrom dateTo : value)
    (j : journal) : journal :=
  {| db := db j; trades := trades j;
     filteredTrades :=
       List.filter (passes tickerFilter strategyFilter dateFrom dateTo)
         (trades j);
     previewData := previewData j;
     startingCapital := startingCapital j;
     currentBalance := currentBalance j;
     portfolioHistory := portfolioHistory j |}.

(** [loadPortfolioSettings]: [settings] is the answer of the settings
    store, [None] for a rejected request, [Some None] when there is no
    record, and otherwise the two numbers of the record; [history] is
    the content of the history store, [None] for a rejected request.
    A rejected request ends the function where it stands. *)
Definition loadPortfolioSettings (settings : option (option (num * num)))
    (history : option (list history_entry)) (j : journal) : journal :=
  match settings with
  | None => j
  | Some found =>
      let '(capital, balance) :=
        match found with
        | Some (c, b) => (nor c (Fin 0), nor b (Fin 0))
        | None => (startingCapital j, currentBalance j)
        end in
      {| db := db j; trades := trades j;
         filteredTrades := filteredTrades j;
         previewData := previewData j;
         startingCapital := capital;
         currentBalance := balance;
         portfolioHistory :=
           match history with
           | Some entries =>
               js_sort (Enhanced.older_first date_ms) entries
           | None => portfolioHistory j
           end |}
  end.

(** What the user and the environment can do to a journal. *)
Inductive event : Type :=
  | Reload
  | LoadAllData (get_ok : bool)
  | LoadPortfolioSettings (settings : option (option (num * num)))
      (history : option (list history_entry))
  | HandleAddTrade (f : form) (now : string) (add_ok : bool)
  | HandleEditTrade (f : form) (now : string) (put_ok : bool)
  | HandlePortfolioSettings (f : form)
  | ParseCSV (csvContent : string) (now : string)
  | CommitImport (mode : value) (confirmed clear_ok : bool)
      (add_ok : nat -> bool)
  | ApplyFilters (tickerFilter strategyFilter dateFrom dateTo : value)
  | ResetFilters
  | DeleteTrade (id : value) (confirmed get_ok del_ok : bool).

(** One handler run to completion.  [Reload] is a new page over the same
    database: the constructor runs again. *)
Definition step (e : event) (j : journal) : journal :=
  match e with
  | Reload => new_journal (db j)
  | LoadAllData get_ok => loadAllData get_ok j
  | LoadPortfolioSettings settings history =>
      loadPortfolioSettings settings history j
  | HandleAddTrade f now add_ok => handleAddTrade f now add_ok j
  | HandleEditTrade f now put_ok => handleEditTrade f now put_ok j
  | HandlePortfolioSettings f => handlePortfolioSettings f j
  | ParseCSV csvContent now => parseCSV csvContent now j
  | CommitImport mode confirmed clear_ok add_ok =>
      commitImport mode confirmed clear_ok add_ok j
  | ApplyFilters t s from to => applyFilters t s from to j
  | ResetFilters => resetFilters j
  | DeleteTrade id confirmed get_ok del_ok =>
      deleteTrade id confirmed get_ok del_ok j
  end.

(** The journals that a run of the application goes through, from a
    fresh database. *)
Inductive reachable : journal -> Prop :=
  | reachable_new : reachable (new_journal empty_store)
  | reachable_step e j : reachable j -> reachable (step e j).
End WithDates.

End V23.

(** ** Version 2.4 (part_001) *)

Module V24.

(** [parseCSVLine] and the per-row assignments have the text of
    version 2.3. *)
Definition parseCSVLine := V23.parseCSVLine.
Definition headers_of := V23.headers_of.
Definition raw_trade := V23.raw_trade.
Definition normalize := V23.normalize.

(** So have [handleAddTrade] and [handleEditTrade], the messages
    apart. *)
Definition handleAddTrade := V23.handleAddTrade.
Definition handleEditTrade := V23.handleEditTrade.

(** So have [applyFilters], [resetFilters] and
    [populateFilterDropdowns]. *)
Definition resetFilters := V23.resetFilters.
Definition populateFilterDropdowns := V23.populateFilterDropdowns.

(** [createStrategyChart] and [createTopTickersChart] are the ones of
    version 2.3 with shorter conditionals. *)
Definition createStrategyChart := V23.createStrategyChart.
Definition createTopTickersChart := V23.createTopTickersChart.

(** One turn of the loop of [parseCSV]. *)
Definition parse_step (headers : list string) (now : string)
    (acc : list obj * nat) (line : string) : list obj * nat :=
  let '(trades, skipped) := acc in
  let trade := raw_trade headers line in
  if negb (truthy (get trade "date")) || negb (truthy (get trade "ticker"))
  then (trades, S skipped)
  else (trades ++ [normalize now trade], skipped).

Definition parse_rows (headers : list string) (now : string)
    (lines : list string) : list obj * nat :=
  fold_left (parse_step headers now) lines ([], O).

Definition parse_batch (csvContent : string) (now : string)
  : option (list obj * nat) :=
  match csv_lines csvContent with
  | [] | [_] => None
  | header :: lines => Some (parse_rows (headers_of header) now lines)
  end.

(** [parseCSV]. *)
Definition parseCSV (csvContent : string) (now : string) (j : journal)
  : journal :=
  match parse_batch csvContent now with
  | None | Some ([], _) => j
  | Some (new_trades, _) =>
      {| db := db j; trades := trades j;
         filteredTrades := filteredTrades j;
         previewData := Some new_trades;
         startingCapital := startingCapital j;
         currentBalance := currentBalance j;
         portfolioHistory := portfolioHistory j |}
  end.

Definition commitImport := V20.commitImport.

(** The header line of the export. *)
Definition export_headers : list string :=
  ["Date"; "Ticker"; "Strategy"; "Option Type"; "Strike"; "Expiration";
   "Quantity"; "Entry Price"; "Exit Price"; "Premium"; "Fees"; "Net P&L";
   "Outcome"; "Delta"; "Gamma"; "Theta"; "Vega";
   "Trade Notes"; "Post-Trade Analysis"; "Created At"].

(** A free-text cell: the text between double quotes, with every double
    quote of the text doubled.  [None] is the TypeError of calling
    [replace] on a value that is not a string. *)
Definition quoted_cell (v : value) : option string :=
  match vor v (VStr "") with
  | VStr s =>
      Some (String dquote (double_quotes s) +:+ String dquote EmptyString)
  | _ => None
  end.

(** The cells of one trade, and the row [row.join(',')]. *)
Definition export_row (trade : obj) : option string :=
  notes ← quoted_cell (get trade "trade_notes");
  analysis ← quoted_cell (get trade "post_trade_analysis");
  Some (join ","
          (map join_text
             [vor (get trade "date") (VStr "");
              vor (get trade "ticker") (VStr "");
              vor (get trade "strategy") (VStr "");
              vor (get trade "option_type") (VStr "");
              vor (get trade "strike") (VStr "");
              vor (get trade "expiration") (VStr "");
              vor (get trade "quantity") (VStr "");
              vor (get trade "entry_price") (VStr "");
              vor (get trade "exit_price") (VStr "");
              vor (get trade "premium") (VNum (Fin 0));
              vor (get trade "fees") (VNum (Fin 0));
              vor (get trade "net_pl") (VNum (Fin 0));
              vor (get trade "outcome") (VStr "");
              vor (get trade "delta") (VStr "");
              vor (get trade "gamma") (VStr "");
              vor (get trade "theta") (VStr "");
              vor (get trade "vega") (VStr "");
              VStr notes;
              VStr analysis;
              vor (get trade "created_at") (VStr "")])).

(** The loop [this.trades.forEach(trade => { csvContent += row + newline })]. *)
Fixpoint export_rows (csvContent : string) (trades : list obj)
  : option string :=
  match trades with
  | [] => Some csvContent
  | trade :: rest =>
      row ← export_row trade;
      export_rows (csvContent +:+ row +:+ String "010" EmptyString) rest
  end.

(** [exportToCSV]: the text of the downloaded file, [None] when there is
    nothing to export or the export fails. *)
Definition exportToCSV (j : journal) : option string :=
  match trades j with
  | [] => None
  | ts =>
      export_rows (join "," export_headers +:+ String "010" EmptyString) ts
  end.

End V24.

(** ** Version 3.0 (second file of part_002) *)

Module V30.

(** The globals [db], [allTrades] and [portfolioSettings]. *)
Record app : Type := {
  tradesDb : store;
  allTrades : list obj;
  startingCapital : num;
  currentBalance : num
}.

Definition new_app (d : store) : app :=
  {| tradesDb := d; allTrades := [];
     startingCapital := Fin 10000; currentBalance := Fin 10000 |}.

(** [parseFloat(t.net_pl) || 0]. *)
Definition pl (t : obj) : num := float_or_0 (get t "net_pl").

(** [addTrade]: the trade as stored, and the globals.  [None] is the
    rethrown failure of [db.add], before anything was changed. *)
Definition addTrade (tradeData : obj) (now : string) (add_ok : bool)
    (a : app) : option (obj * app) :=
  let trade :=
    list_to_map [("id", VUndef); ("created_at", VStr now);
                 ("updated_at", VStr now)] ∪ tradeData in
  '(id, d) ← (if add_ok then db_add (tradesDb a) trade else None);
  let trade := set trade "id" id in
  Some (trade,
        {| tradesDb := d;
           allTrades := trade :: allTrades a;
           startingCapital := startingCapital a;
           currentBalance := nadd (currentBalance a) (pl tradeData) |}).

(** [deleteTrade]: [None] is the error thrown for a trade that is not in
    [allTrades].  When [db.delete] is rejected the balance has already
    been adjusted. *)
Definition deleteTrade (tradeId : value) (del_ok : bool) (a : app)
  : option app :=
  trade ← find (fun t => strict_eq (get t "id") tradeId) (allTrades a);
  let balance := nsub (currentBalance a) (pl trade) in
  match (if del_ok then db_delete (tradesDb a) tradeId else None) with
  | None =>
      Some {| tradesDb := tradesDb a; allTrades := allTrades a;
              startingCapital := startingCapital a;
              currentBalance := balance |}
  | Some d =>
      Some {| tradesDb := d;
              allTrades :=
                List.filter (fun t => negb (strict_eq (get t "id") tradeId))
                  (allTrades a);
              startingCapital := startingCapital a;
              currentBalance := balance |}
  end.

(** The two statements that move the balance, on the Numbers of the
    engine, for a trade whose [net_pl] holds the Number [net_pl]:
    [portfolioSettings.currentBalance += parseFloat(tradeData.net_pl) || 0]
    of [addTrade] and
    [portfolioSettings.currentBalance -= parseFloat(trade.net_pl) || 0]
    of [deleteTrade]. *)
Definition balance_after_add (currentBalance net_pl : Binary64.f64)
  : Binary64.f64 :=
  Binary64.add currentBalance (Binary64.or_0 net_pl).

Definition balance_after_delete (currentBalance net_pl : Binary64.f64)
  : Binary64.f64 :=
  Binary64.sub currentBalance (Binary64.or_0 net_pl).

Record metrics : Type := {
  totalPL : num;
  winRate : xnum;
  totalTrades : nat;
  avgWin : xnum;
  avgLoss : xnum;
  profitFactor : xnum
}.

Definition has_outcome (o : string) (t : obj) : bool :=
  strict_eq (get t "outcome") (VStr o).

(** [arr.reduce((sum, t) => sum + (parseFloat(t.net_pl) || 0), 0)]. *)
Definition sum_pl (l : list obj) : num :=
  fold_left (fun sum t => nadd sum (pl t)) l (Fin 0).

(** [calculateMetrics] over [allTrades]. *)
Definition calculateMetrics (a : app) : metrics :=
  let trades := allTrades a in
  if (length trades =? 0)%nat then
    {| totalPL := Fin 0; winRate := XFin 0; totalTrades := 0;
       avgWin := XFin 0; avgLoss := XFin 0; profitFactor := XFin 0 |}
  else
    let wins := List.filter (has_outcome "Win") trades in
    let losses := List.filter (has_outcome "Loss") trades in
    let grossWins := sum_pl wins in
    let grossLosses := nabs (sum_pl losses) in
    {| totalPL := sum_pl trades;
       winRate :=
         if (0 <? length trades)%nat
         then xmul (ndiv (nnat (length wins)) (nnat (length trades)))
                   (XFin 100)
         else XFin 0;
       totalTrades := length trades;
       avgWin :=
         if (0 <? length wins)%nat
         then ndiv (sum_pl wins) (nnat (length wins)) else XFin 0;
       avgLoss :=
         if (0 <? length losses)%nat
         then xabs (ndiv (sum_pl losses) (nnat (length losses))) else XFin 0;
       profitFactor :=
         if ngt grossLosses (Fin 0) then ndiv grossWins grossLosses
         else if ngt grossWins (Fin 0) then XFin 999 else XFin 0 |}.

(** The loop of [parseCSVLine]: a doubled quote inside quotes is one
    quote of the field, and the fields are not trimmed. *)
Fixpoint parseCSVLine_go (result : list string) (current : string)
    (inQuotes : bool) (line : string) : list string :=
  match line with
  | EmptyString => result ++ [current]
  | String char rest =>
      if Ascii.eqb char dquote then
        match rest with
        | String nextChar rest' =>
            if inQuotes && Ascii.eqb nextChar dquote then
              parseCSVLine_go result (current +:+ String dquote EmptyString)
                inQuotes rest'
            else parseCSVLine_go result current (negb inQuotes) rest
        | EmptyString => parseCSVLine_go result current (negb inQuotes) rest
        end
      else if Ascii.eqb char "," && negb inQuotes then
        parseCSVLine_go (result ++ [current]) EmptyString inQuotes rest
      else
        parseCSVLine_go result (current +:+ String char EmptyString)
          inQuotes rest
  end.

Definition parseCSVLine (line : string) : list string :=
  parseCSVLine_go [] EmptyString false line.

(** [parseCSV]: the headers as written, and one object per line that is
    not blank. *)
Definition parseCSV (csvText : string) : list string * list obj :=
  match split "010" (trim csvText) with
  | [] => ([], [])
  | first :: lines =>
      let headers := parseCSVLine first in
      (headers,
       map (fun line =>
              let values := parseCSVLine line in
              forEach_header
                (fun index => vor (at_index values index) (VStr ""))
                headers 0 ∅)
           (List.filter (fun line => negb (String.eqb (trim line) ""))
              lines))
  end.

(** The object [tradeData] that [importCSV] builds from a row. *)
Definition tradeData_of (row : obj) : obj :=
  let either (a b : string) := vor (get row a) (get row b) in
  list_to_map
    [("date", either "date" "Date");
     ("ticker",
      match vor (either "ticker" "Ticker") (VStr "") with
      | VStr s => VStr (toUpperCase s)
      | v => v
      end);
     ("strategy", either "strategy" "Strategy");
     ("option_type", vor (either "option_type" "OptionType") (VStr "CALL"));
     ("strike", float_or_null (either "strike" "Strike"));
     ("expiration", vor (either "expiration" "Expiration") VNull);
     ("quantity", VNum (int_or_1 (either "quantity" "Quantity")));
     ("entry_price", VNum (float_or_0 (either "entry_price" "EntryPrice")));
     ("exit_price", float_or_null (either "exit_price" "ExitPrice"));
     ("premium", VNum (float_or_0 (either "premium" "Premium")));
     ("fees", VNum (float_or_0 (either "fees" "Fees")));
     ("net_pl",
      VNum (float_or_0 (vor (either "net_pl" "NetPL") (get row "PL"))));
     ("outcome", vor (either "outcome" "Outcome") (VStr "Win"));
     ("delta", float_or_null (either "delta" "Delta"));
     ("gamma", float_or_null (either "gamma" "Gamma"));
     ("theta", float_or_null (either "theta" "Theta"));
     ("vega", float_or_null (either "vega" "Vega"));
     ("trade_notes",
      vor (vor (either "trade_notes" "TradeNotes") (get row "Notes"))
          (VStr ""));
     ("post_trade_analysis",
      vor (vor (either "post_trade_analysis" "PostTradeAnalysis")
               (get row "Analysis"))
          (VStr ""))].

(** The validation of [importCSV]. *)
Definition accepted (tradeData : obj) : bool :=
  truthy (get tradeData "date") && truthy (get tradeData "ticker")
  && truthy (get tradeData "strategy").

(** The loop of [importCSV] from row [index] on: a rejected [addTrade]
    ends the import with the trades added so far. *)
Fixpoint import_rows (now : string) (add_ok : nat -> bool) (index : nat)
    (data : list obj) (a : app) : app :=
  match data with
  | [] => a
  | row :: rest =>
      let tradeData := tradeData_of row in
      if accepted tradeData then
        match addTrade tradeData now (add_ok index) a with
        | Some (_, a') => import_rows now add_ok (S index) rest a'
        | None => a
        end
      else import_rows now add_ok (S index) rest a
  end.

(** [previewCSV] followed by [importCSV] on the text of the file. *)
Definition importCSV (csvText : string) (now : string)
    (add_ok : nat -> bool) (a : app) : app :=
  import_rows now add_ok 0 (parseCSV csvText).2 a.

(** The columns of [exportToCSV], which are its header line. *)
Definition export_headers : list string :=
  ["date"; "ticker"; "strategy"; "option_type"; "strike"; "expiration";
   "quantity"; "entry_price"; "exit_price"; "premium"; "fees"; "net_pl";
   "outcome"; "delta"; "gamma"; "theta"; "vega"; "trade_notes";
   "post_trade_analysis"].

(** A cell of the export: [trade[header] || ''], and a text that holds a
    comma, a double quote or a line break is put between double quotes,
    its double quotes doubled. *)
Definition export_cell (trade : obj) (header : string) : string :=
  match vor (get trade header) (VStr "") with
  | VStr s =>
      if includes_char "," s || includes_char dquote s
         || includes_char "010" s
      then String dquote (double_quotes s) +:+ String dquote EmptyString
      else s
  | v => join_text v
  end.

(** [exportToCSV]: the text of the downloaded file, [None] when there is
    nothing to export. *)
Definition exportToCSV (a : app) : option string :=
  match allTrades a with
  | [] => None
  | ts =>
      Some (fold_left
              (fun csv trade =>
                 csv +:+ join "," (map (export_cell trade) export_headers)
                     +:+ String "010" EmptyString)
              ts (join "," export_headers +:+ String "010" EmptyString))
  end.

(** [updateTrade]: [None] is the error thrown for a trade that is not in
    [allTrades].  The balance is adjusted before [db.put] is called, and
    stays adjusted when the request is rejected. *)
Definition updateTrade (tradeData : obj) (now : string) (put_ok : bool)
    (a : app) : option app :=
  let same_id (t : obj) := strict_eq (get t "id") (get tradeData "id") in
  existingTrade ← find same_id (allTrades a);
  let oldPL := pl existingTrade in
  let newPL := pl tradeData in
  let balance := nadd (nsub (currentBalance a) oldPL) newPL in
  let updatedTrade :=
    list_to_map [("created_at", get existingTrade "created_at");
                 ("updated_at", VStr now)] ∪ tradeData in
  match (if put_ok then db_put (tradesDb a) updatedTrade else None) with
  | None =>
      Some {| tradesDb := tradesDb a; allTrades := allTrades a;
              startingCapital := startingCapital a;
              currentBalance := balance |}
  | Some d =>
      Some {| tradesDb := d;
              allTrades :=
                match findIndex same_id (allTrades a) with
                | Some index => <[index := updatedTrade]> (allTrades a)
                | None => allTrades a
                end;
              startingCapital := startingCapital a;
              currentBalance := balance |}
  end.

(** The object [tradeData] that the add and the edit forms build; [rd]
    reads the input that the add form calls by the given name. *)
Definition form_fields (rd : string -> value) : list (string * value) :=
  [("date", rd "tradeDate");
   ("ticker",
    match rd "ticker" with
    | VStr s => VStr (toUpperCase s)
    | v => v
    end);
   ("strategy", rd "strategy");
   ("option_type", rd "optionType");
   ("strike", float_or_null (rd "strike"));
   ("expiration", vor (rd "expiration") VNull);
   ("quantity", VNum (parseInt (rd "quantity")));
   ("entry_price", VNum (parseFloat (rd "entryPrice")));
   ("exit_price", float_or_null (rd "exitPrice"));
   ("premium", VNum (parseFloat (rd "premium")));
   ("fees", VNum (float_or_0 (rd "fees")));
   ("net_pl", VNum (parseFloat (rd "netPL")));
   ("outcome", rd "outcome");
   ("delta", float_or_null (rd "delta"));
   ("gamma", float_or_null (rd "gamma"));
   ("theta", float_or_null (rd "theta"));
   ("vega", float_or_null (rd "vega"));
   ("trade_notes", vor (rd "tradeNotes") (VStr ""));
   ("post_trade_analysis", vor (rd "postTradeAnalysis") (VStr ""))].

(** The input of the edit form for an input of the add form:
    [editTradeDate] for [tradeDate], and so on. *)
Definition edit_input (name : string) : string :=
  match name with
  | EmptyString => "edit"
  | String c rest => "edit" +:+ String (upper_ascii c) rest
  end.

(** [handleAddTrade]: the error of [addTrade] is caught. *)
Definition handleAddTrade (f : form) (now : string) (add_ok : bool)
    (a : app) : app :=
  let tradeData : obj := list_to_map (form_fields (input_value f)) in
  match addTrade tradeData now add_ok a with
  | Some (_, a') => a'
  | None => a
  end.

(** [handleEditTrade]: the error of [updateTrade] is caught. *)
Definition handleEditTrade (f : form) (now : string) (put_ok : bool)
    (a : app) : app :=
  let tradeData : obj :=
    list_to_map
      (("id", VNum (parseInt (input_value f "editTradeId")))
       :: form_fields (fun name => input_value f (edit_input name))) in
  match updateTrade tradeData now put_ok a with
  | Some a' => a'
  | None => a
  end.

(** [confirmDeleteTrade]: [confirmed] is the answer to the dialog; the
    error of [deleteTrade] is caught. *)
Definition confirmDeleteTrade (tradeId : value) (confirmed del_ok : bool)
    (a : app) : app :=
  if confirmed then
    match deleteTrade tradeId del_ok a with
    | Some a' => a'
    | None => a
    end
  else a.

(** [handlePortfolioUpdate]: the two numbers are stored as parsed. *)
Definition handlePortfolioUpdate (f : form) (a : app) : app :=
  {| tradesDb := tradesDb a; allTrades := allTrades a;
     startingCapital := parseFloat (input_value f "startingCapital");
     currentBalance := parseFloat (input_value f "currentBalance") |}.

(** [loadPortfolioSettings]: [settings] is the answer of the settings
    store, [None] for a rejected request, [Some None] when there is no
    record, and otherwise the two numbers of the record, which replace
    the ones in memory. *)
Definition loadPortfolioSettings (settings : option (option (num * num)))
    (a : app) : app :=
  match settings with
  | Some (Some (capital, balance)) =>
      {| tradesDb := tradesDb a; allTrades := allTrades a;
         startingCapital := capital; currentBalance := balance |}
  | _ => a
  end.

(** [updateFilters]: the options of the ticker and of the strategy
    filter, the two first options "All ..." apart. *)
Definition updateFilters (a : app) : list value * list value :=
  (default_sort (set_of [] (map (fun t => get t "ticker") (allTrades a))),
   default_sort
     (set_of [] (map (fun t => get t "strategy") (allTrades a)))).

(** [getFilteredTrades]: the four arguments are the texts of the filter
    inputs; the dates are compared as texts. *)
Definition getFilteredTrades (tickerFilter strategyFilter fromDate
    toDate : string) (a : app) : list obj :=
  List.filter
    (fun trade =>
       if truthy (VStr tickerFilter)
          && negb (strict_eq (get trade "ticker") (VStr tickerFilter))
       then false
       else if truthy (VStr strategyFilter)
          && negb (strict_eq (get trade "strategy") (VStr strategyFilter))
       then false
       else if truthy (VStr fromDate)
          && vlt (get trade "date") (VStr fromDate) then false
       else if truthy (VStr toDate)
          && vlt (VStr toDate) (get trade "date") then false
       else true)
    (allTrades a).

(** The running values of the drawdown loop of [calculateRiskMetrics]. *)
Record drawdown_state : Type := {
  runningBalance : num;
  peak : num;
  dd_max : xnum
}.

Definition drawdown_step (r : drawdown_state) (trade : obj)
  : drawdown_state :=
  let runningBalance := nadd (runningBalance r) (pl trade) in
  let peak := if ngt runningBalance (peak r) then runningBalance else peak r in
  let drawdown := xmul (ndiv (nsub peak runningBalance) peak) (XFin 100) in
  {| runningBalance := runningBalance; peak := peak;
     dd_max := xmax (dd_max r) drawdown |}.

(** The running values of the streak loop. *)
Record streak_state : Type := {
  tempWinStreak : nat;
  tempLossStreak : nat;
  s_maxConsecutiveWins : nat;
  s_maxConsecutiveLosses : nat
}.

Definition streak_step (s : streak_state) (trade : obj) : streak_state :=
  if has_outcome "Win" trade then
    {| tempWinStreak := S (tempWinStreak s); tempLossStreak := 0;
       s_maxConsecutiveWins :=
         Nat.max (s_maxConsecutiveWins s) (S (tempWinStreak s));
       s_maxConsecutiveLosses := s_maxConsecutiveLosses s |}
  else if has_outcome "Loss" trade then
    {| tempWinStreak := 0; tempLossStreak := S (tempLossStreak s);
       s_maxConsecutiveWins := s_maxConsecutiveWins s;
       s_maxConsecutiveLosses :=
         Nat.max (s_maxConsecutiveLosses s) (S (tempLossStreak s)) |}
  else s.

(** The risk metrics without the Sharpe ratio, which takes a square
    root. *)
Record risk_metrics : Type := {
  maxDrawdown : xnum;
  currentStreak : Z;
  maxConsecutiveWins : nat;
  maxConsecutiveLosses : nat
}.

Section WithDates.
Variable date_ms : value -> num.

(** [loadTrades]: a rejected [getAll] empties the array. *)
Definition loadTrades (get_ok : bool) (a : app) : app :=
  {| tradesDb := tradesDb a;
     allTrades :=
       if get_ok then js_sort (newer_first date_ms) (rows (tradesDb a))
       else [];
     startingCapital := startingCapital a;
     currentBalance := currentBalance a |}.

(** What the user and the environment can do to the application. *)
Inductive event : Type :=
  | LoadPortfolioSettings (settings : option (option (num * num)))
  | LoadTrades (get_ok : bool)
  | HandleAddTrade (f : form) (now : string) (add_ok : bool)
  | HandleEditTrade (f : form) (now : string) (put_ok : bool)
  | ConfirmDeleteTrade (tradeId : value) (confirmed del_ok : bool)
  | HandlePortfolioUpdate (f : form)
  | ImportCSV (csvText : string) (now : string) (add_ok : nat -> bool).

(** One handler run to completion. *)
Definition step (e : event) (a : app) : app :=
  match e with
  | LoadPortfolioSettings settings => loadPortfolioSettings settings a
  | LoadTrades get_ok => loadTrades get_ok a
  | HandleAddTrade f now add_ok => handleAddTrade f now add_ok a
  | HandleEditTrade f now put_ok => handleEditTrade f now put_ok a
  | ConfirmDeleteTrade tradeId confirmed del_ok =>
      confirmDeleteTrade tradeId confirmed del_ok a
  | HandlePortfolioUpdate f => handlePortfolioUpdate f a
  | ImportCSV csvText now add_ok => importCSV csvText now add_ok a
  end.

(** The comparator [(a, b) => new Date(a.date) - new Date(b.date)] puts
    [y] after [x] when [y] is the more recent. *)
Definition older_first (y x : obj) : bool :=
  ngt (nsub (date_ms (get y "date")) (date_ms (get x "date"))) (Fin 0).

(** [[...allTrades].sort(...)]. *)
Definition chronologicalTrades (a : app) : list obj :=
  js_sort older_first (allTrades a).

(** [calculateRiskMetrics]. *)
Definition calculateRiskMetrics (a : app) : risk_metrics :=
  if (length (allTrades a) =? 0)%nat then
    {| maxDrawdown := XFin 0; currentStreak := 0;
       maxConsecutiveWins := 0; maxConsecutiveLosses := 0 |}
  else
    let trades := chronologicalTrades a in
    let d :=
      fold_left drawdown_step trades
        {| runningBalance := startingCapital a;
           peak := startingCapital a; dd_max := XFin 0 |} in
    let s :=
      fold_left streak_step trades
        {| tempWinStreak := 0; tempLossStreak := 0;
           s_maxConsecutiveWins := 0; s_maxConsecutiveLosses := 0 |} in
    {| maxDrawdown := dd_max d;
       currentStreak :=
         match last trades with
         | Some lastTrade =>
             if has_outcome "Win" lastTrade
             then Z.of_nat (tempWinStreak s)
             else if has_outcome "Loss" lastTrade
             then (- Z.of_nat (tempLossStreak s))%Z
             else 0%Z
         | None => 0%Z
         end;
       maxConsecutiveWins := s_maxConsecutiveWins s;
       maxConsecutiveLosses := s_maxConsecutiveLosses s |}.

(** The points of the cumulative P&L chart of [updatePLChart]: the date
    and the running total of each trade. *)
Definition plChart_data (a : app) : list (value * num) :=
  let trades := chronologicalTrades a in
  zip (map (fun trade => get trade "date") trades)
      (running_totals pl (Fin 0) trades).

(** The balances of the points of [updatePortfolioChart]: the starting
    capital, then the balance after each trade. *)
Definition portfolioChart_balances (a : app) : list num :=
  startingCapital a
  :: running_totals pl (startingCapital a) (chronologicalTrades a).
End WithDates.

(** The labels and the bars of [updateStrategyChart]; [None] when a
    strategy has the name of an inherited property. *)
Definition strategyChart_data (a : app) : option (list string * list num) :=
  strategyData ← rollup (fun trade => get trade "strategy") pl (allTrades a);
  Some (map fst (entries strategyData), map snd (entries strategyData)).

(** The labels and the data that [updateTickerChart] gives the pie
    chart: the ten tickers with the largest absolute P&L, and
    [data.map(Math.abs)], the absolute values of their sums. *)
Definition tickerChart_data (a : app) : option (list string * list num) :=
  tickerData ← rollup (fun trade => get trade "ticker") pl (allTrades a);
  let sortedTickers :=
    take 10
      (js_sort
         (fun y x => ngt (nsub (nabs x.2) (nabs y.2)) (Fin 0))
         (entries tickerData)) in
  let labels := map fst sortedTickers in
  let data := map snd sortedTickers in
  Some (labels, map nabs data).

End V30.

(** ** The revision without portfolio (third file of part_000)

    This revision keeps no balance: the fields [startingCapital],
    [currentBalance] and [portfolioHistory] of the journal record are left
    as they are.  Its notes and action items are not modelled. *)

Module Original.

(** [parseNumber]. *)
Definition parseNumber (v : value) : value :=
  match v with
  | VNull | VUndef => VNull
  | _ =>
      if strict_eq v (VStr "") then VNull
      else
        match parseFloat v with
        | NaN => VNull
        | Fin q => VNum (Fin q)
        end
  end.

(** [normalizeOutcome]. *)
Definition normalizeOutcome (outcome : value) : value :=
  if negb (truthy outcome) then VStr "Loss"
  else
    let upper := toUpperCase (key_text outcome) in
    if String.eqb upper "WIN" || String.eqb upper "PROFIT" then VStr "Win"
    else VStr "Loss".

(** [hay.includes(needle)]. *)
Fixpoint includes (needle hay : string) : bool :=
  String.prefix needle hay
  || match hay with
     | String _ rest => includes needle rest
     | EmptyString => false
     end.

(** The trade object of [handleAddTrade]. *)
Definition new_trade (f : form) (now : string) : obj :=
  let rd := input_value f in
  list_to_map
    [("date", rd "trade-date");
     ("ticker",
      match rd "ticker" with
      | VStr s => VStr (toUpperCase s)
      | v => v
      end);
     ("strategy", rd "strategy");
     ("strike", rd "strike");
     ("expiration", rd "expiration");
     ("option_type", rd "option-type");
     ("entry_price", float_or_null (rd "entry-price"));
     ("exit_price", float_or_null (rd "exit-price"));
     ("quantity", VNum (int_or_1 (rd "quantity")));
     ("premium", VNum (float_or_0 (rd "premium")));
     ("fees", VNum (float_or_0 (rd "fees")));
     ("net_pl", VNum (float_or_0 (rd "net-pl")));
     ("delta", float_or_null (rd "delta"));
     ("gamma", float_or_null (rd "gamma"));
     ("theta", float_or_null (rd "theta"));
     ("vega", float_or_null (rd "vega"));
     ("trade_notes", vor (rd "trade-notes") (VStr ""));
     ("decision_rationale", vor (rd "decision-rationale") (VStr ""));
     ("outcome",
      VStr (if nge (parseFloat (rd "net-pl")) (Fin 0) then "Win" else "Loss"));
     ("created_at", VStr now)].

(** [handleAddTrade]: the form is not validated here. *)
Definition handleAddTrade (f : form) (now : string) (add_ok : bool)
    (j : journal) : journal :=
  let trade := new_trade f now in
  match (if add_ok then db_add (db j) trade else None) with
  | None => j
  | Some (id, d) =>
      let trade := set trade "id" id in
      let ts := trade :: trades j in
      {| db := d; trades := ts; filteredTrades := ts;
         previewData := previewData j;
         startingCapital := startingCapital j;
         currentBalance := currentBalance j;
         portfolioHistory := portfolioHistory j |}
  end.

(** [deleteTrade]: [confirmed] is the answer to the dialog. *)
Definition deleteTrade (id : value) (confirmed del_ok : bool) (j : journal)
  : journal :=
  if negb confirmed then j
  else
    match (if del_ok then db_delete (db j) id else None) with
    | None => j
    | Some d =>
        let keep (t : obj) := negb (strict_eq (get t "id") id) in
        {| db := d;
           trades := List.filter keep (trades j);
           filteredTrades := List.filter keep (filteredTrades j);
           previewData := previewData j;
           startingCapital := startingCapital j;
           currentBalance := currentBalance j;
           portfolioHistory := portfolioHistory j |}
    end.

(** [clearAllTrades]: [confirmation] is the answer to the prompt, [null]
    when it is dismissed. *)
Definition clearAllTrades (confirmation : value) (clear_ok : bool)
    (j : journal) : journal :=
  if negb (strict_eq confirmation (VStr "DELETE ALL")) then j
  else if negb clear_ok then j
  else
    {| db := db_clear (db j); trades := []; filteredTrades := [];
       previewData := previewData j;
       startingCapital := startingCapital j;
       currentBalance := currentBalance j;
       portfolioHistory := portfolioHistory j |}.

(** The predicate that the dashboard filters and the filters of the
    history share: the dates are compared as texts. *)
Definition matches (ticker strategy dateFrom dateTo : string) (trade : obj)
  : bool :=
  negb (truthy (VStr ticker)
        && negb (strict_eq (get trade "ticker") (VStr ticker)))
  && negb (truthy (VStr strategy)
           && negb (strict_eq (get trade "strategy") (VStr strategy)))
  && negb (truthy (VStr dateFrom) && vlt (get trade "date") (VStr dateFrom))
  && negb (truthy (VStr dateTo) && vlt (VStr dateTo) (get trade "date")).

(** [applyDashboardFilters]. *)
Definition applyDashboardFilters (ticker strategy dateFrom dateTo : string)
    (j : journal) : journal :=
  {| db := db j; trades := trades j;
     filteredTrades :=
       List.filter (matches ticker strategy dateFrom dateTo) (trades j);
     previewData := previewData j;
     startingCapital := startingCapital j;
     currentBalance := currentBalance j;
     portfolioHistory := portfolioHistory j |}.

(** [filterTradeHistory]: [search] is the text of the search input as
    typed; a trade passes the search when one of its truthy values holds
    the text, case apart. *)
Definition filterTradeHistory (search ticker strategy dateFrom
    dateTo : string) (j : journal) : journal :=
  let search := toLowerCase search in
  let found (trade : obj) :=
    existsb
      (fun value =>
         truthy value && includes search (toLowerCase (key_text value)))
      (map_to_list trade).*2 in
  {| db := db j; trades := trades j;
     filteredTrades :=
       List.filter
         (fun trade =>
            negb (truthy (VStr search) && negb (found trade))
            && matches ticker strategy dateFrom dateTo trade)
         (trades j);
     previewData := previewData j;
     startingCapital := startingCapital j;
     currentBalance := currentBalance j;
     portfolioHistory := portfolioHistory j |}.

(** [cancelImport]. *)
Definition cancelImport (j : journal) : journal :=
  {| db := db j; trades := trades j; filteredTrades := filteredTrades j;
     previewData := None;
     startingCapital := startingCapital j;
     currentBalance := currentBalance j;
     portfolioHistory := portfolioHistory j |}.

(** The loop [for (const trade of this.previewData)] of [commitImport]:
    each trade of the preview gets its key written into it, and the first
    rejected request ends the loop.  The result is the database, the
    preview with the keys written so far, and whether every request went
    through. *)
Fixpoint import_loop (add_ok : nat -> bool) (index : nat) (d : store)
    (preview : list obj) : store * list obj * bool :=
  match preview with
  | [] => (d, [], true)
  | trade :: rest =>
      match (if add_ok index then db_add d trade else None) with
      | None => (d, preview, false)
      | Some (id, d') =>
          let '(d'', rest', ok) := import_loop add_ok (S index) d' rest in
          (d'', set trade "id" id :: rest', ok)
      end
  end.

Section WithDates.
Variable date_ms : value -> num.

(** [this.parseDate]'s reading of a truthy text: the day of the date in
    ISO notation, or the text itself when it is no date. *)
Variable iso_day : value -> value.

(** [parseDate]. *)
Definition parseDate (dateStr : value) : value :=
  if negb (truthy dateStr) then VStr "" else iso_day dateStr.

(** The trade that [handleFileUpload] makes of a row of the parsed
    file. *)
Definition preview_row (row : obj) : obj :=
  let number_or (k : string) (d : num) :=
    match parseNumber (get row k) with
    | VNum n => nor n d
    | _ => d
    end in
  list_to_map
    [("date", parseDate (get row "Date"));
     ("ticker",
      VStr (toUpperCase (key_text (vor (get row "Ticker") (VStr "")))));
     ("strategy", vor (get row "Strategy") (VStr ""));
     ("entry_price", parseNumber (get row "Entry_Price"));
     ("exit_price", parseNumber (get row "Exit_Price"));
     ("strike", vor (get row "Strike") (VStr ""));
     ("premium", VNum (number_or "Premium" (Fin 0)));
     ("quantity", VNum (number_or "Quantity" (Fin 1)));
     ("expiration", parseDate (get row "Expiration"));
     ("option_type", vor (get row "Option_Type") (VStr "CALL"));
     ("delta", parseNumber (get row "Delta"));
     ("gamma", parseNumber (get row "Gamma"));
     ("theta", parseNumber (get row "Theta"));
     ("vega", parseNumber (get row "Vega"));
     ("fees", VNum (number_or "Fees" (Fin (-27 # 100))));
     ("net_pl",
      VNum (match parseNumber (get row "Net_PL") with
            | VNum n =>
                if num_truthy n then n
                else number_or "Win_Loss_Amount" (Fin 0)
            | _ => number_or "Win_Loss_Amount" (Fin 0)
            end));
     ("outcome", normalizeOutcome (get row "Outcome"));
     ("trade_notes", vor (get row "Trade_Notes") (VStr ""));
     ("decision_rationale",
      vor (get row "Decision_Rationale") (VStr ""))].

(** [handleFileUpload] from the rows that the CSV parser returns
    ([None] when no file is chosen, or the parser throws): the rows
    with a date, a ticker and a strategy become the preview. *)
Definition handleFileUpload (data : option (list obj)) (j : journal)
  : journal :=
  match data with
  | None => j
  | Some rows =>
      {| db := db j; trades := trades j;
         filteredTrades := filteredTrades j;
         previewData :=
           Some (map preview_row
                   (List.filter
                      (fun row =>
                         truthy (get row "Date")
                         && truthy (get row "Ticker")
                         && truthy (get row "Strategy"))
                      rows));
         startingCapital := startingCapital j;
         currentBalance := currentBalance j;
         portfolioHistory := portfolioHistory j |}
  end.

(** [loadAllData]: a rejected request leaves the arrays as they
    were. *)
Definition loadAllData (get_ok : bool) (j : journal) : journal :=
  if get_ok then
    let ts := js_sort (newer_first date_ms) (rows (db j)) in
    {| db := db j; trades := ts; filteredTrades := ts;
       previewData := previewData j;
       startingCapital := startingCapital j;
       currentBalance := currentBalance j;
       portfolioHistory := portfolioHistory j |}
  else j.

(** [commitImport]: [mode] is the value of the checked radio button,
    [None] when none is checked (the function throws before it changes
    anything).  When a request is rejected the function ends where it
    stands: the database may be cleared, [trades] emptied and some
    trades of the preview added. *)
Definition commitImport (mode : option string) (confirmed clear_ok : bool)
    (add_ok : nat -> bool) (j : journal) : journal :=
  match previewData j with
  | None | Some [] => j
  | Some preview =>
      match mode with
      | None => j
      | Some mode =>
          let replace := String.eqb mode "replace" in
          if replace && negb confirmed then j
          else if replace && negb clear_ok then j
          else
            let d0 := if replace then db_clear (db j) else db j in
            let ts0 := if replace then [] else trades j in
            let '(d, preview', ok) := import_loop add_ok 0 d0 preview in
            if ok then
              let ts :=
                js_sort (newer_first date_ms)
                  (if replace then preview' else preview' ++ ts0) in
              {| db := d; trades := ts; filteredTrades := ts;
                 previewData := None;
                 startingCapital := startingCapital j;
                 currentBalance := currentBalance j;
                 portfolioHistory := portfolioHistory j |}
            else
              {| db := d; trades := ts0;
                 filteredTrades := filteredTrades j;
                 previewData := Some preview';
                 startingCapital := startingCapital j;
                 currentBalance := currentBalance j;
                 portfolioHistory := portfolioHistory j |}
      end
  end.

(** What the user and the environment can do to a journal. *)
Inductive event : Type :=
  | LoadAllData (get_ok : bool)
  | HandleAddTrade (f : form) (now : string) (add_ok : bool)
  | DeleteTrade (id : value) (confirmed del_ok : bool)
  | ClearAllTrades (confirmation : value) (clear_ok : bool)
  | ApplyDashboardFilters (ticker strategy dateFrom dateTo : string)
  | FilterTradeHistory (search ticker strategy dateFrom dateTo : string)
  | HandleFileUpload (data : option (list obj))
  | CommitImport (mode : option string) (confirmed clear_ok : bool)
      (add_ok : nat -> bool)
  | CancelImport.

Definition step (e : event) (j : journal) : journal :=
  match e with
  | LoadAllData get_ok => loadAllData get_ok j
  | HandleAddTrade f now add_ok => handleAddTrade f now add_ok j
  | DeleteTrade id confirmed del_ok => deleteTrade id confirmed del_ok j
  | ClearAllTrades confirmation clear_ok =>
      clearAllTrades confirmation clear_ok j
  | ApplyDashboardFilters t s from to => applyDashboardFilters t s from to j
  | FilterTradeHistory search t s from to =>
      filterTradeHistory search t s from to j
  | HandleFileUpload data => handleFileUpload data j
  | CommitImport mode confirmed clear_ok add_ok =>
      commitImport mode confirmed clear_ok add_ok j
  | CancelImport => cancelImport j
  end.

(** The journals that a run of the application goes through, from a
    fresh database. *)
Inductive reachable : journal -> Prop :=
  | reachable_new : reachable (new_journal empty_store)
  | reachable_step e j : reachable j -> reachable (step e j).
End WithDates.

Record metrics : Type := {
  totalPL : num;
  wins : nat;
  losses : nat;
  totalTrades : nat;
  winRate : xnum;
  avgWin : xnum;
  avgLoss : xnum;
  currentStreak : nat;
  streakType : string
}.

Definition has_outcome (o : string) (t : obj) : bool :=
  strict_eq (get t "outcome") (VStr o).

(** The loop of the current streak: the trades counted before the first
    one whose outcome is another. *)
Fixpoint streak_of (lastOutcome : value) (trades : list obj) : nat :=
  match trades with
  | [] => O
  | trade :: rest =>
      if strict_eq (get trade "outcome") lastOutcome
      then S (streak_of lastOutcome rest) else O
  end.

(** [calculateMetrics], the values it shows. *)
Definition calculateMetrics (j : journal) : metrics :=
  let trades := filteredTrades j in
  let winningTrades := List.filter (has_outcome "Win") trades in
  let losingTrades := List.filter (has_outcome "Loss") trades in
  let wins := length winningTrades in
  let losses := length losingTrades in
  let totalTrades := (wins + losses)%nat in
  {| totalPL := sum_pl trades;
     wins := wins;
     losses := losses;
     totalTrades := totalTrades;
     winRate :=
       if (0 <? totalTrades)%nat
       then xmul (ndiv (nnat wins) (nnat totalTrades)) (XFin 100)
       else XFin 0;
     avgWin :=
       if (0 <? length winningTrades)%nat
       then ndiv (sum_pl winningTrades) (nnat (length winningTrades))
       else XFin 0;
     avgLoss :=
       if (0 <? length losingTrades)%nat
       then ndiv (sum_pl losingTrades) (nnat (length losingTrades))
       else XFin 0;
     currentStreak :=
       match trades with
       | [] => O
       | first :: _ => streak_of (get first "outcome") trades
       end;
     streakType :=
       match trades with
       | [] => ""
       | first :: _ =>
           if strict_eq (get first "outcome") (VStr "Win") then "W" else "L"
       end |}.

End Original.

(** ** A clock for the examples *)

(** Days from 1970-01-01 to a date of the proleptic Gregorian calendar. *)
Definition days_from_civil (y m d : Z) : Z :=
  let y' := if (m <=? 2)%Z then y - 1 else y in
  let era := y' / 400 in
  let yoe := y' - era * 400 in
  let mp := (m + 9) mod 12 in
  let doy := (153 * mp + 2) / 5 + d - 1 in
  let doe := yoe * 365 + yoe / 4 - yoe / 100 + doy in
  era * 146097 + doe - 719468.

Definition days_in_month (y m : Z) : Z :=
  if (m =? 2)%Z then
    if ((y mod 4 =? 0) && (negb (y mod 100 =? 0) || (y mod 400 =? 0)))%Z
    then 29 else 28
  else if ((m =? 4) || (m =? 6) || (m =? 9) || (m =? 11))%Z then 30 else 31.

(** The time value of [new Date(v)] for a string of the form YYYY-MM-DD,
    the format of a date input: midnight UTC of that day.  Every other
    value is an invalid date here. *)
Definition iso_date_ms (v : value) : num :=
  match v with
  | VStr s =>
      match take_digits 0 0 s with
      | (y, 4%nat, String "-" s1) =>
          match take_digits 0 0 s1 with
          | (m, 2%nat, String "-" s2) =>
              match take_digits 0 0 s2 with
              | (d, 2%nat, EmptyString) =>
                  if ((1 <=? m) && (m <=? 12) && (1 <=? d)
                      && (d <=? days_in_month y m))%Z
                  then nZ (days_from_civil y m d * 86400000)
                  else NaN
              | _ => NaN
              end
          | _ => NaN
          end
      | _ => NaN
      end
  | _ => NaN
  end.

(** ** Specifications and examples *)

(** *** Sums of P&L *)


(** *** Examples for the metrics *)


(** An application of version 3.0 whose only trade is a win of 0. *)
Definition flat_win : V30.app :=
  {| V30.tradesDb := empty_store;
     V30.allTrades :=
       [list_to_map [("id", VNum (Fin 1)); ("outcome", VStr "Win");
                     ("net_pl", VNum (Fin 0))]];
     V30.startingCapital := Fin 10000;
     V30.currentBalance := Fin 10000 |}.

(** A journal of version 2.0 whose filtered trades are a win of 5 and a
    loss of 2. *)
Definition win_and_loss : journal :=
  let ts :=
    [list_to_map [("id", VNum (Fin 1)); ("net_pl", VNum (Fin 5))];
     list_to_map [("id", VNum (Fin 2)); ("net_pl", VNum (Fin (-2)))]] in
  {| db := {| rows := ts; keygen := 3 |}; trades := ts; filteredTrades := ts;
     previewData := None; startingCapital := Fin 0; currentBalance := Fin 3;
     portfolioHistory := [] |}.

(** *** Drawdown *)

(** The drawdown (peak - balance) / peak at each point of a sequence of
    balances, the peak being the highest balance so far, the starting value
    included. *)
Fixpoint drawdowns (peak : Q) (balances : list Q) : list Q :=
  match balances with
  | [] => []
  | b :: rest =>
      let p := Qmax peak b in ((p - b) / p)%Q :: drawdowns p rest
  end.

(** [q] is the greatest element of [ds], or 0 when there is none. *)
Definition is_max_of (ds : list Q) (q : Q) : Prop :=
  Forall (fun d => (d <= q)%Q) ds /\
  match ds with
  | [] => (q == 0)%Q
  | _ => Exists (fun d => (q == d)%Q) ds
  end.

(** A journal whose history holds the given balances. *)
Definition with_history (capital : Q) (balances : list Q) : journal :=
  {| db := empty_store; trades := []; filteredTrades := [];
     previewData := None;
     startingCapital := Fin capital;
     currentBalance := Fin (List.last balances capital);
     portfolioHistory :=
       map (fun b => {| h_date := VStr ""; h_balance := Fin b;
                        h_change := Fin 0; h_type := "trade";
                        h_timestamp := "" |}) balances |}.

(** The balance sequence of the specification's example. *)
Definition example_balances : list Q := [100; 120; 90; 130]%Q.

(** *** The trade of the example *)

(** The numbers of the specification's example, typed into the add form
    and into the edit form. *)
Definition add_form_19 (ticker : string) (f : form) : form :=
  <["ticker" := ticker]>
    (<["entry-price" := "100"]>
       (<["exit-price" := "110"]>
          (<["quantity" := "2"]> (<["premium" := "0"]> (<["fees" := "-1"]> f))))).

Definition edit_form_19 (f : form) : form :=
  <["edit-entry-price" := "100"]>
    (<["edit-exit-price" := "110"]>
       (<["edit-quantity" := "2"]>
          (<["edit-premium" := "0"]> (<["edit-fees" := "-1"]> f)))).

(** A filled add form with those numbers. *)
Definition example_add_form : form :=
  add_form_19 "aapl"
    (list_to_map [("trade-date", "2024-03-01"); ("strategy", "Covered Call")]).

(** *** The invariant of the journal *)

(** Two records of the list with the same key are the same record. *)
Definition keyed (l : list obj) : Prop :=
  forall x y, x ∈ l -> y ∈ l ->
    strict_eq (get x "id") (get y "id") = true -> x = y.

(** Every numeric key in use is below the next generated key. *)
Definition below_keygen (s : store) : Prop :=
  Forall (fun o => forall q, get o "id" = VNum (Fin q) ->
                     (q < inject_Z (keygen s))%Q) (rows s).

(** No two records of the list have the same key. *)
Fixpoint distinct_keys (l : list obj) : Prop :=
  match l with
  | [] => True
  | x :: rest =>
      Forall (fun y => strict_eq (get x "id") (get y "id") = false) rest /\
      distinct_keys rest
  end.

Definition store_ok (s : store) : Prop :=
  distinct_keys (rows s) /\ below_keygen s.

(** The displayed trades are among the trades in memory, and these are
    among the records of the database. *)
Definition journal_ok (j : journal) : Prop :=
  filteredTrades j ⊆+ trades j /\ trades j ⊆+ rows (db j) /\ store_ok (db j).

(** Replacing the first record with a given key in a list and in a larger
    list, as handleEditTrade does for the two arrays. *)
Definition replace_first (p : obj -> bool) (u : obj) (l : list obj) : list obj :=
  match findIndex p l with
  | Some index => <[index := u]> l
  | None => l
  end.

(** The loop of commitImport keeps the trades in memory among the records
    of the database. *)
Definition acc_ok (a : V20.import_acc) : Prop :=
  V20.a_trades a ⊆+ rows (V20.a_db a) /\ store_ok (V20.a_db a).

(** The handler of the edit form. *)
Definition is_edit (e : V23.event) : bool :=
  match e with
  | V23.HandleEditTrade _ _ _ => true
  | _ => false
  end.

(** A journal after one trade was added through the form. *)
Definition one_trade_journal : journal :=
  V23.handleAddTrade example_add_form "2024-03-01T10:00:00.000Z" true
    (new_journal empty_store).

(** *** Adding and deleting *)

(** A journal of version 3.0 that holds one losing trade of -50, added to a
    balance of 10000. *)
Definition one_loss : V30.app :=
  {| V30.tradesDb :=
       {| rows := [list_to_map [("id", VNum (Fin 1)); ("outcome", VStr "Loss");
                                ("net_pl", VNum (Fin (-50)))]];
          keygen := 2 |};
     V30.allTrades :=
       [list_to_map [("id", VNum (Fin 1)); ("outcome", VStr "Loss");
                     ("net_pl", VNum (Fin (-50)))]];
     V30.startingCapital := Fin 10000;
     V30.currentBalance := Fin 9950 |}.

(** The add form with the three required fields filled in. *)
Definition filled_form (date ticker strategy : string) (f : form) : form :=
  <["trade-date" := date]> (<["ticker" := ticker]> (<["strategy" := strategy]> f)).

(** *** Rows of an import *)

(** The line break of a file. *)
Definition newline : string := String "010" EmptyString.

(** A row lacks a required field: the date or the ticker. *)
Definition rejected (trade : obj) : bool :=
  V23.lacks trade "date" || V23.lacks trade "ticker".

(** Version 2.0: the object that [headers.forEach] fills from the values
    of a line. *)
Definition v20_raw_trade (headers : list string) (line : string) : obj :=
  forEach_header (at_index (V20.values_of line)) headers 0 ∅.

(** Version 2.0: the line has as many values as the header has columns. *)
Definition v20_fits (headers : list string) (line : string) : bool :=
  (length (V20.values_of line) =? length headers)%nat.

(** A file whose first data row has a date and a ticker and no third
    value. *)
Definition short_row_csv : string :=
  "date,ticker,net_pl" +:+ newline +:+ "2024-01-05,AAPL" +:+ newline
  +:+ "2024-01-06,MSFT,5" +:+ newline.

(** A file with one complete row, and the same file with a row without
    ticker before it. *)
Definition complete_csv : string :=
  "date,ticker,net_pl" +:+ newline +:+ "2024-01-06,MSFT,5" +:+ newline.

Definition no_ticker_csv : string :=
  "date,ticker,net_pl" +:+ newline +:+ "2024-01-05,,7" +:+ newline
  +:+ "2024-01-06,MSFT,5" +:+ newline.

(** The tickers of a batch. *)
Definition tickers (batch : list obj) : list value :=
  map (fun t => get t "ticker") batch.

(** A row of a CSV file of version 3.0 with a loss and neither a fees nor an
    outcome column. *)
Definition bare_loss_row : obj :=
  list_to_map [("date", VStr "2024-01-05"); ("ticker", VStr "aapl");
               ("strategy", VStr "Iron Condor"); ("net_pl", VStr "-5")].

(** *** Files for the import and the export *)

(** A field between double quotes. *)
Definition quoted (s : string) : string :=
  String dquote s +:+ String dquote EmptyString.

(** A file with one trade, as a user would import it. *)
Definition one_trade_csv : string :=
  "date,ticker,net_pl" +:+ newline +:+ "2024-01-05,aapl,5" +:+ newline.

(** Importing a file into an empty journal of version 2.4: parse, then
    commit in append mode. *)
Definition import_v24 (csvContent now : string) : journal :=
  V24.commitImport iso_date_ms VUndef true true (fun _ => true)
    (V24.parseCSV csvContent now (new_journal empty_store)).

(** The persisted fields of a trade that the export writes in a column
    that the import reads back as a number or a text. *)
Definition persisted (t : obj) : list value :=
  map (get t) ["date"; "ticker"; "strategy"; "quantity"; "premium"; "fees";
               "net_pl"; "outcome"].

(** A file with two trades for version 3.0, the strategy of the second
    with a comma. *)
Definition two_trades_csv : string :=
  "date,ticker,strategy,net_pl" +:+ newline
  +:+ "2024-01-05,aapl,Covered Call,5" +:+ newline
  +:+ "2024-01-06,msft," +:+ quoted "Put, rolled" +:+ ",-3" +:+ newline.

(** Importing a file into an empty journal of version 3.0. *)
Definition import_v30 (csvText now : string) : V30.app :=
  V30.importCSV csvText now (fun _ => true) (V30.new_app empty_store).

(** The exported fields of a trade of version 3.0. *)
Definition exported (t : obj) : list value :=
  map (get t) V30.export_headers.

(** *** Cells of a line *)

(** A cell of a CSV line: its text, and whether it is written between
    double quotes, the quotes of the text doubled. *)
Definition cell_text (c : bool * string) : string :=
  if c.1 then quoted (double_quotes c.2) else c.2.

(** A cell written without quotes holds neither a comma nor a quote. *)
Definition cell_ok (c : bool * string) : bool :=
  c.1 || negb (includes_char "," c.2 || includes_char dquote c.2).

(** The line: the cells joined by commas. *)
Definition line_of (cells : list (bool * string)) : string :=
  join "," (map cell_text cells).

(** The occurrences of a character in a string. *)
Fixpoint count_char (c : ascii) (s : string) : nat :=
  match s with
  | EmptyString => O
  | String d r => ((if Ascii.eqb d c then 1 else 0) + count_char c r)%nat
  end.

(** The commas in the texts of the cells. *)
Definition commas_in (cells : list (bool * string)) : nat :=
  list_sum (map (fun c => count_char "," c.2) cells).

(** A data line whose strategy holds a comma, and its header. *)
Definition strategy_header : string := "date,ticker,strategy,net_pl".

Definition strategy_cells : list (bool * string) :=
  [(false, "2024-01-05"); (false, "AAPL"); (true, "Covered Call, rolled");
   (false, "5")].

Definition strategy_line : string := line_of strategy_cells.

(** Version 3.0 looks one character ahead at a quote: the text that follows
    a closing quote does not start with a quote. *)
Definition no_quote_first (rest : string) : Prop :=
  match rest with
  | String ch _ => Ascii.eqb ch dquote = false
  | EmptyString => True
  end.

(** The keys that the import of version 2.4 makes of the header line of
    its own export. *)
Definition reimported_keys : list string :=
  V24.headers_of (join "," V24.export_headers).

(** The file that version 2.4 exports after the import of the file with one
    trade, and the batch that it parses from that file. *)
Definition exported_csv : string :=
  default "" (V24.exportToCSV
                (import_v24 one_trade_csv "2024-03-01T10:00:00.000Z")).

Definition reimported_batch : list obj :=
  match V24.parse_batch exported_csv "2024-03-02T10:00:00.000Z" with
  | Some (batch, _) => batch
  | None => []
  end.

(** *** Field keys *)

(** An upper-case letter of ASCII. *)
Definition is_upper (c : ascii) : bool :=
  let n := N_of_ascii c in ((65 <=? n) && (n <=? 90))%N.

(** Every character of the string satisfies [p]. *)
Fixpoint all_chars (p : ascii -> bool) (s : string) : bool :=
  match s with
  | EmptyString => true
  | String c r => p c && all_chars p r
  end.

(** A character of a field key: neither white space nor an upper-case
    letter. *)
Definition key_char (c : ascii) : bool := negb (is_space c || is_upper c).

(** *** The balance of version 3.0 *)

(** The trades in memory of version 3.0 are records of the database, and
    no two records of the database have the same key. *)
Definition app_ok (a : V30.app) : Prop :=
  V30.allTrades a ⊆+ rows (V30.tradesDb a) /\ store_ok (V30.tradesDb a).

(** The state of version 3.0 after the handlers of [events] have run, one
    after the other, from a fresh database. *)
Definition v30_run (date_ms : value -> num) (events : list V30.event)
  : V30.app :=
  fold_left (fun a e => V30.step date_ms e a) events
    (V30.new_app empty_store).

(** The part of the balance that the trades do not account for: the
    balance card of the dashboard minus its total P&L card. *)
Definition deposits (a : V30.app) : num :=
  nsub (V30.currentBalance a) (V30.totalPL (V30.calculateMetrics a)).

(** The P&L of a trade and of a list of trades as rationals, for a
    reading [pl] of the P&L that gives a number. *)
Definition qof (pl : obj -> num) (t : obj) : Q :=
  match pl t with
  | Fin q => q
  | NaN => 0
  end.

Fixpoint qsum (pl : obj -> num) (l : list obj) : Q :=
  match l with
  | [] => 0
  | t :: rest => qof pl t + qsum pl rest
  end.

(** An application with two trades, a win of 120 and a loss of 50. *)
Definition two_trades_app : V30.app :=
  V30.handleAddTrade
    (list_to_map [("tradeDate", "2024-03-02"); ("ticker", "msft");
                  ("strategy", "Cash Secured Put"); ("netPL", "-50");
                  ("outcome", "Loss")])
    "2024-03-02T10:00:00.000Z" true
    (V30.handleAddTrade
       (list_to_map [("tradeDate", "2024-03-01"); ("ticker", "aapl");
                     ("strategy", "Covered Call"); ("netPL", "120");
                     ("outcome", "Win")])
       "2024-03-01T10:00:00.000Z" true (V30.new_app empty_store)).

(** *** Handlers that set the balance *)

(** The handlers of version 3.0 that store a balance instead of adding to
    it. *)
Definition sets_balance (e : V30.event) : bool :=
  match e with
  | V30.LoadPortfolioSettings _ | V30.HandlePortfolioUpdate _ => true
  | _ => false
  end.

(** *** The books of version 2.3 *)

(** The trade holds a number in [net_pl]. *)
Definition numeric_pl (t : obj) : Prop := exists n, get t "net_pl" = VNum n.

(** The books of a journal of version 2.3: the records of the database have
    distinct keys and hold a number in [net_pl], so do the trades of the
    preview, and the balance and the starting capital are finite. *)
Definition books_ok (j : journal) : Prop :=
  store_ok (db j) /\
  Forall numeric_pl (rows (db j)) /\
  (forall l, previewData j = Some l -> Forall numeric_pl l) /\
  (exists b, currentBalance j = Fin b) /\
  (exists c, startingCapital j = Fin c).

(** The part of the balance that the records of the database do not
    account for. *)
Definition ledger (j : journal) : num :=
  nsub (currentBalance j) (sum_pl (rows (db j))).

(** The handlers of version 2.3 that change the balance, if at all, by the
    P&L of the records they write or delete: all but a reload, the two
    portfolio handlers, an import in replace mode and a deletion that the
    database rejects. *)
Definition tracked23 (e : V23.event) : bool :=
  match e with
  | V23.Reload => false
  | V23.LoadPortfolioSettings _ _ => false
  | V23.HandlePortfolioSettings _ => false
  | V23.CommitImport mode _ _ _ =>
      negb (strict_eq (vor mode (VStr "append")) (VStr "replace"))
  | V23.DeleteTrade _ confirmed _ del_ok => del_ok || negb confirmed
  | _ => true
  end.

(** *** Running balances and streaks *)

(** The values of a variable that starts at [start] and has the P&L of
    each trade added to it, as rationals. *)
Fixpoint qrunning (pl : obj -> num) (start : Q) (l : list obj) : list Q :=
  match l with
  | [] => []
  | t :: rest =>
      let next := (start + qof pl t)%Q in next :: qrunning pl next rest
  end.

(** [Number.MAX_SAFE_INTEGER]. *)
Definition max_safe : Q := inject_Z (2 ^ 53 - 1).

(** A trade whose [net_pl] holds a number of the safe range.  Sums of such
    amounts stay finite Numbers: an array has fewer than 2^32 elements. *)
Definition safe_pl (t : obj) : Prop :=
  exists q, get t "net_pl" = VNum (Fin q) /\ (Qabs q <= max_safe)%Q.

(** A trade whose date [new Date] can read. *)
Definition readable_date (date_ms : value -> num) (t : obj) : Prop :=
  exists d, date_ms (get t "date") = Fin d.

(** The trade counts for the streaks: its outcome is Win or Loss. *)
Definition decided (t : obj) : bool :=
  V30.has_outcome "Win" t || V30.has_outcome "Loss" t.

(** *** Tables of the charts *)

(** The summed P&L of the trades whose key has the text [k]. *)
Definition bucket (key : obj -> value) (pl : obj -> num) (k : string)
    (trades : list obj) : Q :=
  qsum pl
    (List.filter (fun t => String.eqb (key_text (key t)) k) trades).

(** A stored number as a rational. *)
Definition qnum (n : num) : Q :=
  match n with
  | Fin q => q
  | NaN => 0
  end.

(** The sum of the values of a table, and of a list of numbers. *)
Fixpoint tsum (t : table) : Q :=
  match t with
  | [] => 0
  | e :: rest => qnum e.2 + tsum rest
  end.

Definition nsum (l : list num) : num := foldr nadd (Fin 0) l.

(** [arr.reduce((sum, t) => sum + pl(t), 0)] for a reading [pl] of the
    P&L: the sum that the metrics take, from zero and in the order of the
    list. *)
Definition reduce_pl (pl : obj -> num) (l : list obj) : num :=
  fold_left (fun sum t => nadd sum (pl t)) l (Fin 0).

(** The trade has the key with the text [k]. *)
Definition keyed_by (key : obj -> value) (k : string) (t : obj) : bool :=
  String.eqb (key_text (key t)) k.

(** What the loop of a chart has added up in the table [t] after the
    trades of [l]: one property per key, which holds the summed P&L of the
    trades with that key. *)
Definition rolled (key : obj -> value) (pl : obj -> num) (l : list obj)
    (t : table) : Prop :=
  NoDup t.*1 /\
  (forall k, table_get t k = None ->
     Forall (fun x => keyed_by key k x = false) l) /\
  (forall k v, table_get t k = Some v ->
     exists q, v = Fin q /\ (q == bucket key pl k l)%Q /\
               Exists (fun x => keyed_by key k x = true) l) /\
  (tsum t == qsum pl l)%Q.

(** *** Signs of the averages *)

(** An average that is not negative, and one that is negative. *)
Definition not_negative (x : xnum) : Prop :=
  match x with
  | XFin q => (0 <= q)%Q
  | XPosInf => True
  | _ => False
  end.

Definition negative (x : xnum) : Prop :=
  match x with
  | XFin q => (q < 0)%Q
  | XNegInf => True
  | _ => False
  end.

(** *** Texts *)

(** The value is a text. *)
Definition is_text (v : value) : Prop := exists s, v = VStr s.

(** *** Cells of the export of version 3.0 *)



(** *** The revision without portfolio *)

(** A trade of the revision without portfolio as its handlers write it:
    the outcome is Win or Loss and [net_pl] holds a number. *)
Definition settled (t : obj) : Prop :=
  (get t "outcome" = VStr "Win" \/ get t "outcome" = VStr "Loss") /\
  numeric_pl t.

(** The journal of the revision without portfolio: the keys of the
    database are distinct, the trades in memory are records of the
    database, and every trade in the database, on display or in the
    preview is settled. *)
Definition original_ok (j : journal) : Prop :=
  store_ok (db j) /\ trades j ⊆+ rows (db j) /\
  Forall settled (rows (db j)) /\ Forall settled (filteredTrades j) /\
  (forall l, previewData j = Some l -> Forall settled l).

(** An import in replace mode. *)
Definition replaces (e : Original.event) : bool :=
  match e with
  | Original.CommitImport (Some mode) _ _ _ => String.eqb mode "replace"
  | _ => false
  end.

(** The form of a winning trade, and the rows of a parsed file, for the
    revision without portfolio. *)
Definition original_form : form :=
  list_to_map [("trade-date", "2024-03-01"); ("ticker", "aapl");
               ("strategy", "Covered Call"); ("net-pl", "120")].

Definition original_rows : list obj :=
  [list_to_map [("Date", VStr "2024-01-05"); ("Ticker", VStr "msft");
                ("Strategy", VStr "Cash Secured Put");
                ("Net_PL", VStr "-50"); ("Outcome", VStr "loss")];
   list_to_map [("Date", VStr "2024-01-06"); ("Ticker", VStr "nvda");
                ("Strategy", VStr "Covered Call");
                ("Net_PL", VStr "75"); ("Outcome", VStr "Profit")]].

(** The journal after the winning trade was added and the file was
    parsed. *)
Definition original_journal : journal :=
  Original.handleFileUpload (fun v => v) (Some original_rows)
    (Original.handleAddTrade original_form "2024-03-01T10:00:00.000Z" true
       (new_journal empty_store)).

(** *** Portfolio history in date order *)

(** A value that [new Date] reads as a valid date. *)
Definition valid_day (date_ms : value -> num) (v : value) : Prop :=
  exists q, date_ms v = Fin q.

(** The time value of the date of a history entry. *)
Definition entry_day (date_ms : value -> num) (e : history_entry) : Q :=
  qnum (date_ms (h_date e)).

(** A portfolio history whose dates are valid and ascend. *)
Definition in_date_order (date_ms : value -> num) (l : list history_entry)
  : Prop :=
  Forall (fun e => valid_day date_ms (h_date e)) l /\
  StronglySorted (fun a b => (entry_day date_ms a <= entry_day date_ms b)%Q) l.

(** ** Facts *)

(** *** Sums of P&L *)

Global Instance num_eq_equiv : Equivalence num_eq.
Proof.
  split.
  - intros [|p]; simpl; [trivial | reflexivity].
  - intros [|p] [|q]; simpl; auto. intros H; symmetry; exact H.
  - intros [|p] [|q] [|r]; simpl; auto; try tauto.
    intros H1 H2; etransitivity; eauto.
Qed.

Lemma nadd_num_eq a a' b b' :
  num_eq a a' -> num_eq b b' -> num_eq (nadd a b) (nadd a' b').
Proof.
  destruct a, a', b, b'; simpl; try tauto. intros -> ->. reflexivity.
Qed.


Lemma nadd_comm a b : num_eq (nadd a b) (nadd b a).
Proof. destruct a, b; simpl; auto. apply Qplus_comm. Qed.




(** *** Wins and losses *)

Lemma Qeq_bool_false_pos (q : Q) : (0 < q)%Q -> Qeq_bool q 0 = false.
Proof.
  intros H. destruct (Qeq_bool q 0) eqn:E; [|reflexivity].
  apply Qeq_bool_eq in E. rewrite E in H. exfalso. exact (Qlt_irrefl 0 H).
Qed.

Lemma inject_nat_pos (n : nat) : (0 < n)%nat -> (0 < inject_Z (Z.of_nat n))%Q.
Proof. intros H. change 0%Q with (inject_Z 0). rewrite <- Zlt_Qlt. lia. Qed.

Lemma ndiv_counts (w n : nat) :
  (0 < n)%nat -> (w <= n)%nat ->
  exists q, ndiv (nnat w) (nnat n) = XFin q /\ (0 <= q)%Q /\ (q <= 1)%Q.
Proof.
  intros Hn Hw. unfold ndiv, nnat.
  pose proof (inject_nat_pos n Hn) as Hpos.
  rewrite (Qeq_bool_false_pos _ Hpos).
  eexists; split; [reflexivity|]. split.
  - apply Qle_shift_div_l; [exact Hpos|]. rewrite Qmult_0_l.
    change 0%Q with (inject_Z 0). rewrite <- Zle_Qle. lia.
  - apply Qle_shift_div_r; [exact Hpos|]. rewrite Qmult_1_l.
    rewrite <- Zle_Qle. lia.
Qed.

Lemma is_win_fin t : V20.is_win t = true -> exists q, pl_or_0 t = Fin q /\ (0 <= q)%Q.
Proof.
  unfold V20.is_win, nge. destruct (pl_or_0 t) as [|q]; [discriminate|].
  intros H. exists q. split; [reflexivity|]. apply Qle_bool_iff. exact H.
Qed.

Lemma is_loss_fin t : V20.is_loss t = true -> exists q, pl_or_0 t = Fin q /\ (q < 0)%Q.
Proof.
  unfold V20.is_loss, nlt, ngt, Qltb. destruct (pl_or_0 t) as [|q]; [discriminate|].
  intros H. exists q. split; [reflexivity|].
  apply Qnot_le_lt. intros Hle. apply Qle_bool_iff in Hle. rewrite Hle in H. discriminate.
Qed.

Lemma fold_wins l : forall a, (0 <= a)%Q ->
  Forall (fun t => V20.is_win t = true) l ->
  exists b, fold_left (fun sum t => nadd sum (pl_or_0 t)) l (Fin a) = Fin b /\ (0 <= b)%Q.
Proof.
  induction l as [|t l IH]; intros a Ha Hall; simpl.
  - exists a; auto.
  - inversion Hall as [|? ? Ht Hl]; subst.
    destruct (is_win_fin t Ht) as (q & -> & Hq). simpl.
    apply IH; [|exact Hl].
    rewrite <- (Qplus_0_l 0). apply Qplus_le_compat; assumption.
Qed.

Lemma fold_losses l : forall a, (a <= 0)%Q ->
  Forall (fun t => V20.is_loss t = true) l ->
  exists b, fold_left (fun sum t => nadd sum (pl_or_0 t)) l (Fin a) = Fin b /\ (b <= a)%Q
            /\ (l <> [] -> (b < 0)%Q).
Proof.
  induction l as [|t l IH]; intros a Ha Hall; simpl.
  - exists a. split; [reflexivity|]. split; [apply Qle_refl|]. congruence.
  - inversion Hall as [|? ? Ht Hl]; subst.
    destruct (is_loss_fin t Ht) as (q & -> & Hq). simpl.
    assert (Hlt : (a + q < 0)%Q).
    { rewrite <- (Qplus_0_l 0), (Qplus_comm a q).
      apply Qplus_lt_le_compat; assumption. }
    destruct (IH (a + q)%Q (Qlt_le_weak _ _ Hlt) Hl) as (b & Hb & Hle & _).
    exists b. split; [exact Hb|]. split.
    + eapply Qle_trans; [exact Hle|].
      rewrite <- (Qplus_0_r a) at 2. apply Qplus_le_compat; [apply Qle_refl|].
      apply Qlt_le_weak; exact Hq.
    + intros _. eapply Qle_lt_trans; eassumption.
Qed.

Lemma filter_Forall_true {A} (f : A -> bool) l : Forall (fun t => f t = true) (List.filter f l).
Proof. apply Forall_forall. intros x Hx. apply list_elem_of_In, filter_In in Hx. tauto. Qed.

Lemma wins_sum l : exists gw, sum_pl (List.filter V20.is_win l) = Fin gw /\ (0 <= gw)%Q.
Proof. apply fold_wins; [apply Qle_refl | apply filter_Forall_true]. Qed.

Lemma losses_sum l :
  exists gl, sum_pl (List.filter V20.is_loss l) = Fin gl /\ (gl <= 0)%Q
             /\ (List.filter V20.is_loss l <> [] -> (gl < 0)%Q).
Proof. apply fold_losses; [apply Qle_refl | apply filter_Forall_true]. Qed.

(** *** Total P&L and win rate *)

Lemma nor_fin a : exists q, nor a (Fin 0) = Fin q.
Proof. unfold nor. destruct a as [|q]; simpl; [eauto|]. destruct (negb _); eauto. Qed.

Lemma v30_pl_fin t : exists q, V30.pl t = Fin q.
Proof. apply nor_fin. Qed.

Lemma v30_fold_fin l : forall a,
  exists s, fold_left (fun sum t => nadd sum (V30.pl t)) l (Fin a) = Fin s.
Proof.
  induction l as [|t l IH]; intros a; simpl; [eauto|].
  destruct (v30_pl_fin t) as [q ->]. apply IH.
Qed.

Lemma v30_sum_fin l : exists s, V30.sum_pl l = Fin s.
Proof. apply v30_fold_fin. Qed.






(** *** Profit factor *)

Lemma Qabs_neg_pos (q : Q) : (q < 0)%Q -> (0 < Qabs q)%Q.
Proof.
  intros H. rewrite (Qabs_neg q (Qlt_le_weak _ _ H)).
  change 0%Q with (- 0)%Q. apply Qopp_lt_compat. exact H.
Qed.

Lemma Qltb_true (p q : Q) : Qltb p q = true <-> (p < q)%Q.
Proof.
  unfold Qltb. split.
  - intros H. apply Qnot_le_lt. intros Hle. apply Qle_bool_iff in Hle.
    rewrite Hle in H. discriminate.
  - intros H. destruct (Qle_bool q p) eqn:E; [|reflexivity].
    apply Qle_bool_iff in E. exfalso. exact (Qlt_not_le _ _ H E).
Qed.

Lemma length_filter_zero {A} (f : A -> bool) (l : list A) :
  (0 <? length (List.filter f l))%nat = false -> List.filter f l = [].
Proof. intros H. apply Nat.ltb_ge in H. apply length_zero_iff_nil. lia. Qed.

Lemma length_filter_pos {A} (f : A -> bool) (l : list A) :
  (0 <? length (List.filter f l))%nat = true -> List.filter f l <> [].
Proof. intros H Hnil. rewrite Hnil in H. discriminate. Qed.

(** The profit factor of version 2.0, by cases on the losing trades. *)
Lemma v20_profit_factor (j : journal) :
  let m := V20.calculateMetrics j in
  let wins := List.filter V20.is_win (filteredTrades j) in
  let losses := List.filter V20.is_loss (filteredTrades j) in
  (losses <> [] ->
   nge (sum_pl wins) (Fin 0) = true /\
   ngt (nabs (sum_pl losses)) (Fin 0) = true /\
   V20.profitFactor m = ndiv (sum_pl wins) (nabs (sum_pl losses))) /\
  (losses = [] ->
   V20.profitFactor m = XFin (match wins with [] => 0 | _ => 999 end)).
Proof.
  intros m wins losses. subst m. unfold V20.calculateMetrics.
  destruct (length (filteredTrades j) =? 0)%nat eqn:E; cbn [V20.profitFactor].
  - apply Nat.eqb_eq, length_zero_iff_nil in E.
    subst wins losses. rewrite E. simpl.
    split; [congruence | reflexivity].
  - fold wins losses.
    destruct (wins_sum (filteredTrades j)) as (gw & Hgw & Hgw0).
    destruct (losses_sum (filteredTrades j)) as (gl & Hgl & _ & Hglneg).
    fold wins in Hgw. fold losses in Hgl, Hglneg.
    destruct (0 <? length losses)%nat eqn:El.
    + split.
      * intros Hne. pose proof (Qabs_neg_pos gl (Hglneg Hne)) as Habs.
        rewrite Hgw, Hgl. cbn [nge nabs ngt].
        split; [apply Qle_bool_iff, Hgw0|].
        split; [apply Qltb_true, Habs | reflexivity].
      * intros Hnil. rewrite Hnil in El. discriminate.
    + pose proof (length_filter_zero _ _ El) as Hnil. fold losses in Hnil.
      split; [intros Hne; contradiction|].
      intros _. destruct wins; reflexivity.
Qed.

(** The profit factor of version 3.0, by cases on the gross losses. *)
Lemma v30_profit_factor (a : V30.app) :
  let m := V30.calculateMetrics a in
  let grossWins :=
    V30.sum_pl (List.filter (V30.has_outcome "Win") (V30.allTrades a)) in
  let grossLosses :=
    nabs (V30.sum_pl (List.filter (V30.has_outcome "Loss") (V30.allTrades a))) in
  V30.profitFactor m
  = if ngt grossLosses (Fin 0) then ndiv grossWins grossLosses
    else if ngt grossWins (Fin 0) then XFin 999 else XFin 0.
Proof.
  intros m grossWins grossLosses. subst m. unfold V30.calculateMetrics.
  destruct (length (V30.allTrades a) =? 0)%nat eqn:E; cbn [V30.profitFactor].
  - apply Nat.eqb_eq, length_zero_iff_nil in E.
    subst grossWins grossLosses. rewrite E. reflexivity.
  - reflexivity.
Qed.

(** C6: the profit factor and its sentinels.  In version 2.0 it is the
    gross wins over the absolute gross losses when there are losing trades,
    a quotient of a sum that is not negative by one that is positive, and
    without losing trades the sentinel 999 if there are winning trades and
    0 if there are none.  In version 3.0 it is the gross wins over the
    absolute gross losses when these are positive, and otherwise the
    sentinel 999 if the gross wins are positive and 0 if they are not. *)
Theorem C6_profit_factor_and_its_sentinels :
  (forall j : journal,
     let m := V20.calculateMetrics j in
     let wins := List.filter V20.is_win (filteredTrades j) in
     let losses := List.filter V20.is_loss (filteredTrades j) in
     (losses <> [] ->
      nge (sum_pl wins) (Fin 0) = true /\
      ngt (nabs (sum_pl losses)) (Fin 0) = true /\
      V20.profitFactor m = ndiv (sum_pl wins) (nabs (sum_pl losses))) /\
     (losses = [] ->
      V20.profitFactor m = XFin (match wins with [] => 0 | _ => 999 end))) /\
  (forall a : V30.app,
     let m := V30.calculateMetrics a in
     let grossWins :=
       V30.sum_pl (List.filter (V30.has_outcome "Win") (V30.allTrades a)) in
     let grossLosses :=
       nabs (V30.sum_pl
               (List.filter (V30.has_outcome "Loss") (V30.allTrades a))) in
     (ngt grossLosses (Fin 0) = true ->
      V30.profitFactor m = ndiv grossWins grossLosses) /\
     (ngt grossLosses (Fin 0) = false ->
      V30.profitFactor m
      = XFin (if ngt grossWins (Fin 0) then 999 else 0))).
Proof.
  split.
  - intros j. apply v20_profit_factor.
  - intros a m grossWins grossLosses.
    pose proof (v30_profit_factor a) as Hpf. cbv zeta in Hpf.
    fold m grossWins grossLosses in Hpf. rewrite Hpf.
    split; intros ->; [reflexivity|].
    destruct (ngt grossWins (Fin 0)); reflexivity.
Qed.

(** C6, counterexample: in version 3.0 a journal whose only trade is a win
    with a P&L of zero has winning trades and no losses, and its profit
    factor is 0, not 999. *)
Lemma C6_flat_win_has_profit_factor_zero :
  List.filter (V30.has_outcome "Win") (V30.allTrades flat_win) <> [] /\
  List.filter (V30.has_outcome "Loss") (V30.allTrades flat_win) = [] /\
  V30.profitFactor (V30.calculateMetrics flat_win) = XFin 0.
Proof.
  split; [|split; vm_compute; reflexivity].
  intros H. apply (f_equal length) in H. vm_compute in H. discriminate.
Qed.

(** C6, an instance: with a win of 5 and a loss of 2 the profit factor of
    version 2.0 is the quotient of the two sums, 5 / 2. *)
Lemma C6_profit_factor_witness :
  V20.profitFactor (V20.calculateMetrics win_and_loss)
  = ndiv (sum_pl (List.filter V20.is_win (filteredTrades win_and_loss)))
         (nabs (sum_pl (List.filter V20.is_loss (filteredTrades win_and_loss)))).
Proof.
  apply (proj1 (proj1 C6_profit_factor_and_its_sentinels win_and_loss)).
  intros H. apply (f_equal length) in H. vm_compute in H. discriminate.
Defined.

(** *** Maximum drawdown *)

Lemma peak_step (p b : Q) :
  (if ngt (Fin b) (Fin p) then Fin b else Fin p) = Fin (Qmax p b).
Proof.
  unfold ngt, Qltb.
  destruct (Qle_bool b p) eqn:E; simpl.
  - apply Qle_bool_iff in E. f_equal. symmetry.
    unfold Qmax, GenericMinMax.gmax.
    destruct (p ?= b)%Q eqn:C; try reflexivity.
    apply Qlt_alt in C. exfalso. exact (Qlt_not_le _ _ C E).
  - f_equal. symmetry. unfold Qmax, GenericMinMax.gmax.
    destruct (p ?= b)%Q eqn:C; try reflexivity.
    + apply Qeq_alt in C. assert (Hle : (b <= p)%Q) by (rewrite C; apply Qle_refl).
      apply Qle_bool_iff in Hle. congruence.
    + apply Qgt_alt in C. apply Qlt_le_weak, Qle_bool_iff in C. congruence.
Qed.

Lemma drawdown_step (p b : Q) :
  (0 < p)%Q ->
  ndiv (nsub (Fin (Qmax p b)) (Fin b)) (Fin (Qmax p b))
  = XFin ((Qmax p b - b) / Qmax p b) /\ (0 < Qmax p b)%Q /\
  (0 <= (Qmax p b - b) / Qmax p b)%Q.
Proof.
  intros Hp.
  assert (Hm : (0 < Qmax p b)%Q).
  { eapply Qlt_le_trans; [exact Hp | apply Q.le_max_l]. }
  split; [|split; [exact Hm|]].
  - simpl. rewrite (Qeq_bool_false_pos _ Hm). reflexivity.
  - apply Qle_shift_div_l; [exact Hm|]. rewrite Qmult_0_l.
    unfold Qminus. rewrite <- (Qplus_opp_r b).
    apply Qplus_le_compat; [apply Q.le_max_r | apply Qle_refl].
Qed.

Lemma drawdowns_nonneg bs : forall p, (0 < p)%Q ->
  Forall (fun d => (0 <= d)%Q) (drawdowns p bs).
Proof.
  induction bs as [|b bs IH]; intros p Hp; simpl; constructor.
  - apply (drawdown_step p b Hp).
  - apply IH. apply (drawdown_step p b Hp).
Qed.

Lemma history_loop entries : forall bs r p m,
  map h_balance entries = map Fin bs ->
  Enhanced.r_maxDrawdown r = XFin m -> Enhanced.r_peak r = Fin p ->
  (0 < p)%Q ->
  exists q,
    Enhanced.r_maxDrawdown (fold_left Enhanced.history_step entries r) = XFin q /\
    (m <= q)%Q /\
    Forall (fun d => (d <= q)%Q) (drawdowns p bs) /\
    (q = m \/ Exists (fun d => q = d) (drawdowns p bs)).
Proof.
  induction entries as [|e entries IH]; intros bs r p m Hbs Hmd Hpk Hp.
  - destruct bs; [|discriminate]. simpl. exists m.
    split; [exact Hmd|]. split; [apply Qle_refl|]. split; [constructor | left; reflexivity].
  - destruct bs as [|b bs]; [discriminate|]. simpl in Hbs.
    injection Hbs as Hb Hbs. simpl.
    destruct (drawdown_step p b Hp) as (Hdd & Hm & Hnn).
    set (r' := Enhanced.history_step r e).
    assert (Hpk' : Enhanced.r_peak r' = Fin (Qmax p b)).
    { subst r'. unfold Enhanced.history_step. cbn [Enhanced.r_peak].
      rewrite Hb, Hpk. apply peak_step. }
    assert (Hmd' : Enhanced.r_maxDrawdown r'
                   = XFin (if Qle_bool m ((Qmax p b - b) / Qmax p b)
                           then (Qmax p b - b) / Qmax p b else m)%Q).
    { subst r'. unfold Enhanced.history_step. cbn [Enhanced.r_maxDrawdown].
      rewrite Hb, Hpk, peak_step, Hdd, Hmd. simpl.
      destruct (Qle_bool m _); reflexivity. }
    destruct (IH bs r' _ _ Hbs Hmd' Hpk' Hm) as (q & Hq & Hle & Hall & Hex).
    exists q. split; [exact Hq|].
    destruct (Qle_bool m ((Qmax p b - b) / Qmax p b)) eqn:E.
    + apply Qle_bool_iff in E. split; [eapply Qle_trans; eassumption|].
      split; [constructor; assumption|].
      right. destruct Hex as [-> | Hex]; [left; reflexivity | right; exact Hex].
    + assert (Hlt : ((Qmax p b - b) / Qmax p b <= m)%Q).
      { apply Qlt_le_weak, Qnot_le_lt. intros H. apply Qle_bool_iff in H. congruence. }
      split; [exact Hle|]. split.
      * constructor; [eapply Qle_trans; eassumption | exact Hall].
      * destruct Hex as [-> | Hex]; [left; reflexivity | right; right; exact Hex].
Qed.

(** C4: in the revision that keeps a balance history, for a
    positive starting capital the maximum drawdown that
    calculatePortfolioMetrics reports is the greatest of the drawdowns
    (peak - balance) / peak over the history, 0 for an empty history; the
    balances 100, 120, 90, 130 from a starting capital of 100 give 0.25.
    Version 2.0 reports the constant 0 whatever the history. *)
Theorem C4_max_drawdown (j : journal) (capital : Q) (balances : list Q) :
  startingCapital j = Fin capital ->
  map h_balance (portfolioHistory j) = map Fin balances ->
  (0 < capital)%Q ->
  (exists q,
     Enhanced.maxDrawdown (Enhanced.calculatePortfolioMetrics j) = XFin q /\
     is_max_of (drawdowns capital balances) q) /\
  (exists q,
     Enhanced.maxDrawdown
       (Enhanced.calculatePortfolioMetrics (with_history 100 example_balances))
     = XFin q /\ (q == 1 # 4)%Q) /\
  V20.maxDrawdown (V20.calculatePortfolioMetrics j) = XFin 0.
Proof.
  intros Hcap Hbal Hpos. split; [|split; [|reflexivity]].
  - unfold Enhanced.calculatePortfolioMetrics. cbn [Enhanced.maxDrawdown].
    destruct (history_loop (portfolioHistory j) balances
                {| Enhanced.r_maxDrawdown := XFin 0;
                   Enhanced.r_peak := startingCapital j;
                   Enhanced.r_maxBalance := startingCapital j;
                   Enhanced.r_minBalance := startingCapital j |}
                capital 0%Q Hbal eq_refl Hcap Hpos)
      as (q & Hq & H0 & Hall & Hex).
    exists q. split; [exact Hq|]. split; [exact Hall|].
    pose proof (drawdowns_nonneg balances capital Hpos) as Hnn.
    destruct (drawdowns capital balances) as [|d ds] eqn:Ed.
    + destruct Hex as [-> | Hex]; [reflexivity | inversion Hex].
    + destruct Hex as [-> | Hex].
      * left. inversion Hall; subst. inversion Hnn; subst.
        apply Qle_antisym; assumption.
      * eapply Exists_impl; [exact Hex|]. intros x ->. reflexivity.
  - eexists. split; [vm_compute; reflexivity | reflexivity].
Qed.

(** C4, an instance: starting capital 100 and the balances 100, 120, 90,
    130. *)
Lemma C4_max_drawdown_witness :
  (exists q,
     Enhanced.maxDrawdown
       (Enhanced.calculatePortfolioMetrics (with_history 100 example_balances))
     = XFin q /\
     is_max_of (drawdowns 100 example_balances) q) /\
  (exists q,
     Enhanced.maxDrawdown
       (Enhanced.calculatePortfolioMetrics (with_history 100 example_balances))
     = XFin q /\ (q == 1 # 4)%Q) /\
  V20.maxDrawdown
    (V20.calculatePortfolioMetrics (with_history 100 example_balances)) = XFin 0.
Proof.
  apply (C4_max_drawdown (with_history 100 example_balances) 100
           example_balances); [reflexivity | reflexivity | reflexivity].
Defined.

(** C4, counterexample: version 2.0 reports a maximum drawdown of 0 for the
    balances 100, 120, 90, 130, whose greatest drawdown is 0.25. *)
Lemma C4_v20_reports_no_drawdown :
  V20.maxDrawdown
    (V20.calculatePortfolioMetrics (with_history 100 example_balances)) = XFin 0 /\
  is_max_of (drawdowns 100 example_balances) (1 # 4) /\
  ~ ((0 == 1 # 4)%Q).
Proof.
  split; [reflexivity|]. split; [|discriminate].
  split.
  - repeat constructor; vm_compute; discriminate.
  - simpl. right. right. left. vm_compute. reflexivity.
Qed.

(** *** Net P&L of a trade *)

Ltac lookups :=
  repeat match goal with
  | |- context ["" +:+ ?k] => change ("" +:+ k) with k
  | |- context [<[?k := ?v]> ?m !! ?k] => rewrite (lookup_insert_eq m k v)
  | |- context [<[?k' := ?v]> ?m !! ?k] =>
      rewrite (lookup_insert_ne m k' k v) by discriminate
  end.

Lemma get_list_to_map_head (k : string) (v : value) l :
  get (list_to_map ((k, v) :: l)) k = v.
Proof. unfold get. simpl. rewrite lookup_insert_eq. reflexivity. Qed.

Lemma get_list_to_map_skip (k k' : string) (v : value) l :
  k' <> k -> get (list_to_map ((k', v) :: l)) k = get (list_to_map l) k.
Proof. intros H. unfold get. simpl. rewrite lookup_insert_ne by exact H. reflexivity. Qed.

Ltac get_field :=
  repeat match goal with
  | |- context [get (list_to_map ((?k, ?v) :: ?l)) ?k] =>
      rewrite (get_list_to_map_head k v l)
  | |- context [get (list_to_map ((?k', ?v) :: ?l)) ?k] =>
      rewrite (get_list_to_map_skip k k' v l) by discriminate
  end.

Lemma get_set_eq (o : obj) k v : get (set o k v) k = v.
Proof. unfold get, set. rewrite lookup_insert_eq. reflexivity. Qed.

Lemma get_set_ne (o : obj) k k' v : k' <> k -> get (set o k' v) k = get o k.
Proof. intros H. unfold get, set. rewrite lookup_insert_ne by exact H. reflexivity. Qed.

Lemma enhanced_new_trade_19 ticker f now :
  exists t,
    Enhanced.new_trade (add_form_19 ticker f) now = Some (t, Fin 19) /\
    get t "id" = VUndef /\ get t "net_pl" = VNum (Fin 19) /\
    get t "outcome" = VStr "Win".
Proof.
  unfold Enhanced.new_trade, add_form_19, form_get. lookups.
  cbn [upper_of mbind option_bind].
  eexists. split; [reflexivity|].
  split; [|split]; get_field; reflexivity.
Qed.

Lemma enhanced_add_19 date_ms ticker f now hist_ok j :
  let j' := Enhanced.handleAddTrade date_ms (add_form_19 ticker f) now true hist_ok j in
  exists t,
    trades j' = t :: trades j /\ filteredTrades j' = trades j' /\
    get t "net_pl" = VNum (Fin 19) /\ get t "outcome" = VStr "Win" /\
    currentBalance j' = nadd (currentBalance j) (Fin 19).
Proof.
  intros j'. subst j'. unfold Enhanced.handleAddTrade.
  destruct (enhanced_new_trade_19 ticker f now) as (t & -> & Hid & Hpl & Hout).
  unfold db_add. rewrite Hid.
  change (nneq (Fin 19) (Fin 0)) with true. cbv iota beta zeta.
  unfold Enhanced.addPortfolioHistoryEntry.
  exists (set t "id" (VNum (nZ (keygen (db j))))).
  destruct hist_ok; cbn [trades filteredTrades currentBalance];
    rewrite !get_set_ne by discriminate; auto.
Qed.

Lemma get_union_head (k : string) (v : value) l (e : obj) :
  get (list_to_map ((k, v) :: l) ∪ e) k = v.
Proof.
  unfold get. cbn [list_to_map foldr uncurry fst snd].
  rewrite <- insert_union_l, lookup_insert_eq. reflexivity.
Qed.

Lemma get_union_skip (k k' : string) (v : value) l (e : obj) :
  k' <> k ->
  get (list_to_map ((k', v) :: l) ∪ e) k = get (list_to_map l ∪ e) k.
Proof.
  intros H. unfold get. cbn [list_to_map foldr uncurry fst snd].
  rewrite <- insert_union_l, lookup_insert_ne by exact H. reflexivity.
Qed.

Ltac get_union :=
  repeat match goal with
  | |- context [get (list_to_map ((?k, ?v) :: ?l) ∪ ?e) ?k] =>
      rewrite (get_union_head k v l e)
  | |- context [get (list_to_map ((?k', ?v) :: ?l) ∪ ?e) ?k] =>
      rewrite (get_union_skip k k' v l e) by discriminate
  end.

Lemma enhanced_updated_trade_19 existingTrade f now :
  exists u,
    Enhanced.updated_trade existingTrade (edit_form_19 f) now = Some (u, Fin 19) /\
    get u "net_pl" = VNum (Fin 19) /\ get u "outcome" = VStr "Win".
Proof.
  unfold Enhanced.updated_trade, edit_form_19, input_value. lookups.
  cbn [upper_of mbind option_bind default].
  eexists. split; [reflexivity|].
  split; get_union; reflexivity.
Qed.

Lemma v23_new_trade_pl f now :
  let premium := float_or_0 (form_get f "premium") in
  let fees := float_or_0 (form_get f "fees") in
  get (V23.new_trade f now) "net_pl" = VNum (nadd premium fees) /\
  get (V23.new_trade f now) "outcome"
  = VStr (if nge (nadd premium fees) (Fin 0) then "Win" else "Loss").
Proof.
  intros premium fees. unfold V23.new_trade, V23.trade_fields.
  cbn [app String.append].
  split; get_field; reflexivity.
Qed.

Lemma v23_updated_trade_pl id originalTrade f now :
  let premium := float_or_0 (input_value f "edit-premium") in
  let fees := float_or_0 (input_value f "edit-fees") in
  get (V23.updated_trade id originalTrade f now) "net_pl" = VNum (nadd premium fees) /\
  get (V23.updated_trade id originalTrade f now) "outcome"
  = VStr (if nge (nadd premium fees) (Fin 0) then "Win" else "Loss").
Proof.
  intros premium fees. unfold V23.updated_trade, V23.trade_fields.
  cbn [app String.append].
  split; get_field; reflexivity.
Qed.

(** The P&L rule of the revision with portfolio history, on numbers. *)
Lemma enhanced_netPL_rule (entry exit quantity premium fees : Q) :
  Enhanced.netPL (VNum (Fin entry)) (VNum (Fin exit)) (Fin quantity)
    (Fin premium) (Fin fees)
  = (if negb (Qeq_bool exit 0) && negb (Qeq_bool entry 0)
     then Fin ((exit - entry) * quantity + premium + fees)
     else if negb (Qeq_bool premium 0) then Fin (premium + fees) else Fin 0).
Proof. reflexivity. Qed.

Lemma enhanced_netPL_no_price (other : value) (quantity premium fees : Q) :
  Enhanced.netPL VNull other (Fin quantity) (Fin premium) (Fin fees)
  = (if negb (Qeq_bool premium 0) then Fin (premium + fees) else Fin 0) /\
  Enhanced.netPL other VNull (Fin quantity) (Fin premium) (Fin fees)
  = (if negb (Qeq_bool premium 0) then Fin (premium + fees) else Fin 0).
Proof.
  unfold Enhanced.netPL. split; [rewrite andb_false_r | ]; reflexivity.
Qed.

(** C1: with entry price 100, exit price 110, quantity 2,
    premium 0 and fees -1 the add and the edit handler of the revision with
    portfolio history store a net P&L of 19 and the outcome Win; there the
    net P&L is (exit - entry) * quantity + premium + fees when both prices
    are numbers other than zero, premium + fees when a price is missing and
    the premium is not zero, and 0 otherwise.  Versions 2.3 and 2.4 store
    premium + fees whatever the prices are. *)
Theorem C1_net_pl_of_a_trade :
  (forall date_ms ticker f now hist_ok j,
     let j' := Enhanced.handleAddTrade date_ms (add_form_19 ticker f) now true
                 hist_ok j in
     exists t,
       trades j' = t :: trades j /\ filteredTrades j' = trades j' /\
       get t "net_pl" = VNum (Fin 19) /\ get t "outcome" = VStr "Win" /\
       currentBalance j' = nadd (currentBalance j) (Fin 19)) /\
  (forall existingTrade f now,
     exists u,
       Enhanced.updated_trade existingTrade (edit_form_19 f) now
       = Some (u, Fin 19) /\
       get u "net_pl" = VNum (Fin 19) /\ get u "outcome" = VStr "Win") /\
  (forall entry exit quantity premium fees : Q,
     Enhanced.netPL (VNum (Fin entry)) (VNum (Fin exit)) (Fin quantity)
       (Fin premium) (Fin fees)
     = (if negb (Qeq_bool exit 0) && negb (Qeq_bool entry 0)
        then Fin ((exit - entry) * quantity + premium + fees)
        else if negb (Qeq_bool premium 0) then Fin (premium + fees)
        else Fin 0)) /\
  (forall (other : value) (quantity premium fees : Q),
     Enhanced.netPL VNull other (Fin quantity) (Fin premium) (Fin fees)
     = (if negb (Qeq_bool premium 0) then Fin (premium + fees) else Fin 0) /\
     Enhanced.netPL other VNull (Fin quantity) (Fin premium) (Fin fees)
     = (if negb (Qeq_bool premium 0) then Fin (premium + fees) else Fin 0)) /\
  (forall f now,
     get (V23.new_trade f now) "net_pl"
     = VNum (nadd (float_or_0 (form_get f "premium"))
                  (float_or_0 (form_get f "fees")))) /\
  (forall id originalTrade f now,
     get (V23.updated_trade id originalTrade f now) "net_pl"
     = VNum (nadd (float_or_0 (input_value f "edit-premium"))
                  (float_or_0 (input_value f "edit-fees")))).
Proof.
  split; [intros; apply enhanced_add_19|].
  split; [intros; apply enhanced_updated_trade_19|].
  split; [intros; apply enhanced_netPL_rule|].
  split; [intros; apply enhanced_netPL_no_price|].
  split; [intros; apply v23_new_trade_pl | intros; apply v23_updated_trade_pl].
Qed.

(** C1, counterexample: the add handler of version 2.3 stores a net P&L of
    -1 and the outcome Loss for the trade of the example. *)
Lemma C1_v23_stores_premium_plus_fees :
  map (fun t => (get t "net_pl", get t "outcome"))
      (trades (V23.handleAddTrade example_add_form "2024-03-01T10:00:00.000Z"
                 true (new_journal empty_store)))
  = [(VNum (Fin (-1)), VStr "Loss")].
Proof. vm_compute. reflexivity. Qed.

(** *** The invariant of the journal *)

Lemma strict_eq_sym a b : strict_eq a b = strict_eq b a.
Proof.
  destruct a as [| |s|[|p]], b as [| |t|[|q]]; simpl; try reflexivity.
  - apply String.eqb_sym.
  - destruct (Qeq_bool p q) eqn:E, (Qeq_bool q p) eqn:E'; try reflexivity.
    + apply Qeq_bool_eq in E. symmetry in E. apply Qeq_eq_bool in E. congruence.
    + apply Qeq_bool_eq in E'. symmetry in E'. apply Qeq_eq_bool in E'. congruence.
Qed.

Lemma strict_eq_trans a b c :
  strict_eq a b = true -> strict_eq b c = true -> strict_eq a c = true.
Proof.
  destruct a as [| |s|[|p]], b as [| |t|[|q]], c as [| |u|[|r]]; simpl;
    try discriminate; try reflexivity.
  - intros H1 H2. apply String.eqb_eq in H1, H2. subst. apply String.eqb_refl.
  - intros H1 H2. apply Qeq_bool_eq in H1, H2. apply Qeq_eq_bool.
    etransitivity; eassumption.
Qed.

Lemma keyed_submseteq l k : keyed k -> l ⊆+ k -> keyed l.
Proof.
  intros Hk Hl x y Hx Hy. apply Hk; eapply elem_of_submseteq; eassumption.
Qed.

Lemma filter_submseteq {A} (f : A -> bool) (l k : list A) :
  l ⊆+ k -> List.filter f l ⊆+ List.filter f k.
Proof.
  induction 1 as [|x l k _ IH|x y l|x l k _ IH|l k m _ IH1 _ IH2]; simpl.
  - constructor.
  - destruct (f x); [constructor|]; exact IH.
  - destruct (f x), (f y); try reflexivity. apply submseteq_swap.
  - destruct (f x); [apply submseteq_cons|]; exact IH.
  - etransitivity; eassumption.
Qed.

Lemma filter_sub {A} (f : A -> bool) (l : list A) : List.filter f l ⊆+ l.
Proof.
  induction l as [|x l IH]; simpl; [constructor|].
  destruct (f x); [constructor | apply submseteq_cons]; exact IH.
Qed.

Lemma findIndex_Some {A} (p : A -> bool) l i :
  findIndex p l = Some i -> exists x, l !! i = Some x /\ p x = true.
Proof.
  revert i. induction l as [|y l IH]; intros i; simpl; [discriminate|].
  destruct (p y) eqn:E.
  - intros [= <-]. exists y. auto.
  - destruct (findIndex p l) as [k|]; simpl; [|discriminate].
    intros [= <-]. apply IH. reflexivity.
Qed.

Lemma findIndex_None {A} (p : A -> bool) l :
  findIndex p l = None -> Forall (fun x => p x = false) l.
Proof.
  induction l as [|y l IH]; simpl; [constructor|].
  destruct (p y) eqn:E; [discriminate|].
  destruct (findIndex p l); simpl; [discriminate|]. intros _. constructor; auto.
Qed.

Lemma submseteq_replace_absent {A} (l k : list A) i x y :
  l ⊆+ k -> k !! i = Some x -> x ∉ l -> l ⊆+ <[i := y]> k.
Proof.
  intros Hl Hi Hx.
  assert (Hlen : (i < length k)%nat) by (eapply lookup_lt_Some; exact Hi).
  rewrite (delete_Permutation k i x Hi) in Hl.
  apply submseteq_cons_r in Hl as [Hl | (l' & Hp & _)].
  - rewrite insert_take_drop by exact Hlen.
    rewrite delete_take_drop in Hl.
    etransitivity; [apply (submseteq_cons y); reflexivity|].
    apply submseteq_cons_middle. exact Hl.
  - exfalso. apply Hx. rewrite Hp. left.
Qed.

Lemma replace_first_submseteq (id : value) (u : obj) (l k : list obj) :
  let p := fun t => strict_eq (get t "id") id in
  keyed k -> l ⊆+ k -> replace_first p u l ⊆+ replace_first p u k.
Proof.
  intros p Hk Hl. unfold replace_first.
  destruct (findIndex p l) as [i|] eqn:El, (findIndex p k) as [n|] eqn:Ek.
  - destruct (findIndex_Some _ _ _ El) as (x & Hx & Hpx).
    destruct (findIndex_Some _ _ _ Ek) as (y & Hy & Hpy).
    assert (x = y) as ->.
    { apply Hk.
      - eapply elem_of_submseteq; [|exact Hl]. eapply list_elem_of_lookup_2; eauto.
      - eapply list_elem_of_lookup_2; eauto.
      - subst p. simpl in Hpx, Hpy. eapply strict_eq_trans; [exact Hpx|].
        rewrite strict_eq_sym. exact Hpy. }
    eapply submseteq_insert; eassumption.
  - destruct (findIndex_Some _ _ _ El) as (x & Hx & Hpx).
    pose proof (findIndex_None _ _ Ek) as Hnone.
    assert (Hin : x ∈ k).
    { eapply elem_of_submseteq; [|exact Hl]. eapply list_elem_of_lookup_2; eauto. }
    rewrite Forall_forall in Hnone. rewrite (Hnone x Hin) in Hpx. discriminate.
  - destruct (findIndex_Some _ _ _ Ek) as (y & Hy & Hpy).
    pose proof (findIndex_None _ _ El) as Hnone.
    eapply submseteq_replace_absent; [exact Hl | exact Hy |].
    intros Hin. rewrite Forall_forall in Hnone. rewrite (Hnone y Hin) in Hpy.
    discriminate.
  - exact Hl.
Qed.

Lemma distinct_keys_submseteq l k : l ⊆+ k -> distinct_keys k -> distinct_keys l.
Proof.
  induction 1 as [|x l k Hlk IH|x y l|x l k _ IH|l k m _ IH1 _ IH2]; simpl.
  - auto.
  - intros [Hx Hk]. split; [|auto].
    rewrite Forall_forall in *. intros y Hy. apply Hx.
    eapply elem_of_submseteq; eassumption.
  - intros (Hy & Hx & Hl). inversion Hy as [|? ? Hyx Hyl]; subst.
    repeat split; auto. constructor; [|exact Hx].
    rewrite strict_eq_sym. exact Hyx.
  - intros [_ Hk]. auto.
  - auto.
Qed.

Lemma distinct_keys_keyed l : distinct_keys l -> keyed l.
Proof.
  induction l as [|z l IH]; intros Hd x y Hx Hy He; [inversion Hx|].
  destruct Hd as [Hz Hl]. rewrite Forall_forall in Hz.
  apply elem_of_cons in Hx as [-> | Hx], Hy as [-> | Hy].
  - reflexivity.
  - rewrite (Hz y Hy) in He. discriminate.
  - rewrite strict_eq_sym, (Hz x Hx) in He. discriminate.
  - apply IH; assumption.
Qed.

Lemma distinct_keys_snoc l x :
  distinct_keys l ->
  Forall (fun y => strict_eq (get y "id") (get x "id") = false) l ->
  distinct_keys (l ++ [x]).
Proof.
  induction l as [|z l IH]; simpl; intros Hd Hx.
  - split; [constructor | exact I].
  - destruct Hd as [Hz Hl]. inversion Hx as [|? ? Hzx Hlx]; subst.
    split; [|apply IH; assumption].
    apply Forall_app. split; [exact Hz|]. constructor; [exact Hzx | constructor].
Qed.

Lemma distinct_keys_insert l i x u :
  distinct_keys l -> l !! i = Some x ->
  strict_eq (get x "id") (get u "id") = true ->
  distinct_keys (<[i := u]> l).
Proof.
  revert i. induction l as [|z l IH]; intros i Hd Hi He; [discriminate|].
  destruct Hd as [Hz Hl]. destruct i as [|i]; simpl in *.
  - injection Hi as ->. split; [|exact Hl].
    eapply Forall_impl; [exact Hz|]. intros y Hy. simpl in Hy.
    destruct (strict_eq (get u "id") (get y "id")) eqn:E; [|reflexivity].
    rewrite (strict_eq_trans _ _ _ He E) in Hy. discriminate.
  - split; [|eapply IH; eassumption].
    rewrite Forall_forall in *. intros y Hy.
    apply list_elem_of_lookup in Hy as [n Hn].
    destruct (decide (n = i)) as [-> | Hne].
    + rewrite list_lookup_insert_eq in Hn by (eapply lookup_lt_Some; exact Hi).
      injection Hn as <-.
      assert (Hx : x ∈ l) by (eapply list_elem_of_lookup_2; exact Hi).
      pose proof (Hz x Hx) as Hzx.
      destruct (strict_eq (get z "id") (get u "id")) eqn:E; [|reflexivity].
      rewrite strict_eq_sym in He.
      rewrite (strict_eq_trans _ _ _ E He) in Hzx. discriminate.
    + rewrite list_lookup_insert_ne in Hn by congruence.
      apply Hz. eapply list_elem_of_lookup_2; exact Hn.
Qed.

Lemma existsb_false {A} (f : A -> bool) l :
  existsb f l = false -> Forall (fun x => f x = false) l.
Proof.
  induction l as [|x l IH]; simpl; [constructor|].
  intros H. apply orb_false_iff in H as [Hx Hl]. constructor; auto.
Qed.

Lemma Forall_findIndex_None {A} (p : A -> bool) l :
  Forall (fun x => p x = false) l -> findIndex p l = None.
Proof.
  induction 1 as [|x l Hx _ IH]; simpl; [reflexivity|].
  rewrite Hx, IH. reflexivity.
Qed.

Lemma get_defined (o : obj) k v : get o k = v -> v <> VUndef -> o !! k = Some v.
Proof.
  unfold get. destruct (o !! k) as [w|]; simpl; [intros ->; reflexivity|].
  intros <- H. contradiction.
Qed.

Lemma set_same (o : obj) k v : get o k = v -> v <> VUndef -> set o k v = o.
Proof. intros H Hv. unfold set. apply insert_id. eapply get_defined; eassumption. Qed.

Lemma below_keygen_fresh s :
  below_keygen s ->
  Forall (fun o => has_key (VNum (nZ (keygen s))) o = false) (rows s).
Proof.
  unfold below_keygen. intros H. eapply Forall_impl; [exact H|].
  intros o Ho. simpl in Ho.
  unfold has_key, nZ. destruct (get o "id") as [| |t|[|q]]; simpl; try reflexivity.
  destruct (Qeq_bool q (inject_Z (keygen s))) eqn:E; [|reflexivity].
  apply Qeq_bool_eq in E. pose proof (Ho q eq_refl) as Hlt.
  rewrite E in Hlt. exfalso. exact (Qlt_irrefl _ Hlt).
Qed.

Lemma bump_above g k q :
  k = VNum (Fin q) -> (q < inject_Z (bump g k))%Q.
Proof.
  intros ->. simpl. destruct (g <=? Qfloor q)%Z eqn:E.
  - apply Qlt_floor.
  - apply Z.leb_gt in E. eapply Qlt_le_trans; [apply Qlt_floor|].
    rewrite <- Zle_Qle. lia.
Qed.

Lemma bump_ge g k : (g <= bump g k)%Z.
Proof.
  destruct k as [| |t|[|q]]; simpl; try lia.
  destruct (g <=? Qfloor q)%Z eqn:E; [apply Z.leb_le in E|]; lia.
Qed.

Lemma below_keygen_mono rows0 g g' :
  (g <= g')%Z ->
  Forall (fun o => forall q, get o "id" = VNum (Fin q) -> (q < inject_Z g)%Q) rows0 ->
  Forall (fun o => forall q, get o "id" = VNum (Fin q) -> (q < inject_Z g')%Q) rows0.
Proof.
  intros Hg H. eapply Forall_impl; [exact H|]. intros o Ho q Hq. simpl in Ho.
  eapply Qlt_le_trans; [apply Ho; exact Hq|]. rewrite <- Zle_Qle. exact Hg.
Qed.

(** What [db.add] does to a well-formed store. *)
Lemma db_add_ok s o k s' :
  store_ok s -> db_add s o = Some (k, s') ->
  rows s' = rows s ++ [set o "id" k] /\ store_ok s' /\
  get (set o "id" k) "id" = k /\
  Forall (fun r => has_key k r = false) (rows s).
Proof.
  intros [Hd Hb] Hadd. unfold db_add in Hadd.
  assert (Hgen : get o "id" = VUndef ->
                 k = VNum (nZ (keygen s)) /\
                 s' = {| rows := rows s ++ [set o "id" k]; keygen := keygen s + 1 |}).
  { intros E. rewrite E in Hadd. injection Hadd as <- <-. auto. }
  assert (Hexp : get o "id" <> VUndef ->
                 k = get o "id" /\ valid_key k = true /\
                 existsb (has_key k) (rows s) = false /\
                 s' = {| rows := rows s ++ [o]; keygen := bump (keygen s) k |}).
  { intros E. destruct (get o "id") as [| |t|n] eqn:Ek; [contradiction|..];
      destruct (valid_key _ && negb (existsb _ (rows s))) eqn:Ev;
      try discriminate; injection Hadd as <- <-;
      apply andb_true_iff in Ev as [Hv He]; apply negb_true_iff in He; auto. }
  destruct (decide (get o "id" = VUndef)) as [E | E].
  - destruct (Hgen E) as [-> ->]. cbn [rows keygen].
    pose proof (below_keygen_fresh s Hb) as Hfresh.
    split; [reflexivity|]. split; [|split; [apply get_set_eq | exact Hfresh]].
    split; cbn [rows keygen].
    + apply distinct_keys_snoc; [exact Hd|]. rewrite get_set_eq. exact Hfresh.
    + unfold below_keygen. cbn [rows keygen]. apply Forall_app. split.
      * eapply below_keygen_mono; [|exact Hb]. lia.
      * constructor; [|constructor]. intros q. rewrite get_set_eq.
        unfold nZ. intros [= <-]. rewrite <- Zlt_Qlt. lia.
  - destruct (Hexp E) as (Hk & Hv & He & ->). cbn [rows keygen].
    assert (Hset : set o "id" k = o).
    { apply set_same; [symmetry; exact Hk | rewrite Hk; exact E]. }
    rewrite Hset. pose proof (existsb_false _ _ He) as Hfresh.
    split; [reflexivity|]. split; [|split; [symmetry; exact Hk | exact Hfresh]].
    split; cbn [rows keygen].
    + apply distinct_keys_snoc; [exact Hd|]. rewrite <- Hk. exact Hfresh.
    + unfold below_keygen. cbn [rows keygen]. apply Forall_app. split.
      * eapply below_keygen_mono; [apply bump_ge | exact Hb].
      * constructor; [|constructor]. intros q Hq. apply bump_above. congruence.
Qed.

(** *** Every handler keeps the invariant *)

Lemma sort_insert_perm {A} (after : A -> A -> bool) x l :
  sort_insert after x l ≡ₚ x :: l.
Proof.
  induction l as [|y l IH]; simpl; [reflexivity|].
  destruct (after y x); [reflexivity|].
  rewrite IH. apply Permutation_swap.
Qed.

Lemma js_sort_perm {A} (after : A -> A -> bool) l : js_sort after l ≡ₚ l.
Proof.
  unfold js_sort.
  assert (H : forall acc, fold_left (fun acc x => sort_insert after x acc) l acc
                          ≡ₚ acc ++ l).
  { induction l as [|x l IH]; intros acc; simpl.
    - rewrite app_nil_r. reflexivity.
    - rewrite IH, sort_insert_perm. simpl. apply Permutation_middle. }
  apply (H []).
Qed.

Lemma db_put_ok s u s' :
  store_ok s -> get u "id" <> VUndef -> db_put s u = Some s' ->
  rows s' = match findIndex (has_key (get u "id")) (rows s) with
            | Some i => <[i := u]> (rows s)
            | None => rows s ++ [u]
            end /\ store_ok s'.
Proof.
  intros [Hd Hb] Hid Hput. unfold db_put in Hput.
  assert (Hs' : s' = {| rows := match findIndex (has_key (get u "id")) (rows s) with
                                | Some i => <[i := u]> (rows s)
                                | None => rows s ++ [u]
                                end;
                        keygen := bump (keygen s) (get u "id") |}).
  { destruct (get u "id") as [| |t|n] eqn:Ek; [contradiction|..];
      destruct (valid_key _); try discriminate; injection Hput as <-; reflexivity. }
  subst s'. cbn [rows keygen]. split; [reflexivity|].
  assert (Hnew : forall q, get u "id" = VNum (Fin q) ->
                   (q < inject_Z (bump (keygen s) (get u "id")))%Q).
  { intros q Hq. apply bump_above. exact Hq. }
  pose proof (below_keygen_mono _ _ _ (bump_ge (keygen s) (get u "id")) Hb) as Hold.
  destruct (findIndex (has_key (get u "id")) (rows s)) as [i|] eqn:Ei.
  - destruct (findIndex_Some _ _ _ Ei) as (x & Hx & Hpx).
    split; cbn [rows keygen].
    + eapply distinct_keys_insert; [exact Hd | exact Hx | exact Hpx].
    + unfold below_keygen. cbn [rows keygen]. apply Forall_insert; assumption.
  - pose proof (findIndex_None _ _ Ei) as Hnone.
    split; cbn [rows keygen].
    + apply distinct_keys_snoc; assumption.
    + unfold below_keygen. cbn [rows keygen]. apply Forall_app. split; [exact Hold|].
      constructor; [exact Hnew | constructor].
Qed.

Lemma Forall_list_filter {A} (P : A -> Prop) (f : A -> bool) l :
  Forall P l -> Forall P (List.filter f l).
Proof.
  intros H. rewrite Forall_forall in *. intros x Hx.
  apply H. apply list_elem_of_In. apply list_elem_of_In, filter_In in Hx. tauto.
Qed.

Lemma db_delete_ok s k s' :
  store_ok s -> db_delete s k = Some s' ->
  rows s' = List.filter (fun o => negb (has_key k o)) (rows s) /\ store_ok s'.
Proof.
  intros [Hd Hb] Hdel. unfold db_delete in Hdel.
  destruct (valid_key k); [|discriminate]. injection Hdel as <-.
  cbn [rows]. split; [reflexivity|]. split; cbn [rows keygen].
  - eapply distinct_keys_submseteq; [apply filter_sub | exact Hd].
  - unfold below_keygen. cbn [rows keygen]. apply Forall_list_filter. exact Hb.
Qed.

Lemma db_clear_ok s : store_ok (db_clear s).
Proof. split; [exact I | constructor]. Qed.

Lemma empty_store_ok : store_ok empty_store.
Proof. split; [exact I | constructor]. Qed.

Lemma new_journal_ok d : store_ok d -> journal_ok (new_journal d).
Proof.
  intros Hd. split; [reflexivity|]. split; [apply submseteq_nil_l | exact Hd].
Qed.

Lemma submseteq_cons_snoc {A} (x : A) l k : l ⊆+ k -> x :: l ⊆+ k ++ [x].
Proof.
  intros H. rewrite <- (app_nil_r l).
  change (x :: l ++ []) with (x :: (l ++ [])).
  apply (submseteq_cons_middle x (l ++ []) k []). rewrite !app_nil_r. exact H.
Qed.

Section Preservation.
Variable date_ms : value -> num.

Lemma loadAllData_ok get_ok j :
  journal_ok j -> journal_ok (V23.loadAllData date_ms get_ok j).
Proof.
  intros (_ & _ & Hs). unfold V23.loadAllData, V20.loadAllData.
  split; [reflexivity|]. split; [|exact Hs]. cbn [trades db].
  destruct get_ok; [|apply submseteq_nil_l].
  apply Permutation_submseteq, js_sort_perm.
Qed.

Lemma handleAddTrade_ok f now add_ok j :
  journal_ok j -> journal_ok (V23.handleAddTrade f now add_ok j).
Proof.
  intros Hj. unfold V23.handleAddTrade.
  destruct (negb _ || negb _ || negb _); [exact Hj|].
  destruct (if add_ok then db_add (db j) (V23.new_trade f now) else None)
    as [[id d]|] eqn:Eadd; [|exact Hj].
  destruct add_ok; [|discriminate].
  destruct Hj as (_ & Ht & Hs).
  destruct (db_add_ok _ _ _ _ Hs Eadd) as (Hrows & Hs' & _ & _).
  split; [reflexivity|]. split; [|exact Hs']. cbn [trades db].
  rewrite Hrows. apply submseteq_cons_snoc. exact Ht.
Qed.

Lemma handleEditTrade_ok f now put_ok j :
  journal_ok j -> journal_ok (V23.handleEditTrade f now put_ok j).
Proof.
  intros Hj. unfold V23.handleEditTrade.
  set (id := VNum (parseInt (input_value f "edit-trade-id"))).
  destruct (db_get (db j) id) as [[originalTrade|]|]; try exact Hj.
  set (u := V23.updated_trade id originalTrade f now).
  destruct (if put_ok then db_put (db j) u else None) as [d|] eqn:Eput;
    [|exact Hj].
  destruct put_ok; [|discriminate].
  destruct Hj as (Hf & Ht & Hs).
  assert (Hid : get u "id" = id) by apply get_list_to_map_head.
  assert (Hne : get u "id" <> VUndef) by (rewrite Hid; discriminate).
  destruct (db_put_ok _ _ _ Hs Hne Eput) as (Hrows & Hs').
  rewrite Hid in Hrows.
  pose proof (distinct_keys_keyed _ (proj1 Hs)) as Hkeyed.
  split; [|split; [|exact Hs']]; cbn [filteredTrades trades db].
  - apply (replace_first_submseteq id u); [|exact Hf].
    eapply keyed_submseteq; eassumption.
  - rewrite Hrows.
    change (match findIndex (fun t => strict_eq (get t "id") id) (trades j) with
            | Some index => <[index := u]> (trades j)
            | None => trades j
            end) with (replace_first (fun t => strict_eq (get t "id") id) u (trades j)).
    destruct (findIndex (has_key id) (rows (db j))) as [i|] eqn:Ei.
    + pose proof (replace_first_submseteq id u _ _ Hkeyed Ht) as H.
      unfold replace_first at 2 in H. unfold has_key in Ei.
      simpl in H. rewrite Ei in H. exact H.
    + pose proof (findIndex_None _ _ Ei) as Hnone.
      assert (Hnl : Forall (fun x => has_key id x = false) (trades j)).
      { rewrite Forall_forall in *. intros x Hx. apply Hnone.
        eapply elem_of_submseteq; eassumption. }
      unfold replace_first. unfold has_key in Hnl.
      rewrite (Forall_findIndex_None _ _ Hnl).
      apply submseteq_inserts_r. exact Ht.
Qed.

Lemma deleteTrade_ok id confirmed get_ok del_ok j :
  journal_ok j -> journal_ok (V23.deleteTrade id confirmed get_ok del_ok j).
Proof.
  intros Hj. unfold V23.deleteTrade.
  destruct (negb confirmed); [exact Hj|].
  destruct (if get_ok then db_get (db j) id else None) as [found|]; [|exact Hj].
  destruct (if del_ok then db_delete (db j) id else None) as [d|] eqn:Edel.
  - destruct del_ok; [|discriminate].
    destruct Hj as (Hf & Ht & Hs).
    destruct (db_delete_ok _ _ _ Hs Edel) as (Hrows & Hs').
    split; [|split; [|exact Hs']]; cbn [filteredTrades trades db].
    + apply filter_submseteq. exact Hf.
    + rewrite Hrows. apply (filter_submseteq (fun t => negb (has_key id t))).
      exact Ht.
  - exact Hj.
Qed.

Lemma import_step_ok add_ok a trade :
  acc_ok a -> acc_ok (V20.import_step add_ok a trade).
Proof.
  intros [Ht Hs]. unfold V20.import_step.
  destruct (if add_ok (V20.a_index a) then db_add (V20.a_db a) trade else None)
    as [[id d]|] eqn:Eadd; [|split; assumption].
  destruct (add_ok (V20.a_index a)); [|discriminate].
  destruct (db_add_ok _ _ _ _ Hs Eadd) as (Hrows & Hs' & _ & _).
  split; [|exact Hs']. cbn [V20.a_trades V20.a_db].
  rewrite Hrows. apply submseteq_skips_r. exact Ht.
Qed.

Lemma import_loop_ok add_ok preview : forall a,
  acc_ok a -> acc_ok (fold_left (V20.import_step add_ok) preview a).
Proof.
  induction preview as [|trade preview IH]; intros a Ha; simpl; [exact Ha|].
  apply IH, import_step_ok, Ha.
Qed.

Lemma commitImport_ok mode confirmed clear_ok add_ok j :
  journal_ok j ->
  journal_ok (V23.commitImport date_ms mode confirmed clear_ok add_ok j).
Proof.
  intros Hj. unfold V23.commitImport, V20.commitImport.
  destruct (previewData j) as [[|trade preview]|]; try exact Hj.
  set (replace := strict_eq (vor mode (VStr "append")) (VStr "replace")).
  destruct (replace && negb confirmed); [exact Hj|].
  destruct (replace && negb clear_ok); [exact Hj|].
  destruct Hj as (_ & Ht & Hs).
  match goal with
  | |- context [fold_left (V20.import_step add_ok) ?p ?a0] =>
      assert (Ha : acc_ok (fold_left (V20.import_step add_ok) p a0))
  end.
  { apply import_loop_ok. split; cbn [V20.a_trades V20.a_db].
    - destruct replace; [apply submseteq_nil_l | exact Ht].
    - destruct replace; [apply db_clear_ok | exact Hs]. }
  destruct Ha as [Ha Hs'].
  split; [reflexivity|]. split; [|exact Hs']. cbn [trades db].
  rewrite js_sort_perm. exact Ha.
Qed.

Lemma parseCSV_ok csvContent now j :
  journal_ok j -> journal_ok (V23.parseCSV csvContent now j).
Proof.
  intros Hj. unfold V23.parseCSV.
  destruct (V23.parse_batch csvContent now) as [[[|t ts] skipped]|];
    exact Hj.
Qed.

Lemma handlePortfolioSettings_ok f j :
  journal_ok j -> journal_ok (V23.handlePortfolioSettings f j).
Proof.
  intros Hj. unfold V23.handlePortfolioSettings.
  destruct (negb _); exact Hj.
Qed.

Lemma loadPortfolioSettings_ok settings history j :
  journal_ok j ->
  journal_ok (V23.loadPortfolioSettings date_ms settings history j).
Proof.
  intros Hj. unfold V23.loadPortfolioSettings.
  destruct settings as [[[c b]|]|]; exact Hj.
Qed.

Lemma applyFilters_ok t s from to j :
  journal_ok j -> journal_ok (V23.applyFilters date_ms t s from to j).
Proof.
  intros (_ & Ht & Hs). split; [apply filter_sub|]. split; assumption.
Qed.

Lemma resetFilters_ok j : journal_ok j -> journal_ok (V23.resetFilters j).
Proof. intros (_ & Ht & Hs). split; [reflexivity|]. split; assumption. Qed.

(** Every handler keeps the invariant. *)
Lemma step_ok e j : journal_ok j -> journal_ok (V23.step date_ms e j).
Proof.
  intros Hj. destruct e; simpl.
  - apply new_journal_ok, Hj.
  - apply loadAllData_ok, Hj.
  - apply loadPortfolioSettings_ok, Hj.
  - apply handleAddTrade_ok, Hj.
  - apply handleEditTrade_ok, Hj.
  - apply handlePortfolioSettings_ok, Hj.
  - apply parseCSV_ok, Hj.
  - apply commitImport_ok, Hj.
  - apply applyFilters_ok, Hj.
  - apply resetFilters_ok, Hj.
  - apply deleteTrade_ok, Hj.
Qed.

Lemma reachable_ok j : V23.reachable date_ms j -> journal_ok j.
Proof.
  induction 1 as [|e j _ IH].
  - apply new_journal_ok, empty_store_ok.
  - apply step_ok, IH.
Qed.
End Preservation.

(** Every handler but the one of the edit form keeps the displayed trades
    among the trades in memory whatever the journal it starts from; the
    edit replaces a trade by its key in both arrays and needs the keys to
    be distinct. *)
Lemma step_keeps_displayed date_ms e j :
  is_edit e = false ->
  filteredTrades j ⊆+ trades j ->
  filteredTrades (V23.step date_ms e j) ⊆+ trades (V23.step date_ms e j).
Proof.
  intros He H. destruct e; try discriminate; cbn [V23.step].
  - reflexivity.
  - reflexivity.
  - unfold V23.loadPortfolioSettings.
    destruct settings as [[[c b]|]|]; exact H.
  - unfold V23.handleAddTrade.
    destruct (negb _ || negb _ || negb _); [exact H|].
    destruct (if add_ok then db_add (db j) (V23.new_trade f now) else None)
      as [[id d]|]; [reflexivity | exact H].
  - unfold V23.handlePortfolioSettings. destruct (negb _); exact H.
  - unfold V23.parseCSV.
    destruct (V23.parse_batch csvContent now) as [[[|t ts] skipped]|];
      exact H.
  - unfold V23.commitImport, V20.commitImport.
    destruct (previewData j) as [[|trade preview]|]; try exact H.
    destruct (_ && negb confirmed); [exact H|].
    destruct (_ && negb clear_ok); [exact H | reflexivity].
  - apply filter_sub.
  - reflexivity.
  - unfold V23.deleteTrade.
    destruct (negb confirmed); [exact H|].
    destruct (if get_ok then db_get (db j) id else None) as [found|];
      [|exact H].
    destruct (if del_ok then db_delete (db j) id else None) as [d|];
      [|exact H].
    apply filter_submseteq. exact H.
Qed.

Lemma one_trade_journal_reachable :
  V23.reachable iso_date_ms one_trade_journal.
Proof.
  apply (V23.reachable_step iso_date_ms
           (V23.HandleAddTrade example_add_form "2024-03-01T10:00:00.000Z" true)).
  apply V23.reachable_new.
Defined.

(** C10: in every journal that a run of version 2.3 reaches, the displayed
    trades are a sub-multiset of the trades in memory.  Each handler (a
    reload, loading the trades and the portfolio settings, adding, editing
    and deleting a trade, the portfolio form, parsing and committing an
    import, applying and resetting the filters) keeps that together with
    the facts it rests on: the trades in memory are records of the
    database, and no two records share a key.  Every handler but the one
    of the edit form keeps the displayed trades among the trades in memory
    from any journal at all. *)
Theorem C10_filtered_trades_are_among_trades (date_ms : value -> num) :
  journal_ok (new_journal empty_store) /\
  (forall e j, journal_ok j -> journal_ok (V23.step date_ms e j)) /\
  (forall e j,
     is_edit e = false ->
     filteredTrades j ⊆+ trades j ->
     filteredTrades (V23.step date_ms e j) ⊆+ trades (V23.step date_ms e j)) /\
  (forall j, V23.reachable date_ms j -> filteredTrades j ⊆+ trades j).
Proof.
  split; [apply new_journal_ok, empty_store_ok|].
  split; [apply step_ok|].
  split; [apply step_keeps_displayed|].
  intros j Hj. apply (reachable_ok date_ms j Hj).
Qed.

(** C10, an instance: the journal after one trade was added. *)
Lemma C10_filtered_trades_witness :
  V23.reachable iso_date_ms one_trade_journal /\
  filteredTrades one_trade_journal ⊆+ trades one_trade_journal.
Proof.
  split; [exact one_trade_journal_reachable|].
  apply (proj2 (proj2 (proj2
           (C10_filtered_trades_are_among_trades iso_date_ms)))).
  exact one_trade_journal_reachable.
Defined.

(** *** Adding and deleting a trade *)

Lemma pl_or_0_of_number (t : obj) q :
  get t "net_pl" = VNum (Fin q) -> num_eq (pl_or_0 t) (Fin q).
Proof.
  intros H. unfold pl_or_0, vor. rewrite H. simpl.
  destruct (Qeq_bool q 0) eqn:E; simpl; [|reflexivity].
  apply Qeq_bool_eq in E. symmetry. exact E.
Qed.

Lemma strict_eq_key_refl z : strict_eq (VNum (nZ z)) (VNum (nZ z)) = true.
Proof. simpl. apply Qeq_eq_bool. reflexivity. Qed.

Lemma find_snoc_fresh {A} (p : A -> bool) l x :
  Forall (fun y => p y = false) l -> p x = true -> find p (l ++ [x]) = Some x.
Proof.
  induction 1 as [|y l Hy _ IH]; intros Hx; simpl.
  - rewrite Hx. reflexivity.
  - rewrite Hy. apply IH, Hx.
Qed.

Lemma filter_none {A} (p : A -> bool) l :
  Forall (fun y => p y = true) l -> List.filter p l = l.
Proof.
  induction 1 as [|y l Hy _ IH]; simpl; [reflexivity|].
  rewrite Hy, IH. reflexivity.
Qed.

Lemma nonempty_truthy s : s <> "" -> truthy (VStr s) = true.
Proof. destruct s; [contradiction | reflexivity]. Qed.

Lemma toUpperCase_nonempty s : s <> "" -> toUpperCase s <> "".
Proof. destruct s; [contradiction | discriminate]. Qed.

Lemma float_or_0_fin v : exists q, float_or_0 v = Fin q.
Proof. apply nor_fin. Qed.

(** Version 2.3: adding a trade and then deleting it. *)
Lemma v23_add_then_delete date_ms j date ticker strategy f now :
  V23.reachable date_ms j ->
  date <> "" -> ticker <> "" -> strategy <> "" ->
  let j1 := V23.handleAddTrade (filled_form date ticker strategy f) now true j in
  exists t,
    trades j1 = t :: trades j /\
    currentBalance j1 = nadd (currentBalance j) (to_num (get t "net_pl")) /\
    let j2 := V23.deleteTrade (get t "id") true true true j1 in
    currentBalance j2 = nsub (currentBalance j1) (pl_or_0 t) /\
    trades j2 = trades j.
Proof.
  intros Hreach Hd Ht Hs j1.
  destruct (reachable_ok date_ms j Hreach) as (_ & Hmem & Hok).
  subst j1. unfold V23.handleAddTrade.
  set (trade := V23.new_trade (filled_form date ticker strategy f) now).
  assert (Hdate : get trade "date" = VStr date).
  { subst trade. unfold V23.new_trade, V23.trade_fields.
    cbn [app String.append]. get_field. unfold filled_form, form_get. lookups.
    reflexivity. }
  assert (Htick : get trade "ticker" = VStr (toUpperCase ticker)).
  { subst trade. unfold V23.new_trade, V23.trade_fields.
    cbn [app String.append]. get_field. unfold filled_form, form_get. lookups.
    reflexivity. }
  assert (Hstrat : get trade "strategy" = VStr strategy).
  { subst trade. unfold V23.new_trade, V23.trade_fields.
    cbn [app String.append]. get_field. unfold filled_form, form_get. lookups.
    reflexivity. }
  assert (Hid : get trade "id" = VUndef).
  { subst trade. unfold V23.new_trade, V23.trade_fields.
    cbn [app String.append]. get_field. reflexivity. }
  destruct (v23_new_trade_pl (filled_form date ticker strategy f) now) as [Hpl _].
  fold trade in Hpl.
  destruct (float_or_0_fin (form_get (filled_form date ticker strategy f) "premium"))
    as [p Hp].
  destruct (float_or_0_fin (form_get (filled_form date ticker strategy f) "fees"))
    as [q Hq].
  rewrite Hp, Hq in Hpl. cbn [nadd] in Hpl.
  clearbody trade.
  rewrite Hdate, Htick, Hstrat.
  rewrite (nonempty_truthy _ Hd), (nonempty_truthy _ (toUpperCase_nonempty _ Ht)),
    (nonempty_truthy _ Hs).
  cbn [negb orb].
  unfold db_add. rewrite Hid.
  set (k := VNum (nZ (keygen (db j)))).
  set (t := set trade "id" k).
  assert (Hkey : get t "id" = k) by apply get_set_eq.
  assert (Htpl : get t "net_pl" = VNum (Fin (p + q))).
  { subst t. rewrite get_set_ne by discriminate. exact Hpl. }
  clearbody t.
  exists t. cbn [trades currentBalance].
  split; [reflexivity|]. split; [reflexivity|].
  pose proof (below_keygen_fresh _ (proj2 Hok)) as Hfresh. fold k in Hfresh.
  rewrite Hkey. unfold V23.deleteTrade.
  cbn [negb db currentBalance trades filteredTrades].
  unfold db_get, db_delete.
  change (valid_key k) with true. cbv iota. cbn [rows keygen].
  rewrite (find_snoc_fresh (has_key k) (rows (db j)) t Hfresh)
    by (unfold has_key; rewrite Hkey; apply strict_eq_key_refl).
  cbn [currentBalance trades].
  split; [reflexivity|].
  cbn [List.filter]. rewrite Hkey.
  unfold k at 1 2. rewrite strict_eq_key_refl. cbn [negb].
  apply filter_none. rewrite Forall_forall in *. intros x Hx.
  apply negb_true_iff. apply (Hfresh x).
  eapply elem_of_submseteq; eassumption.
Qed.

(** Version 3.0: what [deleteTrade] does to the balance. *)
Lemma v30_delete_balance tradeId del_ok a :
  match find (fun t => strict_eq (get t "id") tradeId) (V30.allTrades a) with
  | Some t =>
      exists a', V30.deleteTrade tradeId del_ok a = Some a' /\
                 V30.currentBalance a' = nsub (V30.currentBalance a) (V30.pl t)
  | None => V30.deleteTrade tradeId del_ok a = None
  end.
Proof.
  unfold V30.deleteTrade.
  destruct (find _ (V30.allTrades a)) as [t|]; cbn [mbind option_bind]; [|reflexivity].
  destruct (if del_ok then db_delete (V30.tradesDb a) tradeId else None);
    eexists; split; reflexivity.
Qed.

(** Version 3.0: adding a trade and then deleting it. *)
Lemma v30_add_then_delete tradeData now a :
  exists t a1 a2,
    V30.addTrade tradeData now true a = Some (t, a1) /\
    V30.allTrades a1 = t :: V30.allTrades a /\
    V30.currentBalance a1 = nadd (V30.currentBalance a) (V30.pl tradeData) /\
    V30.deleteTrade (get t "id") true a1 = Some a2 /\
    V30.currentBalance a2 = nsub (V30.currentBalance a1) (V30.pl tradeData).
Proof.
  unfold V30.addTrade.
  set (trade := list_to_map [("id", VUndef); ("created_at", VStr now);
                             ("updated_at", VStr now)] ∪ tradeData).
  assert (Hid : get trade "id" = VUndef).
  { subst trade. unfold get. rewrite (lookup_union_Some_l _ _ _ VUndef); reflexivity. }
  assert (Hpl : get trade "net_pl" = get tradeData "net_pl").
  { subst trade. unfold get. rewrite lookup_union_r; reflexivity. }
  clearbody trade.
  unfold db_add. rewrite Hid. cbn [mbind option_bind].
  set (k := VNum (nZ (keygen (V30.tradesDb a)))).
  set (t := set trade "id" k).
  assert (Hkey : get t "id" = k) by apply get_set_eq.
  assert (Htpl : V30.pl t = V30.pl tradeData).
  { unfold V30.pl. subst t. rewrite get_set_ne by discriminate.
    rewrite Hpl. reflexivity. }
  assert (Hkk : strict_eq k k = true) by apply strict_eq_key_refl.
  clearbody t.
  eexists t, _, _. split; [reflexivity|].
  cbn [V30.allTrades V30.currentBalance].
  split; [reflexivity|]. split; [reflexivity|].
  unfold V30.deleteTrade. cbn [V30.allTrades find].
  rewrite Hkey, Hkk.
  cbn [mbind option_bind V30.currentBalance V30.tradesDb].
  unfold db_delete. change (valid_key k) with true. cbv iota.
  split; [reflexivity|]. cbn [V30.currentBalance]. rewrite Htpl.
  reflexivity.
Qed.

(** C3: deleting a trade subtracts its net P&L from the balance, as
    adding it added that P&L, so deleting a trade whose net P&L is -50 sets
    the balance to the balance minus -50 and raises it.  Deleting a trade
    right after adding it leaves the balance at (balance + P&L) - P&L, and
    in version 2.3, from every reachable journal and every form whose
    required fields are filled in, gives back the list of trades.  In
    version 3.0 this holds from every state. *)
Theorem C3_delete_subtracts_what_add_added :
  (forall tradeId del_ok a,
     match find (fun t => strict_eq (get t "id") tradeId) (V30.allTrades a) with
     | Some t =>
         exists a', V30.deleteTrade tradeId del_ok a = Some a' /\
                    V30.currentBalance a' = nsub (V30.currentBalance a) (V30.pl t)
     | None => V30.deleteTrade tradeId del_ok a = None
     end) /\
  (forall tradeData now a,
     exists t a1 a2,
       V30.addTrade tradeData now true a = Some (t, a1) /\
       V30.allTrades a1 = t :: V30.allTrades a /\
       V30.currentBalance a1 = nadd (V30.currentBalance a) (V30.pl tradeData) /\
       V30.deleteTrade (get t "id") true a1 = Some a2 /\
       V30.currentBalance a2
       = nsub (nadd (V30.currentBalance a) (V30.pl tradeData))
              (V30.pl tradeData)) /\
  (forall date_ms j date ticker strategy f now,
     V23.reachable date_ms j ->
     date <> "" -> ticker <> "" -> strategy <> "" ->
     let j1 := V23.handleAddTrade (filled_form date ticker strategy f) now true j in
     exists t,
       trades j1 = t :: trades j /\
       currentBalance j1 = nadd (currentBalance j) (to_num (get t "net_pl")) /\
       let j2 := V23.deleteTrade (get t "id") true true true j1 in
       currentBalance j2 = nsub (currentBalance j1) (pl_or_0 t) /\
       trades j2 = trades j).
Proof.
  split; [intros; apply v30_delete_balance|].
  split.
  - intros tradeData now a.
    destruct (v30_add_then_delete tradeData now a)
      as (t & a1 & a2 & H1 & H2 & H3 & H4 & H5).
    exists t, a1, a2. rewrite H3 in H5. auto.
  - intros date_ms j date ticker strategy f now Hr Hd Ht Hs.
    exact (v23_add_then_delete date_ms j date ticker strategy f now Hr Hd Ht Hs).
Qed.

(** C3, an instance: a second trade is added to the journal with one trade
    and deleted again. *)
Lemma C3_delete_subtracts_witness :
  let j := one_trade_journal in
  let j1 := V23.handleAddTrade
              (filled_form "2024-03-04" "msft" "Cash Secured Put"
                 (list_to_map [("premium", "120"); ("fees", "-1.3")]))
              "2024-03-04T15:00:00.000Z" true j in
  exists t,
    trades j1 = t :: trades j /\
    currentBalance j1 = nadd (currentBalance j) (to_num (get t "net_pl")) /\
    let j2 := V23.deleteTrade (get t "id") true true true j1 in
    currentBalance j2 = nsub (currentBalance j1) (pl_or_0 t) /\
    trades j2 = trades j.
Proof.
  apply (proj2 (proj2 C3_delete_subtracts_what_add_added) iso_date_ms
           one_trade_journal).
  - exact one_trade_journal_reachable.
  - discriminate.
  - discriminate.
  - discriminate.
Defined.

(** C3, counterexample.  Deleting the trade whose net P&L is -50 takes the
    balance from 9950 to 10000: it does not decrease it by 50.  And a
    deletion does not always restore the balance from before the add: on
    the Numbers of the engine a balance of 0.1 to which a trade of 0.2 is
    added and then deleted is 0.10000000000000003, two units in the last
    place above 0.1. *)
Lemma C3_delete_raises_the_balance_and_rounds :
  (V30.currentBalance <$> V30.deleteTrade (VNum (Fin 1)) true one_loss
   = Some (Fin (9950 - -50)) /\
   ~ num_eq (Fin (9950 - -50)) (nsub (V30.currentBalance one_loss) (Fin 50)) /\
   num_eq (Fin (9950 - -50)) (nadd (V30.currentBalance one_loss) (Fin 50))) /\
  (let balance := Binary64.decimal 1 1 in
   let net_pl := Binary64.decimal 2 1 in
   balance = SpecFloat.S754_finite false 7205759403792794 (-56) /\
   V30.balance_after_delete (V30.balance_after_add balance net_pl) net_pl
   = SpecFloat.S754_finite false 7205759403792796 (-56) /\
   V30.balance_after_delete (V30.balance_after_add balance net_pl) net_pl
   <> balance).
Proof.
  split.
  - split; [vm_compute; reflexivity|]. split; [|vm_compute; reflexivity].
    vm_compute. discriminate.
  - cbv zeta. split; [vm_compute; reflexivity|].
    split; [vm_compute; reflexivity|]. vm_compute. discriminate.
Qed.

(** *** Rows without date or ticker *)

Lemma v23_parse_loop headers now lines : forall trades skipped,
  fold_left (V23.parse_step headers now) lines (trades, skipped)
  = (trades ++ map (V23.normalize now)
               (List.filter (fun t => negb (rejected t))
                  (map (V23.raw_trade headers) lines)),
     (skipped + length (List.filter rejected
                          (map (V23.raw_trade headers) lines)))%nat).
Proof.
  induction lines as [|line lines IH]; intros trades skipped.
  - simpl. rewrite app_nil_r, Nat.add_0_r. reflexivity.
  - cbn [fold_left map List.filter]. unfold V23.parse_step at 2.
    destruct (V23.lacks (V23.raw_trade headers line) "date") eqn:Ed.
    + assert (Hr : rejected (V23.raw_trade headers line) = true)
        by (unfold rejected; rewrite Ed; reflexivity).
      rewrite Hr, IH. cbn [negb length]. f_equal. lia.
    + destruct (V23.lacks (V23.raw_trade headers line) "ticker") eqn:Et.
      * assert (Hr : rejected (V23.raw_trade headers line) = true)
          by (unfold rejected; rewrite Ed, Et; reflexivity).
        rewrite Hr, IH. cbn [negb length]. f_equal. lia.
      * assert (Hr : rejected (V23.raw_trade headers line) = false)
          by (unfold rejected; rewrite Ed, Et; reflexivity).
        rewrite Hr, IH. cbn [negb map]. rewrite <- app_assoc. reflexivity.
Qed.

Lemma filter_partition_length {A} (f : A -> bool) l :
  (length (List.filter (fun x => negb (f x)) l) + length (List.filter f l)
   = length l)%nat.
Proof.
  induction l as [|x l IH]; simpl; [reflexivity|].
  destruct (f x); simpl; lia.
Qed.

Lemma v20_parse_loop headers now lines : forall trades,
  fold_left
    (fun trades line =>
       match V20.parse_row headers now line with
       | Some trade => trades ++ [trade]
       | None => trades
       end)
    lines trades
  = trades ++ map (V20.normalize now)
      (List.filter (fun t => truthy (get t "date") && truthy (get t "ticker"))
         (map (v20_raw_trade headers) (List.filter (v20_fits headers) lines))).
Proof.
  induction lines as [|line lines IH]; intros trades.
  - simpl. rewrite app_nil_r. reflexivity.
  - cbn [fold_left List.filter]. rewrite IH. unfold V20.parse_row at 1.
    fold (v20_fits headers line). fold (v20_raw_trade headers line).
    destruct (v20_fits headers line); cbn [negb]; [|reflexivity].
    cbn [map List.filter].
    destruct (truthy (get (v20_raw_trade headers line) "date")); cbn [negb orb andb];
      [|reflexivity].
    destruct (truthy (get (v20_raw_trade headers line) "ticker")); cbn [negb];
      [|reflexivity].
    cbn [map]. rewrite <- app_assoc. reflexivity.
Qed.

(** C7: the loop of parseCSV goes through every data line; a line whose
    date or ticker is missing adds one to the count of skipped rows and
    nothing to the batch, every other line adds its normalized trade, in
    order; so the batch holds exactly the rows that have both fields, and
    the two numbers add up to the number of data lines.  Version 2.0 keeps
    no count: of the lines that have as many values as the header has
    columns, its batch holds exactly those with a date and a ticker. *)
Theorem C7_rows_without_date_or_ticker_are_skipped
    (headers : list string) (now : string) (lines : list string) :
  let raw := map (V23.raw_trade headers) lines in
  V23.parse_rows headers now lines
  = (map (V23.normalize now) (List.filter (fun t => negb (rejected t)) raw),
     length (List.filter rejected raw)) /\
  (length (V23.parse_rows headers now lines).1
   + (V23.parse_rows headers now lines).2 = length lines)%nat /\
  (forall csvContent,
     V23.parse_batch csvContent now
     = match csv_lines csvContent with
       | [] | [_] => None
       | header :: data =>
           let raw := map (V23.raw_trade (V23.headers_of header)) data in
           Some (map (V23.normalize now)
                   (List.filter (fun t => negb (rejected t)) raw),
                 length (List.filter rejected raw))
       end) /\
  V20.parse_rows headers now lines
  = map (V20.normalize now)
      (List.filter (fun t => truthy (get t "date") && truthy (get t "ticker"))
         (map (v20_raw_trade headers) (List.filter (v20_fits headers) lines))).
Proof.
  intros raw.
  assert (H : forall hs ls,
             V23.parse_rows hs now ls
             = (map (V23.normalize now)
                  (List.filter (fun t => negb (rejected t))
                     (map (V23.raw_trade hs) ls)),
                length (List.filter rejected (map (V23.raw_trade hs) ls)))).
  { intros hs ls. unfold V23.parse_rows. rewrite v23_parse_loop. reflexivity. }
  split; [apply H|]. split; [|split].
  - rewrite H. cbn [fst snd]. rewrite length_map.
    rewrite filter_partition_length. apply length_map.
  - intros csvContent. unfold V23.parse_batch.
    destruct (csv_lines csvContent) as [|header [|l data]]; try reflexivity.
    rewrite H. reflexivity.
  - unfold V20.parse_rows. rewrite v20_parse_loop. reflexivity.
Qed.

(** C7, counterexample: version 2.0 drops the row 2024-01-05,AAPL, which
    has a date and a ticker, because it has two values for three headers;
    version 2.3 pads the row and parses it.  And version 2.0 keeps no count
    of the rows it skips: the file with a row without ticker leaves the
    journal exactly as the file without that row does, where version 2.3
    counts one skipped row. *)
Lemma C7_v20_drops_short_rows_and_keeps_no_count :
  tickers <$> previewData (V20.parseCSV short_row_csv "2024-03-01T10:00:00.000Z"
                             (new_journal empty_store))
  = Some [VStr "MSFT"] /\
  (fun b => (tickers b.1, b.2))
    <$> V23.parse_batch short_row_csv "2024-03-01T10:00:00.000Z"
  = Some ([VStr "AAPL"; VStr "MSFT"], 0%nat) /\
  V20.parseCSV no_ticker_csv "2024-03-01T10:00:00.000Z"
    (new_journal empty_store)
  = V20.parseCSV complete_csv "2024-03-01T10:00:00.000Z"
      (new_journal empty_store) /\
  (fun b => (tickers b.1, b.2))
    <$> V23.parse_batch no_ticker_csv "2024-03-01T10:00:00.000Z"
  = Some ([VStr "MSFT"], 1%nat).
Proof.
  split; [vm_compute; reflexivity|].
  split; [vm_compute; reflexivity|].
  split; [|vm_compute; reflexivity].
  unfold V20.parseCSV.
  replace (csv_lines no_ticker_csv)
    with ["date,ticker,net_pl"; "2024-01-05,,7"; "2024-01-06,MSFT,5"]
    by (vm_compute; reflexivity).
  replace (csv_lines complete_csv)
    with ["date,ticker,net_pl"; "2024-01-06,MSFT,5"]
    by (vm_compute; reflexivity).
  unfold V20.parse_rows. cbn [fold_left].
  replace (V20.parse_row (V20.headers_of "date,ticker,net_pl")
             "2024-03-01T10:00:00.000Z" "2024-01-05,,7")
    with (@None obj) by (vm_compute; reflexivity).
  reflexivity.
Qed.

(** *** Defaults of an imported row *)

Ltac get_sets :=
  repeat match goal with
  | |- context [get (set ?o ?k ?v) ?k] => rewrite (get_set_eq o k v)
  | |- context [get (set ?o ?k' ?v) ?k] =>
      rewrite (get_set_ne o k k' v) by discriminate
  end.

(** Names the value of the outermost [let] of the goal. *)
Ltac name_let :=
  match goal with
  | |- context C [let x := ?a in @?f x] =>
      let g := context C [f a] in
      let g := eval cbv beta in g in
      change g;
      let o := fresh "o" in remember a as o
  end.

(** Reads a field of an object built by a sequence of named assignments. *)
Ltac get_named :=
  repeat first
    [ progress get_sets
    | match goal with
      | H : ?o = set _ _ _ |- context [get ?o _] => rewrite H
      end ].

Lemma vor_falsy a b : truthy a = false -> vor a b = b.
Proof. unfold vor. intros ->. reflexivity. Qed.

Lemma vor_truthy a b : truthy a = true -> vor a b = a.
Proof. unfold vor. intros ->. reflexivity. Qed.

(** The fields that version 2.3 sets on an accepted row. *)
Lemma v23_normalize_fields now (t : obj) :
  let n := V23.normalize now t in
  let net_pl := parseFloat (vor (vor (get t "net_pl") (get t "net_p_l"))
                                (VNum (Fin 0))) in
  get n "net_pl" = VNum net_pl /\
  get n "fees" = VNum (if truthy (get t "fees") then parseFloat (get t "fees")
                       else Fin (-65 # 100)) /\
  get n "quantity" = VNum (if truthy (get t "quantity")
                           then parseInt (get t "quantity") else Fin 1) /\
  get n "outcome" = (if truthy (get t "outcome") then get t "outcome"
                     else VStr (if nge net_pl (Fin 0) then "Win" else "Loss")) /\
  get n "ticker" = match get t "ticker" with
                   | VStr s => VStr (toUpperCase s)
                   | v => v
                   end.
Proof.
  intros n net_pl. subst n.
  repeat split; cbv beta delta [V23.normalize]; repeat name_let; get_named.
  - reflexivity.
  - unfold vor. destruct (truthy (get t "fees")); reflexivity.
  - unfold vor. destruct (truthy (get t "quantity")); reflexivity.
  - unfold vor at 1. destruct (truthy (get t "outcome")); reflexivity.
  - reflexivity.
Qed.

(** The fields that version 2.0 sets on an accepted row. *)
Lemma v20_normalize_fields now (t : obj) :
  let n := V20.normalize now t in
  let net_pl := parseFloat (vor (vor (get t "net_pl") (get t "net_p_l"))
                                (VNum (Fin 0))) in
  get n "net_pl" = VNum net_pl /\
  get n "fees" = VNum (if truthy (get t "fees") then parseFloat (get t "fees")
                       else Fin (-65 # 100)) /\
  get n "quantity" = VNum (if truthy (get t "quantity")
                           then parseInt (get t "quantity") else Fin 1) /\
  get n "outcome" = VStr (if nge net_pl (Fin 0) then "Win" else "Loss") /\
  get n "ticker" = match get t "ticker" with
                   | VStr s => VStr (toUpperCase s)
                   | v => v
                   end.
Proof.
  intros n net_pl. subst n.
  repeat split; cbv beta delta [V20.normalize]; repeat name_let; get_named.
  - reflexivity.
  - unfold vor. destruct (truthy (get t "fees")); reflexivity.
  - unfold vor. destruct (truthy (get t "quantity")); reflexivity.
  - reflexivity.
  - reflexivity.
Qed.

(** The fields that importCSV of version 3.0 sets. *)
Lemma v30_tradeData_fields (row : obj) :
  let d := V30.tradeData_of row in
  get d "fees" = VNum (float_or_0 (vor (get row "fees") (get row "Fees"))) /\
  get d "quantity"
  = VNum (int_or_1 (vor (get row "quantity") (get row "Quantity"))) /\
  get d "outcome"
  = vor (vor (get row "outcome") (get row "Outcome")) (VStr "Win") /\
  get d "ticker" = match vor (vor (get row "ticker") (get row "Ticker")) (VStr "") with
                   | VStr s => VStr (toUpperCase s)
                   | v => v
                   end.
Proof.
  intros d. subst d. unfold V30.tradeData_of.
  repeat split; get_field; reflexivity.
Qed.

Lemma float_or_0_missing a b :
  truthy a = false -> truthy b = false -> float_or_0 (vor a b) = Fin 0.
Proof.
  intros Ha Hb. rewrite (vor_falsy _ _ Ha). unfold float_or_0, nor.
  destruct b as [| |s|[|q]]; simpl in *; try reflexivity.
  - destruct s; [reflexivity | discriminate].
  - rewrite Hb. reflexivity.
Qed.

(** C8: on a row that versions 2.3 and 2.0 accept, missing
    fees become -0.65, a missing quantity becomes 1, and the ticker is put
    in upper case; version 2.3 sets a missing outcome to Win exactly when
    the parsed net P&L is not negative and to Loss otherwise, and version
    2.0 sets every outcome that way.  importCSV of version 3.0 puts the
    ticker in upper case and defaults the quantity to 1, but defaults
    missing fees to 0 and a missing outcome to Win. *)
Theorem C8_defaults_of_an_imported_row :
  (forall now (t : obj),
     let n := V23.normalize now t in
     let net_pl := parseFloat (vor (vor (get t "net_pl") (get t "net_p_l"))
                                   (VNum (Fin 0))) in
     get n "net_pl" = VNum net_pl /\
     get n "fees" = VNum (if truthy (get t "fees") then parseFloat (get t "fees")
                          else Fin (-65 # 100)) /\
     get n "quantity" = VNum (if truthy (get t "quantity")
                              then parseInt (get t "quantity") else Fin 1) /\
     get n "outcome" = (if truthy (get t "outcome") then get t "outcome"
                        else VStr (if nge net_pl (Fin 0) then "Win" else "Loss")) /\
     get n "ticker" = match get t "ticker" with
                      | VStr s => VStr (toUpperCase s)
                      | v => v
                      end) /\
  (forall now (t : obj),
     let n := V20.normalize now t in
     let net_pl := parseFloat (vor (vor (get t "net_pl") (get t "net_p_l"))
                                   (VNum (Fin 0))) in
     get n "net_pl" = VNum net_pl /\
     get n "fees" = VNum (if truthy (get t "fees") then parseFloat (get t "fees")
                          else Fin (-65 # 100)) /\
     get n "quantity" = VNum (if truthy (get t "quantity")
                              then parseInt (get t "quantity") else Fin 1) /\
     get n "outcome" = VStr (if nge net_pl (Fin 0) then "Win" else "Loss") /\
     get n "ticker" = match get t "ticker" with
                      | VStr s => VStr (toUpperCase s)
                      | v => v
                      end) /\
  (forall row : obj,
     let d := V30.tradeData_of row in
     get d "fees" = VNum (float_or_0 (vor (get row "fees") (get row "Fees"))) /\
     get d "quantity"
     = VNum (int_or_1 (vor (get row "quantity") (get row "Quantity"))) /\
     get d "outcome"
     = vor (vor (get row "outcome") (get row "Outcome")) (VStr "Win") /\
     get d "ticker"
     = match vor (vor (get row "ticker") (get row "Ticker")) (VStr "") with
       | VStr s => VStr (toUpperCase s)
       | v => v
       end) /\
  (forall a b : value,
     truthy a = false -> truthy b = false -> float_or_0 (vor a b) = Fin 0).
Proof.
  split; [intros; apply v23_normalize_fields|].
  split; [intros; apply v20_normalize_fields|].
  split; [intros; apply v30_tradeData_fields|].
  apply float_or_0_missing.
Qed.

(** C8, an instance: the row of version 3.0 without a fees column. *)
Lemma C8_defaults_witness :
  float_or_0 (vor (get bare_loss_row "fees") (get bare_loss_row "Fees")) = Fin 0.
Proof.
  apply (proj2 (proj2 (proj2 C8_defaults_of_an_imported_row))); reflexivity.
Defined.

(** C8, counterexample: importCSV of version 3.0 accepts a row with a net
    P&L of -5 and neither fees nor an outcome, and gives it fees 0 and the
    outcome Win. *)
Lemma C8_v30_defaults_differ :
  V30.accepted (V30.tradeData_of bare_loss_row) = true /\
  get (V30.tradeData_of bare_loss_row) "net_pl" = VNum (Fin (-5)) /\
  get (V30.tradeData_of bare_loss_row) "fees" = VNum (Fin 0) /\
  get (V30.tradeData_of bare_loss_row) "outcome" = VStr "Win".
Proof. repeat split; vm_compute; reflexivity. Qed.

(** *** Commas between quotes *)

Lemma line_of_one (c : bool * string) : line_of [c] = cell_text c.
Proof. reflexivity. Qed.

Lemma line_of_cons (c c' : bool * string) cells :
  line_of (c :: c' :: cells)
  = cell_text c +:+ String "," (line_of (c' :: cells)).
Proof. reflexivity. Qed.

Lemma append_cons (c : ascii) (s t : string) :
  String c s +:+ t = String c (s +:+ t).
Proof. reflexivity. Qed.

Lemma append_nil_r (s : string) : s +:+ "" = s.
Proof.
  induction s as [|c s IH]; [reflexivity|].
  rewrite append_cons, IH. reflexivity.
Qed.

Lemma append_assoc (s t u : string) : (s +:+ t) +:+ u = s +:+ (t +:+ u).
Proof.
  induction s as [|c s IH]; [reflexivity|].
  rewrite !append_cons, IH. reflexivity.
Qed.

Lemma append_char (s : string) (c : ascii) (t : string) :
  (s +:+ String c "") +:+ t = s +:+ String c t.
Proof. rewrite append_assoc. reflexivity. Qed.

Lemma quoted_append (s rest : string) :
  quoted s +:+ rest = String dquote (s +:+ String dquote rest).
Proof. unfold quoted. rewrite !append_cons, append_char. reflexivity. Qed.

Lemma double_quotes_plain (s : string) :
  includes_char dquote s = false -> double_quotes s = s.
Proof.
  induction s as [|c s IH]; simpl; [reflexivity|].
  destruct (Ascii.eqb c dquote); simpl; [discriminate|].
  intros H. rewrite IH by exact H. reflexivity.
Qed.

(** Version 2.3: characters other than the quote, and no comma outside
    quotes, are appended to the current field. *)
Lemma v23_go_plain (s : string) : forall result current inQuotes rest,
  includes_char dquote s = false ->
  (inQuotes = false -> includes_char "," s = false) ->
  V23.parseCSVLine_go result current inQuotes (s +:+ rest)
  = V23.parseCSVLine_go result (current +:+ s) inQuotes rest.
Proof.
  induction s as [|c s IH]; intros result current inQuotes rest Hq Hc.
  - simpl. rewrite append_nil_r. reflexivity.
  - simpl in Hq. apply orb_false_elim in Hq as [Hq1 Hq2].
    rewrite append_cons. cbn [V23.parseCSVLine_go]. rewrite Hq1.
    assert (Hcomma : Ascii.eqb c "," && negb inQuotes = false).
    { destruct inQuotes; [apply andb_false_r|].
      specialize (Hc eq_refl). simpl in Hc.
      apply orb_false_elim in Hc as [-> _]. reflexivity. }
    rewrite Hcomma, IH, append_char; [reflexivity | exact Hq2 |].
    intros ->. specialize (Hc eq_refl). simpl in Hc.
    apply orb_false_elim in Hc as [_ Hc]. exact Hc.
Qed.

Lemma v23_go_cell (c : bool * string) result current rest :
  cell_ok c = true -> includes_char dquote c.2 = false ->
  V23.parseCSVLine_go result current false (cell_text c +:+ rest)
  = V23.parseCSVLine_go result (current +:+ c.2) false rest.
Proof.
  destruct c as [q s]. unfold cell_ok, cell_text. cbn [fst snd].
  intros Hok Hq. destruct q.
  - rewrite double_quotes_plain by exact Hq. rewrite quoted_append.
    cbn [V23.parseCSVLine_go]. rewrite Ascii.eqb_refl. cbn [negb].
    rewrite v23_go_plain; [|exact Hq|discriminate].
    cbn [V23.parseCSVLine_go]. rewrite Ascii.eqb_refl. reflexivity.
  - simpl in Hok. apply negb_true_iff, orb_false_elim in Hok as [Hc _].
    apply v23_go_plain; [exact Hq | intros _; exact Hc].
Qed.

Lemma v23_go_line (cells : list (bool * string)) : forall c result,
  forallb cell_ok (c :: cells) = true ->
  forallb (fun c => negb (includes_char dquote c.2)) (c :: cells) = true ->
  V23.parseCSVLine_go result "" false (line_of (c :: cells))
  = result ++ map (fun c => trim c.2) (c :: cells).
Proof.
  induction cells as [|c' cells IH]; intros c result Hok Hq;
    cbn [forallb] in Hok, Hq;
    apply andb_true_iff in Hok as [Hc Hok];
    apply andb_true_iff in Hq as [Hqc Hq];
    apply negb_true_iff in Hqc.
  - rewrite line_of_one.
    rewrite <- (append_nil_r (cell_text c)), v23_go_cell by assumption.
    reflexivity.
  - rewrite line_of_cons, v23_go_cell by assumption.
    cbn [V23.parseCSVLine_go Ascii.eqb Bool.eqb dquote andb negb].
    change ("" +:+ c.2) with c.2.
    rewrite IH; [|exact Hok|exact Hq].
    rewrite <- app_assoc. reflexivity.
Qed.

Lemma v30_go_plain (s : string) : forall result current inQuotes rest,
  includes_char dquote s = false ->
  (inQuotes = false -> includes_char "," s = false) ->
  V30.parseCSVLine_go result current inQuotes (s +:+ rest)
  = V30.parseCSVLine_go result (current +:+ s) inQuotes rest.
Proof.
  induction s as [|c s IH]; intros result current inQuotes rest Hq Hc.
  - simpl. rewrite append_nil_r. reflexivity.
  - simpl in Hq. apply orb_false_elim in Hq as [Hq1 Hq2].
    rewrite append_cons. cbn [V30.parseCSVLine_go]. rewrite Hq1.
    assert (Hcomma : Ascii.eqb c "," && negb inQuotes = false).
    { destruct inQuotes; [apply andb_false_r|].
      specialize (Hc eq_refl). simpl in Hc.
      apply orb_false_elim in Hc as [-> _]. reflexivity. }
    rewrite Hcomma, IH, append_char; [reflexivity | exact Hq2 |].
    intros ->. specialize (Hc eq_refl). simpl in Hc.
    apply orb_false_elim in Hc as [_ Hc]. exact Hc.
Qed.

Lemma v30_go_open result current rest :
  V30.parseCSVLine_go result current false (String dquote rest)
  = V30.parseCSVLine_go result current true rest.
Proof.
  cbn [V30.parseCSVLine_go]. rewrite Ascii.eqb_refl.
  destruct rest; reflexivity.
Qed.

Lemma v30_go_close result current rest :
  no_quote_first rest ->
  V30.parseCSVLine_go result current true (String dquote rest)
  = V30.parseCSVLine_go result current false rest.
Proof.
  intros H. cbn [V30.parseCSVLine_go]. rewrite Ascii.eqb_refl.
  destruct rest as [|ch rest]; [reflexivity|].
  simpl in H. rewrite H. reflexivity.
Qed.

(** Inside quotes, the text with its quotes doubled is read back as the
    text, commas included, up to the closing quote. *)
Lemma v30_go_escaped (s : string) : forall result current rest,
  no_quote_first rest ->
  V30.parseCSVLine_go result current true
    (double_quotes s +:+ String dquote rest)
  = V30.parseCSVLine_go result (current +:+ s) false rest.
Proof.
  induction s as [|c s IH]; intros result current rest H.
  - cbn [double_quotes]. rewrite append_nil_r.
    change ("" +:+ String dquote rest) with (String dquote rest).
    apply v30_go_close, H.
  - cbn [double_quotes]. destruct (Ascii.eqb c dquote) eqn:E.
    + apply Ascii.eqb_eq in E. subst c.
      rewrite !append_cons. cbn [V30.parseCSVLine_go].
      rewrite Ascii.eqb_refl. cbn [andb].
      rewrite IH by exact H. rewrite append_char. reflexivity.
    + rewrite append_cons. cbn [V30.parseCSVLine_go]. rewrite E.
      rewrite andb_false_r, IH by exact H.
      rewrite append_char. reflexivity.
Qed.

Lemma v30_go_cell (c : bool * string) result current rest :
  cell_ok c = true -> no_quote_first rest ->
  V30.parseCSVLine_go result current false (cell_text c +:+ rest)
  = V30.parseCSVLine_go result (current +:+ c.2) false rest.
Proof.
  destruct c as [q s]. unfold cell_ok, cell_text. cbn [fst snd].
  intros Hok H. destruct q.
  - rewrite quoted_append, v30_go_open. apply v30_go_escaped, H.
  - simpl in Hok. apply negb_true_iff, orb_false_elim in Hok as [Hc Hq].
    apply v30_go_plain; [exact Hq | intros _; exact Hc].
Qed.

Lemma v30_go_line (cells : list (bool * string)) : forall c result,
  forallb cell_ok (c :: cells) = true ->
  V30.parseCSVLine_go result "" false (line_of (c :: cells))
  = result ++ map snd (c :: cells).
Proof.
  induction cells as [|c' cells IH]; intros c result Hok;
    cbn [forallb] in Hok; apply andb_true_iff in Hok as [Hc Hok].
  - rewrite line_of_one.
    rewrite <- (append_nil_r (cell_text c)), v30_go_cell;
      [reflexivity | exact Hc | exact I].
  - rewrite line_of_cons, v30_go_cell; [|exact Hc|reflexivity].
    change ("" +:+ c.2) with c.2.
    assert (Hstep : forall rest,
               V30.parseCSVLine_go result c.2 false (String "," rest)
               = V30.parseCSVLine_go (result ++ [c.2]) "" false rest)
      by (intros rest; destruct rest; reflexivity).
    rewrite Hstep, IH by exact Hok.
    rewrite <- app_assoc. reflexivity.
Qed.

Lemma split_go_length sep (s : string) : forall cur,
  length (split_go sep cur s) = S (count_char sep s).
Proof.
  induction s as [|c s IH]; intros cur; [reflexivity|].
  cbn [split_go count_char]. destruct (Ascii.eqb c sep).
  - cbn [length]. rewrite IH. reflexivity.
  - rewrite IH. reflexivity.
Qed.

Lemma count_char_append c (s t : string) :
  count_char c (s +:+ t) = (count_char c s + count_char c t)%nat.
Proof.
  induction s as [|d s IH]; [reflexivity|].
  rewrite append_cons. cbn [count_char]. rewrite IH. lia.
Qed.

Lemma count_comma_double_quotes (s : string) :
  count_char "," (double_quotes s) = count_char "," s.
Proof.
  induction s as [|d s IH]; [reflexivity|].
  cbn [double_quotes]. destruct (Ascii.eqb d dquote) eqn:E.
  - apply Ascii.eqb_eq in E. subst d. cbn [count_char]. rewrite IH. reflexivity.
  - cbn [count_char]. rewrite IH. reflexivity.
Qed.

Lemma count_comma_cell (c : bool * string) :
  count_char "," (cell_text c) = count_char "," c.2.
Proof.
  destruct c as [[|] s]; [|reflexivity]. unfold cell_text, quoted. cbn [fst snd].
  rewrite count_char_append. cbn [count_char].
  rewrite count_comma_double_quotes. cbn. lia.
Qed.

Lemma count_comma_line (cells : list (bool * string)) : forall c,
  count_char "," (line_of (c :: cells))
  = (length cells + commas_in (c :: cells))%nat.
Proof.
  induction cells as [|c' cells IH]; intros c.
  - rewrite line_of_one, count_comma_cell. unfold commas_in.
    cbn [map list_sum length foldr]. lia.
  - rewrite line_of_cons, count_char_append. cbn [count_char].
    rewrite IH, count_comma_cell. unfold commas_in.
    cbn [map list_sum length foldr Ascii.eqb Bool.eqb]. lia.
Qed.

(** Version 2.0 cuts the line at every comma. *)
Lemma v20_values_length (cells : list (bool * string)) :
  cells <> [] ->
  length (V20.values_of (line_of cells)) = (length cells + commas_in cells)%nat.
Proof.
  destruct cells as [|c cells]; [congruence|]. intros _.
  unfold V20.values_of, split. rewrite length_map, split_go_length.
  rewrite count_comma_line. cbn [length]. lia.
Qed.

(** C5: a line is written as a list of cells separated by commas, a cell
    either between quotes, its own quotes doubled, or bare and then without
    comma or quote.  parseCSVLine of version 3.0 returns the texts of the
    cells, so a comma between quotes stays in its field; parseCSVLine of
    version 2.3 returns the trimmed texts when no text holds a quote.
    Version 2.0 cuts the line at every comma: it finds one value more for
    each comma in a text, and it drops the row when the header has as many
    columns as the line has cells and some text holds a comma. *)
Theorem C5_commas_between_quotes (cells : list (bool * string)) :
  cells <> [] ->
  forallb cell_ok cells = true ->
  V30.parseCSVLine (line_of cells) = map snd cells /\
  (forallb (fun c => negb (includes_char dquote c.2)) cells = true ->
   V23.parseCSVLine (line_of cells) = map (fun c => trim c.2) cells) /\
  length (V20.values_of (line_of cells)) = (length cells + commas_in cells)%nat /\
  (forall headers now,
     length headers = length cells -> (0 < commas_in cells)%nat ->
     V20.parse_row headers now (line_of cells) = None).
Proof.
  intros Hne Hok. destruct cells as [|c cells]; [congruence|].
  split; [apply (v30_go_line cells c []), Hok|].
  split; [intros Hq; apply (v23_go_line cells c []); assumption|].
  split; [apply v20_values_length, Hne|].
  intros headers now Hlen Hpos. unfold V20.parse_row.
  rewrite v20_values_length by exact Hne.
  destruct (Nat.eqb_spec (length (c :: cells) + commas_in (c :: cells))
              (length headers)) as [E|E]; [lia | reflexivity].
Qed.

(** C5, an instance: the line whose strategy holds a comma. *)
Lemma C5_commas_between_quotes_witness :
  V30.parseCSVLine strategy_line
  = ["2024-01-05"; "AAPL"; "Covered Call, rolled"; "5"] /\
  V23.parseCSVLine strategy_line
  = ["2024-01-05"; "AAPL"; "Covered Call, rolled"; "5"] /\
  length (V20.values_of strategy_line) = 5%nat /\
  V20.parse_row (V20.headers_of strategy_header) "2024-03-01T10:00:00.000Z"
    strategy_line = None.
Proof.
  destruct (C5_commas_between_quotes strategy_cells) as (H30 & H23 & H20 & Hrow);
    [discriminate | reflexivity |].
  split; [exact H30|]. split; [exact (H23 eq_refl)|]. split; [exact H20|].
  apply Hrow; [reflexivity | vm_compute; lia].
Defined.

(** The values that version 2.0 finds on the line of the example. *)
Lemma v20_values_of_strategy_line :
  strategy_line = "2024-01-05,AAPL," +:+ quoted "Covered Call, rolled" +:+ ",5" /\
  V20.values_of strategy_line
  = ["2024-01-05"; "AAPL"; "Covered Call"; "rolled"; "5"].
Proof. split; vm_compute; reflexivity. Qed.

(** *** Export and re-import *)

(** The text that [exportToCSV] of version 2.4 builds starts with what it
    was given. *)
Lemma export_rows_prefix (ts : list obj) : forall acc csv,
  V24.export_rows acc ts = Some csv -> exists rest, csv = acc +:+ rest.
Proof.
  induction ts as [|trade ts IH]; intros acc csv H.
  - injection H as <-. exists "". rewrite append_nil_r. reflexivity.
  - cbn [V24.export_rows] in H.
    destruct (V24.export_row trade) as [row|]; [|discriminate].
    cbn [mbind option_bind] in H.
    destruct (IH _ _ H) as (rest & ->).
    exists ((row +:+ newline) +:+ rest).
    rewrite <- !append_assoc. reflexivity.
Qed.

Lemma rev_app_append (s : string) : forall t,
  String.rev_app s t = String.rev_app s "" +:+ t.
Proof.
  induction s as [|a s IH]; intros t; [reflexivity|].
  cbn [String.rev_app]. rewrite IH, (IH (String a "")), append_char.
  reflexivity.
Qed.

Lemma rev_cons (c : ascii) (s : string) :
  String.rev (String c s) = String.rev s +:+ String c "".
Proof. unfold String.rev. cbn [String.rev_app]. apply rev_app_append. Qed.

(** [split] up to the first separator. *)
Lemma split_go_first sep (s : string) : forall cur rest,
  includes_char sep s = false ->
  split_go sep cur (s +:+ String sep rest)
  = (String.rev cur +:+ s) :: split_go sep "" rest.
Proof.
  induction s as [|c s IH]; intros cur rest H.
  - change ("" +:+ String sep rest) with (String sep rest).
    cbn [split_go]. rewrite Ascii.eqb_refl, append_nil_r. reflexivity.
  - simpl in H. apply orb_false_elim in H as [Hc Hs].
    rewrite append_cons. cbn [split_go]. rewrite Hc.
    rewrite IH by exact Hs. rewrite rev_cons, append_char. reflexivity.
Qed.

Lemma csv_lines_first (s rest : string) :
  includes_char "010" s = false -> trim s <> "" ->
  csv_lines (s +:+ newline +:+ rest) = trim s :: csv_lines rest.
Proof.
  intros Hs Hne. unfold csv_lines, split, newline.
  rewrite append_cons. change ("" +:+ rest) with rest.
  rewrite split_go_first by exact Hs.
  change (String.rev "" +:+ s) with s. cbn [map List.filter].
  destruct (String.eqb_spec (trim s) ""); [contradiction | reflexivity].
Qed.

(** A key that is no header is not set by [headers.forEach]. *)
Lemma get_forEach_header_other cell (k : string) (headers : list string) :
  forall index trade,
  forallb (fun h => negb (String.eqb h k)) headers = true ->
  get (forEach_header cell headers index trade) k = get trade k.
Proof.
  induction headers as [|h headers IH]; intros index trade H; [reflexivity|].
  cbn [forallb] in H. apply andb_true_iff in H as [Hh H].
  cbn [forEach_header]. rewrite IH by exact H.
  apply get_set_ne. apply negb_true_iff, String.eqb_neq in Hh. exact Hh.
Qed.

(** Under the keys of the exported header, a row has no [net_pl] and no
    [net_p_l], and the import sets its net P&L to 0. *)
Lemma v24_reimported_row now (line : string) :
  get (V24.normalize now (V24.raw_trade reimported_keys line)) "net_pl"
  = VNum (Fin 0).
Proof.
  unfold V24.normalize, V24.raw_trade, V23.raw_trade.
  destruct (v23_normalize_fields now
              (forEach_header
                 (fun index =>
                    vor (at_index (V23.pad (V23.parseCSVLine line)
                                     (length reimported_keys)) index)
                        (VStr ""))
                 reimported_keys 0 ∅)) as (H & _).
  rewrite H. rewrite !get_forEach_header_other by reflexivity.
  reflexivity.
Qed.

Lemma v24_parse_loop_all (P : obj -> Prop) headers now :
  (forall line, P (V24.normalize now (V24.raw_trade headers line))) ->
  forall lines acc,
    Forall P acc.1 ->
    Forall P (fold_left (V24.parse_step headers now) lines acc).1.
Proof.
  intros HP. induction lines as [|line lines IH]; intros [trades skipped] H;
    [exact H|].
  cbn [fold_left]. apply IH. unfold V24.parse_step.
  destruct (negb (truthy (get (V24.raw_trade headers line) "date"))
            || negb (truthy (get (V24.raw_trade headers line) "ticker")));
    cbn [fst]; [exact H|].
  cbn [fst] in H. apply Forall_app. split; [exact H|].
  constructor; [apply HP | constructor].
Qed.

(** Whatever the journal, the file that version 2.4 exports is read back
    with a net P&L of 0 in every row. *)
Lemma v24_reimport_has_no_pl (j : journal) (csv now : string) batch skipped :
  V24.exportToCSV j = Some csv ->
  V24.parse_batch csv now = Some (batch, skipped) ->
  Forall (fun t => get t "net_pl" = VNum (Fin 0)) batch.
Proof.
  unfold V24.exportToCSV. intros Hexp Hparse.
  assert (Hpre : exists rest,
             csv = join "," V24.export_headers +:+ newline +:+ rest).
  { destruct (trades j) as [|t ts]; [discriminate|].
    destruct (export_rows_prefix _ _ _ Hexp) as (rest & ->).
    exists rest. rewrite append_assoc. reflexivity. }
  destruct Hpre as (rest & ->).
  unfold V24.parse_batch in Hparse.
  rewrite csv_lines_first in Hparse;
    [|vm_compute; reflexivity|vm_compute; discriminate].
  destruct (csv_lines rest) as [|l ls]; [discriminate|].
  assert (Hb : batch
               = (fold_left (V24.parse_step reimported_keys now) (l :: ls)
                    ([], O)).1).
  { injection Hparse as Hparse. apply (f_equal fst) in Hparse.
    symmetry. exact Hparse. }
  rewrite Hb. apply v24_parse_loop_all; [apply v24_reimported_row|].
  constructor.
Qed.

(** C9: the file that exportToCSV of version 2.4 writes, whatever the
    journal, is read back by parseCSV with a net P&L of 0 in every row: the
    column Net P&L comes back under the key net_p&l, which the import does
    not read.  For example, a trade with a net P&L of 5 is
    imported, the journal is exported, and the exported file is imported
    again: the trade has a net P&L of 0 and the balance is 0, not 5.  In
    version 3.0 the columns of the export are the keys that the import
    reads: on a file of two trades every exported field comes back, the
    trades in reverse order. *)
Theorem C9_reimport_loses_net_pl :
  (forall (j : journal) (csv now : string) batch skipped,
     V24.exportToCSV j = Some csv ->
     V24.parse_batch csv now = Some (batch, skipped) ->
     Forall (fun t => get t "net_pl" = VNum (Fin 0)) batch) /\
  (let first := import_v24 one_trade_csv "2024-03-01T10:00:00.000Z" in
   exists csv,
     V24.exportToCSV first = Some csv /\
     let second := import_v24 csv "2024-03-02T10:00:00.000Z" in
     map persisted (trades first)
     = [[VStr "2024-01-05"; VStr "AAPL"; VStr "Unknown"; VNum (Fin 1);
         VNum (Fin 0); VNum (Fin (-65 # 100)); VNum (Fin 5); VStr "Win"]] /\
     map persisted (trades second)
     = [[VStr "2024-01-05"; VStr "AAPL"; VStr "Unknown"; VNum (Fin 1);
         VNum (Fin 0); VNum (Fin (-65 # 100)); VNum (Fin 0); VStr "Win"]] /\
     map (fun t => get t "net_p&l") (trades second) = [VStr "5"] /\
     currentBalance first = Fin 5 /\ currentBalance second = Fin 0) /\
  (let first := import_v30 two_trades_csv "2024-03-01T10:00:00.000Z" in
   exists csv,
     V30.exportToCSV first = Some csv /\
     let second := import_v30 csv "2024-03-02T10:00:00.000Z" in
     map (fun t => (get t "ticker", get t "strategy", get t "net_pl"))
       (V30.allTrades first)
     = [(VStr "MSFT", VStr "Put, rolled", VNum (Fin (-3)));
        (VStr "AAPL", VStr "Covered Call", VNum (Fin 5))] /\
     map exported (V30.allTrades second)
     = rev (map exported (V30.allTrades first)) /\
     V30.currentBalance second = V30.currentBalance first).
Proof.
  split; [apply v24_reimport_has_no_pl|]. split.
  - eexists. split; [vm_compute; reflexivity|].
    repeat split; vm_compute; reflexivity.
  - eexists. split; [vm_compute; reflexivity|].
    repeat split; vm_compute; reflexivity.
Qed.

(** C9, an instance: the batch read back from the export of the journal
    with one trade. *)
Lemma C9_reimport_witness :
  length reimported_batch = 1%nat /\
  Forall (fun t => get t "net_pl" = VNum (Fin 0)) reimported_batch.
Proof.
  split; [vm_compute; reflexivity|].
  unfold reimported_batch.
  destruct (V24.parse_batch exported_csv "2024-03-02T10:00:00.000Z")
    as [[batch skipped]|] eqn:E; [|constructor].
  apply (proj1 C9_reimport_loses_net_pl
           (import_v24 one_trade_csv "2024-03-01T10:00:00.000Z")
           exported_csv "2024-03-02T10:00:00.000Z" batch skipped);
    [vm_compute; reflexivity | exact E].
Defined.

(** *** The database and the trades in memory *)

(** X1: in every journal that a run of version 2.3 reaches, the trades in
    memory are records of the database, counted with multiplicity, and no
    two records of the database have the same key. *)
Theorem X1_trades_are_records_of_the_database (date_ms : value -> num)
    (j : journal) :
  V23.reachable date_ms j ->
  trades j ⊆+ rows (db j) /\ distinct_keys (rows (db j)).
Proof.
  intros H. destruct (reachable_ok date_ms j H) as (_ & Ht & Hd & _).
  split; assumption.
Qed.

(** X1, an instance: the journal after one trade was added. *)
Lemma X1_trades_are_records_witness :
  trades one_trade_journal ⊆+ rows (db one_trade_journal) /\
  distinct_keys (rows (db one_trade_journal)).
Proof.
  apply (X1_trades_are_records_of_the_database iso_date_ms).
  exact one_trade_journal_reachable.
Defined.

(** *** Portfolio metrics without capital *)

Lemma drawdown_loop_nan entries : forall r,
  Enhanced.r_maxDrawdown r = XNaN ->
  Enhanced.r_maxDrawdown (fold_left Enhanced.history_step entries r) = XNaN.
Proof.
  induction entries as [|e entries IH]; intros r Hr; cbn [fold_left];
    [exact Hr|].
  apply IH. unfold Enhanced.history_step. cbn [Enhanced.r_maxDrawdown].
  rewrite Hr. reflexivity.
Qed.

Lemma drawdown_at_zero_peak b :
  (b < 0)%Q -> ndiv (nsub (Fin 0) (Fin b)) (Fin 0) = XPosInf.
Proof.
  intros Hneg. cbn [nsub ndiv].
  assert (Hz : Qeq_bool (0 - b) 0 = false).
  { apply Qeq_bool_false_pos. unfold Qminus. rewrite Qplus_0_l.
    change 0%Q with (- 0)%Q. apply Qopp_lt_compat, Hneg. }
  assert (Hle : Qle_bool 0 (0 - b) = true).
  { apply Qle_bool_iff. unfold Qminus. rewrite Qplus_0_l.
    change 0%Q with (- 0)%Q. apply Qopp_le_compat, Qlt_le_weak, Hneg. }
  rewrite Hz, Hle. reflexivity.
Qed.

Lemma below_zero_is_no_peak b : (b <= 0)%Q -> ngt (Fin b) (Fin 0) = false.
Proof.
  intros H. cbn [ngt]. unfold Qltb. apply negb_false_iff, Qle_bool_iff, H.
Qed.

Lemma drawdown_loop_below_zero entries : forall r,
  Enhanced.r_peak r = Fin 0 ->
  Enhanced.r_maxDrawdown r = XPosInf ->
  Forall (fun e => exists b, h_balance e = Fin b /\ (b < 0)%Q) entries ->
  Enhanced.r_maxDrawdown (fold_left Enhanced.history_step entries r) = XPosInf.
Proof.
  induction entries as [|e entries IH]; intros r Hp Hm He; cbn [fold_left];
    [exact Hm|].
  inversion He as [|? ? (b & Hb & Hneg) He']; subst.
  apply IH; [| |exact He'];
    unfold Enhanced.history_step;
    cbn [Enhanced.r_peak Enhanced.r_maxDrawdown];
    rewrite Hb, Hp, (below_zero_is_no_peak b (Qlt_le_weak _ _ Hneg));
    [reflexivity|].
  rewrite Hm, (drawdown_at_zero_peak b Hneg). reflexivity.
Qed.

(** X2: the revision with portfolio history guards the return percentage
    against a starting capital of zero, the capital of a new journal, but
    not the drawdown: its loop divides by the peak, which starts at the
    capital.  With a capital of zero the return percentage is 0; the
    maximum drawdown is NaN when the first balance of the history is zero,
    whatever follows, and Infinity when the history is not empty and
    every balance in it is negative. *)
Theorem X2_drawdown_without_capital (j : journal) :
  startingCapital j = Fin 0 ->
  let m := Enhanced.calculatePortfolioMetrics j in
  Enhanced.returnPercentage m = XFin 0 /\
  (forall e rest b,
     portfolioHistory j = e :: rest -> h_balance e = Fin b -> (b == 0)%Q ->
     Enhanced.maxDrawdown m = XNaN) /\
  (portfolioHistory j <> [] ->
   Forall (fun e => exists b, h_balance e = Fin b /\ (b < 0)%Q)
     (portfolioHistory j) ->
   Enhanced.maxDrawdown m = XPosInf).
Proof.
  intros Hc m. subst m. unfold Enhanced.calculatePortfolioMetrics.
  cbn [Enhanced.returnPercentage Enhanced.maxDrawdown]. rewrite Hc.
  split; [reflexivity|]. split.
  - intros e rest b Hh Hb H0. rewrite Hh. cbn [fold_left].
    apply drawdown_loop_nan. unfold Enhanced.history_step.
    cbn [Enhanced.r_peak Enhanced.r_maxDrawdown]. rewrite Hb.
    assert (Hle : (b <= 0)%Q) by (rewrite H0; apply Qle_refl).
    rewrite (below_zero_is_no_peak b Hle). cbn [nsub ndiv].
    assert (Hz : Qeq_bool (0 - b) 0 = true).
    { apply Qeq_eq_bool. rewrite H0. reflexivity. }
    rewrite Hz. reflexivity.
  - intros Hne He.
    destruct (portfolioHistory j) as [|e rest]; [contradiction|].
    inversion He as [|? ? (b & Hb & Hneg) He']; subst.
    cbn [fold_left]. apply drawdown_loop_below_zero; [| |exact He'];
      unfold Enhanced.history_step;
      cbn [Enhanced.r_peak Enhanced.r_maxDrawdown];
      rewrite Hb, (below_zero_is_no_peak b (Qlt_le_weak _ _ Hneg));
      [reflexivity|].
    rewrite (drawdown_at_zero_peak b Hneg). reflexivity.
Qed.

(** X2, an instance: the first trade of a new journal loses 50. *)
Lemma X2_drawdown_witness :
  Enhanced.maxDrawdown
    (Enhanced.calculatePortfolioMetrics
       (Enhanced.handleAddTrade iso_date_ms
          (list_to_map [("trade-date", "2024-03-01"); ("ticker", "aapl");
                        ("premium", "-50")])
          "2024-03-01T10:00:00.000Z" true true (new_journal empty_store)))
  = XPosInf.
Proof.
  set (j := Enhanced.handleAddTrade iso_date_ms _ _ true true _).
  assert (Hh : map h_balance (portfolioHistory j) = [Fin (-50)])
    by (vm_compute; reflexivity).
  apply (X2_drawdown_without_capital j).
  - vm_compute. reflexivity.
  - intros Hnil. rewrite Hnil in Hh. discriminate.
  - destruct (portfolioHistory j) as [|e [|e' rest]]; try discriminate.
    injection Hh as Hb. constructor; [|constructor].
    exists (-50)%Q. split; [exact Hb | reflexivity].
Defined.

(** *** Field keys *)

Lemma lower_ascii_key_char (c : ascii) :
  is_space (lower_ascii c) = is_space c /\ is_upper (lower_ascii c) = false.
Proof.
  destruct c as [[] [] [] [] [] [] [] []]; split; reflexivity.
Qed.

Lemma key_chars_lower (s : string) : forall in_run,
  all_chars key_char (ws_runs_to_underscore in_run (toLowerCase s)) = true.
Proof.
  induction s as [|c s IH]; intros in_run; [reflexivity|].
  unfold toLowerCase in *. cbn [string_map ws_runs_to_underscore].
  destruct (lower_ascii_key_char c) as [Hs Hu].
  destruct (is_space (lower_ascii c)) eqn:E.
  - destruct in_run; [apply IH|].
    cbn [all_chars]. rewrite IH. reflexivity.
  - cbn [all_chars]. unfold key_char at 1. rewrite E, Hu, IH. reflexivity.
Qed.

(** X4: the key that parseCSV makes of a header cell holds neither white
    space nor an upper-case letter, in version 2.0 and in version 2.3: headers
    that differ in case or in the white space between words give the same
    key. *)
Theorem X4_header_keys (h : string) :
  all_chars key_char (V20.header_key h) = true /\
  all_chars key_char (V23.header_key h) = true /\
  V23.header_key "Entry Price" = "entry_price" /\
  V23.header_key "ENTRY   price" = "entry_price".
Proof.
  split; [apply key_chars_lower|]. split; [apply key_chars_lower|].
  split; reflexivity.
Qed.

(** *** Filters *)

Lemma filter_all {A} (p : A -> bool) (l : list A) :
  (forall x, p x = true) -> List.filter p l = l.
Proof.
  intros H. induction l as [|x l IH]; [reflexivity|].
  simpl. rewrite H, IH. reflexivity.
Qed.

(** X5: applyFilters with the four filter inputs empty (or missing)
    displays every trade, as resetFilters does. *)
Theorem X5_no_filter_displays_every_trade (date_ms : value -> num)
    (tickerFilter strategyFilter dateFrom dateTo : value) (j : journal) :
  truthy tickerFilter = false -> truthy strategyFilter = false ->
  truthy dateFrom = false -> truthy dateTo = false ->
  V23.applyFilters date_ms tickerFilter strategyFilter dateFrom dateTo j
  = V23.resetFilters j.
Proof.
  intros Ht Hs Hf Hd. unfold V23.applyFilters, V23.resetFilters.
  rewrite filter_all; [reflexivity|].
  intros x. unfold V23.passes. rewrite Ht, Hs, Hf, Hd. reflexivity.
Qed.

(** X5, an instance: the four inputs hold the empty text. *)
Lemma X5_no_filter_witness :
  V23.applyFilters iso_date_ms (VStr "") (VStr "") (VStr "") (VStr "")
    one_trade_journal
  = V23.resetFilters one_trade_journal.
Proof.
  apply X5_no_filter_displays_every_trade; reflexivity.
Defined.

(** *** The balance and the total P&L of version 3.0 *)

Lemma pl_qpl t : V30.pl t = Fin (qof V30.pl t).
Proof. unfold qof. destruct (v30_pl_fin t) as [q ->]. reflexivity. Qed.

Lemma v30_fold_qtotal l : forall acc,
  exists s, fold_left (fun sum t => nadd sum (V30.pl t)) l (Fin acc) = Fin s /\
            (s == acc + qsum V30.pl l)%Q.
Proof.
  induction l as [|t l IH]; intros acc; cbn [fold_left qsum].
  - exists acc. split; [reflexivity | ring].
  - rewrite pl_qpl. cbn [nadd].
    destruct (IH (acc + qof V30.pl t)%Q) as (s & Hs & Hq).
    exists s. split; [exact Hs|]. rewrite Hq. ring.
Qed.

Lemma v30_sum_pl_qtotal l :
  exists s, V30.sum_pl l = Fin s /\ (s == qsum V30.pl l)%Q.
Proof.
  destruct (v30_fold_qtotal l 0) as (s & Hs & Hq).
  exists s. split; [exact Hs|]. rewrite Hq. ring.
Qed.

Lemma v30_totalPL_qtotal a :
  exists s, V30.totalPL (V30.calculateMetrics a) = Fin s /\
            (s == qsum V30.pl (V30.allTrades a))%Q.
Proof.
  unfold V30.calculateMetrics.
  destruct (V30.allTrades a) as [|t l] eqn:E.
  - exists 0%Q. split; reflexivity.
  - cbn [length Nat.eqb V30.totalPL]. apply v30_sum_pl_qtotal.
Qed.

Lemma deposits_shift a a' (d : Q) :
  num_eq (V30.currentBalance a') (nadd (V30.currentBalance a) (Fin d)) ->
  (qsum V30.pl (V30.allTrades a') == qsum V30.pl (V30.allTrades a) + d)%Q ->
  num_eq (deposits a') (deposits a).
Proof.
  intros Hb Ht. unfold deposits.
  destruct (v30_totalPL_qtotal a) as (s & -> & Hs).
  destruct (v30_totalPL_qtotal a') as (s' & -> & Hs').
  destruct (V30.currentBalance a) as [|b], (V30.currentBalance a') as [|b'];
    cbn in *; try tauto.
  rewrite Hb, Hs, Hs', Ht. ring.
Qed.

Lemma qsum_insert pl l : forall i x u,
  l !! i = Some x ->
  (qsum pl (<[i := u]> l) == qsum pl l - qof pl x + qof pl u)%Q.
Proof.
  induction l as [|y l IH]; intros i x u Hi; [discriminate|].
  destruct i as [|i]; cbn in Hi |- *.
  - injection Hi as ->. ring.
  - rewrite (IH i x u Hi). ring.
Qed.

Lemma find_findIndex {A} (p : A -> bool) l x :
  find p l = Some x -> exists i, findIndex p l = Some i /\ l !! i = Some x.
Proof.
  induction l as [|y l IH]; cbn; [discriminate|].
  destruct (p y).
  - intros [= ->]. exists O. split; reflexivity.
  - intros H. destruct (IH H) as (i & -> & Hi). exists (S i). split; [reflexivity | exact Hi].
Qed.

Lemma find_true {A} (p : A -> bool) l x : find p l = Some x -> p x = true.
Proof.
  induction l as [|y l IH]; cbn; [discriminate|].
  destruct (p y) eqn:E; [intros [= <-]; exact E | exact IH].
Qed.

Lemma qsum_delete pl (id : value) l t :
  distinct_keys l ->
  find (fun x => strict_eq (get x "id") id) l = Some t ->
  (qsum pl (List.filter (fun x => negb (strict_eq (get x "id") id)) l)
   == qsum pl l - qof pl t)%Q.
Proof.
  induction l as [|y l IH]; cbn [find List.filter distinct_keys qsum];
    [discriminate|].
  intros [Hy Hl]. destruct (strict_eq (get y "id") id) eqn:E; cbn [negb].
  - intros [= ->].
    rewrite filter_none; [ring|].
    eapply Forall_impl; [exact Hy|]. intros x Hx. cbn in Hx.
    destruct (strict_eq (get x "id") id) eqn:Ex; [|reflexivity].
    rewrite strict_eq_sym in Ex.
    rewrite (strict_eq_trans _ _ _ E Ex) in Hx. discriminate.
  - intros H. cbn [qsum]. rewrite (IH Hl H). ring.
Qed.

(** Adding a trade. *)
Lemma v30_addTrade_some tradeData now add_ok a t a' :
  app_ok a ->
  V30.addTrade tradeData now add_ok a = Some (t, a') ->
  app_ok a' /\ V30.allTrades a' = t :: V30.allTrades a /\
  V30.currentBalance a' = nadd (V30.currentBalance a) (Fin (qof V30.pl tradeData)) /\
  qof V30.pl t = qof V30.pl tradeData /\
  V30.startingCapital a' = V30.startingCapital a.
Proof.
  intros [Ht Hs]. unfold V30.addTrade.
  set (trade := list_to_map [("id", VUndef); ("created_at", VStr now);
                             ("updated_at", VStr now)] ∪ tradeData).
  assert (Hpl : get trade "net_pl" = get tradeData "net_pl").
  { subst trade. unfold get. rewrite lookup_union_r; reflexivity. }
  clearbody trade.
  destruct (if add_ok then db_add (V30.tradesDb a) trade else None)
    as [[id d]|] eqn:Eadd; cbn [mbind option_bind]; [|discriminate].
  destruct add_ok; [|discriminate].
  destruct (db_add_ok _ _ _ _ Hs Eadd) as (Hrows & Hs' & _ & _).
  intros [= <- <-]. unfold app_ok.
  cbn [V30.allTrades V30.tradesDb V30.currentBalance V30.startingCapital].
  split; [split; [|exact Hs']|].
  - rewrite Hrows. apply submseteq_cons_snoc. exact Ht.
  - split; [reflexivity|]. split; [rewrite pl_qpl; reflexivity|].
    split; [|reflexivity].
    unfold qof, V30.pl. rewrite get_set_ne by discriminate.
    rewrite Hpl. reflexivity.
Qed.

Lemma v30_addTrade_deposits tradeData now add_ok a t a' :
  app_ok a ->
  V30.addTrade tradeData now add_ok a = Some (t, a') ->
  app_ok a' /\ num_eq (deposits a') (deposits a).
Proof.
  intros Ha H.
  destruct (v30_addTrade_some _ _ _ _ _ _ Ha H) as (Ha' & Hl & Hb & Hq & _).
  split; [exact Ha'|].
  apply (deposits_shift a a' (qof V30.pl tradeData)).
  - rewrite Hb. reflexivity.
  - rewrite Hl. cbn [qsum]. rewrite Hq. ring.
Qed.

Lemma v30_handleAddTrade_deposits f now add_ok a :
  app_ok a ->
  app_ok (V30.handleAddTrade f now add_ok a) /\
  num_eq (deposits (V30.handleAddTrade f now add_ok a)) (deposits a).
Proof.
  intros Ha. unfold V30.handleAddTrade.
  destruct (V30.addTrade _ now add_ok a) as [[t a']|] eqn:E.
  - eapply v30_addTrade_deposits; eassumption.
  - split; [exact Ha | reflexivity].
Qed.

Lemma v30_import_rows_deposits now add_ok data : forall index a,
  app_ok a ->
  app_ok (V30.import_rows now add_ok index data a) /\
  num_eq (deposits (V30.import_rows now add_ok index data a)) (deposits a).
Proof.
  induction data as [|row data IH]; intros index a Ha; cbn [V30.import_rows].
  - split; [exact Ha | reflexivity].
  - destruct (V30.accepted (V30.tradeData_of row)); [|apply IH, Ha].
    destruct (V30.addTrade _ now (add_ok index) a) as [[t a']|] eqn:E.
    + destruct (v30_addTrade_deposits _ _ _ _ _ _ Ha E) as [Ha' Hd].
      destruct (IH (S index) a' Ha') as [Ha'' Hd'].
      split; [exact Ha''|]. etransitivity; eassumption.
    + split; [exact Ha | reflexivity].
Qed.

(** Editing a trade. *)
Lemma v30_handleEditTrade_deposits f now a :
  app_ok a ->
  app_ok (V30.handleEditTrade f now true a) /\
  num_eq (deposits (V30.handleEditTrade f now true a)) (deposits a).
Proof.
  intros Ha. unfold V30.handleEditTrade.
  set (id := VNum (parseInt (input_value f "editTradeId"))).
  set (tradeData := list_to_map (("id", id) :: _)).
  assert (Hid : get tradeData "id" = id) by apply get_list_to_map_head.
  clearbody tradeData.
  unfold V30.updateTrade. rewrite Hid.
  destruct (find _ (V30.allTrades a)) as [existingTrade|] eqn:Efind;
    cbn [mbind option_bind]; [|split; [exact Ha | reflexivity]].
  set (u := list_to_map _ ∪ tradeData).
  assert (Hu : get u "id" = id).
  { subst u. get_union. rewrite <- Hid. unfold get.
    rewrite lookup_union_r; reflexivity. }
  assert (Hpl : qof V30.pl u = qof V30.pl tradeData).
  { unfold qof, V30.pl. subst u. unfold get.
    rewrite lookup_union_r; reflexivity. }
  clearbody u.
  pose proof (find_true _ _ _ Efind) as Hsame. cbn in Hsame.
  assert (Hne : get u "id" <> VUndef).
  { rewrite Hu. intros E. rewrite E in Hsame.
    destruct (get existingTrade "id") as [| | |[|]]; discriminate. }
  destruct Ha as [Ht Hs].
  destruct (db_put (V30.tradesDb a) u) as [d|] eqn:Eput.
  - destruct (db_put_ok _ _ _ Hs Hne Eput) as (Hrows & Hs').
    rewrite Hu in Hrows.
    destruct (find_findIndex _ _ _ Efind) as (i & Hi & Hx).
    rewrite Hi.
    pose proof (distinct_keys_keyed _ (proj1 Hs)) as Hkeyed.
    split; [split; [|exact Hs']|].
    + unfold app_ok. cbn [V30.allTrades V30.tradesDb]. rewrite Hrows.
      pose proof (replace_first_submseteq id u _ _ Hkeyed Ht) as H.
      unfold replace_first in H. cbn in H. rewrite Hi in H.
      unfold has_key.
      destruct (findIndex _ (rows (V30.tradesDb a))) as [n|] eqn:En;
        [exact H|].
      exfalso. pose proof (findIndex_None _ _ En) as Hnone.
      rewrite Forall_forall in Hnone.
      assert (Hk : strict_eq (get existingTrade "id") id = false);
        [|rewrite Hk in Hsame; discriminate].
      apply (Hnone existingTrade).
      eapply elem_of_submseteq; [|exact Ht].
      eapply list_elem_of_lookup_2; exact Hx.
    + apply (deposits_shift _ _ (qof V30.pl tradeData - qof V30.pl existingTrade)).
      * cbn [V30.currentBalance]. rewrite !pl_qpl.
        destruct (V30.currentBalance a); cbn; [exact I | ring].
      * cbn [V30.allTrades]. rewrite (qsum_insert _ _ _ _ _ Hx), Hpl. ring.
  - exfalso. unfold db_put in Eput. rewrite Hu in Eput.
    subst id. destruct (parseInt (input_value f "editTradeId")) as [|q];
      [|discriminate].
    destruct (get existingTrade "id") as [| | |[|]]; discriminate.
Qed.

(** Deleting a trade. *)
Lemma v30_confirmDeleteTrade_deposits tradeId a :
  app_ok a -> valid_key tradeId = true ->
  app_ok (V30.confirmDeleteTrade tradeId true true a) /\
  num_eq (deposits (V30.confirmDeleteTrade tradeId true true a)) (deposits a).
Proof.
  intros [Ht Hs] Hv. unfold V30.confirmDeleteTrade, V30.deleteTrade.
  destruct (find _ (V30.allTrades a)) as [t|] eqn:Efind;
    cbn [mbind option_bind]; [|split; [split; assumption | reflexivity]].
  destruct (db_delete (V30.tradesDb a) tradeId) as [d|] eqn:Edel.
  - destruct (db_delete_ok _ _ _ Hs Edel) as (Hrows & Hs').
    split; [split; [|exact Hs']|].
    + unfold app_ok. cbn [V30.allTrades V30.tradesDb]. rewrite Hrows.
      apply (filter_submseteq (fun t => negb (has_key tradeId t))). exact Ht.
    + apply (deposits_shift _ _ (- qof V30.pl t)).
      * cbn [V30.currentBalance]. rewrite pl_qpl.
        destruct (V30.currentBalance a); cbn; [exact I | ring].
      * cbn [V30.allTrades]. rewrite (qsum_delete _ tradeId _ t); [ring| |exact Efind].
        eapply distinct_keys_submseteq; [exact Ht | exact (proj1 Hs)].
  - unfold db_delete in Edel. rewrite Hv in Edel. discriminate.
Qed.

Lemma v30_step_ok date_ms e a :
  app_ok a -> app_ok (V30.step date_ms e a).
Proof.
  intros Ha. destruct e; cbn [V30.step].
  - unfold V30.loadPortfolioSettings.
    destruct settings as [[[c b]|]|]; exact Ha.
  - destruct Ha as [_ Hs]. split; [|exact Hs].
    cbn [V30.allTrades V30.tradesDb V30.loadTrades].
    destruct get_ok; [|apply submseteq_nil_l].
    apply Permutation_submseteq, js_sort_perm.
  - apply v30_handleAddTrade_deposits, Ha.
  - destruct put_ok; [apply v30_handleEditTrade_deposits, Ha|].
    unfold V30.handleEditTrade, V30.updateTrade.
    destruct (find _ (V30.allTrades a)); cbn [mbind option_bind]; exact Ha.
  - unfold V30.confirmDeleteTrade. destruct confirmed; [|exact Ha].
    unfold V30.deleteTrade.
    destruct (find _ (V30.allTrades a)) as [t|]; cbn [mbind option_bind];
      [|exact Ha].
    destruct (if del_ok then db_delete (V30.tradesDb a) tradeId else None)
      as [d|] eqn:Edel; [|exact Ha].
    destruct del_ok; [|discriminate].
    destruct Ha as [Ht Hs].
    destruct (db_delete_ok _ _ _ Hs Edel) as (Hrows & Hs').
    split; [|exact Hs']. cbn [V30.allTrades V30.tradesDb]. rewrite Hrows.
    apply (filter_submseteq (fun t => negb (has_key tradeId t))). exact Ht.
  - exact Ha.
  - apply v30_import_rows_deposits, Ha.
Qed.

Lemma new_app_ok : app_ok (V30.new_app empty_store).
Proof. split; [apply submseteq_nil_l | apply empty_store_ok]. Qed.

Lemma two_trades_app_ok : app_ok two_trades_app.
Proof.
  unfold two_trades_app.
  apply v30_handleAddTrade_deposits, v30_handleAddTrade_deposits, new_app_ok.
Qed.

(** X6: in every state that a run of version 3.0 reaches from a fresh
    database, the trades in memory are records of the database, counted
    with multiplicity, no two records of the database have the same key,
    and so no two trades in memory have the same key: a deletion or an
    edit by key concerns one trade. *)
Theorem X6_trades_are_records_in_v3 (date_ms : value -> num)
    (events : list V30.event) :
  let a := v30_run date_ms events in
  V30.allTrades a ⊆+ rows (V30.tradesDb a) /\
  distinct_keys (rows (V30.tradesDb a)) /\
  distinct_keys (V30.allTrades a).
Proof.
  intros a.
  assert (Ha : app_ok a).
  { subst a. unfold v30_run.
    assert (H : forall a0, app_ok a0 ->
              app_ok (fold_left (fun a e => V30.step date_ms e a) events a0)).
    { induction events as [|e events IH]; intros a0 H0; cbn [fold_left];
        [exact H0|].
      apply IH, v30_step_ok, H0. }
    apply H, new_app_ok. }
  destruct Ha as [Ht [Hd Hb]].
  split; [exact Ht|]. split; [exact Hd|].
  exact (distinct_keys_submseteq _ _ Ht Hd).
Qed.

(** *** Rejected requests *)



(** *** A balance that is not a number *)

Lemma v30_import_rows_nan now add_ok data : forall index a,
  V30.currentBalance a = NaN ->
  V30.currentBalance (V30.import_rows now add_ok index data a) = NaN.
Proof.
  induction data as [|row data IH]; intros index a Ha; cbn [V30.import_rows];
    [exact Ha|].
  destruct (V30.accepted (V30.tradeData_of row)); [|apply IH, Ha].
  unfold V30.addTrade.
  destruct (if add_ok index then db_add _ _ else None) as [[id d]|];
    cbn [mbind option_bind]; [|exact Ha].
  apply IH. cbn [V30.currentBalance]. rewrite Ha. reflexivity.
Qed.

(** X8: the portfolio form of version 3.0 stores what parseFloat gives, so
    a balance input that is left empty makes the balance NaN; and no other
    handler repairs it: after adding, editing, deleting, importing or
    loading trades a balance that was NaN is NaN still. *)
Theorem X8_balance_that_is_not_a_number :
  (forall f a,
     f !! "currentBalance" = None \/ f !! "currentBalance" = Some "" ->
     V30.currentBalance (V30.handlePortfolioUpdate f a) = NaN) /\
  (forall date_ms e a,
     sets_balance e = false ->
     V30.currentBalance a = NaN ->
     V30.currentBalance (V30.step date_ms e a) = NaN).
Proof.
  split.
  - intros f a [H | H]; unfold V30.handlePortfolioUpdate, input_value;
      cbn [V30.currentBalance]; rewrite H; reflexivity.
  - intros date_ms e a He Ha. destruct e; try discriminate; cbn [V30.step].
    + exact Ha.
    + unfold V30.handleAddTrade, V30.addTrade.
      destruct (if add_ok then db_add _ _ else None) as [[id d]|];
        cbn [mbind option_bind]; [|exact Ha].
      cbn [V30.currentBalance]. rewrite Ha. reflexivity.
    + unfold V30.handleEditTrade, V30.updateTrade.
      destruct (find _ (V30.allTrades a)) as [t|];
        cbn [mbind option_bind]; [|exact Ha].
      destruct (if put_ok then db_put _ _ else None);
        cbn [V30.currentBalance]; rewrite Ha; reflexivity.
    + unfold V30.confirmDeleteTrade, V30.deleteTrade.
      destruct confirmed; [|exact Ha].
      destruct (find _ (V30.allTrades a)) as [t|];
        cbn [mbind option_bind]; [|exact Ha].
      destruct (if del_ok then db_delete _ _ else None);
        cbn [V30.currentBalance]; rewrite Ha; reflexivity.
    + apply v30_import_rows_nan, Ha.
Qed.

(** X8, an instance: the portfolio form is sent with the balance input
    empty, and a trade is added afterwards. *)
Lemma X8_balance_witness :
  let f : form := list_to_map [("startingCapital", "10000");
                               ("currentBalance", "")] in
  let a := V30.handlePortfolioUpdate f two_trades_app in
  V30.currentBalance a = NaN /\
  V30.currentBalance
    (V30.step iso_date_ms
       (V30.HandleAddTrade (list_to_map [("netPL", "75")])
          "2024-03-05T10:00:00.000Z" true) a) = NaN.
Proof.
  intros f a.
  assert (Ha : V30.currentBalance a = NaN).
  { apply (proj1 X8_balance_that_is_not_a_number). right. reflexivity. }
  split; [exact Ha|].
  apply (proj2 X8_balance_that_is_not_a_number); [reflexivity | exact Ha].
Defined.

(** *** The balance and the database of version 2.3 *)

Lemma numeric_pl_fin t : numeric_pl t -> pl_or_0 t = Fin (qof pl_or_0 t).
Proof.
  intros [n Hn]. unfold qof.
  assert (H : exists q, pl_or_0 t = Fin q).
  { unfold pl_or_0, vor. rewrite Hn. cbn [truthy].
    destruct n as [|q]; cbn [num_truthy to_num]; [eexists; reflexivity|].
    destruct (negb (Qeq_bool q 0)); eexists; reflexivity. }
  destruct H as [q ->]. reflexivity.
Qed.

Lemma qof_number t q :
  get t "net_pl" = VNum (Fin q) -> (qof pl_or_0 t == q)%Q.
Proof.
  intros H. pose proof (pl_or_0_of_number t q H) as E.
  unfold qof. destruct (pl_or_0 t); [contradiction | exact E].
Qed.

Lemma numeric_set_id t k : numeric_pl t -> numeric_pl (set t "id" k).
Proof.
  intros [n Hn]. exists n. rewrite get_set_ne by discriminate. exact Hn.
Qed.

Lemma pl_or_0_set_id t k : pl_or_0 (set t "id" k) = pl_or_0 t.
Proof. unfold pl_or_0. rewrite get_set_ne by discriminate. reflexivity. Qed.

Lemma qof_set_id t k : qof pl_or_0 (set t "id" k) = qof pl_or_0 t.
Proof. unfold qof. rewrite pl_or_0_set_id. reflexivity. Qed.

Lemma qsum_app pl l k : (qsum pl (l ++ k) == qsum pl l + qsum pl k)%Q.
Proof.
  induction l as [|x l IH]; cbn [app qsum]; [ring|]. rewrite IH. ring.
Qed.

Lemma fold_qsum l : forall acc,
  Forall numeric_pl l ->
  exists s, fold_left (fun sum t => nadd sum (pl_or_0 t)) l (Fin acc) = Fin s /\
            (s == acc + qsum pl_or_0 l)%Q.
Proof.
  induction l as [|t l IH]; intros acc Hl; cbn [fold_left qsum].
  - exists acc. split; [reflexivity | ring].
  - inversion Hl as [|? ? Ht Hl']; subst.
    rewrite (numeric_pl_fin t Ht). cbn [nadd].
    destruct (IH (acc + qof pl_or_0 t)%Q Hl') as (s & Hs & Hq).
    exists s. split; [exact Hs|]. rewrite Hq. ring.
Qed.

Lemma sum_pl_qsum l :
  Forall numeric_pl l ->
  exists s, sum_pl l = Fin s /\ (s == qsum pl_or_0 l)%Q.
Proof.
  intros Hl. destruct (fold_qsum l 0 Hl) as (s & Hs & Hq).
  exists s. split; [exact Hs|]. rewrite Hq. ring.
Qed.

(** The ledger moves by [d - d'] when the balance moves by [d] and the
    records by [d']. *)
Lemma ledger_shift j j' (d : Q) :
  Forall numeric_pl (rows (db j)) -> Forall numeric_pl (rows (db j')) ->
  num_eq (currentBalance j') (nadd (currentBalance j) (Fin d)) ->
  (qsum pl_or_0 (rows (db j')) == qsum pl_or_0 (rows (db j)) + d)%Q ->
  num_eq (ledger j') (ledger j).
Proof.
  intros Hn Hn' Hb Hr. unfold ledger.
  destruct (sum_pl_qsum _ Hn) as (s & -> & Hs).
  destruct (sum_pl_qsum _ Hn') as (s' & -> & Hs').
  destruct (currentBalance j) as [|b], (currentBalance j') as [|b'];
    cbn in *; try tauto.
  rewrite Hb, Hs, Hs', Hr. ring.
Qed.

Lemma db_add_numeric s o k s' :
  store_ok s -> Forall numeric_pl (rows s) -> numeric_pl o ->
  db_add s o = Some (k, s') ->
  store_ok s' /\ Forall numeric_pl (rows s') /\
  (qsum pl_or_0 (rows s') == qsum pl_or_0 (rows s) + qof pl_or_0 o)%Q.
Proof.
  intros Hs Hn Ho Hadd.
  destruct (db_add_ok _ _ _ _ Hs Hadd) as (Hrows & Hs' & _ & _).
  split; [exact Hs'|]. rewrite Hrows. split.
  - apply Forall_app. split; [exact Hn|].
    constructor; [apply numeric_set_id, Ho | constructor].
  - rewrite qsum_app. cbn [qsum]. rewrite qof_set_id. ring.
Qed.

Lemma find_none_filter {A} (p : A -> bool) l :
  find p l = None -> List.filter (fun x => negb (p x)) l = l.
Proof.
  induction l as [|x l IH]; cbn [find List.filter]; [reflexivity|].
  destruct (p x); [discriminate|]. intros H. cbn [negb]. rewrite (IH H).
  reflexivity.
Qed.

Lemma db_get_found s id found :
  db_get s id = Some found ->
  valid_key id = true /\ find (has_key id) (rows s) = found.
Proof.
  unfold db_get. destruct (valid_key id); [|discriminate].
  intros [= <-]. split; reflexivity.
Qed.

Lemma find_elem {A} (p : A -> bool) l x : find p l = Some x -> x ∈ l.
Proof.
  induction l as [|y l IH]; cbn [find]; [discriminate|].
  destruct (p y); [intros [= ->]; left | intros H; right; exact (IH H)].
Qed.

Ltac books :=
  unfold books_ok; cbn [db previewData currentBalance startingCapital];
  split; [|split; [|split; [|split]]];
  try assumption; try (eexists; reflexivity).

Section Books.
Variable date_ms : value -> num.

Lemma v23_add_books f now add_ok j :
  books_ok j ->
  books_ok (V23.handleAddTrade f now add_ok j) /\
  num_eq (ledger (V23.handleAddTrade f now add_ok j)) (ledger j).
Proof.
  intros Hj. unfold V23.handleAddTrade.
  destruct (negb _ || negb _ || negb _); [split; [exact Hj | reflexivity]|].
  destruct (if add_ok then db_add (db j) (V23.new_trade f now) else None)
    as [[id d]|] eqn:Eadd; [|split; [exact Hj | reflexivity]].
  destruct add_ok; [|discriminate].
  destruct Hj as (Hs & Hn & Hp & [b Hb] & Hc).
  pose proof (v23_new_trade_pl f now) as H. cbv zeta in H.
  destruct H as [Hpl _].
  destruct (float_or_0_fin (form_get f "premium")) as [p Ep].
  destruct (float_or_0_fin (form_get f "fees")) as [q Eq].
  rewrite Ep, Eq in Hpl. cbn [nadd] in Hpl.
  assert (Ho : numeric_pl (V23.new_trade f now)) by (eexists; exact Hpl).
  destruct (db_add_numeric _ _ _ _ Hs Hn Ho Eadd) as (Hs' & Hn' & Hq).
  assert (Hbal : nadd (currentBalance j)
                   (to_num (get (set (V23.new_trade f now) "id" id) "net_pl"))
                 = Fin (b + (p + q))).
  { rewrite get_set_ne by discriminate. rewrite Hpl, Hb. reflexivity. }
  split.
  - books. rewrite Hbal. eexists; reflexivity.
  - apply (ledger_shift _ _ (p + q)); cbn [db currentBalance];
      try assumption.
    + rewrite Hbal, Hb. reflexivity.
    + rewrite Hq, (qof_number _ _ Hpl). reflexivity.
Qed.

Lemma v23_edit_books f now put_ok j :
  books_ok j ->
  books_ok (V23.handleEditTrade f now put_ok j) /\
  num_eq (ledger (V23.handleEditTrade f now put_ok j)) (ledger j).
Proof.
  intros Hj. unfold V23.handleEditTrade.
  set (id := VNum (parseInt (input_value f "edit-trade-id"))).
  destruct (db_get (db j) id) as [[originalTrade|]|] eqn:Eget;
    try (split; [exact Hj | reflexivity]).
  set (u := V23.updated_trade id originalTrade f now).
  destruct (if put_ok then db_put (db j) u else None) as [d|] eqn:Eput;
    [|split; [exact Hj | reflexivity]].
  destruct put_ok; [|discriminate].
  destruct Hj as (Hs & Hn & Hp & [b Hb] & Hc).
  assert (Hid : get u "id" = id) by apply get_list_to_map_head.
  assert (Hne : get u "id" <> VUndef) by (rewrite Hid; discriminate).
  destruct (db_put_ok _ _ _ Hs Hne Eput) as (Hrows & Hs').
  rewrite Hid in Hrows.
  destruct (db_get_found _ _ _ Eget) as [_ Hfind].
  destruct (find_findIndex _ _ _ Hfind) as (i & Hi & Hx).
  rewrite Hi in Hrows.
  pose proof (v23_updated_trade_pl id originalTrade f now) as H.
  cbv zeta in H. destruct H as [Hpl _]. fold u in Hpl.
  destruct (float_or_0_fin (input_value f "edit-premium")) as [p Ep].
  destruct (float_or_0_fin (input_value f "edit-fees")) as [q Eq].
  rewrite Ep, Eq in Hpl. cbn [nadd] in Hpl.
  assert (Ho : numeric_pl originalTrade).
  { rewrite Forall_forall in Hn. apply Hn. eapply find_elem; exact Hfind. }
  assert (Hbal : nadd (currentBalance j)
                   (nsub (to_num (get u "net_pl")) (pl_or_0 originalTrade))
                 = Fin (b + (p + q - qof pl_or_0 originalTrade))).
  { rewrite Hpl, Hb, (numeric_pl_fin _ Ho). reflexivity. }
  assert (Hn' : Forall numeric_pl (rows d)).
  { rewrite Hrows. apply Forall_insert; [exact Hn|]. eexists; exact Hpl. }
  clearbody u.
  split.
  - books. rewrite Hbal. eexists; reflexivity.
  - apply (ledger_shift _ _ (p + q - qof pl_or_0 originalTrade));
      cbn [db currentBalance]; try assumption.
    + rewrite Hbal, Hb. reflexivity.
    + rewrite Hrows, (qsum_insert _ _ _ _ _ Hx), (qof_number _ _ Hpl). ring.
Qed.

Lemma v23_delete_books id confirmed get_ok del_ok j :
  books_ok j ->
  books_ok (V23.deleteTrade id confirmed get_ok del_ok j) /\
  (del_ok || negb confirmed = true ->
   num_eq (ledger (V23.deleteTrade id confirmed get_ok del_ok j)) (ledger j)).
Proof.
  intros Hj. unfold V23.deleteTrade.
  destruct confirmed; cbn [negb]; [|split; [exact Hj | reflexivity]].
  destruct (if get_ok then db_get (db j) id else None) as [found|] eqn:Eget;
    [|split; [exact Hj | reflexivity]].
  destruct get_ok; [|discriminate].
  destruct (db_get_found _ _ _ Eget) as [Hv Hfind].
  destruct Hj as (Hs & Hn & Hp & [b Hb] & Hc).
  assert (Hbal : exists dq,
            match found with
            | Some trade => nsub (currentBalance j) (pl_or_0 trade)
            | None => currentBalance j
            end = Fin (b + dq) /\
            (qsum pl_or_0
               (List.filter (fun o => negb (has_key id o)) (rows (db j)))
             == qsum pl_or_0 (rows (db j)) + dq)%Q).
  { destruct found as [t|].
    - assert (Ht : numeric_pl t).
      { rewrite Forall_forall in Hn. apply Hn. eapply find_elem; exact Hfind. }
      exists (- qof pl_or_0 t)%Q. rewrite Hb, (numeric_pl_fin _ Ht). split.
      + reflexivity.
      + unfold has_key in *.
        rewrite (qsum_delete _ id _ t (proj1 Hs) Hfind). ring.
    - exists 0%Q. rewrite Hb. split.
      + f_equal. unfold Qplus. cbn. f_equal; try lia.
        destruct b as [n d]. cbn. f_equal; lia.
      + rewrite (find_none_filter _ _ Hfind). ring. }
  destruct Hbal as (dq & Hbal & Hq). rewrite Hbal.
  destruct (if del_ok then db_delete (db j) id else None) as [d|] eqn:Edel.
  - destruct del_ok; [|discriminate].
    destruct (db_delete_ok _ _ _ Hs Edel) as (Hrows & Hs').
    assert (Hn' : Forall numeric_pl (rows d)).
    { rewrite Hrows. apply Forall_list_filter. exact Hn. }
    split.
    + books.
    + intros _. apply (ledger_shift _ _ dq); cbn [db currentBalance];
        try assumption.
      * rewrite Hb. reflexivity.
      * rewrite Hrows. exact Hq.
  - split.
    + books.
    + destruct del_ok; [|discriminate]. intros _.
      unfold db_delete in Edel. rewrite Hv in Edel. discriminate.
Qed.
Lemma import_step_books add_ok a trade T :
  numeric_pl trade ->
  store_ok (V20.a_db a) -> Forall numeric_pl (rows (V20.a_db a)) ->
  V20.a_totalPL a = Fin T ->
  store_ok (V20.a_db (V20.import_step add_ok a trade)) /\
  Forall numeric_pl (rows (V20.a_db (V20.import_step add_ok a trade))) /\
  exists T', V20.a_totalPL (V20.import_step add_ok a trade) = Fin T' /\
             (qsum pl_or_0 (rows (V20.a_db (V20.import_step add_ok a trade)))
              - T'
              == qsum pl_or_0 (rows (V20.a_db a)) - T)%Q.
Proof.
  intros Ht Hs Hn HT. unfold V20.import_step.
  destruct (if add_ok (V20.a_index a) then db_add (V20.a_db a) trade
            else None) as [[id d]|] eqn:Eadd; cbn [V20.a_db V20.a_totalPL].
  - destruct (add_ok (V20.a_index a)); [|discriminate].
    destruct (db_add_numeric _ _ _ _ Hs Hn Ht Eadd) as (Hs' & Hn' & Hq).
    split; [exact Hs'|]. split; [exact Hn'|].
    exists (T + qof pl_or_0 trade)%Q. split.
    + rewrite HT, pl_or_0_set_id, (numeric_pl_fin _ Ht). reflexivity.
    + rewrite Hq. ring.
  - split; [exact Hs|]. split; [exact Hn|]. exists T.
    split; [exact HT | reflexivity].
Qed.

Lemma import_loop_books add_ok preview : forall a T,
  Forall numeric_pl preview ->
  store_ok (V20.a_db a) -> Forall numeric_pl (rows (V20.a_db a)) ->
  V20.a_totalPL a = Fin T ->
  store_ok (V20.a_db (fold_left (V20.import_step add_ok) preview a)) /\
  Forall numeric_pl
    (rows (V20.a_db (fold_left (V20.import_step add_ok) preview a))) /\
  exists T',
    V20.a_totalPL (fold_left (V20.import_step add_ok) preview a) = Fin T' /\
    (qsum pl_or_0
       (rows (V20.a_db (fold_left (V20.import_step add_ok) preview a))) - T'
     == qsum pl_or_0 (rows (V20.a_db a)) - T)%Q.
Proof.
  induction preview as [|trade preview IH]; intros a T Hp Hs Hn HT;
    cbn [fold_left].
  - split; [exact Hs|]. split; [exact Hn|]. exists T. split; [exact HT|].
    reflexivity.
  - inversion Hp as [|? ? Ht Hp']; subst.
    destruct (import_step_books add_ok a trade T Ht Hs Hn HT)
      as (Hs1 & Hn1 & T1 & HT1 & Hq1).
    destruct (IH _ T1 Hp' Hs1 Hn1 HT1) as (Hs2 & Hn2 & T' & HT' & Hq').
    split; [exact Hs2|]. split; [exact Hn2|].
    exists T'. split; [exact HT'|]. rewrite Hq'. exact Hq1.
Qed.

Lemma v23_import_books mode confirmed clear_ok add_ok j :
  books_ok j ->
  books_ok (V23.commitImport date_ms mode confirmed clear_ok add_ok j) /\
  (strict_eq (vor mode (VStr "append")) (VStr "replace") = false ->
   num_eq (ledger (V23.commitImport date_ms mode confirmed clear_ok add_ok j))
          (ledger j)).
Proof.
  intros Hj. unfold V23.commitImport, V20.commitImport.
  destruct (previewData j) as [[|trade preview]|] eqn:Ep;
    try (split; [exact Hj | reflexivity]).
  set (replace := strict_eq (vor mode (VStr "append")) (VStr "replace")).
  destruct (replace && negb confirmed); [split; [exact Hj | reflexivity]|].
  destruct (replace && negb clear_ok); [split; [exact Hj | reflexivity]|].
  destruct Hj as (Hs & Hn & Hp & [b Hb] & Hc).
  pose proof (Hp _ Ep) as Hprev.
  assert (Hs0 : store_ok (if replace then db_clear (db j) else db j))
    by (destruct replace; [apply db_clear_ok | exact Hs]).
  assert (Hn0 : Forall numeric_pl
                  (rows (if replace then db_clear (db j) else db j)))
    by (destruct replace; [constructor | exact Hn]).
  match goal with
  | |- context [fold_left (V20.import_step add_ok) ?p ?a0] =>
      pose proof (import_loop_books add_ok p a0 0%Q Hprev Hs0 Hn0 eq_refl)
        as H;
      set (a' := fold_left (V20.import_step add_ok) p a0) in *
  end.
  cbn [V20.a_db V20.a_totalPL] in H.
  destruct H as (Hs' & Hn' & T' & HT' & Hq).
  split.
  - books; [discriminate|]. rewrite Hb, HT'. eexists; reflexivity.
  - intros Hr. rewrite Hr in Hq.
    apply (ledger_shift _ _ T'); cbn [db currentBalance]; try assumption.
    + rewrite HT'. reflexivity.
    + assert (E : (qsum pl_or_0 (rows (V20.a_db a'))
                   == (qsum pl_or_0 (rows (V20.a_db a')) - T') + T')%Q)
        by ring.
      rewrite E, Hq. ring.
Qed.

Lemma v23_normalize_numeric now t : numeric_pl (V23.normalize now t).
Proof.
  pose proof (v23_normalize_fields now t) as H. cbv zeta in H.
  destruct H as [H _]. eexists; exact H.
Qed.

Lemma v23_parse_books csvContent now j :
  books_ok j -> books_ok (V23.parseCSV csvContent now j).
Proof.
  intros Hj. unfold V23.parseCSV.
  destruct (V23.parse_batch csvContent now) as [[new_trades skipped]|] eqn:E;
    [|exact Hj].
  destruct new_trades as [|t ts]; [exact Hj|].
  destruct Hj as (Hs & Hn & Hp & Hb & Hc).
  books. intros l [= <-].
  unfold V23.parse_batch in E.
  destruct (csv_lines csvContent) as [|header [|line lines]];
    try discriminate.
  injection E as E. unfold V23.parse_rows in E.
  rewrite v23_parse_loop in E. injection E as E _.
  cbn [app] in E. rewrite <- E.
  apply Forall_forall. intros x Hx.
  apply list_elem_of_fmap in Hx as (y & -> & _).
  apply v23_normalize_numeric.
Qed.

Lemma v23_step_books e j :
  books_ok j ->
  books_ok (V23.step date_ms e j) /\
  (tracked23 e = true ->
   num_eq (ledger (V23.step date_ms e j)) (ledger j)).
Proof.
  intros Hj. destruct e; cbn [V23.step tracked23].
  - split; [|discriminate]. destruct Hj as (Hs & Hn & _).
    unfold new_journal. books. discriminate.
  - split; [|reflexivity]. destruct Hj as (Hs & Hn & Hp & Hb & Hc).
    unfold V23.loadAllData, V20.loadAllData. books.
  - split; [|discriminate]. unfold V23.loadPortfolioSettings.
    destruct settings as [[[c b]|]|]; [|exact Hj|exact Hj].
    destruct Hj as (Hs & Hn & Hp & Hb & Hc).
    unfold books_ok. cbn [db previewData currentBalance startingCapital].
    split; [exact Hs|]. split; [exact Hn|]. split; [exact Hp|].
    split; apply nor_fin.
  - split; [exact (proj1 (v23_add_books f now add_ok j Hj))|].
    intros _. exact (proj2 (v23_add_books f now add_ok j Hj)).
  - split; [exact (proj1 (v23_edit_books f now put_ok j Hj))|].
    intros _. exact (proj2 (v23_edit_books f now put_ok j Hj)).
  - split; [|discriminate]. unfold V23.handlePortfolioSettings.
    destruct (negb _); [exact Hj|].
    destruct Hj as (Hs & Hn & Hp & Hb & Hc). books; apply float_or_0_fin.
  - split; [exact (v23_parse_books csvContent now j Hj)|]. intros _.
    unfold V23.parseCSV.
    destruct (V23.parse_batch csvContent now) as [[[|t ts] skipped]|];
      reflexivity.
  - destruct (v23_import_books mode confirmed clear_ok add_ok j Hj)
      as [H1 H2].
    split; [exact H1|]. intros H. apply H2.
    apply negb_true_iff. exact H.
  - split; [|reflexivity]. destruct Hj as (Hs & Hn & Hp & Hb & Hc).
    unfold V23.applyFilters. books.
  - split; [|reflexivity]. destruct Hj as (Hs & Hn & Hp & Hb & Hc).
    unfold V23.resetFilters. books.
  - exact (v23_delete_books id confirmed get_ok del_ok j Hj).
Qed.

Lemma v23_reachable_books j : V23.reachable date_ms j -> books_ok j.
Proof.
  induction 1 as [|e j _ IH].
  - unfold new_journal. books.
    + apply empty_store_ok.
    + constructor.
    + discriminate.
  - exact (proj1 (v23_step_books e j IH)).
Qed.
End Books.

(** *** The risk metrics of version 3.0 *)

Lemma v30_running_totals c l :
  running_totals V30.pl (Fin c) l = map Fin (qrunning V30.pl c l).
Proof.
  revert c. induction l as [|t l IH]; intros c; [reflexivity|].
  cbn [running_totals qrunning map]. rewrite pl_qpl. cbn [nadd].
  rewrite IH. reflexivity.
Qed.

Lemma v30_drawdown_loop l : forall r b p m,
  V30.runningBalance r = Fin b -> V30.peak r = Fin p ->
  V30.dd_max r = XFin m -> (0 < p)%Q ->
  exists q,
    V30.dd_max (fold_left V30.drawdown_step l r) = XFin q /\
    (m <= q)%Q /\
    Forall (fun d => (d <= q)%Q)
      (map (fun d => d * 100)%Q (drawdowns p (qrunning V30.pl b l))) /\
    (q = m \/
     Exists (fun d => q = d)
       (map (fun d => d * 100)%Q (drawdowns p (qrunning V30.pl b l)))).
Proof.
  induction l as [|t l IH]; intros r b p m Hb Hp Hm Hpos.
  - exists m. cbn. split; [exact Hm|]. split; [apply Qle_refl|].
    split; [constructor | left; reflexivity].
  - cbn [fold_left qrunning drawdowns map].
    set (b' := (b + qof V30.pl t)%Q).
    destruct (drawdown_step p b' Hpos) as (Hdd & Hpos' & Hnn).
    set (d := ((Qmax p b' - b') / Qmax p b')%Q) in *.
    set (r' := V30.drawdown_step r t).
    assert (Hb' : V30.runningBalance r' = Fin b').
    { subst r'. unfold V30.drawdown_step. cbn [V30.runningBalance].
      rewrite Hb, pl_qpl. reflexivity. }
    assert (Hp' : V30.peak r' = Fin (Qmax p b')).
    { subst r'. unfold V30.drawdown_step. cbn [V30.peak].
      rewrite Hb, Hp, pl_qpl. cbn [nadd]. apply peak_step. }
    assert (Hm' : V30.dd_max r'
                  = XFin (if Qle_bool m (d * 100) then d * 100 else m)%Q).
    { subst r'. unfold V30.drawdown_step. cbn [V30.dd_max].
      rewrite Hb, Hp, Hm, pl_qpl. cbn [nadd]. rewrite peak_step.
      fold b'. rewrite Hdd. fold d. cbn [xmul xmax].
      destruct (Qle_bool m (d * 100)); reflexivity. }
    destruct (IH r' _ _ _ Hb' Hp' Hm' Hpos') as (q & Hq & Hle & Hall & Hex).
    exists q. split; [exact Hq|].
    destruct (Qle_bool m (d * 100)) eqn:E.
    + apply Qle_bool_iff in E. split; [eapply Qle_trans; eassumption|].
      split; [constructor; assumption|].
      right. destruct Hex as [-> | Hex]; [left; reflexivity | right; exact Hex].
    + assert (Hlt : (d * 100 <= m)%Q).
      { apply Qlt_le_weak, Qnot_le_lt. intros H.
        apply Qle_bool_iff in H. congruence. }
      split; [exact Hle|]. split.
      * constructor; [eapply Qle_trans; eassumption | exact Hall].
      * destruct Hex as [-> | Hex];
          [left; reflexivity | right; right; exact Hex].
Qed.

(** X10: the maximum drawdown of the risk metrics of version 3.0.  For a
    positive starting capital, trades whose dates can be read and amounts
    of the safe range, it is the greatest of the drawdowns
    (peak - balance) / peak * 100 over the balances of the portfolio
    chart, the starting capital being the first peak, and 0 when there is
    no trade.  With a starting capital of 0 the division is by zero: one
    losing trade gives an infinite drawdown. *)
Theorem X10_max_drawdown_of_the_trades (date_ms : value -> num) :
  (forall a c,
     V30.startingCapital a = Fin c -> (0 < c)%Q -> (c <= max_safe)%Q ->
     Forall (readable_date date_ms) (V30.allTrades a) ->
     Forall safe_pl (V30.allTrades a) ->
     exists balances q,
       V30.portfolioChart_balances date_ms a = Fin c :: map Fin balances /\
       V30.maxDrawdown (V30.calculateRiskMetrics date_ms a) = XFin q /\
       is_max_of (map (fun d => d * 100)%Q (drawdowns c balances)) q) /\
  (forall a t,
     V30.startingCapital a = Fin 0 -> V30.allTrades a = [t] ->
     (qof V30.pl t < 0)%Q ->
     V30.maxDrawdown (V30.calculateRiskMetrics date_ms a) = XPosInf).
Proof.
  split.
  - intros a c Hc Hpos _ _ _.
    exists (qrunning V30.pl c (V30.chronologicalTrades date_ms a)).
    unfold V30.portfolioChart_balances. rewrite Hc, v30_running_totals.
    unfold V30.calculateRiskMetrics.
    destruct (V30.allTrades a) as [|t0 l0] eqn:El.
    + exists 0%Q. split; [reflexivity|]. split; [reflexivity|].
      unfold V30.chronologicalTrades. rewrite El. cbn.
      split; [constructor | reflexivity].
    + cbn [length Nat.eqb V30.maxDrawdown]. rewrite Hc.
      destruct (v30_drawdown_loop (V30.chronologicalTrades date_ms a)
                  {| V30.runningBalance := Fin c; V30.peak := Fin c;
                     V30.dd_max := XFin 0 |} c c 0%Q
                  eq_refl eq_refl eq_refl Hpos)
        as (q & Hq & H0 & Hall & Hex).
      exists q. split; [reflexivity|]. split; [exact Hq|].
      split; [exact Hall|].
      pose proof (drawdowns_nonneg
                    (qrunning V30.pl c (V30.chronologicalTrades date_ms a))
                    c Hpos) as Hnn.
      destruct (drawdowns c _) as [|d ds] eqn:Ed; cbn [map] in *.
      * destruct Hex as [-> | Hex]; [reflexivity | inversion Hex].
      * destruct Hex as [-> | Hex].
        -- left. inversion Hall; subst. inversion Hnn; subst.
           apply Qle_antisym; [|assumption].
           apply Qmult_le_0_compat; [assumption | discriminate].
        -- eapply Exists_impl; [exact Hex|]. intros x ->. reflexivity.
  - intros a t Hc Hl Hneg.
    unfold V30.calculateRiskMetrics, V30.chronologicalTrades.
    rewrite Hl, Hc. cbn [length Nat.eqb V30.maxDrawdown js_sort fold_left
                           sort_insert].
    unfold V30.drawdown_step.
    cbn [V30.dd_max V30.runningBalance V30.peak].
    rewrite pl_qpl. cbn [nadd].
    set (q := qof V30.pl t) in *.
    assert (Hq : (0 + q < 0)%Q) by (rewrite Qplus_0_l; exact Hneg).
    assert (Hgt : ngt (Fin (0 + q)) (Fin 0) = false).
    { unfold ngt, Qltb. apply negb_false_iff, Qle_bool_iff.
      apply Qlt_le_weak. exact Hq. }
    rewrite Hgt. cbn [nsub ndiv].
    change (Qeq_bool 0 0) with true. cbv iota.
    assert (Hpos : (0 < 0 - (0 + q))%Q).
    { unfold Qminus. rewrite Qplus_0_l.
      apply (Qopp_lt_compat (0 + q) 0) in Hq. exact Hq. }
    rewrite (Qeq_bool_false_pos _ Hpos).
    assert (Hle : Qle_bool 0 (0 - (0 + q)) = true)
      by (apply Qle_bool_iff, Qlt_le_weak, Hpos).
    rewrite Hle. reflexivity.
Qed.

Lemma Forall_by_map {A B} (f : A -> B) (P : B -> Prop) l ys :
  map f l = ys -> Forall P ys -> Forall (fun x => P (f x)) l.
Proof.
  intros <-. induction l as [|x l IH]; cbn [map]; intros H; [constructor|].
  inversion H; subst. constructor; [assumption | apply IH; assumption].
Qed.

(** X10, an instance: the application with a win of 120 and a loss of 50,
    from a starting capital of 10000. *)
Lemma X10_max_drawdown_witness :
  exists balances q,
    V30.portfolioChart_balances iso_date_ms two_trades_app
    = Fin 10000 :: map Fin balances /\
    V30.maxDrawdown (V30.calculateRiskMetrics iso_date_ms two_trades_app)
    = XFin q /\
    is_max_of (map (fun d => d * 100)%Q (drawdowns 10000 balances)) q.
Proof.
  apply (proj1 (X10_max_drawdown_of_the_trades iso_date_ms) two_trades_app
           10000%Q).
  - reflexivity.
  - reflexivity.
  - discriminate.
  - apply (Forall_by_map (fun t => iso_date_ms (get t "date"))
             (fun n => exists d, n = Fin d) _
             [Fin 1709337600000; Fin 1709251200000]);
      [vm_compute; reflexivity|].
    repeat constructor; eexists; reflexivity.
  - apply (Forall_by_map (fun t => get t "net_pl")
             (fun v => exists q, v = VNum (Fin q) /\ (Qabs q <= max_safe)%Q) _
             [VNum (Fin (-50)); VNum (Fin 120)]);
      [vm_compute; reflexivity|].
    repeat constructor; eexists; (split; [reflexivity | discriminate]).
Defined.

(** *** Streaks *)

Lemma win_is_not_loss t :
  V30.has_outcome "Win" t = true -> V30.has_outcome "Loss" t = false.
Proof.
  unfold V30.has_outcome.
  destruct (get t "outcome") as [| |o|[|q]]; cbn [strict_eq]; intros H;
    try discriminate H; try reflexivity.
  apply String.eqb_eq in H. subst o. reflexivity.
Qed.

Lemma streak_skip l : forall s,
  fold_left V30.streak_step l s
  = fold_left V30.streak_step (List.filter decided l) s.
Proof.
  induction l as [|t l IH]; intros s; [reflexivity|].
  cbn [fold_left List.filter]. unfold decided at 1.
  destruct (V30.has_outcome "Win" t) eqn:Ew; cbn [orb].
  - cbn [fold_left]. apply IH.
  - destruct (V30.has_outcome "Loss" t) eqn:El.
    + cbn [fold_left]. apply IH.
    + rewrite <- IH. f_equal. unfold V30.streak_step. rewrite Ew, El.
      reflexivity.
Qed.

Lemma filter_length_perm {A} (f : A -> bool) (l k : list A) :
  l ≡ₚ k -> length (List.filter f l) = length (List.filter f k).
Proof.
  intros H. apply Nat.le_antisymm; apply submseteq_length, filter_submseteq;
    rewrite H; reflexivity.
Qed.

Lemma filter_snoc {A} (f : A -> bool) l x :
  List.filter f (l ++ [x])
  = List.filter f l ++ (if f x then [x] else []).
Proof.
  induction l as [|y l IH]; cbn [app List.filter].
  - destruct (f x); reflexivity.
  - rewrite IH. destruct (f y); reflexivity.
Qed.

Lemma streak_loop l :
  let s := fold_left V30.streak_step l
             {| V30.tempWinStreak := 0; V30.tempLossStreak := 0;
                V30.s_maxConsecutiveWins := 0;
                V30.s_maxConsecutiveLosses := 0 |} in
  (V30.tempWinStreak s <= V30.s_maxConsecutiveWins s)%nat /\
  (V30.s_maxConsecutiveWins s
   <= length (List.filter (V30.has_outcome "Win") l))%nat /\
  (V30.tempLossStreak s <= V30.s_maxConsecutiveLosses s)%nat /\
  (V30.s_maxConsecutiveLosses s
   <= length (List.filter (V30.has_outcome "Loss") l))%nat /\
  match last l with
  | Some t =>
      (V30.has_outcome "Win" t = true -> (1 <= V30.tempWinStreak s)%nat) /\
      (V30.has_outcome "Loss" t = true -> (1 <= V30.tempLossStreak s)%nat)
  | None => True
  end.
Proof.
  induction l as [|t l IH] using rev_ind.
  - cbn. repeat split; lia.
  - cbv zeta in *. rewrite fold_left_app, last_snoc, !filter_snoc, !length_app.
    cbn [fold_left].
    destruct IH as (H1 & H2 & H3 & H4 & _).
    remember (fold_left V30.streak_step l _) as s eqn:Es. clear Es.
    unfold V30.streak_step.
    destruct (V30.has_outcome "Win" t) eqn:Ew.
    + rewrite (win_is_not_loss t Ew).
      cbn [V30.tempWinStreak V30.tempLossStreak V30.s_maxConsecutiveWins
             V30.s_maxConsecutiveLosses length].
      repeat split; try lia; intros; discriminate.
    + destruct (V30.has_outcome "Loss" t) eqn:El;
        cbn [V30.tempWinStreak V30.tempLossStreak V30.s_maxConsecutiveWins
               V30.s_maxConsecutiveLosses length];
        repeat split; try lia; intros; discriminate.
Qed.

(** X11: the streaks of the risk metrics of version 3.0.  The longest
    streak of wins is at most the number of winning trades, and likewise
    for the losses; the current streak lies between minus the longest
    streak of losses and the longest streak of wins, is at least 1 when the
    most recent trade is a win, at most -1 when it is a loss, and 0 when
    its outcome is neither; and a trade whose outcome is neither Win nor
    Loss does not end a streak: the loop gives the same counts with such
    trades left out. *)
Theorem X11_streaks (date_ms : value -> num) (a : V30.app) :
  let m := V30.calculateRiskMetrics date_ms a in
  let trades := V30.chronologicalTrades date_ms a in
  (V30.maxConsecutiveWins m
   <= length (List.filter (V30.has_outcome "Win") (V30.allTrades a)))%nat /\
  (V30.maxConsecutiveLosses m
   <= length (List.filter (V30.has_outcome "Loss") (V30.allTrades a)))%nat /\
  (- Z.of_nat (V30.maxConsecutiveLosses m) <= V30.currentStreak m
   <= Z.of_nat (V30.maxConsecutiveWins m))%Z /\
  match last trades with
  | Some t =>
      (V30.has_outcome "Win" t = true -> (1 <= V30.currentStreak m)%Z) /\
      (V30.has_outcome "Loss" t = true -> (V30.currentStreak m <= -1)%Z) /\
      (decided t = false -> V30.currentStreak m = 0%Z)
  | None => V30.currentStreak m = 0%Z
  end /\
  (forall s, fold_left V30.streak_step trades s
             = fold_left V30.streak_step (List.filter decided trades) s).
Proof.
  intros m trades. subst m.
  split; [|split; [|split; [|split; [|apply streak_skip]]]];
    unfold V30.calculateRiskMetrics;
    (destruct (V30.allTrades a) as [|t0 l0] eqn:El;
     [cbn; try lia;
      subst trades; unfold V30.chronologicalTrades; try rewrite El;
      try reflexivity
     |]);
    cbn [length Nat.eqb V30.maxConsecutiveWins V30.maxConsecutiveLosses
           V30.currentStreak];
    fold trades;
    pose proof (streak_loop trades) as H; cbv zeta in H;
    destruct H as (H1 & H2 & H3 & H4 & H5);
    assert (Hw : length (List.filter (V30.has_outcome "Win") trades)
                 = length (List.filter (V30.has_outcome "Win") (t0 :: l0)))
      by (rewrite <- El; apply filter_length_perm, js_sort_perm);
    assert (Hl : length (List.filter (V30.has_outcome "Loss") trades)
                 = length (List.filter (V30.has_outcome "Loss") (t0 :: l0)))
      by (rewrite <- El; apply filter_length_perm, js_sort_perm).
  - lia.
  - lia.
  - destruct (last trades) as [t|]; [|lia].
    destruct (V30.has_outcome "Win" t); [lia|].
    destruct (V30.has_outcome "Loss" t); lia.
  - destruct (last trades) as [t|]; [|reflexivity].
    destruct H5 as [H5 H6]. unfold decided.
    destruct (V30.has_outcome "Win" t) eqn:Ew.
    + pose proof (H5 eq_refl). rewrite (win_is_not_loss t Ew).
      repeat split; try lia; intros; discriminate.
    + destruct (V30.has_outcome "Loss" t) eqn:Elo.
      * pose proof (H6 eq_refl). repeat split; try lia; intros; discriminate.
      * repeat split; try lia; intros; discriminate.
Qed.

(** X11, an instance: the application with a win of 120 on the 1st of
    March and a loss of 50 on the 2nd; the most recent trade is the
    loss. *)
Lemma X11_streaks_witness :
  (V30.currentStreak (V30.calculateRiskMetrics iso_date_ms two_trades_app)
   <= -1)%Z.
Proof.
  pose proof (X11_streaks iso_date_ms two_trades_app) as H. cbv zeta in H.
  destruct H as (_ & _ & _ & H & _).
  assert (Hlast : V30.has_outcome "Loss"
                  <$> last (V30.chronologicalTrades iso_date_ms two_trades_app)
                  = Some true) by (vm_compute; reflexivity).
  destruct (last (V30.chronologicalTrades iso_date_ms two_trades_app))
    as [t|]; [|discriminate].
  injection Hlast as Hlast. destruct H as (_ & H & _). exact (H Hlast).
Defined.

(** *** Tables *)

Lemma table_get_set t k v k' :
  table_get (table_set t k v) k'
  = if String.eqb k k' then Some v else table_get t k'.
Proof.
  unfold table_get. induction t as [|[k0 v0] t IH]; cbn [table_set find fst].
  - destruct (String.eqb k k'); reflexivity.
  - destruct (String.eqb k0 k) eqn:E0.
    + apply String.eqb_eq in E0. subst k0. cbn [find fst].
      destruct (String.eqb k k'); reflexivity.
    + cbn [find fst]. destruct (String.eqb k0 k') eqn:E1.
      * apply String.eqb_eq in E1. subst k'. rewrite String.eqb_sym, E0.
        reflexivity.
      * exact IH.
Qed.

Lemma table_set_keys t k v :
  (k ∈ t.*1 -> (table_set t k v).*1 = t.*1) /\
  (k ∉ t.*1 -> (table_set t k v).*1 = t.*1 ++ [k]).
Proof.
  induction t as [|[k0 v0] t IH]; cbn [table_set fmap list_fmap fst app].
  - split; [intros H; inversion H | reflexivity].
  - destruct (String.eqb k0 k) eqn:E0.
    + apply String.eqb_eq in E0. subst k0. split; [reflexivity|].
      intros H. exfalso. apply H. left.
    + apply String.eqb_neq in E0. destruct IH as [IH1 IH2].
      cbn [fmap list_fmap fst]. split; intros H.
      * f_equal. apply IH1. apply elem_of_cons in H as [H | H];
          [congruence | exact H].
      * f_equal. apply IH2. intros Hk. apply H. right. exact Hk.
Qed.

Lemma table_set_nodup t k v : NoDup t.*1 -> NoDup (table_set t k v).*1.
Proof.
  intros H. destruct (decide (k ∈ t.*1)) as [Hk | Hk].
  - rewrite (proj1 (table_set_keys t k v) Hk). exact H.
  - rewrite (proj2 (table_set_keys t k v) Hk).
    apply NoDup_app. split; [exact H|]. split.
    + intros x Hx Hx'. apply list_elem_of_singleton in Hx'. subst x.
      contradiction.
    + apply NoDup_singleton.
Qed.

Lemma table_get_elem t k v : table_get t k = Some v -> (k, v) ∈ t.
Proof.
  unfold table_get. induction t as [|[k0 v0] t IH]; cbn [find fst];
    [discriminate|].
  destruct (String.eqb k0 k) eqn:E0.
  - apply String.eqb_eq in E0. subst k0. cbn. intros [= ->]. left.
  - intros H. right. exact (IH H).
Qed.

Lemma elem_table_get t k v : NoDup t.*1 -> (k, v) ∈ t -> table_get t k = Some v.
Proof.
  unfold table_get. induction t as [|[k0 v0] t IH]; intros Hn He;
    [inversion He|].
  cbn [fmap list_fmap fst] in Hn. apply NoDup_cons in Hn as [Hk0 Hn].
  cbn [find fst]. apply elem_of_cons in He as [He | He].
  - injection He as <- <-. rewrite String.eqb_refl. reflexivity.
  - destruct (String.eqb k0 k) eqn:E0; [|exact (IH Hn He)].
    apply String.eqb_eq in E0. subst k0. exfalso. apply Hk0.
    change k with (k, v).1. apply list_elem_of_fmap_2. exact He.
Qed.

Lemma tsum_set t k v :
  (tsum (table_set t k v)
   == tsum t - qnum (default (Fin 0) (table_get t k)) + qnum v)%Q.
Proof.
  unfold table_get. induction t as [|[k0 v0] t IH];
    cbn [table_set tsum find fst snd].
  - cbn [fmap option_fmap option_map default qnum]. ring.
  - destruct (String.eqb k0 k);
      cbn [tsum snd fmap option_fmap option_map default].
    + unfold id. ring.
    + rewrite IH. cbn [fmap option_fmap option_map]. ring.
Qed.

Lemma tsum_perm t u : t ≡ₚ u -> (tsum t == tsum u)%Q.
Proof.
  induction 1 as [|x l k _ IH|x y l|l k m _ IH1 _ IH2]; cbn [tsum].
  - reflexivity.
  - rewrite IH. reflexivity.
  - ring.
  - etransitivity; eassumption.
Qed.

Lemma filter_partition_perm {A} (p : A -> bool) l :
  List.filter p l ++ List.filter (fun x => negb (p x)) l ≡ₚ l.
Proof.
  induction l as [|x l IH]; cbn [List.filter]; [reflexivity|].
  destruct (p x); cbn [negb app].
  - rewrite IH. reflexivity.
  - rewrite <- Permutation_middle, IH. reflexivity.
Qed.

Lemma entries_perm t : entries t ≡ₚ t.
Proof.
  unfold entries. rewrite js_sort_perm. apply filter_partition_perm.
Qed.

Lemma nsum_tsum t :
  Forall (fun e => exists q, e.2 = Fin q) t ->
  num_eq (nsum t.*2) (Fin (tsum t)).
Proof.
  induction 1 as [|[k v] t [q Hq] _ IH]; cbn [fmap list_fmap nsum foldr tsum snd].
  - reflexivity.
  - cbn in Hq. subst v. fold (nsum t.*2).
    destruct (nsum t.*2) as [|s]; cbn in IH |- *; [contradiction|].
    rewrite IH. reflexivity.
Qed.

Lemma filter_nothing {A} (p : A -> bool) l :
  Forall (fun y => p y = false) l -> List.filter p l = [].
Proof.
  induction 1 as [|y l Hy _ IH]; cbn [List.filter]; [reflexivity|].
  rewrite Hy. exact IH.
Qed.

Section Rollup.
Variables (key : obj -> value) (pl : obj -> num).
Hypothesis pl_fin : forall t, pl t = Fin (qof pl t).

Lemma bucket_snoc k l x :
  (bucket key pl k (l ++ [x])
   == bucket key pl k l + (if keyed_by key k x then qof pl x else 0))%Q.
Proof.
  unfold bucket. rewrite filter_snoc. fold (keyed_by key k x).
  destruct (keyed_by key k x); rewrite qsum_app; cbn [qsum]; ring.
Qed.

Lemma rollup_snoc l x :
  rollup key pl (l ++ [x]) = rollup_step key pl (rollup key pl l) x.
Proof. unfold rollup. rewrite fold_left_app. reflexivity. Qed.

Lemma rollup_rolled l : forall t, rollup key pl l = Some t -> rolled key pl l t.
Proof.
  induction l as [|x l IH] using rev_ind; intros t.
  - intros [= <-]. split; [constructor|]. split; [constructor|].
    split; [discriminate | reflexivity].
  - rewrite rollup_snoc. destruct (rollup key pl l) as [t0|];
      cbn [rollup_step mbind option_bind]; [|discriminate].
    destruct (IH t0 eq_refl) as (Hn & Hnone & Hsome & Hsum).
    set (k := key_text (key x)).
    destruct (inherited k); [discriminate|].
    set (current := match table_get t0 k with
                    | Some v => nor v (Fin 0)
                    | None => Fin 0
                    end).
    assert (Hcur : exists c, current = Fin c /\
                     (c == bucket key pl k l)%Q /\
                     (c == qnum (default (Fin 0) (table_get t0 k)))%Q).
    { subst current. destruct (table_get t0 k) as [v|] eqn:Eg.
      - destruct (Hsome k v Eg) as (q & -> & Hq & _).
        unfold nor. cbn [num_truthy default qnum].
        destruct (Qeq_bool q 0) eqn:E0; cbn [negb].
        + apply Qeq_bool_eq in E0. exists 0%Q.
          split; [reflexivity|].
          split; [rewrite <- Hq|]; symmetry; exact E0.
        + exists q. split; [reflexivity|]. split; [exact Hq | reflexivity].
      - exists 0%Q. split; [reflexivity|]. split; [|reflexivity].
        unfold bucket. rewrite filter_nothing; [reflexivity|].
        exact (Hnone k Eg). }
    destruct Hcur as (c & Hc & Hcb & Hcd). rewrite Hc, pl_fin.
    cbn [nadd]. intros [= <-].
    split; [apply table_set_nodup, Hn|].
    split; [|split].
    + intros k' Hk'. rewrite table_get_set in Hk'.
      destruct (String.eqb k k') eqn:Ek; [discriminate|].
      apply Forall_app. split; [exact (Hnone k' Hk')|].
      constructor; [|constructor]. unfold keyed_by. exact Ek.
    + intros k' v Hk'. rewrite table_get_set in Hk'.
      destruct (String.eqb k k') eqn:Ek.
      * injection Hk' as <-. apply String.eqb_eq in Ek. subst k'.
        eexists. split; [reflexivity|]. split.
        -- rewrite bucket_snoc. unfold keyed_by. fold k.
           rewrite String.eqb_refl, Hcb. reflexivity.
        -- apply Exists_app. right. left. unfold keyed_by.
           apply String.eqb_refl.
      * destruct (Hsome k' v Hk') as (q & Hv & Hq & Hex).
        exists q. split; [exact Hv|]. split.
        -- rewrite bucket_snoc. unfold keyed_by. fold k. rewrite Ek, Hq.
           ring.
        -- apply Exists_app. left. exact Hex.
    + rewrite tsum_set, qsum_app, Hsum, <- Hcd. cbn [qnum qsum]. ring.
Qed.

Lemma rollup_none l :
  rollup key pl l = None <->
  Exists (fun x => inherited (key_text (key x)) = true) l.
Proof.
  induction l as [|x l IH] using rev_ind.
  - split; [discriminate | intros H; inversion H].
  - rewrite rollup_snoc, Exists_app.
    destruct (rollup key pl l) as [t0|]; cbn [rollup_step mbind option_bind].
    + destruct (inherited (key_text (key x))) eqn:Ei.
      * split; [|reflexivity]. intros _. right. left. exact Ei.
      * split; [discriminate|]. intros [H | H].
        -- apply IH in H. discriminate.
        -- inversion H as [? ? Hx|? ? Hx]; subst;
             [congruence | inversion Hx].
    + split; [|reflexivity]. intros _. left. apply IH. reflexivity.
Qed.

(** The bars of a chart over the entries of the table. *)
Lemma rolled_chart l t (e : table) :
  rolled key pl l t -> e ≡ₚ t ->
  NoDup e.*1 /\ length e.*2 = length e.*1 /\
  (forall x, x ∈ l -> key_text (key x) ∈ e.*1) /\
  (forall i k v, e.*1 !! i = Some k -> e.*2 !! i = Some v ->
     num_eq v (Fin (bucket key pl k l)) /\
     exists x, x ∈ l /\ key_text (key x) = k) /\
  num_eq (nsum e.*2) (Fin (qsum pl l)).
Proof.
  intros (Hn & Hnone & Hsome & Hsum) He.
  assert (Hin : forall k v, (k, v) ∈ e -> table_get t k = Some v).
  { intros k v H. apply elem_table_get; [exact Hn|]. rewrite <- He. exact H. }
  split; [rewrite He; exact Hn|].
  split; [rewrite !length_fmap; reflexivity|].
  split; [|split].
  - intros x Hx. destruct (table_get t (key_text (key x))) as [v|] eqn:Eg.
    + apply table_get_elem in Eg. rewrite <- He in Eg.
      change (key_text (key x)) with (key_text (key x), v).1.
      apply list_elem_of_fmap_2. exact Eg.
    + exfalso. pose proof (Hnone _ Eg) as Hf. rewrite Forall_forall in Hf.
      pose proof (Hf x Hx) as Hk. unfold keyed_by in Hk.
      rewrite String.eqb_refl in Hk. discriminate.
  - intros i k v Hk Hv. rewrite list_lookup_fmap in Hk.
    rewrite list_lookup_fmap in Hv.
    destruct (e !! i) as [[k0 v0]|] eqn:Ei; [|discriminate].
    cbn in Hk, Hv. injection Hk as ->. injection Hv as ->.
    apply list_elem_of_lookup_2 in Ei.
    destruct (Hsome k v (Hin k v Ei)) as (q & -> & Hq & Hex).
    split; [exact Hq|].
    apply Exists_exists in Hex as (x & Hx & Hkx).
    exists x. split; [exact Hx|]. apply String.eqb_eq. exact Hkx.
  - rewrite nsum_tsum.
    + cbn. rewrite (tsum_perm _ _ He). exact Hsum.
    + apply Forall_forall. intros [k v] Hkv.
      destruct (Hsome k v (Hin k v Hkv)) as (q & -> & _).
      exists q. reflexivity.
Qed.
End Rollup.

(** *** The bar charts of version 3.0 *)

Lemma reduce_fold pl l : forall acc,
  Forall (fun x => pl x = Fin (qof pl x)) l ->
  exists s, fold_left (fun sum t => nadd sum (pl t)) l (Fin acc) = Fin s /\
            (s == acc + qsum pl l)%Q.
Proof.
  induction l as [|t l IH]; intros acc Hl; cbn [fold_left qsum].
  - exists acc. split; [reflexivity | ring].
  - inversion Hl as [|? ? Ht Hl']; subst. rewrite Ht. cbn [nadd].
    destruct (IH (acc + qof pl t)%Q Hl') as (s & Hs & Hq).
    exists s. split; [exact Hs|]. rewrite Hq. ring.
Qed.

(** The sum that the loop of a chart holds for a key is the sum that the
    metrics would take of the trades with that key. *)
Lemma reduce_bucket key pl k l :
  Forall (fun x => pl x = Fin (qof pl x)) l ->
  num_eq (Fin (bucket key pl k l))
         (reduce_pl pl (List.filter (keyed_by key k) l)).
Proof.
  intros Hl.
  assert (Hf : Forall (fun x => pl x = Fin (qof pl x))
                 (List.filter (keyed_by key k) l)).
  { rewrite Forall_forall in *. intros x Hx. apply Hl.
    apply list_elem_of_In. apply list_elem_of_In, filter_In in Hx. tauto. }
  destruct (reduce_fold pl _ 0 Hf) as (s & Hs & Hq).
  unfold reduce_pl. rewrite Hs. cbn [num_eq]. rewrite Hq.
  unfold bucket, keyed_by. ring.
Qed.

Lemma safe_pl_v30 l : Forall (fun x => V30.pl x = Fin (qof V30.pl x)) l.
Proof. apply Forall_forall. intros x _. apply pl_qpl. Qed.

(** X13: the bars of the strategy chart of version 3.0, for amounts of
    the safe range.  There is one bar per strategy that a trade has, its
    label is the strategy, and its value is the sum that the metrics would
    take of the trades with that strategy.  (The loop adds to a property
    of a plain object; the chart is outside this description exactly when
    a strategy has the name of a property that every object inherits, such
    as constructor.) *)
Theorem X13_strategy_chart (a : V30.app) :
  Forall safe_pl (V30.allTrades a) ->
  let strategy := fun t : obj => get t "strategy" in
  (V30.strategyChart_data a = None <->
   Exists (fun t => inherited (key_text (strategy t)) = true)
     (V30.allTrades a)) /\
  (forall labels data,
     V30.strategyChart_data a = Some (labels, data) ->
     NoDup labels /\ length data = length labels /\
     (forall t, t ∈ V30.allTrades a -> key_text (strategy t) ∈ labels) /\
     (forall i k v,
        labels !! i = Some k -> data !! i = Some v ->
        num_eq v (V30.sum_pl
                    (List.filter (keyed_by strategy k) (V30.allTrades a))) /\
        exists t, t ∈ V30.allTrades a /\ key_text (strategy t) = k)).
Proof.
  intros _ strategy. unfold V30.strategyChart_data. fold strategy.
  split.
  - rewrite <- (rollup_none strategy V30.pl).
    destruct (rollup strategy V30.pl (V30.allTrades a));
      cbn [mbind option_bind]; split; congruence.
  - intros labels data.
    destruct (rollup strategy V30.pl (V30.allTrades a)) as [t|] eqn:Er;
      cbn [mbind option_bind]; [|discriminate].
    intros [= <- <-].
    pose proof (rollup_rolled strategy V30.pl pl_qpl _ _ Er) as Hr.
    destruct (rolled_chart strategy V30.pl _ _ _ Hr (entries_perm t))
      as (H1 & H2 & H3 & H4 & _).
    split; [exact H1|]. split; [exact H2|]. split; [exact H3|].
    intros i k v Hk Hv. destruct (H4 i k v Hk Hv) as [Hkv Hex].
    split; [|exact Hex].
    etransitivity; [exact Hkv|].
    exact (reduce_bucket strategy V30.pl k _ (safe_pl_v30 _)).
Qed.

Lemma two_trades_app_safe : Forall safe_pl (V30.allTrades two_trades_app).
Proof.
  apply (Forall_by_map (fun t => get t "net_pl")
           (fun v => exists q, v = VNum (Fin q) /\ (Qabs q <= max_safe)%Q) _
           [VNum (Fin (-50)); VNum (Fin 120)]);
    [vm_compute; reflexivity|].
  repeat constructor; eexists; (split; [reflexivity | discriminate]).
Qed.

(** X13, an instance: the application with a win of 120 and a loss of
    50. *)
Lemma X13_strategy_chart_witness :
  exists labels data,
    V30.strategyChart_data two_trades_app = Some (labels, data) /\
    NoDup labels /\ length data = length labels.
Proof.
  destruct (V30.strategyChart_data two_trades_app) as [[labels data]|] eqn:E.
  - exists labels, data. split; [reflexivity|].
    destruct (proj2 (X13_strategy_chart two_trades_app two_trades_app_safe)
                labels data E)
      as (H1 & H2 & _).
    split; [exact H1 | exact H2].
  - exfalso. vm_compute in E. discriminate.
Defined.

(** *** Sorting by a number *)

Section SortedByMeasure.
Context {A : Type} (after : A -> A -> bool) (m : A -> Q) (P : A -> Prop).
Hypothesis after_spec :
  forall x y, P x -> P y -> (after y x = true <-> (m x < m y)%Q).

Lemma sort_insert_sorted x l :
  P x -> Forall P l ->
  StronglySorted (fun a b => (m a <= m b)%Q) l ->
  StronglySorted (fun a b => (m a <= m b)%Q) (sort_insert after x l).
Proof.
  intros Hx Hl Hs. induction Hs as [|y l Hs IH Hy]; cbn [sort_insert].
  - repeat constructor.
  - inversion Hl as [|? ? Py Pl]; subst.
    destruct (after y x) eqn:E.
    + apply (after_spec x y Hx Py) in E.
      constructor; [constructor; assumption|].
      constructor; [apply Qlt_le_weak, E|].
      eapply Forall_impl; [exact Hy|]. intros z Hz. cbn in Hz.
      eapply Qle_trans; [apply Qlt_le_weak, E | exact Hz].
    + assert (Hle : (m y <= m x)%Q).
      { apply Qnot_lt_le. intros H.
        apply (after_spec x y Hx Py) in H. congruence. }
      constructor; [apply IH, Pl|].
      rewrite sort_insert_perm. constructor; assumption.
Qed.

Lemma js_sort_sorted l :
  Forall P l -> StronglySorted (fun a b => (m a <= m b)%Q) (js_sort after l).
Proof.
  unfold js_sort.
  assert (H : forall acc,
            Forall P acc -> Forall P l ->
            StronglySorted (fun a b => (m a <= m b)%Q) acc ->
            StronglySorted (fun a b => (m a <= m b)%Q)
              (fold_left (fun acc x => sort_insert after x acc) l acc)).
  { induction l as [|x l IH]; intros acc Ha Hl Hs; cbn [fold_left];
      [exact Hs|].
    inversion Hl as [|? ? Px Pl]; subst.
    apply IH; [|exact Pl|apply sort_insert_sorted; assumption].
    rewrite sort_insert_perm. constructor; assumption. }
  intros Hl. apply H; [constructor | exact Hl | constructor].
Qed.
End SortedByMeasure.

Lemma StronglySorted_lookup {A} (R : A -> A -> Prop) l : forall i j x y,
  StronglySorted R l -> (i < j)%nat ->
  l !! i = Some x -> l !! j = Some y -> R x y.
Proof.
  induction l as [|z l IH]; intros i j x y Hs Hij Hi Hj; [discriminate|].
  inversion Hs as [|? ? Hs' Hz]; subst.
  destruct j as [|j]; [lia|]. cbn in Hj.
  destruct i as [|i]; cbn in Hi.
  - injection Hi as ->. rewrite Forall_forall in Hz. apply Hz.
    eapply list_elem_of_lookup_2; exact Hj.
  - apply (IH i j); [exact Hs' | lia | exact Hi | exact Hj].
Qed.

Lemma ticker_after_spec (x y : string * num) :
  (exists q, x.2 = Fin q) -> (exists q, y.2 = Fin q) ->
  (ngt (nsub (nabs x.2) (nabs y.2)) (Fin 0) = true
   <-> (- Qabs (qnum x.2) < - Qabs (qnum y.2))%Q).
Proof.
  intros [p Hp] [q Hq]. rewrite Hp, Hq. cbn [nabs nsub ngt qnum].
  unfold Qltb. rewrite negb_true_iff.
  split.
  - intros H. apply Qopp_lt_compat.
    apply Qnot_le_lt. intros Hle.
    assert (Hb : Qle_bool (Qabs p - Qabs q) 0 = true).
    { apply Qle_bool_iff. unfold Qminus. rewrite <- (Qplus_opp_r (Qabs q)).
      apply Qplus_le_compat; [exact Hle | apply Qle_refl]. }
    congruence.
  - intros H. apply Qopp_lt_compat in H. rewrite !Qopp_involutive in H.
    destruct (Qle_bool (Qabs p - Qabs q) 0) eqn:E; [|reflexivity].
    apply Qle_bool_iff in E. exfalso. apply (Qlt_not_le _ _ H).
    assert (E' : (Qabs p - Qabs q + Qabs q <= 0 + Qabs q)%Q)
      by (apply Qplus_le_compat; [exact E | apply Qle_refl]).
    assert (E1 : (Qabs p - Qabs q + Qabs q == Qabs p)%Q) by ring.
    rewrite E1, Qplus_0_l in E'. exact E'.
Qed.

(** The ten entries of a table with the largest absolute values, as the
    ticker charts take them. *)
Lemma top_ten_chart (key : obj -> value) (pl : obj -> num) (l : list obj)
    (t : table) :
  rolled key pl l t ->
  let ranked :=
    js_sort (fun y x : string * num => ngt (nsub (nabs x.2) (nabs y.2)) (Fin 0))
      (entries t) in
  let labels := (take 10 ranked).*1 in
  let data := (take 10 ranked).*2 in
  (length labels <= 10)%nat /\ length data = length labels /\
  NoDup labels /\
  (forall i k v,
     labels !! i = Some k -> data !! i = Some v ->
     num_eq v (Fin (bucket key pl k l)) /\
     exists x, x ∈ l /\ key_text (key x) = k) /\
  (forall i j v w,
     (i <= j)%nat -> data !! i = Some v -> data !! j = Some w ->
     (Qabs (qnum w) <= Qabs (qnum v))%Q) /\
  (forall x,
     x ∈ l -> key_text (key x) ∉ labels ->
     length labels = 10%nat /\
     Forall (fun v => (Qabs (bucket key pl (key_text (key x)) l)
                       <= Qabs (qnum v))%Q) data).
Proof.
  intros Hr.
  set (after := fun y x : string * num =>
                  ngt (nsub (nabs x.2) (nabs y.2)) (Fin 0)).
  intros ranked labels data. subst labels data.
  assert (Hperm : ranked ≡ₚ t)
    by (subst ranked; rewrite js_sort_perm; apply entries_perm).
  destruct (rolled_chart key pl _ _ _ Hr Hperm)
    as (H1 & _ & H3 & H4 & _).
  assert (Hfin : Forall (fun e : string * num => exists q, e.2 = Fin q) ranked).
  { apply Forall_forall. intros [k v] Hkv.
    destruct Hr as (Hn & _ & Hsome & _).
    rewrite Hperm in Hkv.
    destruct (Hsome k v (elem_table_get _ _ _ Hn Hkv)) as (q & -> & _).
    exists q. reflexivity. }
  assert (Hsorted : StronglySorted
                      (fun x y : string * num =>
                         (- Qabs (qnum x.2) <= - Qabs (qnum y.2))%Q) ranked).
  { subst ranked. apply (js_sort_sorted after _ _ ticker_after_spec).
    rewrite <- (js_sort_perm after). exact Hfin. }
  assert (Hlook : forall i k v,
            (take 10 ranked).*1 !! i = Some k ->
            (take 10 ranked).*2 !! i = Some v ->
            ranked !! i = Some (k, v)).
  { intros i k v Hk Hv. rewrite list_lookup_fmap in Hk.
    rewrite list_lookup_fmap in Hv.
    destruct (take 10 ranked !! i) as [[k0 v0]|] eqn:Ei; [|discriminate].
    cbn in Hk, Hv. injection Hk as ->. injection Hv as ->.
    apply lookup_take_Some in Ei as [Ei _]. exact Ei. }
  split; [rewrite length_fmap, length_take; lia|].
  split; [rewrite !length_fmap; reflexivity|].
  split; [|split; [|split]].
  - rewrite <- (take_drop 10 ranked), fmap_app in H1.
    apply NoDup_app in H1 as [H1 _]. exact H1.
  - intros i k v Hk Hv. pose proof (Hlook i k v Hk Hv) as Hi.
    apply (H4 i k v); rewrite list_lookup_fmap, Hi; reflexivity.
  - intros i j v w Hij Hv Hw.
    rewrite list_lookup_fmap in Hv. rewrite list_lookup_fmap in Hw.
    destruct (take 10 ranked !! i) as [[k1 v1]|] eqn:Ei; [|discriminate].
    destruct (take 10 ranked !! j) as [[k2 v2]|] eqn:Ej; [|discriminate].
    cbn in Hv, Hw. injection Hv as ->. injection Hw as ->.
    destruct (decide (i = j)) as [-> | Hne].
    + rewrite Ei in Ej. injection Ej as _ ->. apply Qle_refl.
    + apply lookup_take_Some in Ei as [Ei _].
      apply lookup_take_Some in Ej as [Ej _].
      pose proof (StronglySorted_lookup _ ranked i j _ _ Hsorted
                    ltac:(lia) Ei Ej) as Hle.
      cbn in Hle. apply Qopp_le_compat in Hle.
      rewrite !Qopp_involutive in Hle. exact Hle.
  - intros x Hx Hnot.
    pose proof (H3 x Hx) as Hk.
    apply list_elem_of_fmap in Hk as ([k v] & Hkeq & Hkv). cbn in Hkeq.
    assert (Hdrop : (k, v) ∈ drop 10 ranked).
    { rewrite <- (take_drop 10 ranked) in Hkv.
      apply elem_of_app in Hkv as [Hkv | Hkv]; [|exact Hkv].
      exfalso. apply Hnot. rewrite Hkeq.
      change k with (k, v).1. apply list_elem_of_fmap_2. exact Hkv. }
    assert (Hlen : (10 < length ranked)%nat).
    { destruct (decide (10 < length ranked)%nat) as [Hl | Hl]; [exact Hl|].
      rewrite drop_ge in Hdrop by lia. inversion Hdrop. }
    split; [rewrite length_fmap, length_take; lia|].
    apply Forall_forall. intros w Hw.
    apply list_elem_of_fmap in Hw as ([k' v'] & -> & Hw). cbn [snd].
    rewrite <- (take_drop 10 ranked) in Hsorted.
    pose proof (StronglySorted_app_1_elem_of _ _ _ _ _ Hsorted Hw Hdrop)
      as Hle.
    cbn in Hle. apply Qopp_le_compat in Hle.
    rewrite !Qopp_involutive in Hle.
    destruct Hr as (Hn & _ & Hsome & _).
    assert (Hin : (k, v) ∈ t).
    { rewrite <- Hperm, <- (take_drop 10 ranked). apply elem_of_app. right.
      exact Hdrop. }
    destruct (Hsome k v (elem_table_get _ _ _ Hn Hin)) as (q & -> & Hq & _).
    cbn [qnum] in Hle. rewrite Hkeq, <- Hq. exact Hle.
Qed.

(** The ten largest sums of a table, read as sums of the metrics and
    compared as the comparator of the charts compares them. *)
Lemma top_ten_sums (key : obj -> value) (pl : obj -> num) (l : list obj)
    (t : table) :
  Forall (fun x => pl x = Fin (qof pl x)) l ->
  rolled key pl l t ->
  let ranked :=
    js_sort (fun y x : string * num => ngt (nsub (nabs x.2) (nabs y.2)) (Fin 0))
      (entries t) in
  let labels := (take 10 ranked).*1 in
  let sums := (take 10 ranked).*2 in
  let sum_of k := reduce_pl pl (List.filter (keyed_by key k) l) in
  (length labels <= 10)%nat /\ length sums = length labels /\
  NoDup labels /\
  (forall i k v,
     labels !! i = Some k -> sums !! i = Some v ->
     num_eq v (sum_of k) /\ exists x, x ∈ l /\ key_text (key x) = k) /\
  (forall i j v w,
     (i <= j)%nat -> sums !! i = Some v -> sums !! j = Some w ->
     nge (nabs v) (nabs w) = true) /\
  (forall x,
     x ∈ l -> key_text (key x) ∉ labels ->
     length labels = 10%nat /\
     Forall (fun v => nge (nabs v) (nabs (sum_of (key_text (key x)))) = true)
       sums).
Proof.
  intros Hfin Hr ranked labels sums sum_of.
  destruct (top_ten_chart key pl l t Hr) as (H1 & H2 & H3 & H4 & H5 & H6).
  fold ranked in H1, H2, H3, H4, H5, H6.
  fold labels in H1, H2, H3, H4, H6. fold sums in H2, H4, H5, H6.
  assert (Hfinite : forall i v, sums !! i = Some v -> exists q, v = Fin q).
  { intros i v Hv.
    assert (Hi : (i < length labels)%nat)
      by (rewrite <- H2; eapply lookup_lt_Some; exact Hv).
    apply lookup_lt_is_Some in Hi as [k Hk].
    destruct (H4 i k v Hk Hv) as [Hkv _].
    destruct v as [|q]; [contradiction | exists q; reflexivity]. }
  assert (Hsum : forall k,
            exists s, sum_of k = Fin s /\ (s == bucket key pl k l)%Q).
  { intros k. pose proof (reduce_bucket key pl k l Hfin) as Hb.
    fold (sum_of k) in Hb. destruct (sum_of k) as [|s]; [contradiction|].
    exists s. split; [reflexivity|]. symmetry. exact Hb. }
  split; [exact H1|]. split; [exact H2|]. split; [exact H3|].
  split; [|split].
  - intros i k v Hk Hv. destruct (H4 i k v Hk Hv) as [Hkv Hex].
    split; [|exact Hex]. etransitivity; [exact Hkv|].
    exact (reduce_bucket key pl k l Hfin).
  - intros i j v w Hij Hv Hw.
    pose proof (H5 i j v w Hij Hv Hw) as Hle.
    destruct (Hfinite i v Hv) as [p ->]. destruct (Hfinite j w Hw) as [q ->].
    cbn [nabs nge]. apply Qle_bool_iff. exact Hle.
  - intros x Hx Hnot. destruct (H6 x Hx Hnot) as [Hlen Hall].
    split; [exact Hlen|].
    destruct (Hsum (key_text (key x))) as (s & Hs & Hq). rewrite Hs.
    apply Forall_forall. intros v Hv.
    pose proof (proj1 (Forall_forall _ _) Hall v Hv) as Hle.
    apply list_elem_of_lookup in Hv as [i Hv].
    destruct (Hfinite i v Hv) as [p ->].
    cbn [nabs nge]. apply Qle_bool_iff. cbn [qnum] in Hle.
    rewrite Hq. exact Hle.
Qed.

(** X14: the pie chart of the tickers of version 3.0, for amounts of the
    safe range.  Its data are the absolute values of at most ten sums,
    with distinct labels: each label is the ticker of a trade, and its sum
    is the one that the metrics would take of the trades of that ticker.
    The slices come in descending order, and a ticker without a slice is
    left out only when there are ten slices, none of which is smaller than
    the absolute value of its sum. *)
Theorem X14_ticker_chart (a : V30.app) (labels : list string)
    (data : list num) :
  Forall safe_pl (V30.allTrades a) ->
  V30.tickerChart_data a = Some (labels, data) ->
  let ticker := fun t : obj => get t "ticker" in
  let sum_of := fun k =>
    V30.sum_pl (List.filter (keyed_by ticker k) (V30.allTrades a)) in
  exists sums,
    data = map nabs sums /\
    (length labels <= 10)%nat /\ length sums = length labels /\
    NoDup labels /\
    (forall i k v,
       labels !! i = Some k -> sums !! i = Some v ->
       num_eq v (sum_of k) /\
       exists t, t ∈ V30.allTrades a /\ key_text (ticker t) = k) /\
    (forall i j v w,
       (i <= j)%nat -> sums !! i = Some v -> sums !! j = Some w ->
       nge (nabs v) (nabs w) = true) /\
    (forall t,
       t ∈ V30.allTrades a -> key_text (ticker t) ∉ labels ->
       length labels = 10%nat /\
       Forall (fun v => nge (nabs v) (nabs (sum_of (key_text (ticker t))))
                        = true) sums).
Proof.
  intros _ H ticker sum_of. unfold V30.tickerChart_data in H. fold ticker in H.
  destruct (rollup ticker V30.pl (V30.allTrades a)) as [t|] eqn:Er;
    cbn [mbind option_bind] in H; [|discriminate].
  cbv zeta in H. injection H as <- <-.
  eexists. split; [reflexivity|].
  exact (top_ten_sums ticker V30.pl _ t (safe_pl_v30 _)
           (rollup_rolled ticker V30.pl pl_qpl _ _ Er)).
Qed.

(** X14, an instance: the application with a win of 120 and a loss of
    50; the slices are 120 and 50. *)
Lemma X14_ticker_chart_witness :
  V30.tickerChart_data two_trades_app
  = Some (["AAPL"; "MSFT"], [Fin 120; Fin 50]) /\
  exists sums, [Fin 120; Fin 50] = map nabs sums /\ length sums = 2%nat.
Proof.
  assert (E : V30.tickerChart_data two_trades_app
              = Some (["AAPL"; "MSFT"], [Fin 120; Fin 50]))
    by (vm_compute; reflexivity).
  split; [exact E|].
  destruct (X14_ticker_chart two_trades_app _ _ two_trades_app_safe E)
    as (sums & H1 & _ & H3 & _).
  exists sums. split; [exact H1 | exact H3].
Defined.

(** *** Wins, losses and extremes of the class revisions *)

Lemma numeric_loss_is_no_win t :
  numeric_pl t -> V20.is_loss t = negb (V20.is_win t).
Proof.
  intros Ht. unfold V20.is_loss, V20.is_win.
  rewrite (numeric_pl_fin t Ht). reflexivity.
Qed.

Lemma numeric_filter (f : obj -> bool) l :
  Forall numeric_pl l -> Forall numeric_pl (List.filter f l).
Proof. apply Forall_list_filter. Qed.

Lemma wins_losses_partition l :
  Forall numeric_pl l ->
  (length (List.filter V20.is_win l) + length (List.filter V20.is_loss l)
   = length l)%nat /\
  (qsum pl_or_0 l
   == qsum pl_or_0 (List.filter V20.is_win l)
      + qsum pl_or_0 (List.filter V20.is_loss l))%Q.
Proof.
  induction 1 as [|t l Ht _ [IH1 IH2]]; cbn [List.filter length qsum].
  - split; [reflexivity | ring].
  - rewrite (numeric_loss_is_no_win t Ht).
    destruct (V20.is_win t); cbn [negb length qsum]; split; try lia;
      rewrite IH2; ring.
Qed.

Lemma fold_nmax l : forall x,
  Forall numeric_pl l ->
  exists hi,
    fold_left nmax (map pl_or_0 l) (Fin x) = Fin hi /\ (x <= hi)%Q /\
    Forall (fun t => (qof pl_or_0 t <= hi)%Q) l /\
    (hi = x \/ Exists (fun t => hi = qof pl_or_0 t) l).
Proof.
  induction l as [|t l IH]; intros x Hl; cbn [map fold_left].
  - exists x. split; [reflexivity|]. split; [apply Qle_refl|].
    split; [constructor | left; reflexivity].
  - inversion Hl as [|? ? Ht Hl']; subst.
    rewrite (numeric_pl_fin t Ht). cbn [nmax].
    set (q := qof pl_or_0 t).
    destruct (Qle_bool x q) eqn:E.
    + apply Qle_bool_iff in E.
      destruct (IH q Hl') as (hi & Hhi & Hle & Hall & Hex).
      exists hi. split; [exact Hhi|].
      split; [eapply Qle_trans; eassumption|].
      split; [constructor; assumption|].
      right. destruct Hex as [-> | Hex]; [left; reflexivity | right; exact Hex].
    + assert (Hlt : (q <= x)%Q).
      { apply Qlt_le_weak, Qnot_le_lt. intros H.
        apply Qle_bool_iff in H. congruence. }
      destruct (IH x Hl') as (hi & Hhi & Hle & Hall & Hex).
      exists hi. split; [exact Hhi|]. split; [exact Hle|].
      split; [constructor; [eapply Qle_trans; eassumption | exact Hall]|].
      destruct Hex as [-> | Hex]; [left; reflexivity | right; right; exact Hex].
Qed.

Lemma fold_nmin l : forall x,
  Forall numeric_pl l ->
  exists lo,
    fold_left nmin (map pl_or_0 l) (Fin x) = Fin lo /\ (lo <= x)%Q /\
    Forall (fun t => (lo <= qof pl_or_0 t)%Q) l /\
    (lo = x \/ Exists (fun t => lo = qof pl_or_0 t) l).
Proof.
  induction l as [|t l IH]; intros x Hl; cbn [map fold_left].
  - exists x. split; [reflexivity|]. split; [apply Qle_refl|].
    split; [constructor | left; reflexivity].
  - inversion Hl as [|? ? Ht Hl']; subst.
    rewrite (numeric_pl_fin t Ht). cbn [nmin].
    set (q := qof pl_or_0 t).
    destruct (Qle_bool x q) eqn:E.
    + apply Qle_bool_iff in E.
      destruct (IH x Hl') as (lo & Hlo & Hle & Hall & Hex).
      exists lo. split; [exact Hlo|]. split; [exact Hle|].
      split; [constructor; [eapply Qle_trans; eassumption | exact Hall]|].
      destruct Hex as [-> | Hex]; [left; reflexivity | right; right; exact Hex].
    + assert (Hlt : (q <= x)%Q).
      { apply Qlt_le_weak, Qnot_le_lt. intros H.
        apply Qle_bool_iff in H. congruence. }
      destruct (IH q Hl') as (lo & Hlo & Hle & Hall & Hex).
      exists lo. split; [exact Hlo|].
      split; [eapply Qle_trans; eassumption|].
      split; [constructor; assumption|].
      right. destruct Hex as [-> | Hex]; [left; reflexivity | right; exact Hex].
Qed.

Lemma average_of (s : Q) (n : nat) :
  exists a,
    (if (0 <? n)%nat then ndiv (Fin s) (nnat n) else XFin 0) = XFin a /\
    ((0 < n)%nat -> (a * inject_Z (Z.of_nat n) == s)%Q) /\
    (n = 0%nat -> a = 0%Q).
Proof.
  destruct n as [|n].
  - exists 0%Q. split; [reflexivity|]. split; [lia | reflexivity].
  - cbn [Nat.ltb Nat.leb]. unfold ndiv, nnat.
    pose proof (inject_nat_pos (S n) ltac:(lia)) as Hpos.
    rewrite (Qeq_bool_false_pos _ Hpos).
    eexists. split; [reflexivity|]. split; [|discriminate].
    intros _. field. intros H. rewrite H in Hpos.
    exact (Qlt_irrefl 0 Hpos).
Qed.

Lemma reachable_numeric date_ms j :
  V23.reachable date_ms j -> Forall numeric_pl (filteredTrades j).
Proof.
  intros Hr.
  destruct (reachable_ok date_ms j Hr) as (Hf & Ht & _).
  destruct (v23_reachable_books date_ms j Hr) as (_ & Hn & _).
  rewrite Forall_forall in *. intros t Ht'. apply Hn.
  eapply elem_of_submseteq; [|exact Ht].
  eapply elem_of_submseteq; [|exact Hf]. exact Ht'.
Qed.

Lemma metrics_of_numeric_trades (j : journal) :
  Forall numeric_pl (filteredTrades j) ->
  let m := V20.calculateMetrics j in
  let ts := filteredTrades j in
  (V20.totalWins m + V20.totalLosses m = V20.totalTrades m)%nat /\
  V20.totalTrades m = length ts /\
  (exists aw al,
     V20.averageWin m = XFin aw /\ V20.averageLoss m = XFin al /\
     (0 <= aw)%Q /\ (al <= 0)%Q /\
     ((0 < V20.totalLosses m)%nat -> (al < 0)%Q)) /\
  (exists hi lo,
     V20.largestWin m = Fin hi /\ V20.largestLoss m = Fin lo /\
     Forall (fun t => (lo <= qof pl_or_0 t)%Q /\ (qof pl_or_0 t <= hi)%Q)
       ts /\
     match ts with
     | [] => hi = 0%Q /\ lo = 0%Q
     | _ => Exists (fun t => hi = qof pl_or_0 t) ts /\
            Exists (fun t => lo = qof pl_or_0 t) ts
     end).
Proof.
  intros Hn m ts. subst m ts. unfold V20.calculateMetrics.
  destruct (filteredTrades j) as [|t0 l0] eqn:El.
  - cbn. split; [reflexivity|]. split; [reflexivity|]. split.
    + exists 0%Q, 0%Q. repeat split; try reflexivity;
        try apply Qle_refl. lia.
    + exists 0%Q, 0%Q. repeat split. constructor.
  - set (ts := t0 :: l0) in *.
    change (length ts =? 0)%nat with false. cbv iota.
    cbn [V20.totalWins V20.totalLosses V20.totalTrades V20.totalPL
           V20.averageWin V20.averageLoss V20.largestWin V20.largestLoss].
    destruct (wins_losses_partition ts Hn) as [Hcount Hsum].
    split; [exact Hcount|]. split; [reflexivity|]. split.
    + destruct (wins_sum ts) as (gw & Hgw & Hgw0).
      destruct (losses_sum ts) as (gl & Hgl & Hgl0 & Hglneg).
      destruct (sum_pl_qsum _ (numeric_filter V20.is_win ts Hn))
        as (gw' & Hgw' & Hgwq).
      destruct (sum_pl_qsum _ (numeric_filter V20.is_loss ts Hn))
        as (gl' & Hgl' & Hglq).
      rewrite Hgw in Hgw'. injection Hgw' as <-.
      rewrite Hgl in Hgl'. injection Hgl' as <-.
      rewrite Hgw, Hgl.
      destruct (average_of gw (length (List.filter V20.is_win ts)))
        as (aw & Haw & Hawn & Haw0).
      destruct (average_of gl (length (List.filter V20.is_loss ts)))
        as (al & Hal & Haln & Hal0).
      exists aw, al.
      split; [exact Haw|]. split; [exact Hal|].
      assert (Hwq : (aw * inject_Z (Z.of_nat (length (List.filter V20.is_win ts)))
                     == gw)%Q).
      { destruct (length (List.filter V20.is_win ts)) as [|n] eqn:En.
        - rewrite (Haw0 eq_refl).
          destruct (List.filter V20.is_win ts); [|discriminate].
          cbn in Hgwq. rewrite Hgwq. ring.
        - apply Hawn. lia. }
      assert (Hlq : (al * inject_Z (Z.of_nat (length (List.filter V20.is_loss ts)))
                     == gl)%Q).
      { destruct (length (List.filter V20.is_loss ts)) as [|n] eqn:En.
        - rewrite (Hal0 eq_refl).
          destruct (List.filter V20.is_loss ts); [|discriminate].
          cbn in Hglq. rewrite Hglq. ring.
        - apply Haln. lia. }
      assert (Hsign : forall (a s : Q) (n : nat),
                (a * inject_Z (Z.of_nat n) == s)%Q -> (n = 0%nat -> a = 0%Q) ->
                ((0 <= s)%Q -> (0 <= a)%Q) /\ ((s <= 0)%Q -> (a <= 0)%Q) /\
                ((s < 0)%Q -> (a < 0)%Q)).
      { intros a s n Hmul H0. destruct n as [|n].
        - rewrite (H0 eq_refl). repeat split; intros; try apply Qle_refl.
          exfalso. rewrite (H0 eq_refl) in Hmul. rewrite <- Hmul in H.
          rewrite Qmult_0_l in H. exact (Qlt_irrefl 0 H).
        - pose proof (inject_nat_pos (S n) ltac:(lia)) as Hpos.
          assert (Ha : (a == s / inject_Z (Z.of_nat (S n)))%Q).
          { rewrite <- Hmul. field. intros H. rewrite H in Hpos.
            exact (Qlt_irrefl 0 Hpos). }
          repeat split; intros Hs; rewrite Ha.
          + apply Qle_shift_div_l; [exact Hpos|]. rewrite Qmult_0_l. exact Hs.
          + apply Qle_shift_div_r; [exact Hpos|]. rewrite Qmult_0_l. exact Hs.
          + apply Qlt_shift_div_r; [exact Hpos|]. rewrite Qmult_0_l. exact Hs. }
      destruct (Hsign aw gw _ Hwq Haw0) as (Hw1 & _ & _).
      destruct (Hsign al gl _ Hlq Hal0) as (_ & Hl2 & Hl3).
      split; [exact (Hw1 Hgw0)|]. split; [exact (Hl2 Hgl0)|].
      intros Hpos. apply Hl3, Hglneg. intros Hnil. rewrite Hnil in Hpos.
      cbn in Hpos. lia.
    + subst ts. inversion Hn as [|? ? Ht0 Hl0]; subst.
      cbn [map]. rewrite (numeric_pl_fin t0 Ht0).
      destruct (fold_nmax l0 (qof pl_or_0 t0) Hl0)
        as (hi & Hhi & Hhi0 & Hhiall & Hhiex).
      destruct (fold_nmin l0 (qof pl_or_0 t0) Hl0)
        as (lo & Hlo & Hlo0 & Hloall & Hloex).
      exists hi, lo. split; [exact Hhi|]. split; [exact Hlo|]. split.
      * constructor; [split; assumption|].
        rewrite Forall_forall in *. intros t Ht. split; auto.
      * split.
        -- destruct Hhiex as [-> | Hex]; [left; reflexivity | right; exact Hex].
        -- destruct Hloex as [-> | Hex]; [left; reflexivity | right; exact Hex].
Qed.

(** X3: the metrics of the class revisions (versions 2.0 to 2.4 share the
    text of calculateMetrics) when every displayed trade holds a number in
    net_pl, which is so in every journal that a run of version 2.3
    reaches.  Every trade is counted as a win or as a loss, a P&L of 0
    being a win; the average win is not negative and the average loss is
    negative when there is a loss; the largest win and the largest loss
    are the greatest and the least P&L of all the displayed trades, each
    the P&L of a trade, so the largest win is the P&L of a loss when every
    trade loses. *)
Theorem X3_wins_losses_and_extremes :
  (forall j : journal,
     Forall numeric_pl (filteredTrades j) ->
     let m := V20.calculateMetrics j in
     let ts := filteredTrades j in
     (V20.totalWins m + V20.totalLosses m = V20.totalTrades m)%nat /\
     V20.totalTrades m = length ts /\
     not_negative (V20.averageWin m) /\
     ((0 < V20.totalLosses m)%nat -> negative (V20.averageLoss m)) /\
     Forall (fun t => nge (V20.largestWin m) (pl_or_0 t) = true /\
                      nge (pl_or_0 t) (V20.largestLoss m) = true) ts /\
     match ts with
     | [] => V20.largestWin m = Fin 0 /\ V20.largestLoss m = Fin 0
     | _ => Exists (fun t => num_eq (V20.largestWin m) (pl_or_0 t)) ts /\
            Exists (fun t => num_eq (V20.largestLoss m) (pl_or_0 t)) ts
     end) /\
  (forall date_ms j,
     V23.reachable date_ms j -> Forall numeric_pl (filteredTrades j)).
Proof.
  split; [|exact reachable_numeric].
  intros j Hn m ts.
  destruct (metrics_of_numeric_trades j Hn)
    as (H1 & H2 & (aw & al & Haw & Hal & Haw0 & _ & Hneg)
        & (hi & lo & Hhi & Hlo & Hall & Hex)).
  fold m in H1, H2, Haw, Hal, Hneg, Hhi, Hlo. fold ts in H2, Hall, Hex, Hn.
  clearbody ts.
  split; [exact H1|]. split; [exact H2|].
  split; [rewrite Haw; exact Haw0|].
  split; [intros Hpos; rewrite Hal; exact (Hneg Hpos)|].
  rewrite Hhi, Hlo. split.
  - rewrite Forall_forall in *. intros t Ht.
    rewrite (numeric_pl_fin t (Hn t Ht)). cbn [nge].
    destruct (Hall t Ht) as [Hl Hh].
    split; apply Qle_bool_iff; assumption.
  - destruct ts as [|t0 l0]; [destruct Hex as [-> ->]; split; reflexivity|].
    destruct Hex as [Hex1 Hex2]. rewrite Forall_forall in Hn.
    split; apply Exists_exists.
    + apply Exists_exists in Hex1 as (t & Ht & ->). exists t.
      split; [exact Ht|].
      rewrite (numeric_pl_fin t (Hn t Ht)).
      reflexivity.
    + apply Exists_exists in Hex2 as (t & Ht & ->). exists t.
      split; [exact Ht|].
      rewrite (numeric_pl_fin t (Hn t Ht)).
      reflexivity.
Qed.

(** X3, an instance: the journal after one trade was added. *)
Lemma X3_wins_losses_witness :
  let m := V20.calculateMetrics one_trade_journal in
  (V20.totalWins m + V20.totalLosses m = V20.totalTrades m)%nat /\
  V20.totalTrades m = length (filteredTrades one_trade_journal).
Proof.
  destruct (proj1 X3_wins_losses_and_extremes one_trade_journal
              (proj2 X3_wins_losses_and_extremes iso_date_ms one_trade_journal
                 one_trade_journal_reachable))
    as (H1 & H2 & _).
  split; [exact H1 | exact H2].
Defined.

(** *** The order of texts *)

Lemma ascii_compare_lt_trans a b c :
  Ascii.compare a b = Lt -> Ascii.compare b c = Lt -> Ascii.compare a c = Lt.
Proof.
  unfold Ascii.compare. rewrite !N.compare_lt_iff. apply N.lt_trans.
Qed.

Lemma string_compare_lt_trans s : forall t u,
  String.compare s t = Lt -> String.compare t u = Lt ->
  String.compare s u = Lt.
Proof.
  induction s as [|a s IH]; intros [|b t] [|c u]; cbn [String.compare];
    try discriminate; try reflexivity.
  destruct (Ascii.compare a b) eqn:Eab; try discriminate;
    destruct (Ascii.compare b c) eqn:Ebc; try discriminate.
  - apply Ascii.compare_eq_iff in Eab, Ebc. subst b c.
    assert (E : Ascii.compare a a = Eq).
    { unfold Ascii.compare. apply N.compare_refl. }
    rewrite E. apply IH.
  - apply Ascii.compare_eq_iff in Eab. subst b. rewrite Ebc. reflexivity.
  - apply Ascii.compare_eq_iff in Ebc. subst c. rewrite Eab. reflexivity.
  - rewrite (ascii_compare_lt_trans a b c Eab Ebc). reflexivity.
Qed.

Lemma string_ltb_trans s t u :
  String.ltb s t = true -> String.ltb t u = true -> String.ltb s u = true.
Proof.
  unfold String.ltb. intros H1 H2.
  destruct (String.compare s t) eqn:E1; try discriminate.
  destruct (String.compare t u) eqn:E2; try discriminate.
  rewrite (string_compare_lt_trans s t u E1 E2). reflexivity.
Qed.

Lemma string_compare_refl s : String.compare s s = Eq.
Proof.
  induction s as [|a s IH]; cbn [String.compare]; [reflexivity|].
  unfold Ascii.compare. rewrite N.compare_refl. exact IH.
Qed.

Lemma string_ltb_irrefl s : String.ltb s s = false.
Proof. unfold String.ltb. rewrite string_compare_refl. reflexivity. Qed.

Lemma string_ltb_asym s t : String.ltb s t = true -> String.ltb t s = false.
Proof.
  intros H. destruct (String.ltb t s) eqn:E; [|reflexivity].
  pose proof (string_ltb_trans s t s H E) as Hs.
  rewrite string_ltb_irrefl in Hs. discriminate.
Qed.

(** Not after: [s] is [t] or comes before it. *)
Lemma string_not_after s t :
  String.ltb t s = false -> s = t \/ String.ltb s t = true.
Proof.
  unfold String.ltb. rewrite (String.compare_antisym t s).
  destruct (String.compare s t) eqn:E; cbn [CompOpp]; try discriminate.
  - intros _. left. apply String.compare_eq_iff. exact E.
  - intros _. right. reflexivity.
Qed.

Lemma string_le_trans s t u :
  String.ltb t s = false -> String.ltb u t = false -> String.ltb u s = false.
Proof.
  intros H1 H2.
  destruct (string_not_after s t H1) as [-> | L1]; [exact H2|].
  destruct (string_not_after t u H2) as [-> | L2];
    [apply string_ltb_asym, L1|].
  apply string_ltb_asym, (string_ltb_trans s t u L1 L2).
Qed.

(** *** Sorting with a comparator that is an order *)

Section SortedByOrder.
Context {A : Type} (after : A -> A -> bool) (le : A -> A -> Prop).
Hypothesis le_trans : forall x y z, le x y -> le y z -> le x z.
Hypothesis after_le : forall x y, after y x = true -> le x y.
Hypothesis not_after_le : forall x y, after y x = false -> le y x.

Lemma sort_insert_ordered x l :
  StronglySorted le l -> StronglySorted le (sort_insert after x l).
Proof.
  intros Hs. induction Hs as [|y l Hs IH Hy]; cbn [sort_insert].
  - repeat constructor.
  - destruct (after y x) eqn:E.
    + constructor; [constructor; assumption|].
      constructor; [apply after_le, E|].
      eapply Forall_impl; [exact Hy|]. intros z Hz. cbn in Hz.
      eapply le_trans; [apply after_le, E | exact Hz].
    + constructor; [exact IH|].
      rewrite sort_insert_perm. constructor; [|exact Hy].
      apply not_after_le, E.
Qed.

Lemma js_sort_ordered l : StronglySorted le (js_sort after l).
Proof.
  unfold js_sort.
  assert (H : forall acc,
            StronglySorted le acc ->
            StronglySorted le
              (fold_left (fun acc x => sort_insert after x acc) l acc)).
  { induction l as [|x l IH]; intros acc Hs; cbn [fold_left]; [exact Hs|].
    apply IH, sort_insert_ordered, Hs. }
  apply H. constructor.
Qed.
End SortedByOrder.

Lemma StronglySorted_strict {A} (le lt : A -> A -> Prop) l :
  (forall x y, le x y -> x = y \/ lt x y) ->
  NoDup l -> StronglySorted le l -> StronglySorted lt l.
Proof.
  intros Hle Hn Hs. induction Hs as [|x l Hs IH Hx]; [constructor|].
  apply NoDup_cons in Hn as [Hnx Hn].
  constructor; [apply IH, Hn|].
  rewrite Forall_forall in *. intros y Hy.
  destruct (Hle x y (Hx y Hy)) as [-> | H]; [contradiction | exact H].
Qed.

(** *** The options of the filters *)

Lemma same_text v w :
  is_text v -> same_value_zero v w = true <-> v = w.
Proof.
  intros [s ->]. destruct w as [| |t|[|q]]; cbn; split; try discriminate.
  - intros H. apply String.eqb_eq in H. subst t. reflexivity.
  - intros [= ->]. apply String.eqb_refl.
Qed.

Lemma existsb_same_text v seen :
  is_text v -> existsb (same_value_zero v) seen = true <-> v ∈ seen.
Proof.
  intros Hv. rewrite existsb_exists. split.
  - intros (w & Hw & Hs). apply (same_text v w Hv) in Hs. subst w.
    apply list_elem_of_In. exact Hw.
  - intros H. exists v. split; [apply list_elem_of_In, H|].
    apply (same_text v v Hv). reflexivity.
Qed.

Lemma set_of_texts xs : forall seen,
  Forall is_text xs -> NoDup seen ->
  NoDup (set_of seen xs) /\
  (forall v, v ∈ set_of seen xs <-> v ∈ seen \/ v ∈ xs).
Proof.
  induction xs as [|x xs IH]; intros seen Hx Hn; cbn [set_of].
  - split; [exact Hn|]. intros v. split; [auto|].
    intros [H | H]; [exact H | inversion H].
  - inversion Hx as [|? ? Hx1 Hx2]; subst.
    destruct (existsb (same_value_zero x) seen) eqn:E.
    + apply (existsb_same_text x seen Hx1) in E.
      destruct (IH seen Hx2 Hn) as [H1 H2]. split; [exact H1|].
      intros v. rewrite H2, elem_of_cons. split; [tauto|].
      intros [H | [-> | H]]; auto.
    + assert (Hnot : x ∉ seen).
      { intros H. apply (existsb_same_text x seen Hx1) in H. congruence. }
      assert (Hn' : NoDup (seen ++ [x])).
      { apply NoDup_app. split; [exact Hn|]. split; [|apply NoDup_singleton].
        intros y Hy Hy'. apply list_elem_of_singleton in Hy'. subst y.
        contradiction. }
      destruct (IH (seen ++ [x]) Hx2 Hn') as [H1 H2]. split; [exact H1|].
      intros v. rewrite H2, elem_of_app, list_elem_of_singleton, elem_of_cons.
      tauto.
Qed.

Lemma filter_texts l :
  Forall is_text l ->
  List.filter (fun v => negb (bool_decide (v = VUndef))) l = l /\
  List.filter (fun v => bool_decide (v = VUndef)) l = [].
Proof.
  induction 1 as [|v l [s ->] _ [IH1 IH2]]; cbn [List.filter];
    [split; reflexivity|].
  rewrite bool_decide_eq_false_2 by discriminate. cbn [negb].
  rewrite IH1, IH2. split; reflexivity.
Qed.

(** The options that a list of texts gives. *)
Lemma options_of_texts xs :
  Forall is_text xs ->
  let options := default_sort (set_of [] xs) in
  StronglySorted (fun v w => String.ltb (key_text v) (key_text w) = true)
    options /\
  NoDup options /\ (forall v, v ∈ options <-> v ∈ xs).
Proof.
  intros Hx options. subst options.
  destruct (set_of_texts xs [] Hx (NoDup_nil_2)) as [Hn Hin].
  assert (Ht : Forall is_text (set_of [] xs)).
  { apply Forall_forall. intros v Hv. apply Hin in Hv as [Hv | Hv];
      [inversion Hv|]. rewrite Forall_forall in Hx. exact (Hx v Hv). }
  unfold default_sort. destruct (filter_texts _ Ht) as [-> ->].
  rewrite app_nil_r.
  set (after := fun y x : value => String.ltb (key_text x) (key_text y)).
  assert (Hperm : js_sort after (set_of [] xs) ≡ₚ set_of [] xs)
    by apply js_sort_perm.
  assert (Hn' : NoDup (js_sort after (set_of [] xs)))
    by (rewrite Hperm; exact Hn).
  assert (Ht' : Forall is_text (js_sort after (set_of [] xs)))
    by (rewrite Hperm; exact Ht).
  split; [|split; [exact Hn'|]].
  - pose proof (js_sort_ordered after
                  (fun v w => String.ltb (key_text w) (key_text v) = false)
                  (fun x y z => string_le_trans _ _ _)
                  (fun x y => string_ltb_asym _ _)
                  (fun x y H => H) (set_of [] xs)) as Hs.
    revert Hs Hn' Ht'. generalize (js_sort after (set_of [] xs)).
    intros l Hs. induction Hs as [|v l Hs IH Hv]; intros Hn' Ht';
      [constructor|].
    apply NoDup_cons in Hn' as [Hnv Hn'].
    inversion Ht' as [|? ? Htv Htl]; subst.
    constructor; [apply IH; assumption|].
    rewrite Forall_forall in *. intros w Hw.
    destruct (string_not_after _ _ (Hv w Hw)) as [E | E]; [|exact E].
    exfalso. destruct Htv as [s ->]. destruct (Htl w Hw) as [t ->].
    cbn in E. subst t. contradiction.
  - intros v. rewrite Hperm, Hin. split; [|auto].
    intros [H | H]; [inversion H | exact H].
Qed.

(** X15: the options of the ticker filter.  When the ticker of every trade
    is a text, populateFilterDropdowns (versions 2.3 and 2.4) and
    updateFilters (version 3.0) list each ticker of a trade exactly once,
    in ascending order of the texts, and nothing else. *)
Theorem X15_ticker_options :
  (forall j : journal,
     Forall (fun t => is_text (get t "ticker")) (trades j) ->
     let options := (V23.populateFilterDropdowns j).1 in
     StronglySorted (fun v w => String.ltb (key_text v) (key_text w) = true)
       options /\
     NoDup options /\
     (forall v, v ∈ options <-> exists t, t ∈ trades j /\ get t "ticker" = v)) /\
  (forall a : V30.app,
     Forall (fun t => is_text (get t "ticker")) (V30.allTrades a) ->
     let options := (V30.updateFilters a).1 in
     StronglySorted (fun v w => String.ltb (key_text v) (key_text w) = true)
       options /\
     NoDup options /\
     (forall v, v ∈ options <->
                exists t, t ∈ V30.allTrades a /\ get t "ticker" = v)).
Proof.
  assert (H : forall l : list obj,
            Forall (fun t => is_text (get t "ticker")) l ->
            let options :=
              default_sort (set_of [] (map (fun t => get t "ticker") l)) in
            StronglySorted
              (fun v w => String.ltb (key_text v) (key_text w) = true)
              options /\
            NoDup options /\
            (forall v, v ∈ options <-> exists t, t ∈ l /\ get t "ticker" = v)).
  { intros l Hl options. subst options.
    assert (Hx : Forall is_text (map (fun t => get t "ticker") l)).
    { apply Forall_forall. intros v Hv.
      apply (list_elem_of_fmap (fun t => get t "ticker")) in Hv
        as (t & -> & Ht).
      rewrite Forall_forall in Hl. exact (Hl t Ht). }
    destruct (options_of_texts _ Hx) as (H1 & H2 & H3).
    split; [exact H1|]. split; [exact H2|].
    intros v. rewrite H3. split.
    - intros Hv.
      apply (list_elem_of_fmap (fun t => get t "ticker")) in Hv
        as (t & -> & Ht).
      exists t. split; [exact Ht | reflexivity].
    - intros (t & Ht & <-).
      apply (list_elem_of_fmap_2 (fun t => get t "ticker")). exact Ht. }
  split.
  - intros j Hj. exact (H (trades j) Hj).
  - intros a Ha. exact (H (V30.allTrades a) Ha).
Qed.

(** X15, an instance: the application with the tickers MSFT and AAPL. *)
Lemma X15_ticker_options_witness :
  (V30.updateFilters two_trades_app).1 = [VStr "AAPL"; VStr "MSFT"] /\
  NoDup (V30.updateFilters two_trades_app).1.
Proof.
  split; [vm_compute; reflexivity|].
  apply (proj2 X15_ticker_options two_trades_app).
  assert (E : (fun t => get t "ticker") <$> V30.allTrades two_trades_app
              = [VStr "MSFT"; VStr "AAPL"]) by (vm_compute; reflexivity).
  apply Forall_forall. intros t Ht.
  apply (list_elem_of_fmap_2 (fun t => get t "ticker")) in Ht.
  rewrite E in Ht.
  apply elem_of_cons in Ht as [-> | Ht]; [eexists; reflexivity|].
  apply elem_of_cons in Ht as [-> | Ht]; [eexists; reflexivity|].
  inversion Ht.
Defined.

(** *** A line of the export of version 3.0 read back *)











(** *** The journal of the revision without portfolio *)

Lemma settled_set_id t k : settled t -> settled (set t "id" k).
Proof.
  intros [Ho Hn]. split; [|apply numeric_set_id, Hn].
  rewrite get_set_ne by discriminate. exact Ho.
Qed.

Lemma original_new_trade_settled f now : settled (Original.new_trade f now).
Proof.
  unfold Original.new_trade. split.
  - get_field. destruct (nge _ _); [left | right]; reflexivity.
  - eexists. get_field. reflexivity.
Qed.

Lemma normalizeOutcome_decided v :
  Original.normalizeOutcome v = VStr "Win" \/
  Original.normalizeOutcome v = VStr "Loss".
Proof.
  unfold Original.normalizeOutcome. destruct (negb (truthy v)); [right; reflexivity|].
  destruct (_ || _); [left | right]; reflexivity.
Qed.

Lemma original_preview_row_settled iso_day row :
  settled (Original.preview_row iso_day row).
Proof.
  unfold Original.preview_row. split.
  - get_field. apply normalizeOutcome_decided.
  - eexists. get_field. reflexivity.
Qed.

Lemma original_import_loop_ok add_ok preview : forall index d d' preview' ok,
  store_ok d -> Forall settled (rows d) -> Forall settled preview ->
  Original.import_loop add_ok index d preview = (d', preview', ok) ->
  store_ok d' /\ Forall settled (rows d') /\ Forall settled preview' /\
  rows d ⊆+ rows d' /\
  (ok = true -> preview' ⊆+ rows d' /\ preview' ++ rows d ⊆+ rows d').
Proof.
  induction preview as [|trade rest IH]; intros index d d' preview' ok
    Hs Hr Hp; cbn [Original.import_loop].
  - intros [= <- <- <-]. split; [exact Hs|]. split; [exact Hr|].
    split; [constructor|]. split; [reflexivity|]. intros _.
    split; [apply submseteq_nil_l | reflexivity].
  - inversion Hp as [|? ? Ht Hrest]; subst.
    destruct (if add_ok index then db_add d trade else None) as [[id d1]|]
      eqn:Eadd.
    + destruct (add_ok index); [|discriminate].
      destruct (db_add_ok _ _ _ _ Hs Eadd) as (Hrows & Hs1 & _ & _).
      assert (Hr1 : Forall settled (rows d1)).
      { rewrite Hrows. apply Forall_app. split; [exact Hr|].
        constructor; [apply settled_set_id, Ht | constructor]. }
      destruct (Original.import_loop add_ok (S index) d1 rest)
        as [[d2 rest'] ok'] eqn:El.
      destruct (IH _ _ _ _ _ Hs1 Hr1 Hrest El) as (H1 & H2 & H3 & H4 & H5).
      intros [= <- <- <-].
      split; [exact H1|]. split; [exact H2|].
      split; [constructor; [apply settled_set_id, Ht | exact H3]|].
      split.
      * etransitivity; [|exact H4]. rewrite Hrows. apply submseteq_inserts_r.
        reflexivity.
      * intros Hok. destruct (H5 Hok) as [_ H6].
        rewrite Hrows in H6.
        assert (Hall : set trade "id" id :: rest' ++ rows d ⊆+ rows d2).
        { etransitivity; [|exact H6].
          rewrite (Permutation_app_comm rest' (rows d ++ _)).
          rewrite <- app_assoc. cbn [app].
          rewrite (Permutation_app_comm rest' (rows d)).
          rewrite Permutation_middle. reflexivity. }
        split; [|exact Hall].
        etransitivity; [|exact Hall].
        change (set trade "id" id :: rest' ++ rows d)
          with ((set trade "id" id :: rest') ++ rows d).
        apply submseteq_inserts_r. reflexivity.
    + intros [= <- <- <-]. split; [exact Hs|]. split; [exact Hr|].
      split; [exact Hp|]. split; [reflexivity | discriminate].
Qed.

Section OriginalSteps.
Variables (date_ms : value -> num) (iso_day : value -> value).

Lemma original_step_ok e j :
  original_ok j -> original_ok (Original.step date_ms iso_day e j).
Proof.
  intros Hj. pose proof Hj as (Hs & Ht & Hr & Hf & Hp).
  destruct e; cbn [Original.step].
  - unfold Original.loadAllData. destruct get_ok;
      [|exact Hj].
    split; [exact Hs|]. cbn [db trades filteredTrades previewData].
    split; [apply Permutation_submseteq, js_sort_perm|].
    split; [exact Hr|]. split; [rewrite js_sort_perm; exact Hr | exact Hp].
  - unfold Original.handleAddTrade.
    destruct (if add_ok then db_add (db j) _ else None) as [[id d]|]
      eqn:Eadd; [|exact Hj].
    destruct add_ok; [|discriminate].
    destruct (db_add_ok _ _ _ _ Hs Eadd) as (Hrows & Hs' & _ & _).
    pose proof (settled_set_id _ id (original_new_trade_settled f now))
      as Hnew.
    split; [exact Hs'|]. cbn [db trades filteredTrades previewData].
    split; [rewrite Hrows; apply submseteq_cons_snoc, Ht|].
    split; [rewrite Hrows; apply Forall_app; split;
              [exact Hr | constructor; [exact Hnew | constructor]]|].
    split; [|exact Hp]. constructor; [exact Hnew|].
    rewrite Forall_forall in *. intros t Hin. apply Hr.
    eapply elem_of_submseteq; eassumption.
  - unfold Original.deleteTrade. destruct (negb confirmed);
      [exact Hj|].
    destruct (if del_ok then db_delete (db j) id else None) as [d|]
      eqn:Edel; [|exact Hj].
    destruct del_ok; [|discriminate].
    destruct (db_delete_ok _ _ _ Hs Edel) as (Hrows & Hs').
    split; [exact Hs'|]. cbn [db trades filteredTrades previewData].
    split; [rewrite Hrows;
            apply (filter_submseteq (fun t => negb (has_key id t))), Ht|].
    split; [rewrite Hrows; apply Forall_list_filter, Hr|].
    split; [apply Forall_list_filter, Hf | exact Hp].
  - unfold Original.clearAllTrades.
    destruct (negb (strict_eq confirmation _)); [exact Hj|].
    destruct (negb clear_ok); [exact Hj|].
    split; [apply db_clear_ok|]. cbn [db trades filteredTrades previewData].
    split; [reflexivity|]. split; [constructor|].
    split; [constructor | exact Hp].
  - split; [exact Hs|]. cbn [db trades filteredTrades previewData
                               Original.applyDashboardFilters].
    split; [exact Ht|]. split; [exact Hr|]. split; [|exact Hp].
    apply Forall_list_filter. rewrite Forall_forall in *. intros t Hin.
    apply Hr. eapply elem_of_submseteq; eassumption.
  - split; [exact Hs|]. cbn [db trades filteredTrades previewData
                               Original.filterTradeHistory].
    split; [exact Ht|]. split; [exact Hr|]. split; [|exact Hp].
    apply Forall_list_filter. rewrite Forall_forall in *. intros t Hin.
    apply Hr. eapply elem_of_submseteq; eassumption.
  - unfold Original.handleFileUpload. destruct data as [data|];
      [|exact Hj].
    split; [exact Hs|]. cbn [db trades filteredTrades previewData].
    split; [exact Ht|]. split; [exact Hr|]. split; [exact Hf|].
    intros l [= <-]. apply Forall_forall. intros t Hin.
    apply list_elem_of_In, in_map_iff in Hin as (row & <- & _).
    apply original_preview_row_settled.
  - unfold Original.commitImport.
    destruct (previewData j) as [[|trade preview]|] eqn:Ep;
      try exact Hj.
    destruct mode as [mode|]; [|exact Hj].
    set (replace := String.eqb mode "replace").
    destruct (replace && negb confirmed); [exact Hj|].
    destruct (replace && negb clear_ok); [exact Hj|].
    set (d0 := if replace then db_clear (db j) else db j).
    set (ts0 := if replace then [] else trades j).
    assert (Hs0 : store_ok d0)
      by (subst d0; destruct replace; [apply db_clear_ok | exact Hs]).
    assert (Hr0 : Forall settled (rows d0))
      by (subst d0; destruct replace; [constructor | exact Hr]).
    assert (Ht0 : ts0 ⊆+ rows d0)
      by (subst d0 ts0; destruct replace; [reflexivity | exact Ht]).
    destruct (Original.import_loop add_ok 0 d0 (trade :: preview))
      as [[d preview'] ok] eqn:El.
    destruct (original_import_loop_ok _ _ _ _ _ _ _ Hs0 Hr0 (Hp _ eq_refl) El)
      as (H1 & H2 & H3 & H4 & H5).
    destruct ok.
    + destruct (H5 eq_refl) as [H6 H7].
      assert (Hin : (if replace then preview' else preview' ++ ts0)
                    ⊆+ rows d).
      { destruct replace; [exact H6|]. etransitivity; [|exact H7].
        apply submseteq_app; [reflexivity | exact Ht0]. }
      split; [exact H1|]. cbn [db trades filteredTrades previewData].
      split; [rewrite js_sort_perm; exact Hin|]. split; [exact H2|].
      split; [|discriminate].
      rewrite js_sort_perm. rewrite Forall_forall in *. intros t Hin'.
      apply H2. eapply elem_of_submseteq; eassumption.
    + split; [exact H1|]. cbn [db trades filteredTrades previewData].
      split; [etransitivity; eassumption|]. split; [exact H2|].
      split; [exact Hf|]. intros l [= <-]. exact H3.
  - split; [exact Hs|]. cbn [db trades filteredTrades previewData
                               Original.cancelImport].
    split; [exact Ht|]. split; [exact Hr|]. split; [exact Hf|]. discriminate.
Qed.

Lemma original_reachable_ok j :
  Original.reachable date_ms iso_day j -> original_ok j.
Proof.
  induction 1 as [|e j _ IH].
  - split; [apply empty_store_ok|]. split; [reflexivity|].
    split; [constructor|]. split; [constructor | discriminate].
  - exact (original_step_ok e j IH).
Qed.
End OriginalSteps.

Lemma settled_outcomes l :
  Forall settled l ->
  (length (List.filter (Original.has_outcome "Win") l)
   + length (List.filter (Original.has_outcome "Loss") l) = length l)%nat.
Proof.
  induction 1 as [|t l [Ho _] _ IH]; [reflexivity|].
  assert (H : Original.has_outcome "Win" t = true /\
              Original.has_outcome "Loss" t = false \/
              Original.has_outcome "Win" t = false /\
              Original.has_outcome "Loss" t = true).
  { unfold Original.has_outcome.
    destruct Ho as [-> | ->]; [left | right]; split; reflexivity. }
  cbn [List.filter].
  destruct H as [[-> ->] | [-> ->]]; cbn [length]; lia.
Qed.

(** X17: in every journal that a run of the revision without portfolio
    reaches, every trade in the database, in memory and on display has the
    outcome Win or Loss and a number in net_pl, the trades in memory are
    records of the database, and the keys of the database are distinct.
    So the total of the metrics counts every displayed trade, the win rate
    is a percentage from 0 to 100, and the current streak is at least 1
    when a trade is displayed. *)
Theorem X17_original_trades_are_settled (date_ms : value -> num)
    (iso_day : value -> value) (j : journal) :
  Original.reachable date_ms iso_day j ->
  let m := Original.calculateMetrics j in
  Forall settled (rows (db j)) /\ Forall settled (trades j) /\
  Forall settled (filteredTrades j) /\
  trades j ⊆+ rows (db j) /\ distinct_keys (rows (db j)) /\
  Original.totalTrades m = length (filteredTrades j) /\
  (exists r, Original.winRate m = XFin r /\ (0 <= r)%Q /\ (r <= 100)%Q) /\
  (filteredTrades j <> [] -> (1 <= Original.currentStreak m)%nat).
Proof.
  intros Hreach m.
  destruct (original_reachable_ok date_ms iso_day j Hreach)
    as (Hs & Ht & Hr & Hf & _).
  split; [exact Hr|]. split.
  { rewrite Forall_forall in *. intros t Hin. apply Hr.
    eapply elem_of_submseteq; eassumption. }
  split; [exact Hf|]. split; [exact Ht|]. split; [exact (proj1 Hs)|].
  subst m. unfold Original.calculateMetrics.
  cbn [Original.totalTrades Original.winRate Original.currentStreak].
  pose proof (settled_outcomes _ Hf) as Hcount.
  split; [exact Hcount|]. split.
  - rewrite Hcount.
    destruct (length (filteredTrades j)) as [|n] eqn:En.
    + exists 0%Q. split; [reflexivity|]. split; [apply Qle_refl | discriminate].
    + cbn [Nat.ltb Nat.leb].
      destruct (ndiv_counts
                  (length (List.filter (Original.has_outcome "Win")
                             (filteredTrades j))) (S n))
        as (q & Hq & Hq0 & Hq1); [lia | lia|].
      rewrite Hq. cbn [xmul]. exists (q * 100)%Q. split; [reflexivity|].
      split.
      * apply Qmult_le_0_compat; [exact Hq0 | discriminate].
      * apply (Qle_trans _ (1 * 100)%Q); [|discriminate].
        apply Qmult_le_compat_r; [exact Hq1 | discriminate].
  - destruct (filteredTrades j) as [|first rest]; [congruence|]. intros _.
    cbn [Original.streak_of].
    inversion Hf as [|? ? [Ho _] _]; subst.
    destruct Ho as [-> | ->]; cbn; lia.
Qed.

Lemma original_journal_reachable :
  Original.reachable iso_date_ms (fun v => v) original_journal.
Proof.
  unfold original_journal.
  apply (Original.reachable_step iso_date_ms (fun v => v)
           (Original.HandleFileUpload (Some original_rows))).
  apply (Original.reachable_step iso_date_ms (fun v => v)
           (Original.HandleAddTrade original_form
              "2024-03-01T10:00:00.000Z" true)).
  apply Original.reachable_new.
Defined.

(** X17, an instance: the journal with one trade and a parsed file. *)
Lemma X17_original_witness :
  Original.totalTrades (Original.calculateMetrics original_journal)
  = length (filteredTrades original_journal).
Proof.
  exact (proj1 (proj2 (proj2 (proj2 (proj2 (proj2
           (X17_original_trades_are_settled iso_date_ms (fun v => v)
              original_journal original_journal_reachable))))))).
Defined.

(** *** A rejected request during an import *)

(** X18: the displayed trades of the revision without portfolio.  Every
    handler but an import in replace mode keeps the displayed trades among
    the trades in memory.  An import in replace mode whose first request
    is rejected has already cleared the database and emptied the trades in
    memory, and leaves the displayed trades and the preview as they were:
    the dashboard then shows trades that exist nowhere else. *)
Theorem X18_original_display (date_ms : value -> num)
    (iso_day : value -> value) :
  (forall e j,
     replaces e = false ->
     filteredTrades j ⊆+ trades j ->
     filteredTrades (Original.step date_ms iso_day e j)
     ⊆+ trades (Original.step date_ms iso_day e j)) /\
  (forall j trade preview add_ok,
     previewData j = Some (trade :: preview) -> add_ok O = false ->
     let j' := Original.commitImport date_ms (Some "replace") true true
                 add_ok j in
     rows (db j') = [] /\ trades j' = [] /\
     filteredTrades j' = filteredTrades j /\
     previewData j' = previewData j /\
     (filteredTrades j <> [] -> ~ filteredTrades j' ⊆+ trades j')).
Proof.
  split.
  - intros e j He H. destruct e; cbn [Original.step].
    + unfold Original.loadAllData. destruct get_ok; [reflexivity | exact H].
    + unfold Original.handleAddTrade.
      destruct (if add_ok then db_add (db j) _ else None) as [[id d]|];
        [reflexivity | exact H].
    + unfold Original.deleteTrade. destruct (negb confirmed); [exact H|].
      destruct (if del_ok then db_delete (db j) id else None) as [d|];
        [|exact H].
      apply filter_submseteq. exact H.
    + unfold Original.clearAllTrades.
      destruct (negb (strict_eq confirmation _)); [exact H|].
      destruct (negb clear_ok); [exact H | reflexivity].
    + apply filter_sub.
    + apply filter_sub.
    + unfold Original.handleFileUpload. destruct data; exact H.
    + unfold Original.commitImport.
      destruct (previewData j) as [[|trade preview]|]; try exact H.
      destruct mode as [mode|]; [|exact H].
      cbn [replaces] in He. rewrite He. cbn [andb].
      destruct (Original.import_loop add_ok 0 (db j) (trade :: preview))
        as [[d preview'] ok].
      destruct ok; [reflexivity | exact H].
    + exact H.
  - intros j trade preview add_ok Hp H0 j'. subst j'.
    unfold Original.commitImport. rewrite Hp.
    change (String.eqb "replace" "replace") with true. cbn [andb negb].
    cbn [Original.import_loop]. rewrite H0.
    cbn [db trades filteredTrades previewData db_clear rows].
    split; [reflexivity|]. split; [reflexivity|]. split; [reflexivity|].
    split; [reflexivity|].
    intros Hne Hsub. apply submseteq_nil_r in Hsub. contradiction.
Qed.

Lemma original_preview :
  exists trade preview, previewData original_journal = Some (trade :: preview).
Proof.
  destruct (previewData original_journal) as [[|trade preview]|] eqn:E.
  - exfalso. apply (f_equal (option_map (@length obj))) in E.
    vm_compute in E. discriminate.
  - eauto.
  - exfalso. apply (f_equal (option_map (@length obj))) in E.
    vm_compute in E. discriminate.
Qed.

(** X18, an instance: one trade is on display and the first request of an
    import in replace mode is rejected. *)
Lemma X18_original_display_witness :
  let j' := Original.commitImport iso_date_ms (Some "replace") true true
              (fun _ => false) original_journal in
  rows (db j') = [] /\ trades j' = [] /\ length (filteredTrades j') = 1%nat.
Proof.
  intros j'. destruct original_preview as (trade & preview & Hp).
  destruct (proj2 (X18_original_display iso_date_ms (fun v => v))
              original_journal trade preview (fun _ => false) Hp eq_refl)
    as (H1 & H2 & H3 & _).
  split; [exact H1|]. split; [exact H2|].
  fold j' in H3. rewrite H3. reflexivity.
Defined.

Lemma original_import_loop_rows add_ok preview : forall index d d' preview' ok,
  store_ok d ->
  Original.import_loop add_ok index d preview = (d', preview', ok) ->
  store_ok d' /\ rows d ⊆+ rows d'.
Proof.
  induction preview as [|trade rest IH]; intros index d d' preview' ok Hs;
    cbn [Original.import_loop].
  - intros [= <- <- <-]. split; [exact Hs | reflexivity].
  - destruct (if add_ok index then db_add d trade else None) as [[id d1]|]
      eqn:Eadd.
    + destruct (add_ok index); [|discriminate].
      destruct (db_add_ok _ _ _ _ Hs Eadd) as (Hrows & Hs1 & _ & _).
      destruct (Original.import_loop add_ok (S index) d1 rest)
        as [[d2 rest'] ok'] eqn:El.
      destruct (IH _ _ _ _ _ Hs1 El) as [H1 H2].
      intros [= <- <- <-]. split; [exact H1|].
      etransitivity; [|exact H2]. rewrite Hrows.
      apply submseteq_inserts_r. reflexivity.
    + intros [= <- <- <-]. split; [exact Hs | reflexivity].
Qed.

Lemma original_import_loop_fails add_ok preview : forall index d d' preview' ok i,
  (i < length preview)%nat -> add_ok (index + i)%nat = false ->
  Original.import_loop add_ok index d preview = (d', preview', ok) ->
  ok = false.
Proof.
  induction preview as [|trade rest IH]; intros index d d' preview' ok i Hi Hf;
    cbn [Original.import_loop]; [cbn in Hi; lia|].
  destruct (if add_ok index then db_add d trade else None) as [[id d1]|]
    eqn:Eadd.
  - destruct (Original.import_loop add_ok (S index) d1 rest)
      as [[d2 rest'] ok'] eqn:El.
    intros [= <- <- <-].
    destruct i as [|i].
    + rewrite Nat.add_0_r in Hf. rewrite Hf in Eadd. discriminate.
    + apply (IH (S index) d1 d2 rest' ok' i); [cbn in Hi; lia| |exact El].
      rewrite <- Hf. f_equal. lia.
  - intros [= <- <- <-]. reflexivity.
Qed.

Lemma original_import_loop_known_key add_ok index d trade rest :
  get trade "id" <> VUndef ->
  existsb (has_key (get trade "id")) (rows d) = true ->
  Original.import_loop add_ok index d (trade :: rest)
  = (d, trade :: rest, false).
Proof.
  intros Hid Hex. cbn [Original.import_loop].
  assert (Hadd : db_add d trade = None).
  { unfold db_add. destruct (get trade "id") as [| |s|n]; [congruence|..];
      rewrite Hex, andb_false_r; reflexivity. }
  rewrite Hadd. destruct (add_ok index); reflexivity.
Qed.

(** X19: an import of the revision without portfolio that a rejected
    request has interrupted cannot be repeated.  When the first trade of
    the preview is stored and a later request is rejected, the trades in
    memory and on display stay as they were, the stored trade stays in the
    database, and the preview keeps the trades, the first now with its
    key; every further import that is not in replace mode stops at that
    trade, whose key is taken, and changes nothing. *)
Theorem X19_original_import_cannot_be_repeated (date_ms : value -> num)
    (j : journal) (trade : obj) (rest : list obj) (add_ok : nat -> bool)
    (i : nat) :
  store_ok (db j) ->
  previewData j = Some (trade :: rest) -> get trade "id" = VUndef ->
  add_ok O = true -> (i < length rest)%nat -> add_ok (S i) = false ->
  let j1 := Original.commitImport date_ms (Some "append") true true add_ok j in
  let stored := set trade "id" (VNum (nZ (keygen (db j)))) in
  trades j1 = trades j /\ filteredTrades j1 = filteredTrades j /\
  stored ∈ rows (db j1) /\
  (exists rest', previewData j1 = Some (stored :: rest')) /\
  (forall mode confirmed clear_ok add_ok',
     mode <> "replace" ->
     Original.commitImport date_ms (Some mode) confirmed clear_ok add_ok' j1
     = j1).
Proof.
  intros Hs Hp Hid H0 Hi Hf j1 stored.
  set (d1 := {| rows := rows (db j) ++ [stored];
                keygen := keygen (db j) + 1 |}).
  assert (Hadd : db_add (db j) trade = Some (VNum (nZ (keygen (db j))), d1)).
  { unfold db_add. rewrite Hid. reflexivity. }
  destruct (db_add_ok _ _ _ _ Hs Hadd) as (_ & Hs1 & _ & _).
  destruct (Original.import_loop add_ok 1 d1 rest) as [[d2 rest'] ok] eqn:El.
  assert (Hok : ok = false).
  { eapply (original_import_loop_fails add_ok rest 1) with (i := i);
      [exact Hi | exact Hf | exact El]. }
  subst ok.
  destruct (original_import_loop_rows _ _ _ _ _ _ _ Hs1 El) as [Hs2 Hsub].
  assert (Hin : stored ∈ rows d2).
  { eapply elem_of_submseteq; [|exact Hsub].
    apply elem_of_app. right. left. }
  assert (Hj1 : j1 = {| db := d2; trades := trades j;
                        filteredTrades := filteredTrades j;
                        previewData := Some (stored :: rest');
                        startingCapital := startingCapital j;
                        currentBalance := currentBalance j;
                        portfolioHistory := portfolioHistory j |}).
  { subst j1. unfold Original.commitImport. rewrite Hp.
    change (String.eqb "append" "replace") with false. cbn [andb].
    cbn [Original.import_loop]. rewrite H0, Hadd, El. reflexivity. }
  rewrite Hj1. cbn [db trades filteredTrades previewData].
  split; [reflexivity|]. split; [reflexivity|]. split; [exact Hin|].
  split; [exists rest'; reflexivity|].
  intros mode confirmed clear_ok add_ok' Hmode.
  unfold Original.commitImport. cbn [previewData].
  assert (Hm : String.eqb mode "replace" = false)
    by (apply String.eqb_neq; exact Hmode).
  rewrite Hm. cbn [andb db].
  rewrite original_import_loop_known_key; [reflexivity| |].
  - subst stored. rewrite get_set_eq. discriminate.
  - subst stored. rewrite get_set_eq. apply existsb_exists.
    exists (set trade "id" (VNum (nZ (keygen (db j))))).
    split; [apply list_elem_of_In; exact Hin|].
    unfold has_key. rewrite get_set_eq. apply strict_eq_key_refl.
Qed.

(** X19, an instance: the second request of the import of the parsed file
    is rejected. *)
Lemma X19_original_import_witness :
  let first_only (index : nat) := match index with O => true | _ => false end in
  let j1 := Original.commitImport iso_date_ms (Some "append") true true
              first_only original_journal in
  trades j1 = trades original_journal /\
  Original.commitImport iso_date_ms (Some "append") true true (fun _ => true)
    j1 = j1.
Proof.
  intros first_only j1.
  destruct (previewData original_journal) as [[|trade [|second rest]]|] eqn:Hp;
    try (exfalso; apply (f_equal (option_map (@length obj))) in Hp;
         vm_compute in Hp; discriminate).
  assert (Hid : get trade "id" = VUndef).
  { assert (E : (fun l : list obj => (fun t => get t "id") <$> head l)
                  <$> previewData original_journal = Some (Some VUndef))
      by (vm_compute; reflexivity).
    rewrite Hp in E. cbn in E. injection E as E. exact E. }
  assert (Hs : store_ok (db original_journal)).
  { exact (proj1 (original_reachable_ok iso_date_ms (fun v => v) _
                    original_journal_reachable)). }
  destruct (X19_original_import_cannot_be_repeated iso_date_ms
              original_journal trade (second :: rest) first_only 0
              Hs Hp Hid eq_refl ltac:(cbn; lia) eq_refl)
    as (H1 & _ & _ & _ & H5).
  split; [exact H1|]. apply H5. discriminate.
Defined.

(** *** The current streak *)

Lemma streak_of_spec o ts :
  (Original.streak_of o ts <= length ts)%nat /\
  Forall (fun t => strict_eq (get t "outcome") o = true)
    (take (Original.streak_of o ts) ts) /\
  (forall t, ts !! Original.streak_of o ts = Some t ->
             strict_eq (get t "outcome") o = false).
Proof.
  induction ts as [|t ts (IH1 & IH2 & IH3)]; cbn [Original.streak_of].
  - split; [reflexivity|]. split; [constructor | discriminate].
  - destruct (strict_eq (get t "outcome") o) eqn:E.
    + cbn [length take]. split; [lia|]. split; [constructor; assumption|].
      exact IH3.
    + cbn [length take]. split; [lia|]. split; [constructor|].
      intros t' [= <-]. exact E.
Qed.

(** X20: the current streak of the revision without portfolio is the
    number of displayed trades, from the first one on, that have the
    outcome of the first: these trades all have that outcome, and the
    trade after them, if there is one, has another.  The total of the
    metrics counts the trades whose outcome is Win or Loss, so it is at
    most the number of displayed trades; and the letter of the streak is W
    only when the first displayed trade is a win. *)
Theorem X20_original_streak (j : journal) :
  let m := Original.calculateMetrics j in
  let ts := filteredTrades j in
  (Original.currentStreak m <= length ts)%nat /\
  (Original.totalTrades m <= length ts)%nat /\
  match ts with
  | [] => Original.currentStreak m = O /\ Original.streakType m = ""
  | first :: _ =>
      Forall (fun t => strict_eq (get t "outcome") (get first "outcome") = true)
        (take (Original.currentStreak m) ts) /\
      (forall t, ts !! Original.currentStreak m = Some t ->
                 strict_eq (get t "outcome") (get first "outcome") = false) /\
      (Original.streakType m = "W" <-> get first "outcome" = VStr "Win")
  end.
Proof.
  intros m ts. subst m ts. unfold Original.calculateMetrics.
  cbn [Original.currentStreak Original.totalTrades Original.streakType].
  assert (Hcount : forall l,
            (length (List.filter (Original.has_outcome "Win") l)
             + length (List.filter (Original.has_outcome "Loss") l)
             <= length l)%nat).
  { induction l as [|t l IH]; [reflexivity|]. cbn [List.filter].
    destruct (Original.has_outcome "Win" t) eqn:Ew.
    - assert (El : Original.has_outcome "Loss" t = false).
      { unfold Original.has_outcome in *.
        destruct (get t "outcome") as [| |o|[|q]]; try discriminate.
        cbn in Ew. apply String.eqb_eq in Ew. subst o. reflexivity. }
      rewrite El. cbn [length]. lia.
    - destruct (Original.has_outcome "Loss" t); cbn [length]; lia. }
  destruct (filteredTrades j) as [|first rest] eqn:E.
  - split; [reflexivity|]. split; [reflexivity|]. split; reflexivity.
  - destruct (streak_of_spec (get first "outcome") (first :: rest))
      as (H1 & H2 & H3).
    split; [exact H1|]. split; [apply Hcount|].
    split; [exact H2|]. split; [exact H3|].
    destruct (get first "outcome") as [| |o|[|q]]; cbn [strict_eq];
      try (split; discriminate).
    destruct (String.eqb_spec o "Win") as [-> | Hne].
    + split; reflexivity.
    + split; [discriminate|]. intros [= ->]. contradiction.
Qed.

(** X20, an instance: the journal whose one displayed trade is a win. *)
Lemma X20_original_streak_witness :
  Original.streakType (Original.calculateMetrics original_journal) = "W".
Proof.
  pose proof (X20_original_streak original_journal) as H. cbv zeta in H.
  destruct H as (_ & _ & H).
  assert (Hfirst : (fun t => get t "outcome")
                   <$> head (filteredTrades original_journal)
                   = Some (VStr "Win")) by (vm_compute; reflexivity).
  destruct (filteredTrades original_journal) as [|first rest];
    [discriminate|].
  injection Hfirst as Hfirst. destruct H as (_ & _ & H).
  exact (proj2 H Hfirst).
Defined.

(** *** The date range of the filters *)

Lemma truthy_text s : s <> "" -> truthy (VStr s) = true.
Proof. destruct s; [congruence | reflexivity]. Qed.

Lemma vlt_undef_l s : vlt VUndef (VStr s) = false.
Proof. unfold vlt, nlt, ngt. destruct (to_num (VStr s)); reflexivity. Qed.

Lemma vlt_undef_r s : vlt (VStr s) VUndef = false.
Proof. unfold vlt, nlt, ngt. destruct (to_num (VStr s)); reflexivity. Qed.

Lemma inverted_range_of_texts from to d :
  String.ltb to from = true ->
  String.ltb d from = false -> String.ltb to d = false -> False.
Proof.
  intros Hft H1 H2.
  destruct (string_not_after from d H1) as [-> | L1].
  - rewrite Hft in H2. discriminate.
  - rewrite (string_ltb_trans to from d Hft L1) in H2. discriminate.
Qed.

Lemma inverted_range_of_numbers (f g d : Q) :
  (g < f)%Q -> nlt (Fin d) (Fin f) = false -> ngt (Fin d) (Fin g) = false ->
  False.
Proof.
  unfold nlt, ngt, Qltb. intros Hgf H1 H2.
  destruct (Qlt_le_dec d f) as [L|L].
  - destruct (Qlt_le_dec g d) as [L'|L'].
    + apply negb_false_iff, Qle_bool_iff in H2. 
      exact (Qlt_not_le _ _ L' H2).
    + apply negb_false_iff, Qle_bool_iff in H1.
      exact (Qlt_not_le _ _ L H1).
  - destruct (Qlt_le_dec g d) as [L'|L'].
    + apply negb_false_iff, Qle_bool_iff in H2.
      exact (Qlt_not_le _ _ L' H2).
    + apply (Qlt_not_le _ _ Hgf). eapply Qle_trans; eassumption.
Qed.

(** X21: the date range of the filters.  A trade without a date passes
    every date range, in version 3.0 and in the revision without
    portfolio, and so does a trade whose date is not a valid date in
    version 2.3: a comparison with such a date is false.  When the range
    is inverted, its last day before its first, the trades that stay on
    display are only such trades: none whose date is a text, and in
    version 2.3 none whose date is valid. *)
Theorem X21_date_range_of_the_filters (date_ms : value -> num) :
  (forall from to a t,
     t ∈ V30.allTrades a -> get t "date" = VUndef ->
     t ∈ V30.getFilteredTrades "" "" from to a) /\
  (forall tickerFilter strategyFilter from to a,
     to <> "" -> String.ltb to from = true ->
     Forall (fun t => ~ is_text (get t "date"))
       (V30.getFilteredTrades tickerFilter strategyFilter from to a)) /\
  (forall from to j t,
     t ∈ trades j -> get t "date" = VUndef ->
     t ∈ filteredTrades (Original.applyDashboardFilters "" "" from to j)) /\
  (forall ticker strategy from to j,
     to <> "" -> String.ltb to from = true ->
     Forall (fun t => ~ is_text (get t "date"))
       (filteredTrades
          (Original.applyDashboardFilters ticker strategy from to j))) /\
  (forall from to j t,
     t ∈ trades j -> date_ms (get t "date") = NaN ->
     t ∈ filteredTrades (V23.applyFilters date_ms VUndef VUndef from to j)) /\
  (forall tickerFilter strategyFilter from to j f g,
     truthy from = true -> truthy to = true ->
     date_ms from = Fin f -> date_ms to = Fin g -> (g < f)%Q ->
     Forall (fun t => date_ms (get t "date") = NaN)
       (filteredTrades
          (V23.applyFilters date_ms tickerFilter strategyFilter from to j))).
Proof.
  repeat apply conj.
  - intros from to a t Ht Hd. unfold V30.getFilteredTrades.
    apply list_elem_of_In, filter_In. split; [apply list_elem_of_In, Ht|].
    rewrite Hd, vlt_undef_l, vlt_undef_r, !andb_false_r. reflexivity.
  - intros tk st from to a Hto Hft. unfold V30.getFilteredTrades.
    apply Forall_forall. intros t Ht.
    apply list_elem_of_In, filter_In in Ht. destruct Ht as [_ Hp].
    intros [d Hd]. rewrite Hd in Hp.
    assert (Hfrom : from <> "").
    { intros ->. destruct to; discriminate. }
    rewrite (truthy_text from Hfrom), (truthy_text to Hto) in Hp.
    cbn [vlt andb] in Hp.
    destruct (String.ltb d from) eqn:E1.
    { repeat match type of Hp with
             | context [if ?c then _ else _] => destruct c
             end; discriminate. }
    destruct (String.ltb to d) eqn:E2.
    { repeat match type of Hp with
             | context [if ?c then _ else _] => destruct c
             end; discriminate. }
    exact (inverted_range_of_texts from to d Hft E1 E2).
  - intros from to j t Ht Hd. cbn [Original.applyDashboardFilters filteredTrades].
    apply list_elem_of_In, filter_In. split; [apply list_elem_of_In, Ht|].
    unfold Original.matches.
    rewrite Hd, vlt_undef_l, vlt_undef_r, !andb_false_r. reflexivity.
  - intros tk st from to j Hto Hft.
    cbn [Original.applyDashboardFilters filteredTrades].
    apply Forall_forall. intros t Ht.
    apply list_elem_of_In, filter_In in Ht. destruct Ht as [_ Hp].
    intros [d Hd]. unfold Original.matches in Hp. rewrite Hd in Hp.
    assert (Hfrom : from <> "").
    { intros ->. destruct to; discriminate. }
    rewrite (truthy_text from Hfrom), (truthy_text to Hto) in Hp.
    cbn [vlt andb] in Hp.
    apply andb_prop in Hp. destruct Hp as [Hp H2].
    apply andb_prop in Hp. destruct Hp as [_ H1].
    apply negb_true_iff in H1, H2.
    exact (inverted_range_of_texts from to d Hft H1 H2).
  - intros from to j t Ht Hd. cbn [V23.applyFilters filteredTrades].
    apply list_elem_of_In, filter_In. split; [apply list_elem_of_In, Ht|].
    unfold V23.passes, nlt, ngt. rewrite Hd. cbn [truthy andb].
    destruct (date_ms from), (date_ms to); rewrite ?andb_false_r;
      reflexivity.
  - intros tk st from to j f g Hfrom Hto Hf Hg Hgf.
    cbn [V23.applyFilters filteredTrades].
    apply Forall_forall. intros t Ht.
    apply list_elem_of_In, filter_In in Ht. destruct Ht as [_ Hp].
    unfold V23.passes in Hp. rewrite Hfrom, Hto, Hf, Hg in Hp.
    cbn [andb] in Hp.
    destruct (date_ms (get t "date")) as [|d] eqn:Ed; [reflexivity|].
    exfalso.
    destruct (nlt (Fin d) (Fin f)) eqn:E1.
    { repeat match type of Hp with
             | context [if ?c then _ else _] => destruct c
             end; discriminate. }
    destruct (ngt (Fin d) (Fin g)) eqn:E2.
    { repeat match type of Hp with
             | context [if ?c then _ else _] => destruct c
             end; discriminate. }
    exact (inverted_range_of_numbers f g d Hgf E1 E2).
Qed.

(** X21, an instance: the application with the two trades of March 2024
    and the range from the 5th to the 1st of March. *)
Lemma X21_date_range_witness :
  Forall (fun t => ~ is_text (get t "date"))
    (V30.getFilteredTrades "" "" "2024-03-05" "2024-03-01" two_trades_app).
Proof.
  apply (proj1 (proj2 (X21_date_range_of_the_filters iso_date_ms))).
  - discriminate.
  - reflexivity.
Defined.

(** *** The portfolio history of the revision with portfolio history *)

Lemma older_first_spec date_ms (x y : history_entry) :
  valid_day date_ms (h_date x) -> valid_day date_ms (h_date y) ->
  (Enhanced.older_first date_ms y x = true
   <-> (entry_day date_ms x < entry_day date_ms y)%Q).
Proof.
  intros [p Hp] [q Hq]. unfold Enhanced.older_first, entry_day.
  rewrite Hp, Hq. cbn [nsub ngt qnum]. unfold Qltb.
  rewrite negb_true_iff. split.
  - intros H. apply Qnot_le_lt. intros Hle.
    assert (Hb : Qle_bool (q - p) 0 = true).
    { apply Qle_bool_iff. unfold Qminus. rewrite <- (Qplus_opp_r p).
      apply Qplus_le_compat; [exact Hle | apply Qle_refl]. }
    congruence.
  - intros H. destruct (Qle_bool (q - p) 0) eqn:E; [|reflexivity].
    apply Qle_bool_iff in E. exfalso. apply (Qlt_not_le _ _ H).
    assert (E' : (q - p + p <= 0 + p)%Q)
      by (apply Qplus_le_compat; [exact E | apply Qle_refl]).
    assert (E1 : (q - p + p == q)%Q) by ring.
    rewrite E1, Qplus_0_l in E'. exact E'.
Qed.

Section InsertByMeasure.
Context {A : Type} (after : A -> A -> bool) (m : A -> Q) (P : A -> Prop).
Hypothesis after_spec :
  forall x y, P x -> P y -> (after y x = true <-> (m x < m y)%Q).

Lemma sort_insert_split x l :
  P x -> Forall P l ->
  StronglySorted (fun a b => (m a <= m b)%Q) l ->
  exists before behind,
    l = before ++ behind /\
    sort_insert after x l = before ++ x :: behind /\
    Forall (fun y => (m y <= m x)%Q) before /\
    Forall (fun y => (m x < m y)%Q) behind.
Proof.
  intros Hx Hl Hs. induction Hs as [|y l Hs IH Hy]; cbn [sort_insert].
  - exists [], []. repeat split; constructor.
  - inversion Hl as [|? ? Py Pl]; subst.
    destruct (after y x) eqn:E.
    + apply (after_spec x y Hx Py) in E.
      exists [], (y :: l). repeat split; [constructor|].
      constructor; [exact E|].
      eapply Forall_impl; [exact Hy|]. intros z Hz. cbn in Hz.
      eapply Qlt_le_trans; [exact E | exact Hz].
    + assert (Hle : (m y <= m x)%Q).
      { apply Qnot_lt_le. intros H.
        apply (after_spec x y Hx Py) in H. congruence. }
      destruct (IH Pl) as (before & behind & H1 & H2 & H3 & H4).
      exists (y :: before), behind.
      split; [cbn; f_equal; exact H1|].
      split; [cbn; f_equal; exact H2|].
      split; [constructor; assumption | exact H4].
Qed.

Lemma sort_insert_last x l :
  P x -> Forall P l -> Forall (fun y => (m y <= m x)%Q) l ->
  sort_insert after x l = l ++ [x].
Proof.
  intros Hx Hl Hm. induction l as [|y l IH]; cbn [sort_insert];
    [reflexivity|].
  inversion Hl as [|? ? Py Pl]; subst.
  inversion Hm as [|? ? Hy Hm']; subst.
  destruct (after y x) eqn:E.
  - apply (after_spec x y Hx Py) in E.
    exfalso. exact (Qlt_not_le _ _ E Hy).
  - cbn. f_equal. apply IH; assumption.
Qed.

Lemma sort_loop_sorted l : forall acc,
  Forall P (acc ++ l) ->
  StronglySorted (fun a b => (m a <= m b)%Q) (acc ++ l) ->
  fold_left (fun acc x => sort_insert after x acc) l acc = acc ++ l.
Proof.
  induction l as [|x l IH]; intros acc Hp Hs; cbn [fold_left].
  - rewrite app_nil_r. reflexivity.
  - replace (acc ++ x :: l) with ((acc ++ [x]) ++ l) in *
      by (rewrite <- app_assoc; reflexivity).
    rewrite sort_insert_last.
    + apply IH; assumption.
    + apply Forall_app in Hp as [Hp _]. apply Forall_app in Hp as [_ Hp].
      inversion Hp; assumption.
    + apply Forall_app in Hp as [Hp _]. apply Forall_app in Hp as [Hp _].
      exact Hp.
    + apply StronglySorted_app_1_l in Hs.
      apply Forall_forall. intros y Hy.
      apply (StronglySorted_app_1_elem_of _ acc [x] y x Hs Hy).
      apply list_elem_of_singleton. reflexivity.
Qed.

Lemma js_sort_of_sorted l :
  Forall P l -> StronglySorted (fun a b => (m a <= m b)%Q) l ->
  js_sort after l = l.
Proof. intros Hp Hs. exact (sort_loop_sorted l [] Hp Hs). Qed.
End InsertByMeasure.

Lemma add_entry_split date_ms tradeDate amount type now j d :
  in_date_order date_ms (portfolioHistory j) -> date_ms tradeDate = Fin d ->
  let entry :=
    {| h_date := tradeDate; h_balance := currentBalance j;
       h_change := amount; h_type := type; h_timestamp := now |} in
  exists before behind,
    portfolioHistory j = before ++ behind /\
    portfolioHistory
      (Enhanced.addPortfolioHistoryEntry date_ms tradeDate amount type now
         true j)
    = before ++ entry :: behind /\
    Forall (fun e => (entry_day date_ms e <= d)%Q) before /\
    Forall (fun e => (d < entry_day date_ms e)%Q) behind.
Proof.
  intros [Hv Hs] Hd entry.
  cbn [Enhanced.addPortfolioHistoryEntry portfolioHistory].
  unfold js_sort. rewrite fold_left_app. cbn [fold_left].
  fold (js_sort (Enhanced.older_first date_ms) (portfolioHistory j)).
  rewrite (js_sort_of_sorted (Enhanced.older_first date_ms)
             (entry_day date_ms)
             (fun e => valid_day date_ms (h_date e))
             (older_first_spec date_ms) _ Hv Hs).
  assert (Hx : valid_day date_ms (h_date entry)) by (exists d; exact Hd).
  destruct (sort_insert_split (Enhanced.older_first date_ms)
              (entry_day date_ms) (fun e => valid_day date_ms (h_date e))
              (older_first_spec date_ms) entry _ Hx Hv Hs)
    as (before & behind & H1 & H2 & H3 & H4).
  assert (Hday : entry_day date_ms entry = d).
  { unfold entry_day, entry. cbn [h_date]. rewrite Hd. reflexivity. }
  rewrite Hday in H3, H4.
  exists before, behind. auto.
Qed.

Lemma add_entry_in_date_order date_ms tradeDate amount type now ok j :
  in_date_order date_ms (portfolioHistory j) -> valid_day date_ms tradeDate ->
  in_date_order date_ms
    (portfolioHistory
       (Enhanced.addPortfolioHistoryEntry date_ms tradeDate amount type now
          ok j)).
Proof.
  intros Hj Hd. destruct ok; [|exact Hj].
  pose proof Hj as [Hv Hs].
  assert (Hx : valid_day date_ms
                 (h_date {| h_date := tradeDate; h_balance := currentBalance j;
                            h_change := amount; h_type := type;
                            h_timestamp := now |})) by exact Hd.
  cbn [Enhanced.addPortfolioHistoryEntry portfolioHistory].
  split.
  - rewrite js_sort_perm. apply Forall_app. split; [exact Hv|].
    constructor; [exact Hx | constructor].
  - apply (js_sort_sorted (Enhanced.older_first date_ms) (entry_day date_ms)
             (fun e => valid_day date_ms (h_date e))
             (older_first_spec date_ms)).
    apply Forall_app. split; [exact Hv|].
    constructor; [exact Hx | constructor].
Qed.

Lemma enhanced_new_trade_date f now trade pl :
  Enhanced.new_trade f now = Some (trade, pl) ->
  get trade "date" = form_get f "trade-date".
Proof.
  unfold Enhanced.new_trade.
  destruct (upper_of (form_get f "ticker")) as [ticker|]; [|discriminate].
  cbn [mbind option_bind]. intros H.
  apply (f_equal (fun o : option (obj * num) =>
                    match o with
                    | Some (t, _) => get t "date"
                    | None => VUndef
                    end)) in H.
  cbv beta iota in H. rewrite <- H.
  apply get_list_to_map_head.
Qed.

Lemma enhanced_updated_trade_date existingTrade f now trade pl :
  Enhanced.updated_trade existingTrade f now = Some (trade, pl) ->
  get trade "date" = input_value f "edit-trade-date".
Proof.
  unfold Enhanced.updated_trade.
  destruct (upper_of (input_value f "edit-ticker")) as [ticker|];
    [|discriminate].
  cbn [mbind option_bind]. intros H.
  apply (f_equal (fun o : option (obj * num) =>
                    match o with
                    | Some (t, _) => get t "date"
                    | None => VUndef
                    end)) in H.
  cbv beta iota in H. rewrite <- H.
  apply get_union_head.
Qed.

(** X22: the portfolio history of the revision with portfolio history
    stays in ascending order of valid dates.  A new entry goes behind the
    entries of its day and of earlier days and before the entries of later
    days, with the balance of the moment it is written, so the entry of a
    back-dated trade stands before entries that were written earlier;
    and adding or editing a trade with a valid date, the portfolio form
    and a balance update on a valid day, and a load of entries with valid
    dates all keep the order. *)
Theorem X22_history_in_date_order (date_ms : value -> num) (j : journal) :
  in_date_order date_ms (portfolioHistory j) ->
  (forall tradeDate amount type now d,
     date_ms tradeDate = Fin d ->
     exists before behind,
       portfolioHistory j = before ++ behind /\
       portfolioHistory
         (Enhanced.addPortfolioHistoryEntry date_ms tradeDate amount type now
            true j)
       = before
         ++ {| h_date := tradeDate; h_balance := currentBalance j;
               h_change := amount; h_type := type; h_timestamp := now |}
            :: behind /\
       Forall (fun e => (entry_day date_ms e <= d)%Q) before /\
       Forall (fun e => (d < entry_day date_ms e)%Q) behind) /\
  (forall f now add_ok hist_ok,
     valid_day date_ms (form_get f "trade-date") ->
     in_date_order date_ms
       (portfolioHistory
          (Enhanced.handleAddTrade date_ms f now add_ok hist_ok j))) /\
  (forall f now put_ok hist_ok,
     valid_day date_ms (input_value f "edit-trade-date") ->
     in_date_order date_ms
       (portfolioHistory
          (Enhanced.handleEditTradeSubmit date_ms f now put_ok hist_ok j))) /\
  (forall f today now hist_ok,
     valid_day date_ms (VStr today) ->
     in_date_order date_ms
       (portfolioHistory
          (Enhanced.handlePortfolioSettings date_ms f today now hist_ok j)) /\
     in_date_order date_ms
       (portfolioHistory
          (Enhanced.handleBalanceUpdate date_ms f today now hist_ok j))) /\
  (forall settings entries,
     Forall (fun e => valid_day date_ms (h_date e)) entries ->
     in_date_order date_ms
       (portfolioHistory
          (Enhanced.loadPortfolioSettings date_ms settings (Some entries) j))).
Proof.
  intros Hj. repeat apply conj.
  - intros tradeDate amount type now d Hd.
    exact (add_entry_split date_ms tradeDate amount type now j d Hj Hd).
  - intros f now add_ok hist_ok Hd. unfold Enhanced.handleAddTrade.
    destruct (Enhanced.new_trade f now) as [[trade pl]|] eqn:En; [|exact Hj].
    destruct (if add_ok then db_add (db j) trade else None) as [[id d]|];
      [|exact Hj].
    cbv zeta. destruct (nneq pl (Fin 0)); [|exact Hj].
    apply add_entry_in_date_order; [exact Hj|].
    rewrite get_set_ne by discriminate.
    rewrite (enhanced_new_trade_date f now trade pl En). exact Hd.
  - intros f now put_ok hist_ok Hd. unfold Enhanced.handleEditTradeSubmit.
    destruct (db_get (db j) _) as [[existingTrade|]|]; [|exact Hj..].
    destruct (Enhanced.updated_trade existingTrade f now)
      as [[trade pl]|] eqn:Eu; [|exact Hj].
    destruct (if put_ok then db_put (db j) trade else None) as [d|];
      [|exact Hj].
    cbv zeta.
    destruct (nneq _ (Fin 0)); [|exact Hj].
    apply add_entry_in_date_order; [exact Hj|].
    rewrite (enhanced_updated_trade_date existingTrade f now trade pl Eu).
    exact Hd.
  - intros f today now hist_ok Hd. split.
    + unfold Enhanced.handlePortfolioSettings. cbv zeta.
      destruct (nneq _ (Fin 0)); [|exact Hj].
      apply add_entry_in_date_order; [exact Hj | exact Hd].
    + unfold Enhanced.handleBalanceUpdate. cbv zeta.
      destruct (negb _); [exact Hj|].
      apply add_entry_in_date_order; [exact Hj | exact Hd].
  - intros settings entries He. unfold Enhanced.loadPortfolioSettings.
    destruct settings as [found|]; [|exact Hj].
    destruct found as [[c b]|]; cbn [portfolioHistory].
    all: split;
      [ rewrite js_sort_perm; exact He
      | apply (js_sort_sorted (Enhanced.older_first date_ms)
                 (entry_day date_ms)
                 (fun e => valid_day date_ms (h_date e))
                 (older_first_spec date_ms)); exact He ].
Qed.

(** X22, an instance: a balance update on the 1st of March 2024 in a new
    journal. *)
Lemma X22_history_witness :
  in_date_order iso_date_ms
    (portfolioHistory
       (Enhanced.handleBalanceUpdate iso_date_ms
          (list_to_map [("balance-amount", "500")]) "2024-03-01"
          "2024-03-01T10:00:00.000Z" true (new_journal empty_store))).
Proof.
  assert (H0 : in_date_order iso_date_ms
                 (portfolioHistory (new_journal empty_store)))
    by (split; constructor).
  apply (X22_history_in_date_order iso_date_ms (new_journal empty_store) H0).
  eexists. reflexivity.
Defined.

(** *** The charts of the displayed trades *)

Lemma rollup_ext key pl pl' l :
  Forall (fun t => pl t = pl' t) l -> rollup key pl l = rollup key pl' l.
Proof.
  intros H. unfold rollup. generalize (Some [] : option table).
  induction H as [|x l Hx _ IH]; intros acc; cbn [fold_left]; [reflexivity|].
  assert (E : rollup_step key pl acc x = rollup_step key pl' acc x)
    by (unfold rollup_step; rewrite Hx; reflexivity).
  rewrite E. apply IH.
Qed.

Lemma qsum_fin pl l : qsum (fun t => Fin (qof pl t)) l = qsum pl l.
Proof.
  induction l as [|x l IH]; cbn [qsum]; [reflexivity|].
  rewrite IH. reflexivity.
Qed.

Lemma rollup_rolled_numeric key pl l t :
  Forall (fun x => pl x = Fin (qof pl x)) l ->
  rollup key pl l = Some t -> rolled key pl l t.
Proof.
  intros Hl Hr.
  rewrite (rollup_ext key pl (fun t => Fin (qof pl t)) l Hl) in Hr.
  destruct (rollup_rolled key (fun t => Fin (qof pl t))
              (fun t => eq_refl) l t Hr) as (H1 & H2 & H3 & H4).
  split; [exact H1|]. split; [exact H2|]. split.
  - intros k v Hk. destruct (H3 k v Hk) as (q & Hv & Hq & He).
    exists q. split; [exact Hv|]. split; [|exact He].
    unfold bucket in Hq |- *. rewrite qsum_fin in Hq. exact Hq.
  - rewrite qsum_fin in H4. exact H4.
Qed.

Lemma lookup_map {A B} (f : A -> B) (l : list A) i :
  map f l !! i = f <$> l !! i.
Proof. exact (list_lookup_fmap f l i). Qed.

Lemma safe_pl_numeric t : safe_pl t -> numeric_pl t.
Proof. intros (q & Hq & _). exists (Fin q). exact Hq. Qed.

(** X23: the two charts of versions 2.1 to 2.4 that add up the P&L of the
    displayed trades per strategy and per ticker, a missing strategy or
    ticker counting as Unknown, for amounts of the safe range.  No chart
    is drawn exactly when no trade is displayed.  The strategy chart has
    one bar per strategy of a displayed trade; its value is the sum that
    the metrics would take of the trades with that strategy, and it is
    green exactly when that value is not negative.  The ticker chart has
    at most ten slices, of the tickers with the greatest absolute sums in
    descending order, each of the size of that absolute value; a ticker
    is left out only when there are ten slices that are not smaller. *)
Theorem X23_charts_of_the_displayed_trades (j : journal) :
  Forall safe_pl (filteredTrades j) ->
  let strategy := fun t : obj => vor (get t "strategy") (VStr "Unknown") in
  let ticker := fun t : obj => vor (get t "ticker") (VStr "Unknown") in
  let shown := filteredTrades j in
  (V23.createStrategyChart j = Some None <-> shown = []) /\
  (V23.createTopTickersChart j = Some None <-> shown = []) /\
  (V23.createStrategyChart j = None <->
   Exists (fun t => inherited (key_text (strategy t)) = true) shown) /\
  (forall labels data colors,
     V23.createStrategyChart j = Some (Some (labels, data, colors)) ->
     NoDup labels /\ length data = length labels /\
     (forall t, t ∈ shown -> key_text (strategy t) ∈ labels) /\
     (forall i k v,
        labels !! i = Some k -> data !! i = Some v ->
        num_eq v (sum_pl (List.filter (keyed_by strategy k) shown)) /\
        (exists t, t ∈ shown /\ key_text (strategy t) = k) /\
        colors !! i
        = Some (if nge v (Fin 0) then "#00ff88" else "#ff4444"))) /\
  (forall labels data slices,
     V23.createTopTickersChart j = Some (Some (labels, data, slices)) ->
     let sum_of := fun k => sum_pl (List.filter (keyed_by ticker k) shown) in
     slices = map nabs data /\
     (length labels <= 10)%nat /\ length data = length labels /\
     NoDup labels /\
     (forall i k v,
        labels !! i = Some k -> data !! i = Some v ->
        num_eq v (sum_of k) /\
        exists t, t ∈ shown /\ key_text (ticker t) = k) /\
     (forall i i' v w,
        (i <= i')%nat -> data !! i = Some v -> data !! i' = Some w ->
        nge (nabs v) (nabs w) = true) /\
     (forall t,
        t ∈ shown -> key_text (ticker t) ∉ labels ->
        length labels = 10%nat /\
        Forall (fun v => nge (nabs v) (nabs (sum_of (key_text (ticker t))))
                         = true) data)).
Proof.
  intros Hsafe strategy ticker shown.
  assert (Hfin : Forall (fun x => pl_or_0 x = Fin (qof pl_or_0 x)) shown).
  { eapply Forall_impl; [exact Hsafe|]. intros t Ht.
    exact (numeric_pl_fin t (safe_pl_numeric t Ht)). }
  assert (Hlen : (length shown =? 0)%nat = true <-> shown = []).
  { rewrite Nat.eqb_eq. split; [apply nil_length_inv | intros ->; reflexivity]. }
  unfold V23.createStrategyChart, V23.createTopTickersChart.
  fold strategy ticker shown.
  split; [|split; [|split; [|split]]].
  - destruct (length shown =? 0)%nat eqn:El.
    + split; [intros _; exact (proj1 Hlen eq_refl) | reflexivity].
    + split.
      * destruct (rollup strategy pl_or_0 shown); cbn [mbind option_bind];
          discriminate.
      * intros H. pose proof (proj2 Hlen H). discriminate.
  - destruct (length shown =? 0)%nat eqn:El.
    + split; [intros _; exact (proj1 Hlen eq_refl) | reflexivity].
    + split.
      * destruct (rollup ticker pl_or_0 shown); cbn [mbind option_bind];
          discriminate.
      * intros H. pose proof (proj2 Hlen H). discriminate.
  - rewrite <- (rollup_none strategy pl_or_0).
    destruct (length shown =? 0)%nat eqn:El.
    + pose proof (proj1 Hlen eq_refl) as E0. rewrite E0.
      split; discriminate.
    + destruct (rollup strategy pl_or_0 shown);
        cbn [mbind option_bind]; split; congruence.
  - intros labels data colors.
    destruct (length shown =? 0)%nat eqn:El; [discriminate|].
    destruct (rollup strategy pl_or_0 shown) as [t|] eqn:Er;
      cbn [mbind option_bind]; [|discriminate].
    intros [= <- <- <-].
    pose proof (rollup_rolled_numeric strategy pl_or_0 _ _ Hfin Er) as Hr.
    destruct (rolled_chart strategy pl_or_0 _ _ _ Hr (entries_perm t))
      as (H1 & H2 & H3 & H4 & _).
    split; [exact H1|]. split; [exact H2|]. split; [exact H3|].
    intros i k v Hk Hv. destruct (H4 i k v Hk Hv) as [Hkv Hex].
    split.
    + etransitivity; [exact Hkv|].
      exact (reduce_bucket strategy pl_or_0 k shown Hfin).
    + split; [exact Hex|]. rewrite lookup_map, Hv. reflexivity.
  - intros labels data slices.
    destruct (length shown =? 0)%nat eqn:El; [discriminate|].
    destruct (rollup ticker pl_or_0 shown) as [t|] eqn:Er;
      cbn [mbind option_bind]; [|discriminate].
    intros [= <- <- <-].
    split; [reflexivity|].
    exact (top_ten_sums ticker pl_or_0 _ t Hfin
             (rollup_rolled_numeric ticker pl_or_0 _ _ Hfin Er)).
Qed.

Lemma one_trade_journal_safe : Forall safe_pl (filteredTrades one_trade_journal).
Proof.
  apply (Forall_by_map (fun t => get t "net_pl")
           (fun v => exists q, v = VNum (Fin q) /\ (Qabs q <= max_safe)%Q) _
           (map (fun t => get t "net_pl") (filteredTrades one_trade_journal)));
    [reflexivity|].
  assert (E : map (fun t => get t "net_pl") (filteredTrades one_trade_journal)
              = [VNum (Fin (-1))]) by (vm_compute; reflexivity).
  rewrite E. repeat constructor; eexists; (split; [reflexivity | discriminate]).
Qed.

(** X23, an instance: the journal after one trade was added. *)
Lemma X23_charts_witness :
  exists labels data colors,
    V23.createStrategyChart one_trade_journal
    = Some (Some (labels, data, colors)) /\
    NoDup labels /\ length data = length labels.
Proof.
  destruct (V23.createStrategyChart one_trade_journal)
    as [[[[labels data] colors]|]|] eqn:E.
  - exists labels, data, colors. split; [reflexivity|].
    destruct (proj1 (proj2 (proj2 (proj2
                (X23_charts_of_the_displayed_trades one_trade_journal
                   one_trade_journal_safe))))
                labels data colors E)
      as (H1 & H2 & _).
    split; [exact H1 | exact H2].
  - exfalso. vm_compute in E. discriminate.
  - exfalso. vm_compute in E. discriminate.
Defined.
